(** * OPC UA server core: a shallow embedding of the Go sources

    The development follows the packages of the repository:
    - [strings], [strconv]: the few functions of the Go standard library
      the sources call, written after their Go implementation;
    - [ua]: status codes, variant types, NodeIDs (ua/nodeid.go), expanded
      NodeIDs, DataValues (ua/node_class.go);
    - [server]: index ranges ([parseBounds], [readRange], [writeRange]),
      the Read and Write services on one attribute ([readValue],
      [writeValue]), the effective access level of a variable
      ([UserAccessLevel]), monitored-item creation and the project
      manager's state machine (server/project_manager.go).

    A Go [string] is a sequence of bytes: it is a Rocq [string], whose
    characters are the 256 values of [ascii].  Go's [int], [int64],
    [uint32] ... are [Z]; every narrowing the sources perform is written
    out. *)

From Stdlib Require Import ZArith List Bool Lia String Ascii.
From Stdlib Require Import Strings.Byte.
Import ListNotations.

Local Open Scope string_scope.
Local Open Scope Z_scope.

(* ================================================================= *)
(** ** Bytes *)

(** Go's [byte] ([uint8]) is an [ascii]; [uint(b)] and [byte(x)]. *)
Definition Z_of_byte (c : ascii) : Z := Z.of_N (N_of_ascii c).
Definition byte_of_Z (z : Z) : ascii := ascii_of_N (Z.to_N (z mod 256)).

(** The conversions [[]byte(s)] and [string(b)]. *)
Definition bytes_of_string (s : string) : list ascii := list_ascii_of_string s.
Definition string_of_bytes (b : list ascii) : string := string_of_list_ascii b.

(* ================================================================= *)
(** ** Package strings *)

Module strings.

(** [len(s)] *)
Definition len (s : string) : Z := Z.of_nat (String.length s).

(** [strings.HasPrefix(s, prefix)] *)
Definition HasPrefix (s p : string) : bool := String.prefix p s.

(** [strings.Index(s, substr)]: the index of the first instance of
    [substr] in [s], or -1. *)
Fixpoint Index_from (i : Z) (s substr : string) : Z :=
  if String.prefix substr s then i
  else match s with
       | EmptyString => -1
       | String _ s' => Index_from (i + 1) s' substr
       end.

Definition Index (s substr : string) : Z := Index_from 0 s substr.

(** The slice expressions [s[lo:hi]] and [s[lo:]].  The sources only
    slice at indices returned by [Index], which are in range. *)
Definition slice (s : string) (lo hi : Z) : string :=
  String.substring (Z.to_nat lo) (Z.to_nat (hi - lo)) s.

Definition slice_from (s : string) (lo : Z) : string :=
  slice s lo (len s).

(** [strings.Split(s, ",")] for a one-byte separator: the pieces of
    [s] between the separators; always at least one piece. *)
Fixpoint Split (s : string) (sep : ascii) : list string :=
  match s with
  | EmptyString => [EmptyString]
  | String c s' =>
      if Ascii.eqb c sep then EmptyString :: Split s' sep
      else match Split s' sep with
           | [] => [String c EmptyString]
           | p :: ps => String c p :: ps
           end
  end.

(** [strings.IndexByte(s, c) != -1] *)
Fixpoint hasByte (c : ascii) (s : string) : bool :=
  match s with
  | EmptyString => false
  | String a s' => Ascii.eqb a c || hasByte c s'
  end.

(** [strings.Join(elems, sep)] *)
Fixpoint Join (elems : list string) (sep : string) : string :=
  match elems with
  | [] => EmptyString
  | [a] => a
  | a :: rest => a ++ sep ++ Join rest sep
  end.

End strings.

(* ================================================================= *)
(** ** Package strconv *)

Module strconv.

(** The value of a digit in base 10; [None] is strconv's syntax
    error (letters are digits of value 10 and more, which base 10
    rejects, and so is the underscore, accepted in base 0 only). *)
Definition digit10 (c : ascii) : option Z :=
  let v := Z_of_byte c in
  if (48 <=? v) && (v <=? 57) then Some (v - 48) else None.

Definition maxUint64 : Z := 2 ^ 64 - 1.

(** The loop of [strconv.ParseUint(s, 10, bitSize)].  Any error
    (syntax or range) is [None]: every caller in the sources only
    tests [err != nil]. *)
Fixpoint parseUintLoop (s : string) (n maxVal : Z) : option Z :=
  match s with
  | EmptyString => Some n
  | String c s' =>
      match digit10 c with
      | None => None
      | Some d =>
          let cutoff := maxUint64 / 10 + 1 in
          if n >=? cutoff then None
          else
            let n10 := n * 10 in
            let n1 := (n10 + d) mod 2 ^ 64 in
            if (n1 <? n10) || (n1 >? maxVal) then None
            else parseUintLoop s' n1 maxVal
      end
  end.

Definition ParseUint (s : string) (bitSize : Z) : option Z :=
  match s with
  | EmptyString => None
  | _ => parseUintLoop s 0 (2 ^ bitSize - 1)
  end.

(** [strconv.ParseInt(s, 10, bitSize)]: an optional sign, then
    [ParseUint], then the range check of the signed type. *)
Definition ParseInt (s : string) (bitSize : Z) : option Z :=
  match s with
  | EmptyString => None
  | String c s' =>
      let neg := Ascii.eqb c "-" in
      let body := if Ascii.eqb c "+" || neg then s' else s in
      match ParseUint body bitSize with
      | None => None
      | Some un =>
          let cutoff := 2 ^ (bitSize - 1) in
          if negb neg && (un >=? cutoff) then None
          else if neg && (un >? cutoff) then None
          else Some (if neg then - un else un)
      end
  end.

(** The number [strconv.ParseUint(s, 10, bitSize)] returns, with or
    without an error: the value read; 0 next to a syntax error; the
    largest value of the size next to a range error. *)
Fixpoint parseUintValueLoop (s : string) (n maxVal : Z) : Z :=
  match s with
  | EmptyString => n
  | String c s' =>
      match digit10 c with
      | None => 0
      | Some d =>
          let cutoff := maxUint64 / 10 + 1 in
          if n >=? cutoff then maxVal
          else
            let n10 := n * 10 in
            let n1 := (n10 + d) mod 2 ^ 64 in
            if (n1 <? n10) || (n1 >? maxVal) then maxVal
            else parseUintValueLoop s' n1 maxVal
      end
  end.

Definition ParseUintValue (s : string) (bitSize : Z) : Z :=
  match s with
  | EmptyString => 0
  | _ => parseUintValueLoop s 0 (2 ^ bitSize - 1)
  end.

End strconv.

(* ================================================================= *)
(** ** Formatting of unsigned integers (verb [%d] of package fmt) *)

Module fmt.

Definition digit_char (d : Z) : ascii := byte_of_Z (48 + d).

(** The loop of [strconv.FormatUint]: digits are produced from the
    least significant one, in front of what is already there. *)
Fixpoint formatBits (fuel : nat) (u : Z) (acc : string) : string :=
  match fuel with
  | O => acc
  | S fuel' =>
      if u >=? 10 then
        let q := u / 10 in
        formatBits fuel' q (String (digit_char (u - q * 10)) acc)
      else String (digit_char u) acc
  end.

(** A [uint64] has at most 20 decimal digits. *)
Definition FormatUint (u : Z) : string := formatBits 20 u "".

End fmt.

(* ================================================================= *)
(** ** Package unicode/utf8 and the conversions between string and []rune *)

Module utf8.

Definition RuneError : Z := 0xFFFD.
Definition MaxRune : Z := 0x10FFFF.
Definition surrogateMin : Z := 0xD800.
Definition surrogateMax : Z := 0xDFFF.

Definition t2 : Z := 0xC0.
Definition t3 : Z := 0xE0.
Definition t4 : Z := 0xF0.
Definition tx : Z := 0x80.
Definition maskx : Z := 0x3F.
Definition mask2 : Z := 0x1F.
Definition mask3 : Z := 0x0F.
Definition mask4 : Z := 0x07.
Definition locb : Z := 0x80.
Definition hicb : Z := 0xBF.

(** The table [first] with [acceptRanges]: for a leading byte, the
    length of the sequence and the range allowed for the second
    byte; [None] for a byte that starts no sequence ([xx]). ASCII
    bytes are handled before the table is consulted. *)
Definition first (s0 : Z) : option (nat * Z * Z) :=
  if s0 <? 0xC2 then None
  else if s0 <? 0xE0 then Some (2%nat, locb, hicb)
  else if s0 =? 0xE0 then Some (3%nat, 0xA0, hicb)
  else if s0 <? 0xED then Some (3%nat, locb, hicb)
  else if s0 =? 0xED then Some (3%nat, locb, 0x9F)
  else if s0 <? 0xF0 then Some (3%nat, locb, hicb)
  else if s0 =? 0xF0 then Some (4%nat, 0x90, hicb)
  else if s0 <? 0xF4 then Some (4%nat, locb, hicb)
  else if s0 =? 0xF4 then Some (4%nat, locb, 0x8F)
  else None.

Definition cont (c : Z) : bool := (locb <=? c) && (c <=? hicb).

(** [utf8.DecodeRuneInString]: the first rune of [s] and its width;
    [(RuneError, 1)] on an invalid or short sequence. *)
Definition DecodeRuneInString (s : string) : Z * nat :=
  match s with
  | EmptyString => (RuneError, 0%nat)
  | String c0 r0 =>
      let s0 := Z_of_byte c0 in
      if s0 <? 0x80 then (s0, 1%nat)
      else
        match first s0 with
        | None => (RuneError, 1%nat)
        | Some (sz, lo, hi) =>
            match r0 with
            | EmptyString => (RuneError, 1%nat)
            | String c1 r1 =>
                let s1 := Z_of_byte c1 in
                if (s1 <? lo) || (hi <? s1) then (RuneError, 1%nat)
                else if (sz <=? 2)%nat then
                  (Z.lor (Z.shiftl (Z.land s0 mask2) 6) (Z.land s1 maskx), 2%nat)
                else
                  match r1 with
                  | EmptyString => (RuneError, 1%nat)
                  | String c2 r2 =>
                      let s2 := Z_of_byte c2 in
                      if negb (cont s2) then (RuneError, 1%nat)
                      else if (sz <=? 3)%nat then
                        (Z.lor (Z.lor (Z.shiftl (Z.land s0 mask3) 12)
                                      (Z.shiftl (Z.land s1 maskx) 6))
                               (Z.land s2 maskx), 3%nat)
                      else
                        match r2 with
                        | EmptyString => (RuneError, 1%nat)
                        | String c3 _ =>
                            let s3 := Z_of_byte c3 in
                            if negb (cont s3) then (RuneError, 1%nat)
                            else
                              (Z.lor (Z.lor (Z.lor (Z.shiftl (Z.land s0 mask4) 18)
                                                   (Z.shiftl (Z.land s1 maskx) 12))
                                            (Z.shiftl (Z.land s2 maskx) 6))
                                     (Z.land s3 maskx), 4%nat)
                        end
                  end
            end
        end
  end.

Fixpoint drop (n : nat) (s : string) : string :=
  match n, s with
  | S n', String _ s' => drop n' s'
  | _, _ => s
  end.

(** [[]rune(s)]: the runes of [s], one [RuneError] for each byte
    that starts no valid sequence.  Every step consumes a byte, so
    the length of [s] is fuel enough. *)
Fixpoint runesLoop (fuel : nat) (s : string) : list Z :=
  match fuel with
  | O => []
  | S fuel' =>
      match s with
      | EmptyString => []
      | _ => let '(r, size) := DecodeRuneInString s in
             r :: runesLoop fuel' (drop size s)
      end
  end.

Definition runes (s : string) : list Z := runesLoop (String.length s) s.

(** [utf8.AppendRune]: the encoding of one rune; a rune out of range
    or a surrogate half is encoded as [RuneError]. *)
Definition enc3 (r : Z) : string :=
  String (byte_of_Z (Z.lor t3 (Z.shiftr r 12)))
 (String (byte_of_Z (Z.lor tx (Z.land (Z.shiftr r 6) maskx)))
 (String (byte_of_Z (Z.lor tx (Z.land r maskx))) EmptyString)).

Definition EncodeRune (r : Z) : string :=
  if (0 <=? r) && (r <=? 0x7F) then String (byte_of_Z r) EmptyString
  else if (0 <=? r) && (r <=? 0x7FF) then
    String (byte_of_Z (Z.lor t2 (Z.shiftr r 6)))
   (String (byte_of_Z (Z.lor tx (Z.land r maskx))) EmptyString)
  else if (r <? 0) || (MaxRune <? r)
          || ((surrogateMin <=? r) && (r <=? surrogateMax)) then enc3 RuneError
  else if r <=? 0xFFFF then enc3 r
  else
    String (byte_of_Z (Z.lor t4 (Z.shiftr r 18)))
   (String (byte_of_Z (Z.lor tx (Z.land (Z.shiftr r 12) maskx)))
   (String (byte_of_Z (Z.lor tx (Z.land (Z.shiftr r 6) maskx)))
   (String (byte_of_Z (Z.lor tx (Z.land r maskx))) EmptyString))).

(** [string(rs)] for [rs []rune]. *)
Fixpoint string_of_runes (rs : list Z) : string :=
  match rs with
  | [] => EmptyString
  | r :: rs' => EncodeRune r ++ string_of_runes rs'
  end.

End utf8.

(* ================================================================= *)
(** ** Package encoding/base64, [StdEncoding] *)

Module base64.

Definition encodeStd : string :=
  "ABCDEFGHIJKLMNOPQRSTUVWXYZabcdefghijklmnopqrstuvwxyz0123456789+/".

Definition padChar : ascii := "="%char.

(** [enc.encode[v]] *)
Definition encode (v : Z) : ascii :=
  match String.get (Z.to_nat v) encodeStd with
  | Some c => c
  | None => padChar
  end.

(** [enc.decodeMap[c]]: the position of [c] in the alphabet, 0xFF
    for a byte outside of it. *)
Definition decodeMap (c : ascii) : Z :=
  let i := strings.Index encodeStd (String c EmptyString) in
  if i =? -1 then 0xFF else i.

Definition sextet (val shift : Z) : ascii :=
  encode (Z.land (Z.shiftr val shift) 0x3F).

(** [StdEncoding.EncodeToString(src)] *)
Fixpoint EncodeToString (src : list ascii) : string :=
  match src with
  | [] => EmptyString
  | [a] =>
      let val := Z.shiftl (Z_of_byte a) 16 in
      String (sextet val 18) (String (sextet val 12)
     (String padChar (String padChar EmptyString)))
  | [a; b] =>
      let val := Z.lor (Z.shiftl (Z_of_byte a) 16) (Z.shiftl (Z_of_byte b) 8) in
      String (sextet val 18) (String (sextet val 12)
     (String (sextet val 6) (String padChar EmptyString)))
  | a :: b :: c :: rest =>
      let val := Z.lor (Z.lor (Z.shiftl (Z_of_byte a) 16)
                              (Z.shiftl (Z_of_byte b) 8)) (Z_of_byte c) in
      String (sextet val 18) (String (sextet val 12)
     (String (sextet val 6) (String (sextet val 0) (EncodeToString rest))))
  end.

(** The decoder skips carriage returns and line feeds wherever they
    stand. *)
Fixpoint stripNewlines (s : string) : string :=
  match s with
  | EmptyString => EmptyString
  | String c s' =>
      if Ascii.eqb c "010" || Ascii.eqb c "013" then stripNewlines s'
      else String c (stripNewlines s')
  end.

Definition quantum (a b c d : Z) : Z :=
  Z.lor (Z.lor (Z.lor (Z.shiftl a 18) (Z.shiftl b 12)) (Z.shiftl c 6)) d.

(** [decodeQuantum], repeated: four characters of the alphabet give
    three bytes; padding is accepted in the last quantum only, and
    nothing may follow it.  [None] is [CorruptInputError]. *)
Fixpoint decodeQuanta (s : string) : option (list ascii) :=
  match s with
  | EmptyString => Some []
  | String a (String b (String c (String d rest))) =>
      let va := decodeMap a in
      let vb := decodeMap b in
      let vc := decodeMap c in
      let vd := decodeMap d in
      if (va =? 0xFF) || (vb =? 0xFF) then None
      else if vc =? 0xFF then
        if Ascii.eqb c padChar && Ascii.eqb d padChar && String.eqb rest "" then
          let val := quantum va vb 0 0 in
          Some [byte_of_Z (Z.shiftr val 16)]
        else None
      else if vd =? 0xFF then
        if Ascii.eqb d padChar && String.eqb rest "" then
          let val := quantum va vb vc 0 in
          Some [byte_of_Z (Z.shiftr val 16); byte_of_Z (Z.shiftr val 8)]
        else None
      else
        let val := quantum va vb vc vd in
        match decodeQuanta rest with
        | None => None
        | Some out =>
            Some (byte_of_Z (Z.shiftr val 16) :: byte_of_Z (Z.shiftr val 8)
                  :: byte_of_Z val :: out)
        end
  | _ => None
  end.

(** [StdEncoding.DecodeString(s)] *)
Definition DecodeString (s : string) : option (list ascii) :=
  decodeQuanta (stripNewlines s).

End base64.

(* ================================================================= *)
(** ** Package github.com/google/uuid *)

Module uuid.

(** [type UUID [16]byte] *)
Definition UUID := list ascii.

Definition hextable : string := "0123456789abcdef".

Definition hexdigit (v : Z) : ascii :=
  match String.get (Z.to_nat v) hextable with
  | Some c => c
  | None => "0"%char
  end.

(** [hex.Encode] *)
Fixpoint hexEncode (src : list ascii) : string :=
  match src with
  | [] => EmptyString
  | b :: src' =>
      String (hexdigit (Z.shiftr (Z_of_byte b) 4))
             (String (hexdigit (Z.land (Z_of_byte b) 0x0F)) (hexEncode src'))
  end.

Definition sub (u : UUID) (lo hi : nat) : list ascii :=
  firstn (hi - lo) (skipn lo u).

(** [UUID.String]: xxxxxxxx-xxxx-xxxx-xxxx-xxxxxxxxxxxx *)
Definition String_ (u : UUID) : string :=
  hexEncode (sub u 0 4) ++ "-" ++ hexEncode (sub u 4 6) ++ "-" ++
  hexEncode (sub u 6 8) ++ "-" ++ hexEncode (sub u 8 10) ++ "-" ++
  hexEncode (sub u 10 16).

(** The table [xvalues]: the value of a hexadecimal digit, or 255. *)
Definition xvalues (c : ascii) : Z :=
  let v := Z_of_byte c in
  if (48 <=? v) && (v <=? 57) then v - 48
  else if (65 <=? v) && (v <=? 70) then v - 65 + 10
  else if (97 <=? v) && (v <=? 102) then v - 97 + 10
  else 255.

(** [xtob(x1, x2)] *)
Definition xtob (x1 x2 : ascii) : option ascii :=
  let b1 := xvalues x1 in
  let b2 := xvalues x2 in
  if negb (b1 =? 255) && negb (b2 =? 255)
  then Some (byte_of_Z (Z.lor (Z.shiftl b1 4) b2))
  else None.

Definition at_ (s : string) (i : nat) : ascii :=
  match String.get i s with
  | Some c => c
  | None => zero
  end.

(** The loop [for i, x := range [...]int{...}] of [Parse]. *)
Fixpoint xtobAll (s : string) (offsets : list nat) : option (list ascii) :=
  match offsets with
  | [] => Some []
  | x :: offsets' =>
      match xtob (at_ s x) (at_ s (x + 1)) with
      | None => None
      | Some v =>
          match xtobAll s offsets' with
          | None => None
          | Some vs => Some (v :: vs)
          end
      end
  end.

Definition toLower (c : ascii) : ascii :=
  let v := Z_of_byte c in
  if (65 <=? v) && (v <=? 90) then byte_of_Z (v + 32) else c.

Fixpoint mapString (f : ascii -> ascii) (s : string) : string :=
  match s with
  | EmptyString => EmptyString
  | String c s' => String (f c) (mapString f s')
  end.

(** [strings.EqualFold] against a constant of lower-case letters. *)
Definition EqualFold (s t : string) : bool :=
  String.eqb (mapString toLower s) (mapString toLower t).

Definition dashed (s : string) : option UUID :=
  if negb (Ascii.eqb (at_ s 8) "-") || negb (Ascii.eqb (at_ s 13) "-")
     || negb (Ascii.eqb (at_ s 18) "-") || negb (Ascii.eqb (at_ s 23) "-")
  then None
  else xtobAll s [0; 2; 4; 6; 9; 11; 14; 16; 19; 21; 24; 26; 28; 30; 32; 34]%nat.

(** [uuid.Parse(s)]; [None] is an error. *)
Definition Parse (s : string) : option UUID :=
  let n := String.length s in
  if (n =? 36)%nat then dashed s
  else if (n =? 36 + 9)%nat then
    if negb (EqualFold (strings.slice s 0 9) "urn:uuid:") then None
    else dashed (strings.slice_from s 9)
  else if (n =? 36 + 2)%nat then dashed (strings.slice_from s 1)
  else if (n =? 32)%nat then
    xtobAll s [0; 2; 4; 6; 8; 10; 12; 14; 16; 18; 20; 22; 24; 26; 28; 30]%nat
  else None.

End uuid.

(* ================================================================= *)
(** ** Package ua: status codes *)

Module ua.

(** A StatusCode is a [uint32]. The constants of the package are not
    among the sources at hand; they carry the numeric codes that
    OPC UA assigns to these names. *)
Definition StatusCode := Z.

Definition Good : StatusCode := 0.
Definition BadUserAccessDenied : StatusCode := 0x801F0000.
Definition BadNodeIDUnknown : StatusCode := 0x80340000.
Definition BadAttributeIDInvalid : StatusCode := 0x80350000.
Definition BadIndexRangeInvalid : StatusCode := 0x80360000.
Definition BadIndexRangeNoData : StatusCode := 0x80370000.
Definition BadDataEncodingInvalid : StatusCode := 0x80380000.
Definition BadNotReadable : StatusCode := 0x803A0000.
Definition BadNotWritable : StatusCode := 0x803B0000.
Definition BadOutOfRange : StatusCode := 0x803C0000.
Definition BadFilterNotAllowed : StatusCode := 0x80450000.
Definition BadTypeMismatch : StatusCode := 0x80740000.

(** [StatusCode.IsBad]: the severity bit. *)
Definition IsBad (c : StatusCode) : bool :=
  negb (Z.land c 0x80000000 =? 0).


(* --------------------------------------------------------------- *)
(** *** Variant types (ua/variant.go) *)

Definition VariantTypeNull : Z := 0.
Definition VariantTypeBoolean : Z := 1.
Definition VariantTypeSByte : Z := 2.
Definition VariantTypeByte : Z := 3.
Definition VariantTypeInt16 : Z := 4.
Definition VariantTypeUInt16 : Z := 5.
Definition VariantTypeInt32 : Z := 6.
Definition VariantTypeUInt32 : Z := 7.
Definition VariantTypeInt64 : Z := 8.
Definition VariantTypeUInt64 : Z := 9.
Definition VariantTypeFloat : Z := 10.
Definition VariantTypeDouble : Z := 11.
Definition VariantTypeString : Z := 12.
Definition VariantTypeDateTime : Z := 13.
Definition VariantTypeGUID : Z := 14.
Definition VariantTypeByteString : Z := 15.
Definition VariantTypeXMLElement : Z := 16.
Definition VariantTypeNodeID : Z := 17.
Definition VariantTypeExpandedNodeID : Z := 18.
Definition VariantTypeStatusCode : Z := 19.
Definition VariantTypeQualifiedName : Z := 20.
Definition VariantTypeLocalizedText : Z := 21.
Definition VariantTypeExtensionObject : Z := 22.
Definition VariantTypeDataValue : Z := 23.
Definition VariantTypeVariant : Z := 24.
Definition VariantTypeDiagnosticInfo : Z := 25.

(* --------------------------------------------------------------- *)
(** *** Constants of the package that are not among the sources *)

(** Modelled from the spec: the value ranks "Scalar | OneDimension |
    OneOrMore | ScalarOrOneDimension | Any" of a VariableNode; the
    declarations are missing, the numbers are those of OPC UA. *)
Definition ValueRankScalarOrOneDimension : Z := -3.
Definition ValueRankAny : Z := -2.
Definition ValueRankScalar : Z := -1.
Definition ValueRankOneOrMoreDimensions : Z := 0.
Definition ValueRankOneDimension : Z := 1.

(** Modelled from the spec: the bits of the AccessLevel mask
    ("CurrentRead", "CurrentWrite", history access); the declarations
    are missing, the numbers are those of OPC UA. *)
Definition AccessLevelsCurrentRead : Z := 1.
Definition AccessLevelsCurrentWrite : Z := 2.
Definition AccessLevelsHistoryRead : Z := 4.

(** Modelled from the spec: the permission bits of a role
    ("Browse", "ReadRolePermissions", "WriteHistorizing", "Read",
    "Write", "ReadHistory", "ReceiveEvents"); the declarations are
    missing, the numbers are those of OPC UA. *)
Definition PermissionTypeBrowse : Z := 1.
Definition PermissionTypeWriteHistorizing : Z := 16.
Definition PermissionTypeRead : Z := 32.
Definition PermissionTypeWrite : Z := 64.
Definition PermissionTypeReadHistory : Z := 128.
Definition PermissionTypeReceiveEvents : Z := 2048.

(** Modelled from the spec: the attribute identifiers the services
    dispatch on; the declarations are missing, the numbers are those
    of OPC UA. *)
Definition AttributeIDNodeID : Z := 1.
Definition AttributeIDNodeClass : Z := 2.
Definition AttributeIDBrowseName : Z := 3.
Definition AttributeIDDisplayName : Z := 4.
Definition AttributeIDDescription : Z := 5.
Definition AttributeIDEventNotifier : Z := 12.
Definition AttributeIDValue : Z := 13.
Definition AttributeIDDataType : Z := 14.
Definition AttributeIDValueRank : Z := 15.
Definition AttributeIDArrayDimensions : Z := 16.
Definition AttributeIDAccessLevel : Z := 17.
Definition AttributeIDUserAccessLevel : Z := 18.
Definition AttributeIDMinimumSamplingInterval : Z := 19.
Definition AttributeIDHistorizing : Z := 20.
Definition AttributeIDRolePermissions : Z := 24.
Definition AttributeIDUserRolePermissions : Z := 25.

(** Modelled from the spec: "DeadbandType" of a DataChangeFilter,
    where None is the absence of a deadband; the declaration is
    missing. *)
Definition DeadbandTypeNone : Z := 0.

(** Modelled from the spec: the "SubscribeToEvents" flag of the
    EventNotifier byte; the declaration is missing, the number is
    that of OPC UA. *)
Definition EventNotifierSubscribeToEvents : Z := 1.

(* --------------------------------------------------------------- *)
(** *** NodeID (ua/nodeid.go) *)

(** Modelled from the spec: the tag of the "variants {numeric u32,
    string, GUID, opaque bytes}" of a NodeId; the declaration of
    [IDType] is missing. *)
Inductive IDType := IDTypeNumeric | IDTypeString | IDTypeGUID | IDTypeOpaque.

(** [type ByteString string] *)
Definition ByteString := string.

(** The four structs that implement the interface [NodeID]; each has
    the fields [IDType], [NamespaceIndex] and [ID]. The nil interface
    is [None] of [option NodeID]. *)
Inductive NodeID :=
| NodeIDNumeric (idType : IDType) (namespaceIndex : Z) (id : Z)
| NodeIDString (idType : IDType) (namespaceIndex : Z) (id : string)
| NodeIDGUID (idType : IDType) (namespaceIndex : Z) (id : uuid.UUID)
| NodeIDOpaque (idType : IDType) (namespaceIndex : Z) (id : ByteString).

Definition NewNodeIDNumeric (ns id : Z) : NodeID := NodeIDNumeric IDTypeNumeric ns id.
Definition NewNodeIDString (ns : Z) (id : string) : NodeID := NodeIDString IDTypeString ns id.
Definition NewNodeIDGUID (ns : Z) (id : uuid.UUID) : NodeID := NodeIDGUID IDTypeGUID ns id.
Definition NewNodeIDOpaque (ns : Z) (id : ByteString) : NodeID := NodeIDOpaque IDTypeOpaque ns id.

Definition GetIDType (n : NodeID) : IDType :=
  match n with
  | NodeIDNumeric t _ _ | NodeIDString t _ _ | NodeIDGUID t _ _ | NodeIDOpaque t _ _ => t
  end.

Definition GetNamespaceIndex (n : NodeID) : Z :=
  match n with
  | NodeIDNumeric _ ns _ | NodeIDString _ ns _ | NodeIDGUID _ ns _ | NodeIDOpaque _ ns _ => ns
  end.

(** The four methods [String]. *)
Definition String_ (n : NodeID) : string :=
  match n with
  | NodeIDNumeric _ ns id =>
      if ns =? 0 then "i=" ++ fmt.FormatUint id
      else "ns=" ++ fmt.FormatUint ns ++ ";i=" ++ fmt.FormatUint id
  | NodeIDString _ ns id =>
      if ns =? 0 then "s=" ++ id
      else "ns=" ++ fmt.FormatUint ns ++ ";s=" ++ id
  | NodeIDGUID _ ns id =>
      if ns =? 0 then "g=" ++ uuid.String_ id
      else "ns=" ++ fmt.FormatUint ns ++ ";g=" ++ uuid.String_ id
  | NodeIDOpaque _ ns id =>
      if ns =? 0 then "b=" ++ base64.EncodeToString (bytes_of_string id)
      else "ns=" ++ fmt.FormatUint ns ++ ";b=" ++ base64.EncodeToString (bytes_of_string id)
  end.

Definition uint16 (z : Z) : Z := z mod 2 ^ 16.
Definition uint32 (z : Z) : Z := z mod 2 ^ 32.

(** The [switch] of [ParseNodeIDString], once the namespace is read. *)
Definition parseNodeIDBody (ns : Z) (s : string) : option NodeID :=
  if strings.HasPrefix s "i=" then
    match strconv.ParseUint (strings.slice_from s 2) 32 with
    | None => None
    | Some id =>
        if (id =? 0) && (ns =? 0) then None
        else Some (NewNodeIDNumeric (uint16 ns) (uint32 id))
    end
  else if strings.HasPrefix s "s=" then
    Some (NewNodeIDString (uint16 ns) (strings.slice_from s 2))
  else if strings.HasPrefix s "g=" then
    match uuid.Parse (strings.slice_from s 2) with
    | None => None
    | Some id => Some (NewNodeIDGUID (uint16 ns) id)
    end
  else if strings.HasPrefix s "b=" then
    match base64.DecodeString (strings.slice_from s 2) with
    | None => None
    | Some id => Some (NewNodeIDOpaque (uint16 ns) (string_of_bytes id))
    end
  else None.

(** [ParseNodeIDString(s)]; [None] is the nil NodeID. *)
Definition ParseNodeIDString (s : string) : option NodeID :=
  if strings.HasPrefix s "ns=" then
    let pos := strings.Index s ";" in
    if pos =? -1 then None
    else
      match strconv.ParseUint (strings.slice s 3 pos) 16 with
      | None => None
      | Some ns => parseNodeIDBody ns (strings.slice_from s (pos + 1))
      end
  else parseNodeIDBody 0 s.

(** [ParseNodeID(v)] at a [v] of dynamic type [string], the only
    way [ParseExpandedNodeID] calls it. *)
Definition ParseNodeID (v : string) : option NodeID := ParseNodeIDString v.

(* --------------------------------------------------------------- *)
(** *** ExpandedNodeID *)

Record ExpandedNodeID := mkExpandedNodeID {
  IdType : IDType;
  ServerIndex : Z;
  NamespaceURI : string;
  NodeID_ : option NodeID
}.

Definition NilExpandedNodeID : ExpandedNodeID :=
  mkExpandedNodeID IDTypeNumeric 0 "" None.

(** A call either returns or panics. *)
Inductive result (A : Type) :=
| Returns (a : A)
| Panics (reason : string).
Arguments Returns {A} a.
Arguments Panics {A} reason.

(** The part of [ParseExpandedNodeID] after the server index: the
    namespace URI, then the NodeID.  [nodeId.GetIDType()] is a method
    call on an interface value: on the nil interface it panics. *)
Definition parseExpandedNodeIDTail (svr : Z) (s : string) : result ExpandedNodeID :=
  let after_nsu : option (string * string) :=
    if strings.HasPrefix s "nsu=" then
      let pos := strings.Index s ";" in
      if pos =? -1 then None
      else Some (strings.slice s 4 pos, strings.slice_from s (pos + 1))
    else Some ("", s) in
  match after_nsu with
  | None => Returns NilExpandedNodeID
  | Some (nsu, s) =>
      let nodeId := ParseNodeID s in
      match nodeId with
      | None => Panics "invalid memory address or nil pointer dereference"
      | Some n => Returns (mkExpandedNodeID (GetIDType n) (uint32 svr) nsu nodeId)
      end
  end.

(** [ParseExpandedNodeID(s)] *)
Definition ParseExpandedNodeID (s : string) : result ExpandedNodeID :=
  if strings.HasPrefix s "svr=" then
    let pos := strings.Index s ";" in
    if pos =? -1 then Returns NilExpandedNodeID
    else
      match strconv.ParseUint (strings.slice s 4 pos) 32 with
      | None => Returns NilExpandedNodeID
      | Some svr => parseExpandedNodeIDTail svr (strings.slice_from s (pos + 1))
      end
  else parseExpandedNodeIDTail 0 s.


(* --------------------------------------------------------------- *)
(** *** Variant and DataValue (ua/variant.go, ua/node_class.go) *)

(** [time.Time]: an instant, as a number; the zero [time.Time{}] is 0. *)
Definition Time := Z.

Record QualifiedName := mkQualifiedName {
  QualifiedName_NamespaceIndex : Z;
  QualifiedName_Name : string
}.

Record LocalizedText := mkLocalizedText {
  LocalizedText_Text : string;
  LocalizedText_Locale : string
}.

(** [type XMLElement string] *)
Definition XMLElement := string.

(** An ExtensionObject is any encodable structure and a
    DiagnosticInfo is a structure of the package; no function below
    looks inside one: each is kept as its encoding. *)
Definition ExtensionObject := string.
Definition DiagnosticInfo := string.

(** [type Variant interface{}]: one constructor for each dynamic type
    the type switches of the services distinguish.  Numbers are [Z];
    a [float32] or [float64] is its bit pattern. *)
#[local] Unset Elimination Schemes.
Inductive Variant :=
| nil_
| bool_ (v : bool)
| int8_ (v : Z)
| uint8_ (v : ascii)
| int16_ (v : Z)
| uint16_ (v : Z)
| int32_ (v : Z)
| uint32_ (v : Z)
| int64_ (v : Z)
| uint64_ (v : Z)
| float32_ (v : Z)
| float64_ (v : Z)
| string_ (v : string)
| Time_ (v : Time)
| UUID_ (v : uuid.UUID)
| ByteString_ (v : ByteString)
| XMLElement_ (v : XMLElement)
| NodeID_v (v : NodeID)
| ExpandedNodeID_ (v : ExpandedNodeID)
| StatusCode_ (v : StatusCode)
| QualifiedName_ (v : QualifiedName)
| LocalizedText_ (v : LocalizedText)
| ExtensionObject_ (v : ExtensionObject)
| DataValue_ (v : DataValue)
| DiagnosticInfo_ (v : DiagnosticInfo)
| bools (v : list bool)
| int8s (v : list Z)
| uint8s (v : list ascii)
| int16s (v : list Z)
| uint16s (v : list Z)
| int32s (v : list Z)
| uint32s (v : list Z)
| int64s (v : list Z)
| uint64s (v : list Z)
| float32s (v : list Z)
| float64s (v : list Z)
| strings_ (v : list string)
| Times (v : list Time)
| UUIDs (v : list uuid.UUID)
| ByteStrings (v : list ByteString)
| XMLElements (v : list XMLElement)
| NodeIDs (v : list NodeID)
| ExpandedNodeIDs (v : list ExpandedNodeID)
| StatusCodes (v : list StatusCode)
| QualifiedNames (v : list QualifiedName)
| LocalizedTexts (v : list LocalizedText)
| ExtensionObjects (v : list ExtensionObject)
| DataValues (v : list DataValue)
| Variants (v : list Variant)
| DiagnosticInfos (v : list DiagnosticInfo)
with DataValue :=
| NewDataValue (value : Variant) (status : StatusCode)
               (sourceTimestamp : Time) (sourcePicoseconds : Z)
               (serverTimestamp : Time) (serverPicoseconds : Z).
#[local] Set Elimination Schemes.

Definition Value (d : DataValue) : Variant :=
  let 'NewDataValue v _ _ _ _ _ := d in v.
Definition StatusCodeOf (d : DataValue) : StatusCode :=
  let 'NewDataValue _ st _ _ _ _ := d in st.
Definition SourceTimestamp (d : DataValue) : Time :=
  let 'NewDataValue _ _ t _ _ _ := d in t.
Definition SourcePicoseconds (d : DataValue) : Z :=
  let 'NewDataValue _ _ _ p _ _ := d in p.
Definition ServerTimestamp (d : DataValue) : Time :=
  let 'NewDataValue _ _ _ _ t _ := d in t.
Definition ServerPicoseconds (d : DataValue) : Z :=
  let 'NewDataValue _ _ _ _ _ p := d in p.

(** [var NilDataValue = DataValue{}] *)
Definition NilDataValue : DataValue := NewDataValue nil_ 0 0 0 0 0.

(* --------------------------------------------------------------- *)
(** *** Comparison of NodeIDs, role permissions *)

Definition IDType_eqb (a b : IDType) : bool :=
  match a, b with
  | IDTypeNumeric, IDTypeNumeric | IDTypeString, IDTypeString
  | IDTypeGUID, IDTypeGUID | IDTypeOpaque, IDTypeOpaque => true
  | _, _ => false
  end.

(** [a == b] on two interface values of type [NodeID]: the same
    struct type and equal fields. *)
Definition NodeID_eqb (a b : NodeID) : bool :=
  match a, b with
  | NodeIDNumeric t1 ns1 id1, NodeIDNumeric t2 ns2 id2 =>
      IDType_eqb t1 t2 && (ns1 =? ns2) && (id1 =? id2)
  | NodeIDString t1 ns1 id1, NodeIDString t2 ns2 id2 =>
      IDType_eqb t1 t2 && (ns1 =? ns2) && String.eqb id1 id2
  | NodeIDGUID t1 ns1 id1, NodeIDGUID t2 ns2 id2 =>
      IDType_eqb t1 t2 && (ns1 =? ns2)
      && String.eqb (string_of_bytes id1) (string_of_bytes id2)
  | NodeIDOpaque t1 ns1 id1, NodeIDOpaque t2 ns2 id2 =>
      IDType_eqb t1 t2 && (ns1 =? ns2) && String.eqb id1 id2
  | _, _ => false
  end.

(** ua/role_permission_type.go *)
Record RolePermissionType := mkRolePermissionType {
  RoleID : NodeID;
  Permissions : Z
}.

(** The requests of the Read and Write services on one attribute. *)
Record ReadValueID := mkReadValueID {
  rv_NodeID : NodeID;
  rv_AttributeID : Z;
  rv_IndexRange : string;
  rv_DataEncoding : QualifiedName
}.

Record WriteValue := mkWriteValue {
  wv_NodeID : NodeID;
  wv_AttributeID : Z;
  wv_IndexRange : string;
  wv_Value : DataValue
}.

(* --------------------------------------------------------------- *)
(** *** ExpandedNodeID and the table of namespace URIs *)

(** The zero value of [IDType], the one a struct literal that sets
    no [IdType] has.  Modelled from the spec: the declaration of
    [IDType] is missing; numeric is the first of the "variants
    {numeric u32, string, GUID, opaque bytes}", as in
    [NilExpandedNodeID]. *)
Definition zeroIDType : IDType := IDTypeNumeric.

(** [NewExpandedNodeID(nodeID)]: [nodeID.GetIDType()] panics on the
    nil interface. *)
Definition NewExpandedNodeID (nodeID : option NodeID) : result ExpandedNodeID :=
  match nodeID with
  | None => Panics "invalid memory address or nil pointer dereference"
  | Some n => Returns (mkExpandedNodeID (GetIDType n) 0 "" nodeID)
  end.

(** [ExpandedNodeID.String()] *)
Definition ExpandedNodeID_String (n : ExpandedNodeID) : string :=
  let b := "" in
  let b := if ServerIndex n >? 0
           then b ++ "svr=" ++ fmt.FormatUint (ServerIndex n) ++ ";" else b in
  let b := if strings.len (NamespaceURI n) >? 0
           then b ++ "nsu=" ++ NamespaceURI n ++ ";" else b in
  match NodeID_ n with
  | Some n2 => b ++ String_ n2
  | None => b ++ "i=0"
  end.

(** The loop [for i, uri := range namespaceURIs] of [ToNodeID]: the
    first index at which the URI is found. *)
Fixpoint findURI (i : Z) (namespaceURIs : list string) (uri : string) : option Z :=
  match namespaceURIs with
  | [] => None
  | u :: rest => if String.eqb u uri then Some i else findURI (i + 1) rest uri
  end.

(** [ToNodeID(n, namespaceURIs)] *)
Definition ToNodeID (n : ExpandedNodeID) (namespaceURIs : list string)
  : option NodeID :=
  if String.eqb (NamespaceURI n) "" then NodeID_ n
  else
    match findURI 0 namespaceURIs (NamespaceURI n) with
    | None => None
    | Some i =>
        let ns := uint16 i in
        match NodeID_ n with
        | Some (NodeIDNumeric _ _ id) => Some (NewNodeIDNumeric ns id)
        | Some (NodeIDString _ _ id) => Some (NewNodeIDString ns id)
        | Some (NodeIDGUID _ _ id) => Some (NewNodeIDGUID ns id)
        | Some (NodeIDOpaque _ _ id) => Some (NewNodeIDOpaque ns id)
        | None => None
        end
    end.

(** [namespaceURIs[i]]; the one place that indexes the table does it
    below its length. *)
Definition uriAt (namespaceURIs : list string) (i : Z) : string :=
  nth (Z.to_nat i) namespaceURIs "".

(** [ToExpandedNodeID(n, namespaceURIs)]: the four cases of the type
    switch are the same text. *)
Definition ToExpandedNodeID (n : option NodeID) (namespaceURIs : list string)
  : ExpandedNodeID :=
  match n with
  | Some n2 =>
      let ns := GetNamespaceIndex n2 in
      if (ns >? 0) && (ns <? uint16 (Z.of_nat (List.length namespaceURIs)))
      then mkExpandedNodeID (GetIDType n2) 0 (uriAt namespaceURIs ns) n
      else mkExpandedNodeID zeroIDType 0 "" n
  | None => NilExpandedNodeID
  end.

(* --------------------------------------------------------------- *)
(** *** QualifiedName (ua/qualified_name.go) *)

(** [ParseQualifiedName(s)]: [ns, err := strconv.ParseUint(...)]
    assigns the declared [ns], so the number returned next to an
    error is the namespace index of the result. *)
Definition ParseQualifiedName (s : string) : QualifiedName :=
  let pos := strings.Index s ":" in
  if pos =? -1 then mkQualifiedName (uint16 0) s
  else
    let ns := strconv.ParseUintValue (strings.slice s 0 pos) 16 in
    match strconv.ParseUint (strings.slice s 0 pos) 16 with
    | None => mkQualifiedName (uint16 ns) s
    | Some _ => mkQualifiedName (uint16 ns) (strings.slice_from s (pos + 1))
    end.

(** [ParseBrowsePath(s)] *)
Definition ParseBrowsePath (s : string) : list QualifiedName :=
  if strings.len s =? 0 then []
  else map ParseQualifiedName (strings.Split s "/").

(** [QualifiedName.String()] *)
Definition QualifiedName_String (a : QualifiedName) : string :=
  fmt.FormatUint (QualifiedName_NamespaceIndex a) ++ ":" ++ QualifiedName_Name a.

(* --------------------------------------------------------------- *)
(** *** The other bits of an access level *)

(** Modelled from the spec: the access level "None" and the bits of
    an access level above HistoryRead; the declarations are missing,
    the numbers are those of OPC UA. *)
Definition AccessLevelsNone : Z := 0.
Definition AccessLevelsHistoryWrite : Z := 8.
Definition AccessLevelsSemanticChange : Z := 16.
Definition AccessLevelsStatusWrite : Z := 32.
Definition AccessLevelsTimestampWrite : Z := 64.

(* --------------------------------------------------------------- *)
(** *** References and browse paths *)

(** Modelled from the spec: three more status codes whose
    declarations are missing, with the numbers of OPC UA. *)
Definition BadNothingToDo : StatusCode := 0x800F0000.
Definition BadBrowseNameInvalid : StatusCode := 0x80600000.
Definition BadNoMatch : StatusCode := 0x806F0000.

(** [math.MaxUint32] *)
Definition MaxUint32 : Z := 4294967295.

(** ua/reference.go; an interface value of type [NodeID] may be nil. *)
Record Reference := mkReference {
  ref_ReferenceTypeID : option NodeID;
  ref_IsInverse : bool;
  ref_TargetID : ExpandedNodeID
}.

(** Modelled from the spec: the structures of a browse path, whose
    declarations are missing, with the fields that the service
    TranslateBrowsePathsToNodeIds names. *)
Record RelativePathElement := mkRelativePathElement {
  rpe_ReferenceTypeID : option NodeID;
  rpe_IsInverse : bool;
  rpe_IncludeSubtypes : bool;
  rpe_TargetName : QualifiedName
}.

Record BrowsePathTarget := mkBrowsePathTarget {
  TargetID : ExpandedNodeID;
  RemainingPathIndex : Z
}.

Record BrowsePath := mkBrowsePath {
  StartingNode : option NodeID;
  RelativePath_Elements : list RelativePathElement
}.

Record BrowsePathResult := mkBrowsePathResult {
  bpr_StatusCode : StatusCode;
  bpr_Targets : list BrowsePathTarget
}.

(** [a == b] on two interface values of type [NodeID], either of
    which may be nil. *)
Definition NodeID_same (a b : option NodeID) : bool :=
  match a, b with
  | None, None => true
  | Some x, Some y => NodeID_eqb x y
  | _, _ => false
  end.

(** [a == b] on two QualifiedNames. *)
Definition QualifiedName_eqb (a b : QualifiedName) : bool :=
  (QualifiedName_NamespaceIndex a =? QualifiedName_NamespaceIndex b)
  && String.eqb (QualifiedName_Name a) (QualifiedName_Name b).

End ua.

(* ================================================================= *)
(** ** Package server: index ranges *)

Module server.

(** [parseBounds(s, length)] *)
Definition parseBounds (s : string) (length : Z) : Z * Z * ua.StatusCode :=
  let len := length in
  if len =? 0 then (-1, -1, ua.BadIndexRangeNoData)
  else if String.eqb s "" then (0, length, ua.Good)
  else
    let index := strings.Index s ":" in
    let parsed : ua.StatusCode + (Z * Z) :=
      if negb (index =? -1) then
        match strconv.ParseInt (strings.slice s 0 index) 32 with
        | None => inl ua.BadIndexRangeInvalid
        | Some lo =>
            match strconv.ParseInt (strings.slice_from s (index + 1)) 32 with
            | None => inl ua.BadIndexRangeInvalid
            | Some hi =>
                if hi <? 0 then inl ua.BadIndexRangeInvalid
                else if lo >=? hi then inl ua.BadIndexRangeInvalid
                else inr (lo, hi)
            end
        end
      else
        match strconv.ParseInt s 32 with
        | None => inl ua.BadIndexRangeInvalid
        | Some lo => inr (lo, -1)
        end in
    match parsed with
    | inl st => (-1, -1, st)
    | inr (lo, hi) =>
        if lo <? 0 then (-1, -1, ua.BadIndexRangeInvalid)
        else if lo >=? len then (-1, -1, ua.BadIndexRangeNoData)
        else
          let hi := if hi >=? len then len - 1 else hi in
          let hi := if hi =? -1 then lo else hi in
          let hi := hi + 1 in
          (lo, hi, ua.Good)
    end.


(* --------------------------------------------------------------- *)
(** *** Slices *)

Definition len {A} (l : list A) : Z := Z.of_nat (List.length l).

(** [src[i:j]], copied into a fresh slice of length [j-i]. *)
Definition sub {A} (src : list A) (i j : Z) : list A :=
  firstn (Z.to_nat (j - i)) (skipn (Z.to_nat i) src).

(** [copy(dst[i:j], v2)] on a copy [dst] of [src]: as many elements
    as the shorter of [dst[i:j]] and [v2] are overwritten. *)
Definition splice {A} (src : list A) (i j : Z) (v2 : list A) : list A :=
  let n := Nat.min (Z.to_nat (j - i)) (List.length v2) in
  firstn (Z.to_nat i) src ++ firstn n v2 ++ skipn (Z.to_nat i + n) src.

(** [l[k] = v], for an index within the bounds of [l]. *)
Fixpoint setAt {A} (l : list A) (k : nat) (v : A) : list A :=
  match l, k with
  | [], _ => []
  | _ :: rest, O => v :: rest
  | x :: rest, S k' => x :: setAt rest k' v
  end.

(** The first of the ranges; [strings.Split] returns at least one. *)
Definition range0 (ranges : list string) : string := hd EmptyString ranges.
Definition range1 (ranges : list string) : string := hd EmptyString (tl ranges).

(* --------------------------------------------------------------- *)
(** *** readRange *)

Definition readFail (source : ua.DataValue) (status : ua.StatusCode) : ua.DataValue :=
  ua.NewDataValue ua.nil_ status (ua.SourceTimestamp source) 0
                  (ua.ServerTimestamp source) 0.

Definition readOk (source : ua.DataValue) (v : ua.Variant) : ua.DataValue :=
  ua.NewDataValue v (ua.StatusCodeOf source) (ua.SourceTimestamp source) 0
                  (ua.ServerTimestamp source) 0.

(** The body shared by the cases of one-dimensional slices. *)
Definition readSlice {A} (inj : list A -> ua.Variant) (src : list A)
           (ranges : list string) (source : ua.DataValue) : ua.DataValue :=
  if len ranges >? 1 then readFail source ua.BadIndexRangeNoData
  else
    let '(i, j, status) := parseBounds (range0 ranges) (len src) in
    if ua.IsBad status then readFail source status
    else readOk source (inj (sub src i j)).

(** The loop [for ii := range dst] of the case [[]string]: the inner
    range is applied to the runes of each element; the first bad
    status ends the read. *)
Fixpoint readInnerStrings (r : string) (dst : list string)
  : ua.StatusCode + list string :=
  match dst with
  | [] => inr []
  | x :: dst' =>
      let v1 := utf8.runes x in
      let '(i, j, status) := parseBounds r (len v1) in
      if ua.IsBad status then inl status
      else match readInnerStrings r dst' with
           | inl st => inl st
           | inr out => inr (utf8.string_of_runes (sub v1 i j) :: out)
           end
  end.

(** The same loop of the case [[]ua.ByteString], on bytes. *)
Fixpoint readInnerByteStrings (r : string) (dst : list ua.ByteString)
  : ua.StatusCode + list ua.ByteString :=
  match dst with
  | [] => inr []
  | x :: dst' =>
      let '(i, j, status) := parseBounds r (strings.len x) in
      if ua.IsBad status then inl status
      else match readInnerByteStrings r dst' with
           | inl st => inl st
           | inr out => inr (string_of_bytes (sub (bytes_of_string x) i j) :: out)
           end
  end.

Definition readNested {A} (inj : list A -> ua.Variant)
           (inner : string -> list A -> ua.StatusCode + list A)
           (src : list A) (ranges : list string) (source : ua.DataValue)
  : ua.DataValue :=
  if len ranges >? 2 then readFail source ua.BadIndexRangeNoData
  else
    let '(i, j, status) := parseBounds (range0 ranges) (len src) in
    if ua.IsBad status then readFail source status
    else
      let dst := sub src i j in
      if len ranges >? 1 then
        match inner (range1 ranges) dst with
        | inl st => readFail source st
        | inr dst' => readOk source (inj dst')
        end
      else readOk source (inj dst).

(** [readRange(source, indexRange)] *)
Definition readRange (source : ua.DataValue) (indexRange : string) : ua.DataValue :=
  if String.eqb indexRange "" then source
  else
    let ranges := strings.Split indexRange "," in
    match ua.Value source with
    | ua.string_ src =>
        if len ranges >? 1 then readFail source ua.BadIndexRangeNoData
        else
          let v1 := utf8.runes src in
          let '(i, j, status) := parseBounds (range0 ranges) (len v1) in
          if ua.IsBad status then readFail source status
          else readOk source (ua.string_ (utf8.string_of_runes (sub v1 i j)))
    | ua.ByteString_ src =>
        if len ranges >? 1 then readFail source ua.BadIndexRangeNoData
        else
          let v1 := bytes_of_string src in
          let '(i, j, status) := parseBounds (range0 ranges) (strings.len src) in
          if ua.IsBad status then readFail source status
          else readOk source (ua.ByteString_ (string_of_bytes (sub v1 i j)))
    | ua.bools src => readSlice ua.bools src ranges source
    | ua.int8s src => readSlice ua.int8s src ranges source
    | ua.uint8s src => readSlice ua.uint8s src ranges source
    | ua.int16s src => readSlice ua.int16s src ranges source
    | ua.uint16s src => readSlice ua.uint16s src ranges source
    | ua.int32s src => readSlice ua.int32s src ranges source
    | ua.uint32s src => readSlice ua.uint32s src ranges source
    | ua.int64s src => readSlice ua.int64s src ranges source
    | ua.uint64s src => readSlice ua.uint64s src ranges source
    | ua.float32s src => readSlice ua.float32s src ranges source
    | ua.float64s src => readSlice ua.float64s src ranges source
    | ua.strings_ src => readNested ua.strings_ readInnerStrings src ranges source
    | ua.Times src => readSlice ua.Times src ranges source
    | ua.UUIDs src => readSlice ua.UUIDs src ranges source
    | ua.ByteStrings src =>
        readNested ua.ByteStrings readInnerByteStrings src ranges source
    | ua.XMLElements src => readSlice ua.XMLElements src ranges source
    | ua.NodeIDs src => readSlice ua.NodeIDs src ranges source
    | ua.ExpandedNodeIDs src => readSlice ua.ExpandedNodeIDs src ranges source
    | ua.StatusCodes src =>
        (* this case calls parseBounds before it counts the ranges *)
        let '(i, j, status) := parseBounds (range0 ranges) (len src) in
        if len ranges >? 1 then readFail source ua.BadIndexRangeNoData
        else if ua.IsBad status then readFail source status
        else readOk source (ua.StatusCodes (sub src i j))
    | ua.QualifiedNames src => readSlice ua.QualifiedNames src ranges source
    | ua.LocalizedTexts src => readSlice ua.LocalizedTexts src ranges source
    | ua.ExtensionObjects src => readSlice ua.ExtensionObjects src ranges source
    | ua.DataValues src => readSlice ua.DataValues src ranges source
    | ua.Variants src => readSlice ua.Variants src ranges source
    | ua.DiagnosticInfos src => readSlice ua.DiagnosticInfos src ranges source
    | _ => readFail source ua.BadIndexRangeNoData
    end.


(* --------------------------------------------------------------- *)
(** *** writeRange *)

(** The type assertions [value.Value.(T)]: [None] where the dynamic
    type is another one, and the assertion panics. *)
Definition as_string (v : ua.Variant) : option string :=
  match v with ua.string_ x => Some x | _ => None end.
Definition as_ByteString (v : ua.Variant) : option ua.ByteString :=
  match v with ua.ByteString_ x => Some x | _ => None end.
Definition as_bools (v : ua.Variant) : option (list bool) :=
  match v with ua.bools x => Some x | _ => None end.
Definition as_int8s (v : ua.Variant) : option (list Z) :=
  match v with ua.int8s x => Some x | _ => None end.
Definition as_uint8s (v : ua.Variant) : option (list ascii) :=
  match v with ua.uint8s x => Some x | _ => None end.
Definition as_int16s (v : ua.Variant) : option (list Z) :=
  match v with ua.int16s x => Some x | _ => None end.
Definition as_uint16s (v : ua.Variant) : option (list Z) :=
  match v with ua.uint16s x => Some x | _ => None end.
Definition as_int32s (v : ua.Variant) : option (list Z) :=
  match v with ua.int32s x => Some x | _ => None end.
Definition as_uint32s (v : ua.Variant) : option (list Z) :=
  match v with ua.uint32s x => Some x | _ => None end.
Definition as_int64s (v : ua.Variant) : option (list Z) :=
  match v with ua.int64s x => Some x | _ => None end.
Definition as_uint64s (v : ua.Variant) : option (list Z) :=
  match v with ua.uint64s x => Some x | _ => None end.
Definition as_float32s (v : ua.Variant) : option (list Z) :=
  match v with ua.float32s x => Some x | _ => None end.
Definition as_float64s (v : ua.Variant) : option (list Z) :=
  match v with ua.float64s x => Some x | _ => None end.
Definition as_strings (v : ua.Variant) : option (list string) :=
  match v with ua.strings_ x => Some x | _ => None end.
Definition as_Times (v : ua.Variant) : option (list ua.Time) :=
  match v with ua.Times x => Some x | _ => None end.
Definition as_UUIDs (v : ua.Variant) : option (list uuid.UUID) :=
  match v with ua.UUIDs x => Some x | _ => None end.
Definition as_ByteStrings (v : ua.Variant) : option (list ua.ByteString) :=
  match v with ua.ByteStrings x => Some x | _ => None end.
Definition as_XMLElements (v : ua.Variant) : option (list ua.XMLElement) :=
  match v with ua.XMLElements x => Some x | _ => None end.
Definition as_NodeIDs (v : ua.Variant) : option (list ua.NodeID) :=
  match v with ua.NodeIDs x => Some x | _ => None end.
Definition as_ExpandedNodeIDs (v : ua.Variant) : option (list ua.ExpandedNodeID) :=
  match v with ua.ExpandedNodeIDs x => Some x | _ => None end.
Definition as_StatusCodes (v : ua.Variant) : option (list ua.StatusCode) :=
  match v with ua.StatusCodes x => Some x | _ => None end.
Definition as_QualifiedNames (v : ua.Variant) : option (list ua.QualifiedName) :=
  match v with ua.QualifiedNames x => Some x | _ => None end.
Definition as_LocalizedTexts (v : ua.Variant) : option (list ua.LocalizedText) :=
  match v with ua.LocalizedTexts x => Some x | _ => None end.
Definition as_ExtensionObjects (v : ua.Variant) : option (list ua.ExtensionObject) :=
  match v with ua.ExtensionObjects x => Some x | _ => None end.
Definition as_DataValues (v : ua.Variant) : option (list ua.DataValue) :=
  match v with ua.DataValues x => Some x | _ => None end.
Definition as_Variants (v : ua.Variant) : option (list ua.Variant) :=
  match v with ua.Variants x => Some x | _ => None end.
Definition as_DiagnosticInfos (v : ua.Variant) : option (list ua.DiagnosticInfo) :=
  match v with ua.DiagnosticInfos x => Some x | _ => None end.

Definition conversionPanic {A} : ua.result A :=
  ua.Panics "interface conversion".

(** Two readings of the clock: the two calls of [time.Now()] in
    [NewDataValue(..., time.Now(), 0, time.Now(), 0)]. *)
Definition Clock := (ua.Time * ua.Time)%type.

Definition written (v : ua.Variant) (value : ua.DataValue) (now : Clock)
  : ua.result (ua.DataValue * ua.StatusCode) :=
  ua.Returns (ua.NewDataValue v (ua.StatusCodeOf value) (fst now) 0 (snd now) 0,
              ua.Good).

Definition writeFail (status : ua.StatusCode)
  : ua.result (ua.DataValue * ua.StatusCode) :=
  ua.Returns (ua.NilDataValue, status).

(** The body shared by the cases of slices; [maxRanges] is 2 for
    [[]string] and [[]ua.ByteString] and 1 for the others.  A second
    range is counted but not otherwise used. *)
Definition writeSlice {A} (inj : list A -> ua.Variant)
           (cast : ua.Variant -> option (list A)) (maxRanges : Z)
           (src : list A) (ranges : list string) (value : ua.DataValue)
           (now : Clock) : ua.result (ua.DataValue * ua.StatusCode) :=
  if len ranges >? maxRanges then writeFail ua.BadIndexRangeNoData
  else
    let '(i, j, status) := parseBounds (range0 ranges) (len src) in
    if ua.IsBad status then writeFail status
    else
      match cast (ua.Value value) with
      | None => conversionPanic
      | Some v2 =>
          if negb (j - i =? len v2) then writeFail ua.BadIndexRangeNoData
          else written (inj (splice src i j v2)) value now
      end.

(** [writeRange(source, value, indexRange)] *)
Definition writeRange (source value : ua.DataValue) (indexRange : string)
           (now : Clock) : ua.result (ua.DataValue * ua.StatusCode) :=
  if String.eqb indexRange "" then written (ua.Value value) value now
  else
    let ranges := strings.Split indexRange "," in
    match ua.Value source with
    | ua.string_ src =>
        if len ranges >? 1 then writeFail ua.BadIndexRangeNoData
        else
          let v1 := utf8.runes src in
          let '(i, j, status) := parseBounds (range0 ranges) (len v1) in
          if ua.IsBad status then writeFail status
          else
            match as_string (ua.Value value) with
            | None => conversionPanic
            | Some w =>
                let v2 := utf8.runes w in
                if negb (j - i =? len v2) then writeFail ua.BadIndexRangeNoData
                else written (ua.string_ (utf8.string_of_runes (splice v1 i j v2)))
                             value now
            end
    | ua.ByteString_ src =>
        if len ranges >? 1 then writeFail ua.BadIndexRangeNoData
        else
          let '(i, j, status) := parseBounds (range0 ranges) (strings.len src) in
          if ua.IsBad status then writeFail status
          else
            match as_ByteString (ua.Value value) with
            | None => conversionPanic
            | Some v2 =>
                if negb (j - i =? strings.len v2) then writeFail ua.BadIndexRangeNoData
                else written (ua.ByteString_
                                (string_of_bytes
                                   (splice (bytes_of_string src) i j
                                           (bytes_of_string v2))))
                             value now
            end
    | ua.bools src => writeSlice ua.bools as_bools 1 src ranges value now
    | ua.int8s src => writeSlice ua.int8s as_int8s 1 src ranges value now
    | ua.uint8s src => writeSlice ua.uint8s as_uint8s 1 src ranges value now
    | ua.int16s src => writeSlice ua.int16s as_int16s 1 src ranges value now
    | ua.uint16s src => writeSlice ua.uint16s as_uint16s 1 src ranges value now
    | ua.int32s src => writeSlice ua.int32s as_int32s 1 src ranges value now
    | ua.uint32s src => writeSlice ua.uint32s as_uint32s 1 src ranges value now
    | ua.int64s src => writeSlice ua.int64s as_int64s 1 src ranges value now
    | ua.uint64s src => writeSlice ua.uint64s as_uint64s 1 src ranges value now
    | ua.float32s src => writeSlice ua.float32s as_float32s 1 src ranges value now
    | ua.float64s src => writeSlice ua.float64s as_float64s 1 src ranges value now
    | ua.strings_ src => writeSlice ua.strings_ as_strings 2 src ranges value now
    | ua.Times src => writeSlice ua.Times as_Times 1 src ranges value now
    | ua.UUIDs src => writeSlice ua.UUIDs as_UUIDs 1 src ranges value now
    | ua.ByteStrings src => writeSlice ua.ByteStrings as_ByteStrings 2 src ranges value now
    | ua.XMLElements src => writeSlice ua.XMLElements as_XMLElements 1 src ranges value now
    | ua.NodeIDs src => writeSlice ua.NodeIDs as_NodeIDs 1 src ranges value now
    | ua.ExpandedNodeIDs src => writeSlice ua.ExpandedNodeIDs as_ExpandedNodeIDs 1 src ranges value now
    | ua.StatusCodes src => writeSlice ua.StatusCodes as_StatusCodes 1 src ranges value now
    | ua.QualifiedNames src => writeSlice ua.QualifiedNames as_QualifiedNames 1 src ranges value now
    | ua.LocalizedTexts src => writeSlice ua.LocalizedTexts as_LocalizedTexts 1 src ranges value now
    | ua.ExtensionObjects src => writeSlice ua.ExtensionObjects as_ExtensionObjects 1 src ranges value now
    | ua.DataValues src => writeSlice ua.DataValues as_DataValues 1 src ranges value now
    | ua.Variants src => writeSlice ua.Variants as_Variants 1 src ranges value now
    | ua.DiagnosticInfos src => writeSlice ua.DiagnosticInfos as_DiagnosticInfos 1 src ranges value now
    | _ => writeFail ua.BadIndexRangeNoData
    end.


(* --------------------------------------------------------------- *)
(** *** selectTimestamps *)

(** Modelled from the spec: the values of [ua.TimestampsToReturn];
    the declaration is missing, the numbers are those of OPC UA. *)
Definition TimestampsToReturnSource : Z := 0.
Definition TimestampsToReturnServer : Z := 1.
Definition TimestampsToReturnBoth : Z := 2.
Definition TimestampsToReturnNeither : Z := 3.

(** [selectTimestamps(values, timestampsToReturn)]; [time.Time{}] is
    the zero time. *)
Definition selectTimestamps (values : list ua.DataValue) (timestampsToReturn : Z)
  : list ua.DataValue :=
  if timestampsToReturn =? TimestampsToReturnSource then
    map (fun value => ua.NewDataValue (ua.Value value) (ua.StatusCodeOf value)
                                      (ua.SourceTimestamp value) 0 0 0) values
  else if timestampsToReturn =? TimestampsToReturnServer then
    map (fun value => ua.NewDataValue (ua.Value value) (ua.StatusCodeOf value)
                                      0 0 (ua.ServerTimestamp value) 0) values
  else if timestampsToReturn =? TimestampsToReturnNeither then
    map (fun value => ua.NewDataValue (ua.Value value) (ua.StatusCodeOf value)
                                      0 0 0 0) values
  else values.


(* --------------------------------------------------------------- *)
(** *** Sessions, contexts and nodes *)

(** What the services read of a [*Session]: the roles of its user
    and the default role permissions of its server,
    [session.Server().RolePermissions()]. *)
Record Session := mkSession {
  UserRoles : list ua.NodeID;
  ServerRolePermissions : list ua.RolePermissionType
}.

(** A [context.Context], by the two keys the nodes look up:
    [SessionKey] and [CtxKeyUserRoles]. *)
Record Context := mkContext {
  ctx_Session : option Session;
  ctx_UserRoles : option (list ua.NodeID)
}.

(** server/variable_node.go. A nil slice of role permissions is
    [None]; [vn_ctxRolePermissions] is what the server found in the
    node's own context answers to [RolePermissions()]. *)
Record VariableNode := mkVariableNode {
  vn_NodeId : ua.NodeID;
  vn_RolePermissions : option (list ua.RolePermissionType);
  vn_Value : ua.DataValue;
  vn_DataType : ua.NodeID;
  vn_ValueRank : Z;
  vn_AccessLevel : Z;
  vn_Historizing : bool;
  vn_ctxRolePermissions : list ua.RolePermissionType;
  ReadValueHandler : option (Context -> ua.ReadValueID -> ua.DataValue);
  WriteValueHandler :
    option (Context -> ua.WriteValue -> ua.DataValue * ua.StatusCode)
}.

(** server/object_node.go *)
Record ObjectNode := mkObjectNode {
  on_NodeId : ua.NodeID;
  on_RolePermissions : option (list ua.RolePermissionType);
  on_eventNotifier : Z
}.

(** The interface [Node] (server/node.go).  The node classes other
    than Object and Variable are not among the sources: such a node
    is given by its two methods the services call. *)
Record OtherNode := mkOtherNode {
  other_GetUserRolePermissions : Context -> list ua.RolePermissionType;
  other_IsAttributeIDValid : Z -> bool
}.

Inductive Node :=
| Variable_ (n : VariableNode)
| Object_ (n : ObjectNode)
| Other_ (n : OtherNode).

(** The two nested loops that keep the role permissions of the
    user's roles. *)
Definition filterPermissions (roles : list ua.NodeID)
           (rolePermissions : list ua.RolePermissionType)
  : list ua.RolePermissionType :=
  flat_map (fun role =>
              filter (fun rp => ua.NodeID_eqb (ua.RoleID rp) role) rolePermissions)
           roles.

(** [rolePermissions := n.GetRolePermissions(); if rolePermissions ==
    nil { rolePermissions = ... }] *)
Definition orDefault (own : option (list ua.RolePermissionType))
           (dflt : list ua.RolePermissionType) : list ua.RolePermissionType :=
  match own with
  | Some rps => rps
  | None => dflt
  end.

(** [ObjectNode.GetUserRolePermissions(ctx)] *)
Definition ObjectNode_GetUserRolePermissions (n : ObjectNode) (ctx : Context)
  : list ua.RolePermissionType :=
  match ctx_Session ctx with
  | None => []
  | Some session =>
      filterPermissions (UserRoles session)
        (orDefault (on_RolePermissions n) (ServerRolePermissions session))
  end.

(** [VariableNode.GetUserRolePermissions(ctx)] *)
Definition VariableNode_GetUserRolePermissions (n : VariableNode) (ctx : Context)
  : list ua.RolePermissionType :=
  match ctx_Session ctx with
  | Some session =>
      filterPermissions (UserRoles session)
        (orDefault (vn_RolePermissions n) (ServerRolePermissions session))
  | None =>
      match ctx_UserRoles ctx with
      | Some roles =>
          filterPermissions roles
            (orDefault (vn_RolePermissions n) (vn_ctxRolePermissions n))
      | None => []
      end
  end.

Definition GetUserRolePermissions (n : Node) (ctx : Context)
  : list ua.RolePermissionType :=
  match n with
  | Variable_ n1 => VariableNode_GetUserRolePermissions n1 ctx
  | Object_ n1 => ObjectNode_GetUserRolePermissions n1 ctx
  | Other_ n1 => other_GetUserRolePermissions n1 ctx
  end.

(** The body of the two loops of [UserAccessLevel]: the flags
    [currentRead], [currentWrite], [historyRead] after one role
    permission is looked at. *)
Definition scanStep (role : ua.NodeID) (flags : bool * bool * bool)
           (rp : ua.RolePermissionType) : bool * bool * bool :=
  let '(currentRead, currentWrite, historyRead) := flags in
  if ua.NodeID_eqb (ua.RoleID rp) role then
    (if negb (Z.land (ua.Permissions rp) ua.PermissionTypeRead =? 0)
     then true else currentRead,
     if negb (Z.land (ua.Permissions rp) ua.PermissionTypeWrite =? 0)
     then true else currentWrite,
     if negb (Z.land (ua.Permissions rp) ua.PermissionTypeReadHistory =? 0)
     then true else historyRead)
  else flags.

Definition scanPermissions (roles : list ua.NodeID)
           (rolePermissions : list ua.RolePermissionType) : bool * bool * bool :=
  fold_left (fun flags role => fold_left (scanStep role) rolePermissions flags)
            roles (false, false, false).

(** [accessLevel &^= bit] *)
Definition andNot (accessLevel bit : Z) : Z := Z.ldiff accessLevel bit.

(** [VariableNode.UserAccessLevel(ctx)] *)
Definition UserAccessLevel (n : VariableNode) (ctx : Context) : Z :=
  let accessLevel := vn_AccessLevel n in
  match ctx_Session ctx with
  | None => 0
  | Some session =>
      let roles := UserRoles session in
      let rolePermissions :=
        orDefault (vn_RolePermissions n) (ServerRolePermissions session) in
      let '(currentRead, currentWrite, historyRead) :=
        scanPermissions roles rolePermissions in
      let accessLevel :=
        if negb currentRead then andNot accessLevel ua.AccessLevelsCurrentRead
        else accessLevel in
      let accessLevel :=
        if negb currentWrite then andNot accessLevel ua.AccessLevelsCurrentWrite
        else accessLevel in
      let accessLevel :=
        if negb historyRead then andNot accessLevel ua.AccessLevelsHistoryRead
        else accessLevel in
      accessLevel
  end.

(** [VariableNode.SetValue(value)]: the node afterwards.  (The
    call to the historian of a historizing node and the refresh of
    the owner's plugin properties are effects on collaborators.) *)
Definition SetValue (n : VariableNode) (value : ua.DataValue) : VariableNode :=
  mkVariableNode (vn_NodeId n) (vn_RolePermissions n) value (vn_DataType n)
                 (vn_ValueRank n) (vn_AccessLevel n) (vn_Historizing n)
                 (vn_ctxRolePermissions n) (ReadValueHandler n)
                 (WriteValueHandler n).

Definition SetHistorizing (n : VariableNode) (h : bool) : VariableNode :=
  mkVariableNode (vn_NodeId n) (vn_RolePermissions n) (vn_Value n) (vn_DataType n)
                 (vn_ValueRank n) (vn_AccessLevel n) h
                 (vn_ctxRolePermissions n) (ReadValueHandler n)
                 (WriteValueHandler n).

(** [VariableNode.IsAttributeIDValid] and
    [ObjectNode.IsAttributeIDValid] *)
Definition memZ (x : Z) (l : list Z) : bool := existsb (Z.eqb x) l.

Definition VariableNode_IsAttributeIDValid (attributeID : Z) : bool :=
  memZ attributeID
    [ua.AttributeIDNodeID; ua.AttributeIDNodeClass; ua.AttributeIDBrowseName;
     ua.AttributeIDDisplayName; ua.AttributeIDDescription;
     ua.AttributeIDRolePermissions; ua.AttributeIDUserRolePermissions;
     ua.AttributeIDValue; ua.AttributeIDDataType; ua.AttributeIDValueRank;
     ua.AttributeIDArrayDimensions; ua.AttributeIDAccessLevel;
     ua.AttributeIDUserAccessLevel; ua.AttributeIDMinimumSamplingInterval;
     ua.AttributeIDHistorizing].

Definition ObjectNode_IsAttributeIDValid (attributeID : Z) : bool :=
  memZ attributeID
    [ua.AttributeIDNodeID; ua.AttributeIDNodeClass; ua.AttributeIDBrowseName;
     ua.AttributeIDDisplayName; ua.AttributeIDDescription;
     ua.AttributeIDRolePermissions; ua.AttributeIDUserRolePermissions;
     ua.AttributeIDEventNotifier].

Definition IsAttributeIDValid (n : Node) (attributeID : Z) : bool :=
  match n with
  | Variable_ _ => VariableNode_IsAttributeIDValid attributeID
  | Object_ _ => ObjectNode_IsAttributeIDValid attributeID
  | Other_ n1 => other_IsAttributeIDValid n1 attributeID
  end.


(* --------------------------------------------------------------- *)
(** *** The type and rank check of writeValue *)

(** [srv.serverCapabilities], the three limits the check reads. *)
Record ServerCapabilities := mkServerCapabilities {
  MaxStringLength : Z;
  MaxByteStringLength : Z;
  MaxArrayLength : Z
}.

Definition scalarRank (destRank : Z) : bool :=
  negb (negb (destRank =? ua.ValueRankScalar)
        && negb (destRank =? ua.ValueRankScalarOrOneDimension)
        && negb (destRank =? ua.ValueRankAny)).

Definition arrayRank (destRank : Z) : bool :=
  negb (negb (destRank =? ua.ValueRankOneDimension)
        && negb (destRank =? ua.ValueRankOneOrMoreDimensions)
        && negb (destRank =? ua.ValueRankScalarOrOneDimension)
        && negb (destRank =? ua.ValueRankAny)).

(** The two tests of a scalar case; [Some] is the status returned. *)
Definition checkScalar (destType destRank t : Z) : option ua.StatusCode :=
  if negb (destType =? t) && negb (destType =? ua.VariantTypeVariant)
  then Some ua.BadTypeMismatch
  else if negb (scalarRank destRank) then Some ua.BadTypeMismatch
  else None.

(** The three tests of an array case. *)
Definition checkArray (caps : ServerCapabilities) (destType destRank n t : Z)
  : option ua.StatusCode :=
  if n >? MaxArrayLength caps then Some ua.BadOutOfRange
  else if negb (destType =? t) && negb (destType =? ua.VariantTypeVariant)
  then Some ua.BadTypeMismatch
  else if negb (arrayRank destRank) then Some ua.BadTypeMismatch
  else None.

(** The type switch [switch v2 := writeValue.Value.Value.(type)];
    [None] when the switch falls through to the write. *)
Definition typeCheck (caps : ServerCapabilities) (destType destRank : Z)
           (v : ua.Variant) : option ua.StatusCode :=
    match v with
    | ua.nil_ => None
    | ua.bool_ _ => checkScalar destType destRank ua.VariantTypeBoolean
    | ua.int8_ _ => checkScalar destType destRank ua.VariantTypeSByte
    | ua.uint8_ _ => checkScalar destType destRank ua.VariantTypeByte
    | ua.int16_ _ => checkScalar destType destRank ua.VariantTypeInt16
    | ua.uint16_ _ => checkScalar destType destRank ua.VariantTypeUInt16
    | ua.int32_ _ => checkScalar destType destRank ua.VariantTypeInt32
    | ua.uint32_ _ => checkScalar destType destRank ua.VariantTypeUInt32
    | ua.int64_ _ => checkScalar destType destRank ua.VariantTypeInt64
    | ua.uint64_ _ => checkScalar destType destRank ua.VariantTypeUInt64
    | ua.float32_ _ => checkScalar destType destRank ua.VariantTypeFloat
    | ua.float64_ _ => checkScalar destType destRank ua.VariantTypeDouble
    | ua.string_ v2 =>
        if strings.len v2 >? MaxStringLength caps then Some ua.BadOutOfRange
        else checkScalar destType destRank ua.VariantTypeString
    | ua.Time_ _ => checkScalar destType destRank ua.VariantTypeDateTime
    | ua.UUID_ _ => checkScalar destType destRank ua.VariantTypeGUID
    | ua.ByteString_ v2 =>
        if strings.len v2 >? MaxByteStringLength caps then Some ua.BadOutOfRange
        else checkScalar destType destRank ua.VariantTypeByteString
    | ua.XMLElement_ _ => checkScalar destType destRank ua.VariantTypeXMLElement
    | ua.NodeID_v _ => checkScalar destType destRank ua.VariantTypeNodeID
    | ua.ExpandedNodeID_ _ => checkScalar destType destRank ua.VariantTypeExpandedNodeID
    | ua.StatusCode_ _ => checkScalar destType destRank ua.VariantTypeStatusCode
    | ua.QualifiedName_ _ => checkScalar destType destRank ua.VariantTypeQualifiedName
    | ua.LocalizedText_ _ => checkScalar destType destRank ua.VariantTypeLocalizedText
    | ua.bools v2 => checkArray caps destType destRank (len v2) ua.VariantTypeBoolean
    | ua.int8s v2 => checkArray caps destType destRank (len v2) ua.VariantTypeSByte
    | ua.uint8s v2 => checkArray caps destType destRank (len v2) ua.VariantTypeByte
    | ua.int16s v2 => checkArray caps destType destRank (len v2) ua.VariantTypeInt16
    | ua.uint16s v2 => checkArray caps destType destRank (len v2) ua.VariantTypeUInt16
    | ua.int32s v2 => checkArray caps destType destRank (len v2) ua.VariantTypeInt32
    | ua.uint32s v2 => checkArray caps destType destRank (len v2) ua.VariantTypeUInt32
    | ua.int64s v2 => checkArray caps destType destRank (len v2) ua.VariantTypeInt64
    | ua.uint64s v2 => checkArray caps destType destRank (len v2) ua.VariantTypeUInt64
    | ua.float32s v2 => checkArray caps destType destRank (len v2) ua.VariantTypeFloat
    | ua.float64s v2 => checkArray caps destType destRank (len v2) ua.VariantTypeDouble
    | ua.strings_ v2 => checkArray caps destType destRank (len v2) ua.VariantTypeString
    | ua.Times v2 => checkArray caps destType destRank (len v2) ua.VariantTypeDateTime
    | ua.UUIDs v2 => checkArray caps destType destRank (len v2) ua.VariantTypeGUID
    | ua.ByteStrings v2 => checkArray caps destType destRank (len v2) ua.VariantTypeByteString
    | ua.XMLElements v2 => checkArray caps destType destRank (len v2) ua.VariantTypeXMLElement
    | ua.NodeIDs v2 => checkArray caps destType destRank (len v2) ua.VariantTypeNodeID
    | ua.ExpandedNodeIDs v2 => checkArray caps destType destRank (len v2) ua.VariantTypeExpandedNodeID
    | ua.StatusCodes v2 => checkArray caps destType destRank (len v2) ua.VariantTypeStatusCode
    | ua.QualifiedNames v2 => checkArray caps destType destRank (len v2) ua.VariantTypeQualifiedName
    | ua.LocalizedTexts v2 => checkArray caps destType destRank (len v2) ua.VariantTypeLocalizedText
    | ua.ExtensionObjects v2 => checkArray caps destType destRank (len v2) ua.VariantTypeExtensionObject
    | ua.DataValues v2 => checkArray caps destType destRank (len v2) ua.VariantTypeDataValue
    | ua.Variants v2 =>
        if len v2 >? MaxArrayLength caps then Some ua.BadOutOfRange
        else if negb (destType =? ua.VariantTypeVariant) then Some ua.BadTypeMismatch
        else if negb (arrayRank destRank) then Some ua.BadTypeMismatch
        else None
    | ua.ExtensionObject_ _ | ua.DataValue_ _ | ua.DiagnosticInfo_ _
    | ua.DiagnosticInfos _ =>
        (* default: *)
        checkScalar destType destRank ua.VariantTypeExtensionObject
    end.

(** The two coercions between ByteString and []byte before the
    check. *)
Definition coerceToBytes (destType destRank : Z) (v : ua.Variant) : ua.Variant :=
  if (destType =? ua.VariantTypeByte) && (destRank =? ua.ValueRankOneDimension) then
    match v with
    | ua.ByteString_ v1 => ua.uint8s (bytes_of_string v1)
    | _ => v
    end
  else v.

Definition coerceToByteString (destType destRank : Z) (v : ua.Variant) : ua.Variant :=
  if (destType =? ua.VariantTypeByteString) && (destRank =? ua.ValueRankScalar) then
    match v with
    | ua.uint8s v1 => ua.ByteString_ (string_of_bytes v1)
    | _ => v
    end
  else v.

Definition withValue (w : ua.WriteValue) (v : ua.Variant) : ua.WriteValue :=
  let d := ua.wv_Value w in
  ua.mkWriteValue (ua.wv_NodeID w) (ua.wv_AttributeID w) (ua.wv_IndexRange w)
    (ua.NewDataValue v (ua.StatusCodeOf d) (ua.SourceTimestamp d)
                     (ua.SourcePicoseconds d) (ua.ServerTimestamp d)
                     (ua.ServerPicoseconds d)).


(* --------------------------------------------------------------- *)
(** *** The services on one attribute *)

(** A monitored item, by what the create result reports of it. *)
Record MonitoredItem := mkMonitoredItem {
  mi_id : Z;
  mi_samplingInterval : Z;
  mi_queueSize : Z
}.

(** The filter of a monitored item is an interface value. *)
Inductive Filter :=
| DataChangeFilter (trigger deadbandType deadbandValue : Z)
| EventFilter
| AggregateFilter.

(** Modelled from the spec: the default filter of a monitored item
    of kind Value is "DataChangeFilter{Trigger: StatusValue}"; the
    declaration of the trigger is missing, the number is that of
    OPC UA. *)
Definition DataChangeTriggerStatusValue : Z := 1.

Record MonitoredItemCreateRequest := mkMonitoredItemCreateRequest {
  ItemToMonitor : ua.ReadValueID;
  MonitoringMode : Z;
  RequestedFilter : option Filter
}.

Record MonitoredItemCreateResult := mkMonitoredItemCreateResult {
  mr_StatusCode : ua.StatusCode;
  mr_MonitoredItemID : Z;
  mr_RevisedSamplingInterval : Z;
  mr_RevisedQueueSize : Z
}.

Definition failedCreate (sc : ua.StatusCode) : MonitoredItemCreateResult :=
  mkMonitoredItemCreateResult sc 0 0 0.

Section Services.

(** The functions of the repository that the services call and
    that are not among the sources: the node index and the variant
    type of a data type (NamespaceManager), the permission test,
    the constructor of monitored items, and the branches of
    [readValue] for the attributes other than Value, which look
    into node classes that are not at hand either. *)
Variable FindNode : ua.NodeID -> option Node.
Variable FindVariantType : ua.NodeID -> Z.
Variable IsUserPermitted : list ua.RolePermissionType -> Z -> bool.
Variable NewMonitoredItem :
  Context -> Node -> MonitoredItemCreateRequest -> MonitoredItem.
Variable readOtherAttribute : Context -> Node -> ua.ReadValueID -> ua.DataValue.
Variable serverCapabilities : ServerCapabilities.

Definition readError (status : ua.StatusCode) (now : ua.Time) : ua.DataValue :=
  ua.NewDataValue ua.nil_ status 0 0 now 0.

(** [readValue(ctx, readValueId)]; [now] is the reading of the
    clock. *)
Definition readValue (ctx : Context) (readValueId : ua.ReadValueID)
           (now : ua.Time) : ua.DataValue :=
  if negb (String.eqb (ua.QualifiedName_Name (ua.rv_DataEncoding readValueId)) "")
  then readError ua.BadDataEncodingInvalid now
  else if negb (String.eqb (ua.rv_IndexRange readValueId) "")
          && negb (ua.rv_AttributeID readValueId =? ua.AttributeIDValue)
  then readError ua.BadIndexRangeNoData now
  else
    match FindNode (ua.rv_NodeID readValueId) with
    | None => readError ua.BadNodeIDUnknown now
    | Some n =>
        let rp := GetUserRolePermissions n ctx in
        if negb (IsUserPermitted rp ua.PermissionTypeBrowse)
        then readError ua.BadNodeIDUnknown now
        else if ua.rv_AttributeID readValueId =? ua.AttributeIDValue then
          match n with
          | Variable_ n1 =>
              if Z.land (vn_AccessLevel n1) ua.AccessLevelsCurrentRead =? 0
              then readError ua.BadNotReadable now
              else if Z.land (UserAccessLevel n1 ctx) ua.AccessLevelsCurrentRead =? 0
              then readError ua.BadUserAccessDenied now
              else
                match ReadValueHandler n1 with
                | Some f => f ctx readValueId
                | None => readRange (vn_Value n1) (ua.rv_IndexRange readValueId)
                end
          | _ => readError ua.BadAttributeIDInvalid now
          end
        else readOtherAttribute ctx n readValueId
    end.

(** [writeValue(ctx, writeValue)]: the status returned and, when
    the write went through, the variable after [SetValue] or
    [SetHistorizing]. *)
Definition writeValue (ctx : Context) (writeValue : ua.WriteValue) (now : Clock)
  : ua.result (ua.StatusCode * option VariableNode) :=
  match FindNode (ua.wv_NodeID writeValue) with
  | None => ua.Returns (ua.BadNodeIDUnknown, None)
  | Some n =>
      let rp := GetUserRolePermissions n ctx in
      if negb (IsUserPermitted rp ua.PermissionTypeBrowse)
      then ua.Returns (ua.BadNodeIDUnknown, None)
      else if ua.wv_AttributeID writeValue =? ua.AttributeIDValue then
        match n with
        | Variable_ n1 =>
            if Z.land (vn_AccessLevel n1) ua.AccessLevelsCurrentWrite =? 0
            then ua.Returns (ua.BadNotWritable, None)
            else if Z.land (UserAccessLevel n1 ctx) ua.AccessLevelsCurrentWrite =? 0
            then ua.Returns (ua.BadUserAccessDenied, None)
            else
              let destType := FindVariantType (vn_DataType n1) in
              let destRank := vn_ValueRank n1 in
              let v := ua.Value (ua.wv_Value writeValue) in
              let v := coerceToBytes destType destRank v in
              let v := coerceToByteString destType destRank v in
              let writeValue := withValue writeValue v in
              match typeCheck serverCapabilities destType destRank v with
              | Some status => ua.Returns (status, None)
              | None =>
                  match WriteValueHandler n1 with
                  | Some f =>
                      let '(result, status) := f ctx writeValue in
                      if status =? ua.Good
                      then ua.Returns (status, Some (SetValue n1 result))
                      else ua.Returns (status, None)
                  | None =>
                      match writeRange (vn_Value n1) (ua.wv_Value writeValue)
                                       (ua.wv_IndexRange writeValue) now with
                      | ua.Panics reason => ua.Panics reason
                      | ua.Returns (result, status) =>
                          if status =? ua.Good
                          then ua.Returns (status, Some (SetValue n1 result))
                          else ua.Returns (status, None)
                      end
                  end
              end
        | _ => ua.Returns (ua.BadAttributeIDInvalid, None)
        end
      else if ua.wv_AttributeID writeValue =? ua.AttributeIDHistorizing then
        match n with
        | Variable_ n1 =>
            if negb (IsUserPermitted rp ua.PermissionTypeWriteHistorizing)
            then ua.Returns (ua.BadUserAccessDenied, None)
            else
              match ua.Value (ua.wv_Value writeValue) with
              | ua.bool_ v => ua.Returns (ua.Good, Some (SetHistorizing n1 v))
              | _ => ua.Returns (ua.BadTypeMismatch, None)
              end
        | _ => ua.Returns (ua.BadAttributeIDInvalid, None)
        end
      else ua.Returns (ua.BadAttributeIDInvalid, None)
  end.

(** The loop of [validateIndexRange] over the ranges: [true] when
    every range is well formed. *)
Definition rangeWellFormed (r : string) : bool :=
  let index := strings.Index r ":" in
  let lo : option Z :=
    if negb (index =? -1) then
      match strconv.ParseInt (strings.slice r 0 index) 32 with
      | None => None
      | Some lo =>
          match strconv.ParseInt (strings.slice_from r (index + 1)) 32 with
          | None => None
          | Some hi =>
              if hi <? 0 then None
              else if lo >=? hi then None
              else Some lo
          end
      end
    else strconv.ParseInt r 32 in
  match lo with
  | None => false
  | Some lo => negb (lo <? 0)
  end.

(** [validateIndexRange(ctx, s, dataType, rank)] *)
Definition validateIndexRange (s : string) (dataType : ua.NodeID) (rank : Z)
  : ua.StatusCode :=
  if String.eqb s "" then ua.Good
  else
    let ranges := strings.Split s "," in
    if negb (forallb rangeWellFormed ranges) then ua.BadIndexRangeInvalid
    else
      let destType := FindVariantType dataType in
      let stringLike :=
        (destType =? ua.VariantTypeString) || (destType =? ua.VariantTypeByteString) in
      let byDiff (diff : Z) : ua.StatusCode :=
        if negb (diff =? 0) then
          if negb ((diff =? 1) && stringLike) then ua.BadIndexRangeNoData
          else ua.Good
        else ua.Good in
      if rank =? ua.ValueRankScalarOrOneDimension then byDiff (len ranges - 1)
      else if rank =? ua.ValueRankAny then ua.Good
      else if rank =? ua.ValueRankScalar then
        if negb ((len ranges =? 1) && stringLike) then ua.BadIndexRangeNoData
        else ua.Good
      else if rank =? ua.ValueRankOneOrMoreDimensions then ua.Good
      else byDiff (len ranges - rank).

(** [switch destType] of the deadband test: the numeric types. *)
Definition deadbandAllowed (destType : Z) : bool :=
  memZ destType
    [ua.VariantTypeByte; ua.VariantTypeSByte;
     ua.VariantTypeInt16; ua.VariantTypeInt32; ua.VariantTypeInt64;
     ua.VariantTypeUInt16; ua.VariantTypeUInt32; ua.VariantTypeUInt64;
     ua.VariantTypeFloat; ua.VariantTypeDouble].

Definition created (mi : MonitoredItem) : MonitoredItemCreateResult :=
  mkMonitoredItemCreateResult ua.Good (mi_id mi) (mi_samplingInterval mi)
                              (mi_queueSize mi).

Definition withFilter (item : MonitoredItemCreateRequest) (f : Filter)
  : MonitoredItemCreateRequest :=
  mkMonitoredItemCreateRequest (ItemToMonitor item) (MonitoringMode item) (Some f).

(** The body of the loop [for i, item := range req.ItemsToCreate]
    of [handleCreateMonitoredItems]: the result of the item, and
    the monitored item appended to the subscription, if one is. *)
Definition createMonitoredItem (ctx : Context) (item : MonitoredItemCreateRequest)
  : MonitoredItemCreateResult * option MonitoredItem :=
  match FindNode (ua.rv_NodeID (ItemToMonitor item)) with
  | None => (failedCreate ua.BadNodeIDUnknown, None)
  | Some n =>
      let attr := ua.rv_AttributeID (ItemToMonitor item) in
      if negb (IsAttributeIDValid n attr)
      then (failedCreate ua.BadAttributeIDInvalid, None)
      else if attr =? ua.AttributeIDValue then
        match n with
        | Variable_ n2 =>
            if Z.land (vn_AccessLevel n2) ua.AccessLevelsCurrentRead =? 0
            then (failedCreate ua.BadNotReadable, None)
            else if Z.land (UserAccessLevel n2 ctx) ua.AccessLevelsCurrentRead =? 0
            then (failedCreate ua.BadUserAccessDenied, None)
            else
              let sc := validateIndexRange (ua.rv_IndexRange (ItemToMonitor item))
                                           (vn_DataType n2) (vn_ValueRank n2) in
              if negb (sc =? ua.Good) then (failedCreate sc, None)
              else
                let filter :=
                  match RequestedFilter item with
                  | None => DataChangeFilter DataChangeTriggerStatusValue 0 0
                  | Some f => f
                  end in
                let item := withFilter item filter in
                match filter with
                | DataChangeFilter _ deadbandType _ =>
                    if negb (deadbandType =? ua.DeadbandTypeNone)
                       && negb (deadbandAllowed (FindVariantType (vn_DataType n2)))
                    then (failedCreate ua.BadFilterNotAllowed, None)
                    else
                      let mi := NewMonitoredItem ctx n item in
                      (created mi, Some mi)
                | _ => (failedCreate ua.BadFilterNotAllowed, None)
                end
        | _ => (failedCreate ua.BadAttributeIDInvalid, None)
        end
      else if attr =? ua.AttributeIDEventNotifier then
        match n with
        | Object_ n2 =>
            if Z.land (on_eventNotifier n2) ua.EventNotifierSubscribeToEvents =? 0
            then (failedCreate ua.BadNotReadable, None)
            else
              let rp := ObjectNode_GetUserRolePermissions n2 ctx in
              if negb (IsUserPermitted rp ua.PermissionTypeReceiveEvents)
              then (failedCreate ua.BadUserAccessDenied, None)
              else
                match RequestedFilter item with
                | Some EventFilter =>
                    let mi := NewMonitoredItem ctx n item in
                    (created mi, Some mi)
                | _ => (failedCreate ua.BadFilterNotAllowed, None)
                end
        | _ => (failedCreate ua.BadAttributeIDInvalid, None)
        end
      else
        let rp := GetUserRolePermissions n ctx in
        if negb (IsUserPermitted rp ua.PermissionTypeBrowse)
        then (failedCreate ua.BadAttributeIDInvalid, None)
        else
          match RequestedFilter item with
          | Some _ => (failedCreate ua.BadFilterNotAllowed, None)
          | None =>
              let mi := NewMonitoredItem ctx n item in
              (created mi, Some mi)
          end
  end.

(** The subscription and its method [AppendItem] are not among the
    sources either: a subscription is a value of any type, and
    [AppendItem] any function that gives the subscription after the
    call. *)
Variable Subscription : Type.
Variable AppendItem : Subscription -> MonitoredItem -> Subscription.

(** The loop itself: the results in the order of the items, and
    the subscription after the calls of [sub.AppendItem(mi)]. *)
Fixpoint createMonitoredItems (ctx : Context)
         (itemsToCreate : list MonitoredItemCreateRequest)
         (sub : Subscription)
  : list MonitoredItemCreateResult * Subscription :=
  match itemsToCreate with
  | [] => ([], sub)
  | item :: rest =>
      let '(r, added) := createMonitoredItem ctx item in
      let sub :=
        match added with
        | Some mi => AppendItem sub mi
        | None => sub
        end in
      let '(rs, sub) := createMonitoredItems ctx rest sub in
      (r :: rs, sub)
  end.

End Services.


(* --------------------------------------------------------------- *)
(** *** The project manager (server/project_manager.go) *)

Inductive ProjectManagerState :=
| PROJECT_STATE_UNLOADED
| PROJECT_STATE_LOADING
| PROJECT_STATE_LOADED
| PROJECT_STATE_RELOAD
| PROJECT_STATE_ERROR.

Inductive Trigger :=
| triggerLoadProject
| triggerErrorOccured
| triggerLoadSuccess
| triggerReloadProject
| triggerLoadPlugins
| triggerUnloadPlugins
| triggerReloadPlugins.

(** An [error], by its message. *)
Definition error := string.

(** server/errors.go *)
Definition ErrProjectNotLoaded : error := "Project was not ready yet".

(** The handlers the state machine is configured with. *)
Inductive Handler :=
| onLoading | onLoaded | onError | onReload
| onReloadPlugins | onLoadPlugins | onUnloadPlugins.

(** What a state is configured with (package stateless): the
    transitions [Permit] allows, the internal transitions and the
    entry action. *)
Inductive Behaviour :=
| Permit (destination : ProjectManagerState)
| InternalTransition (action : Handler).

Record StateConfiguration := Configure {
  cfg_state : ProjectManagerState;
  cfg_OnEntry : option Handler;
  cfg_behaviours : list (Trigger * Behaviour)
}.

(** The configuration built by [SetContext]. *)
Definition configuration : list StateConfiguration :=
  [ Configure PROJECT_STATE_UNLOADED None
      [(triggerLoadProject, Permit PROJECT_STATE_LOADING)];
    Configure PROJECT_STATE_LOADING (Some onLoading)
      [(triggerErrorOccured, Permit PROJECT_STATE_ERROR);
       (triggerLoadSuccess, Permit PROJECT_STATE_LOADED)];
    Configure PROJECT_STATE_LOADED (Some onLoaded)
      [(triggerReloadPlugins, InternalTransition onReloadPlugins);
       (triggerLoadPlugins, InternalTransition onLoadPlugins);
       (triggerUnloadPlugins, InternalTransition onUnloadPlugins);
       (triggerReloadProject, Permit PROJECT_STATE_RELOAD)];
    Configure PROJECT_STATE_ERROR (Some onError)
      [(triggerReloadProject, Permit PROJECT_STATE_RELOAD)];
    Configure PROJECT_STATE_RELOAD (Some onReload)
      [(triggerLoadProject, Permit PROJECT_STATE_LOADING)] ].

Definition state_eqb (a b : ProjectManagerState) : bool :=
  match a, b with
  | PROJECT_STATE_UNLOADED, PROJECT_STATE_UNLOADED
  | PROJECT_STATE_LOADING, PROJECT_STATE_LOADING
  | PROJECT_STATE_LOADED, PROJECT_STATE_LOADED
  | PROJECT_STATE_RELOAD, PROJECT_STATE_RELOAD
  | PROJECT_STATE_ERROR, PROJECT_STATE_ERROR => true
  | _, _ => false
  end.

Definition trigger_eqb (a b : Trigger) : bool :=
  match a, b with
  | triggerLoadProject, triggerLoadProject
  | triggerErrorOccured, triggerErrorOccured
  | triggerLoadSuccess, triggerLoadSuccess
  | triggerReloadProject, triggerReloadProject
  | triggerLoadPlugins, triggerLoadPlugins
  | triggerUnloadPlugins, triggerUnloadPlugins
  | triggerReloadPlugins, triggerReloadPlugins => true
  | _, _ => false
  end.

Definition stateRepresentation (s : ProjectManagerState) : option StateConfiguration :=
  find (fun c => state_eqb (cfg_state c) s) configuration.

(** [FindHandler]: the behaviour configured in state [s] for the
    trigger, if there is one. *)
Definition FindHandler (s : ProjectManagerState) (t : Trigger) : option Behaviour :=
  match stateRepresentation s with
  | None => None
  | Some c =>
      match find (fun tb => trigger_eqb (fst tb) t) (cfg_behaviours c) with
      | Some (_, b) => Some b
      | None => None
      end
  end.

(** [CanFire(trigger)]; the error it returns next to the boolean is
    nil in both cases. *)
Definition CanFire (s : ProjectManagerState) (t : Trigger) : bool :=
  match FindHandler s t with
  | Some _ => true
  | None => false
  end.

(** Starting and stopping the plugins of the entry nodes are effects
    on collaborators; the manager keeps a record of them here. *)
Inductive PluginCommand := StartEntries | StopEntries.

(** The fields of a [ProjectManager] that the state machine reads
    and writes. *)
Record ProjectManager := mkProjectManager {
  pm_state : ProjectManagerState;
  currentError : option error;
  rootLoaded : bool;
  pluginLog : list PluginCommand
}.

(** [NewProjectManager()] followed by [SetContext(ctx)] *)
Definition NewProjectManager : ProjectManager :=
  mkProjectManager PROJECT_STATE_UNLOADED None false [].

Definition setState (p : ProjectManager) (s : ProjectManagerState) : ProjectManager :=
  mkProjectManager s (currentError p) (rootLoaded p) (pluginLog p).

Definition logPlugins (p : ProjectManager) (c : list PluginCommand) : ProjectManager :=
  mkProjectManager (pm_state p) (currentError p) (rootLoaded p)
                   (pluginLog p ++ c)%list.

(** What reading, validating and installing the project file gives
    when [onLoading] runs: it returns nil, or the error of the file
    or of its validation, or it panics, as [ToObjectNode] does on a
    node without the property _NodeType, _PluginId or _InternalId,
    and [ForEachSelfDepth] on the nil root that [Validate] returns
    with no error when the root it built has no children. *)
Definition Loading := ua.result (option error).

(** The handlers.  [load] is what [onLoading] meets when it runs.
    [arg] is the argument of [Fire]; [onError] indexes and converts
    it, which panics when there is none. *)
Definition runHandler (load : Loading) (h : Handler) (arg : option error)
           (p : ProjectManager) : ua.result (ProjectManager * option error) :=
  match h with
  | onLoading =>
      match load with
      | ua.Panics reason => ua.Panics reason
      | ua.Returns (Some err) => ua.Returns (p, Some err)
      | ua.Returns None =>
          ua.Returns
            (mkProjectManager (pm_state p) (currentError p) true
                              (pluginLog p ++ [StartEntries])%list, None)
      end
  | onLoaded => ua.Returns (p, None)
  | onError =>
      match arg with
      | Some err =>
          ua.Returns (mkProjectManager (pm_state p) (Some err) (rootLoaded p)
                                       (pluginLog p), None)
      | None => ua.Panics "index out of range"
      end
  | onReload => ua.Returns (logPlugins p [StopEntries], None)
  | onUnloadPlugins => ua.Returns (logPlugins p [StopEntries], None)
  | onLoadPlugins => ua.Returns (logPlugins p [StartEntries], None)
  | onReloadPlugins => ua.Returns (logPlugins p [StopEntries; StartEntries], None)
  end.

Definition unhandledTrigger : error :=
  "stateless: No valid leaving transitions are permitted".

(** [p.state.Fire(trigger, arg)]: with no behaviour configured the
    trigger is unhandled, an error; a permitted transition sets the
    destination state and then runs its entry action, whose error
    [Fire] returns with the state already changed; an internal
    transition runs its action and leaves the state. *)
Definition Fire (load : Loading) (p : ProjectManager) (t : Trigger)
           (arg : option error) : ua.result (ProjectManager * option error) :=
  match FindHandler (pm_state p) t with
  | None => ua.Returns (p, Some unhandledTrigger)
  | Some (Permit destination) =>
      let p := setState p destination in
      match stateRepresentation destination with
      | Some (Configure _ (Some h) _) => runHandler load h arg p
      | _ => ua.Returns (p, None)
      end
  | Some (InternalTransition action) => runHandler load action arg p
  end.

(** [Load()] *)
Definition Load (load : Loading) (p : ProjectManager) : ua.result ProjectManager :=
  match Fire load p triggerLoadProject None with
  | ua.Panics r => ua.Panics r
  | ua.Returns (p, Some err) =>
      match Fire load p triggerErrorOccured (Some err) with
      | ua.Panics r => ua.Panics r
      | ua.Returns (p, _) => ua.Returns p
      end
  | ua.Returns (p, None) =>
      match Fire load p triggerLoadSuccess None with
      | ua.Panics r => ua.Panics r
      | ua.Returns (p, _) => ua.Returns p
      end
  end.

(** [ReloadProject()] *)
Definition ReloadProject (load : Loading) (p : ProjectManager)
  : ua.result (ProjectManager * option error) :=
  if negb (CanFire (pm_state p) triggerReloadProject)
  then ua.Returns (p, None)
  else
    match Fire load p triggerReloadProject None with
    | ua.Panics r => ua.Panics r
    | ua.Returns (p, Some err) =>
        match Fire load p triggerErrorOccured (Some err) with
        | ua.Panics r => ua.Panics r
        | ua.Returns (p, _) => ua.Returns (p, Some err)
        end
    | ua.Returns (p, None) =>
        match Fire load p triggerLoadProject None with
        | ua.Panics r => ua.Panics r
        | ua.Returns (p, Some err) =>
            match Fire load p triggerErrorOccured (Some err) with
            | ua.Panics r => ua.Panics r
            | ua.Returns (p, _) => ua.Returns (p, Some err)
            end
        | ua.Returns (p, None) =>
            match Fire load p triggerLoadSuccess None with
            | ua.Panics r => ua.Panics r
            | ua.Returns (p, _) => ua.Returns (p, None)
            end
        end
    end.

(** [Unload()]: the plugins are stopped and the nodes dropped; the
    state of the machine stays. *)
Definition Unload (p : ProjectManager) : ProjectManager :=
  mkProjectManager (pm_state p) (currentError p) false
                   (pluginLog p ++ [StopEntries])%list.

(** [checkState()] *)
Definition checkState (p : ProjectManager) : option error :=
  if state_eqb (pm_state p) PROJECT_STATE_ERROR then currentError p else None.

(** [LoadPlugins()], [UnloadPlugins()], [ReloadPlugins()] *)
Definition firePlugins (t : Trigger) (load : Loading) (p : ProjectManager)
  : ua.result (ProjectManager * option error) :=
  match checkState p with
  | Some err => ua.Returns (p, Some err)
  | None =>
      if negb (CanFire (pm_state p) t) then ua.Returns (p, None)
      else Fire load p t None
  end.

Definition LoadPlugins := firePlugins triggerLoadPlugins.
Definition UnloadPlugins := firePlugins triggerUnloadPlugins.
Definition ReloadPlugins := firePlugins triggerReloadPlugins.

(** [GetCurrentError()] *)
Definition GetCurrentError (p : ProjectManager) : option error := currentError p.

(** [GetCurrentState()] *)
Definition GetCurrentState (p : ProjectManager) : ProjectManagerState := pm_state p.

(** [HasError()] *)
Definition HasError (p : ProjectManager) : option error :=
  match pm_state p with
  | PROJECT_STATE_ERROR => currentError p
  | PROJECT_STATE_UNLOADED => Some ErrProjectNotLoaded
  | _ => None
  end.

(** The public operations that change the manager; each takes what
    loading the project file would give at that moment. *)
Inductive Operation :=
| opLoad | opUnload | opReloadProject
| opLoadPlugins | opUnloadPlugins | opReloadPlugins.

Definition perform (op : Operation) (load : Loading) (p : ProjectManager)
  : ua.result ProjectManager :=
  let dropError (r : ua.result (ProjectManager * option error)) :=
    match r with
    | ua.Panics m => ua.Panics m
    | ua.Returns (p, _) => ua.Returns p
    end in
  match op with
  | opLoad => Load load p
  | opUnload => ua.Returns (Unload p)
  | opReloadProject => dropError (ReloadProject load p)
  | opLoadPlugins => dropError (LoadPlugins load p)
  | opUnloadPlugins => dropError (UnloadPlugins load p)
  | opReloadPlugins => dropError (ReloadPlugins load p)
  end.

(** The managers reached from a new one by the public operations. *)
Inductive reachable : ProjectManager -> Prop :=
| reachable_new : reachable NewProjectManager
| reachable_step : forall p op load p',
    reachable p -> perform op load p = ua.Returns p' -> reachable p'.

(* --------------------------------------------------------------- *)
(** *** The children of an ObjectNode (server/object_node.go) *)

(** A [*ObjectNode] held in the list of children, by its address:
    the list compares its elements as pointers. *)
Definition NodeRef := Z.

(** server/errors.go: [eris.New(msg.InvalidIndex)].  The text of
    the message is a constant of a package that is not among the
    sources; the error stands here under the name of the constant. *)
Definition ErrInvalidIndex : error := "msg.InvalidIndex".

(** The package gods (github.com/emirpasic/gods, lists/arraylist) is
    not among the sources; its list is given here as the package is
    published.  A [List] is a backing slice [elements], whose length
    is its capacity, and the number [size] of the elements in use,
    which are the first of the slice.  A slot holds an element or
    nil. *)
Record List := mkList {
  elements : list (option NodeRef);
  size : Z
}.

(** [arraylist.New()] *)
Definition New : List := mkList [] 0.

(** [float32(n)] for an [int] that is not negative: [n] rounded to
    24 significant bits, to the nearest and on a tie to the even
    one. *)
Definition float32 (n : Z) : Z :=
  if n <? 2 ^ 24 then n
  else
    let e := Z.log2 n - 23 in
    let q := Z.shiftr n e in
    let r := n - Z.shiftl q e in
    let half := Z.shiftl 1 (e - 1) in
    let q := if (r >? half) || ((r =? half) && Z.odd q) then q + 1 else q in
    Z.shiftl q e.

(** [list.resize(cap)]: a new slice of [cap] nil slots, with the
    old elements copied into it. *)
Definition resize (l : List) (cap : Z) : List :=
  mkList (firstn (Z.to_nat cap) (elements l)
          ++ repeat None (Z.to_nat cap - List.length (elements l)))%list
         (size l).

(** [list.growBy(n)], with [growthFactor = 2.0]: the new capacity is
    [int(growthFactor * float32(currentCapacity+n))]. *)
Definition growBy (l : List) (n : Z) : List :=
  let currentCapacity := len (elements l) in
  if size l + n >=? currentCapacity
  then resize l (2 * float32 (currentCapacity + n))
  else l.

(** [list.shrink()], with [shrinkFactor = 0.25]: the list shrinks to
    its size when that is at most
    [int(float32(currentCapacity)*shrinkFactor)]. *)
Definition shrink (l : List) : List :=
  let currentCapacity := len (elements l) in
  if size l <=? float32 currentCapacity / 4 then resize l (size l) else l.

Definition withinRange (l : List) (index : Z) : bool :=
  (index >=? 0) && (index <? size l).

(** [list.Add(value)] *)
Definition Add (l : List) (value : NodeRef) : List :=
  let l := growBy l 1 in
  mkList (setAt (elements l) (Z.to_nat (size l)) (Some value)) (size l + 1).

(** [list.Remove(index)]: the slot is set to nil, the elements after
    it are copied one slot to the left, and the list may shrink.  The
    slot that was the last in use keeps what it held. *)
Definition Remove (l : List) (index : Z) : List :=
  if negb (withinRange l index) then l
  else
    let elements := setAt (elements l) (Z.to_nat index) None in
    let elements :=
      splice elements index (len elements)
             (sub elements (index + 1) (size l)) in
    shrink (mkList elements (size l - 1)).

(** [list.Insert(index, value)]: at the size of the list it appends,
    further out of range it does nothing. *)
Definition Insert (l : List) (index : Z) (value : NodeRef) : List :=
  if negb (withinRange l index) then
    if index =? size l then Add l value else l
  else
    let l := growBy l 1 in
    let size := size l + 1 in
    let elements := elements l in
    let elements :=
      splice elements (index + 1) (len elements)
             (sub elements index (size - 1)) in
    let elements := splice elements index (len elements) [Some value] in
    mkList elements size.

(** [list.IndexOf(value)]: the loop ranges over the whole backing
    slice, the slots beyond the size included. *)
Fixpoint IndexOf_from (i : Z) (elements : list (option NodeRef))
         (value : NodeRef) : Z :=
  match elements with
  | [] => -1
  | element :: rest =>
      if match element with Some x => x =? value | None => false end
      then i
      else IndexOf_from (i + 1) rest value
  end.

Definition IndexOf (l : List) (value : NodeRef) : Z :=
  if size l =? 0 then -1 else IndexOf_from 0 (elements l) value.

(** [list.Values()]: a copy of the elements in use. *)
Definition Values (l : List) : list (option NodeRef) :=
  sub (elements l) 0 (size l).

(** [ObjectNode.MoveBefore(node, target)]: the children afterwards
    and the error returned. *)
Definition MoveBefore (childs : List) (node target : NodeRef)
  : List * option error :=
  let index := IndexOf childs node in
  if index <? 0 then (childs, Some ErrInvalidIndex)
  else
    let targetIndex := IndexOf childs target in
    if targetIndex <? 0 then (childs, Some ErrInvalidIndex)
    else if negb (index =? targetIndex) then
      let childs := Remove childs index in
      let targetIndex := if index <? targetIndex then targetIndex - 1
                         else targetIndex in
      (Insert childs targetIndex node, None)
    else (childs, None).

(** [ObjectNode.MoveToLast(node)] *)
Definition MoveToLast (childs : List) (node : NodeRef)
  : List * option error :=
  let index := IndexOf childs node in
  if index <? 0 then (childs, Some ErrInvalidIndex)
  else (Add (Remove childs index) node, None).

(** [ObjectNode.RemoveChild(child)], on the list of children; the
    calls of the plugin and of [Dispose] leave the list alone. *)
Definition RemoveChild (childs : List) (child : NodeRef)
  : List * option error :=
  let index := IndexOf childs child in
  if index <? 0 then (childs, Some ErrInvalidIndex)
  else (Remove childs index, None).

(** An ObjectNode by what [GetChildByPath] reads of it: the name of
    its browse name and its children. *)
#[local] Unset Elimination Schemes.
Inductive ObjectTree :=
| TreeNode (BrowseName : string) (childs : list ObjectTree).
#[local] Set Elimination Schemes.

Definition NameOf (n : ObjectTree) : string :=
  match n with TreeNode name _ => name end.

Definition ChildsOf (n : ObjectTree) : list ObjectTree :=
  match n with TreeNode _ childs => childs end.

(** server/consts.go *)
Definition PathSeparator : string := ".".

(** [strings.SplitN(path, PathSeparator, 2)]: the text before the
    first separator and, if there is a separator, the text after
    it. *)
Definition SplitN2 (path : string) : string * option string :=
  let i := strings.Index path PathSeparator in
  if i =? -1 then (path, None)
  else (strings.slice path 0 i, Some (strings.slice_from path (i + 1))).

(** [ObjectNode.GetChildByPath(path)]; [None] is the nil node. *)
Fixpoint GetChildByPath (n : ObjectTree) (path : string) {struct n}
  : option ObjectTree :=
  match n with
  | TreeNode _ childs =>
      if strings.len path >? 0 then
        match SplitN2 path with
        | (head, None) =>
            find (fun child => String.eqb (NameOf child) head) childs
        | (head, Some rest) =>
            (fix scan (cs : list ObjectTree) : option ObjectTree :=
               match cs with
               | [] => None
               | child :: cs' =>
                   if String.eqb (NameOf child) head
                   then GetChildByPath child rest
                   else scan cs'
               end) childs
        end
      else None
  end.

(* --------------------------------------------------------------- *)
(** *** NodeType (server/node.go) *)

(** [type NodeType int64] *)
Definition NodeType := Z.

Definition NodeTypeRoot : NodeType := 1.
Definition NodeTypeCategoryConnectivity : NodeType := 2.
Definition NodeTypeChannel : NodeType := 4.
Definition NodeTypeDevice : NodeType := 8.
Definition NodeTypeGroup : NodeType := 16.
Definition NodeTypeTag : NodeType := 32.
Definition NodeTypeCategoryDataLogger : NodeType := 1024.
Definition NodeTypeDataLogger : NodeType := 2048.
Definition NodeTypeCategoryAlarms : NodeType := 32768.

(** [NodeType.String()] *)
Definition NodeType_String (n : NodeType) : string :=
  if n =? NodeTypeRoot then "Root"
  else if n =? NodeTypeCategoryConnectivity then "Connectivity"
  else if n =? NodeTypeChannel then "Channel"
  else if n =? NodeTypeDevice then "Device"
  else if n =? NodeTypeGroup then "Group"
  else if n =? NodeTypeTag then "Tag"
  else if n =? NodeTypeCategoryDataLogger then "Data Loggers"
  else if n =? NodeTypeDataLogger then "Data Logger"
  else if n =? NodeTypeCategoryAlarms then "Alarms"
  else "Unknown".

(** [NodeType.Description()] *)
Definition NodeType_Description (n : NodeType) : string :=
  if n =? NodeTypeRoot then "Root"
  else if n =? NodeTypeCategoryConnectivity then "Connectivity"
  else if n =? NodeTypeChannel then "Channel"
  else if n =? NodeTypeDevice then "Device"
  else if n =? NodeTypeGroup then "Group"
  else if n =? NodeTypeCategoryDataLogger then "Data Loggers"
  else if n =? NodeTypeDataLogger then "Data Logger"
  else if n =? NodeTypeCategoryAlarms then "Alarms"
  else "Unknown".

(** [NodeType.IsRoot()], [NodeType.IsTag()] *)
Definition NodeType_IsRoot (n : NodeType) : bool := n =? NodeTypeRoot.
Definition NodeType_IsTag (n : NodeType) : bool := n =? NodeTypeTag.

(** [NodeType.IsCategory()]: a [case] of a Go [switch] does not fall
    through to the next one; the two cases without a body leave the
    switch, and the function returns false after it. *)
Definition NodeType_IsCategory (n : NodeType) : bool :=
  if n =? NodeTypeCategoryAlarms then false
  else if n =? NodeTypeCategoryDataLogger then false
  else if n =? NodeTypeCategoryConnectivity then true
  else false.

(* --------------------------------------------------------------- *)
(** *** Access levels in words; properties of an ObjectNode *)

(** [VariableNode.GetAccessLevelString()], on the access level of the
    node. *)
Definition GetAccessLevelString (level : Z) : string :=
  let has (bit : Z) : bool := Z.land level bit =? bit in
  let levelStrings : list string := [] in
  let levelStrings := if has ua.AccessLevelsNone
                      then (levelStrings ++ ["None"])%list else levelStrings in
  let levelStrings := if has ua.AccessLevelsCurrentRead
                      then (levelStrings ++ ["Read"])%list else levelStrings in
  let levelStrings := if has ua.AccessLevelsCurrentWrite
                      then (levelStrings ++ ["Write"])%list else levelStrings in
  let levelStrings := if has ua.AccessLevelsHistoryRead
                      then (levelStrings ++ ["HistoryRead"])%list else levelStrings in
  let levelStrings := if has ua.AccessLevelsHistoryWrite
                      then (levelStrings ++ ["HistoryWrite"])%list else levelStrings in
  let levelStrings := if has ua.AccessLevelsSemanticChange
                      then (levelStrings ++ ["SemanticChange"])%list else levelStrings in
  let levelStrings := if has ua.AccessLevelsStatusWrite
                      then (levelStrings ++ ["StatusWrite"])%list else levelStrings in
  let levelStrings := if has ua.AccessLevelsTimestampWrite
                      then (levelStrings ++ ["TimestampWrite"])%list else levelStrings in
  strings.Join levelStrings "|".

(** A [VariableNode] held as a property of an ObjectNode, by what
    the methods below read and write of it: the name of its browse
    name, its value and its owner. *)
Record PropertyNode := mkPropertyNode {
  prop_Name : string;
  prop_Value : ua.Variant;
  prop_Owner : option NodeRef
}.

(** [map[string]*VariableNode]: a key is absent ([None]) or holds a
    pointer, which may be nil ([Some None]). *)
Definition PropertyMap := string -> option (option PropertyNode).

(** [properties[name] = p] *)
Definition setProperty (m : PropertyMap) (name : string)
           (p : option PropertyNode) : PropertyMap :=
  fun k => if String.eqb k name then Some p else m k.

(** server/consts.go *)
Definition PropertyNameValue : string := "_Value".

(** server/errors.go; each error stands under the name of the
    constant of its message. *)
Definition ErrFieldExisted : error := "msg.FieldExisted".
Definition ErrInvalidField : error := "msg.InvalidField".

(** [ObjectNode.GetProperty(propName)]: the pointer and [found]. *)
Definition GetProperty (properties : PropertyMap) (propName : string)
  : option PropertyNode * bool :=
  match properties propName with
  | Some propNode => (propNode, true)
  | None => (None, false)
  end.

(** [ObjectNode.MustGetProperty(propName)] of the node named
    [nodeName] whose node id prints as [nodeID]: [log.Panicf] when
    the property is not found or is nil. *)
Definition MustGetProperty (nodeName nodeID : string)
           (properties : PropertyMap) (propName : string)
  : ua.result PropertyNode :=
  let '(prop, ok) := GetProperty properties propName in
  match (if negb ok then None else prop) with
  | None => ua.Panics ("property '" ++ propName ++ "' not found in node Name: "
                         ++ nodeName ++ ", ID: " ++ nodeID)
  | Some prop => ua.Returns prop
  end.

Section Properties.

(** [ObjectNode.CheckPropertyValue(name, value)], which asks the
    plugin of the node: whether the value is valid, and the error of
    the field. *)
Variable CheckPropertyValue : string -> ua.Variant -> bool * option error.

(** [ObjectNode.AddProperty(propNode)] on the node at [self]: the
    properties afterwards and the error returned; a nil [propNode] is
    dereferenced. *)
Definition AddProperty (self : NodeRef) (properties : PropertyMap)
           (propNode : option PropertyNode)
  : ua.result (PropertyMap * option error) :=
  match propNode with
  | None => ua.Panics "invalid memory address or nil pointer dereference"
  | Some node =>
      match properties (prop_Name node) with
      | Some _ => ua.Returns (properties, Some ErrFieldExisted)
      | None =>
          let checked : option error :=
            if negb (String.eqb (prop_Name node) PropertyNameValue) then
              let '(valid, fe) :=
                CheckPropertyValue (prop_Name node) (prop_Value node) in
              if negb valid then Some ErrInvalidField else fe
            else None in
          match checked with
          | Some err => ua.Returns (properties, Some err)
          | None =>
              (* propNode.SetOwner(n) *)
              let node := mkPropertyNode (prop_Name node) (prop_Value node)
                                         (Some self) in
              ua.Returns (setProperty properties (prop_Name node) (Some node),
                          None)
          end
      end
  end.

End Properties.

(* --------------------------------------------------------------- *)
(** *** Browse paths *)

Section BrowsePaths.

(** What the path walk asks of the repository and is not among the
    sources: the node index and the subtype test of the
    NamespaceManager, the namespace table of the server, and three
    methods of a node. *)
Variable FindNode : option ua.NodeID -> option Node.
Variable IsSubtype : option ua.NodeID -> option ua.NodeID -> bool.
Variable NamespaceUris : list string.
Variable GetReferences : Node -> list ua.Reference.
Variable GetBrowseName : Node -> ua.QualifiedName.
Variable GetNodeID : Node -> option ua.NodeID.

(** The loop of [target] over the references of the node. *)
Fixpoint targetLoop (element : ua.RelativePathElement) (refs : list ua.Reference)
         (targets : list ua.ExpandedNodeID) : list ua.ExpandedNodeID :=
  match refs with
  | [] => targets
  | r :: rest =>
      let referenceTypeID := ua.rpe_ReferenceTypeID element in
      if negb (Bool.eqb (ua.ref_IsInverse r) (ua.rpe_IsInverse element)) then
        targetLoop element rest targets
      else if negb (match referenceTypeID with None => true | Some _ => false end
                    || ua.NodeID_same (ua.ref_ReferenceTypeID r) referenceTypeID
                    || (ua.rpe_IncludeSubtypes element
                        && IsSubtype (ua.ref_ReferenceTypeID r) referenceTypeID)) then
        targetLoop element rest targets
      else
        match FindNode (ua.ToNodeID (ua.ref_TargetID r) NamespaceUris) with
        | None => targetLoop element rest targets
        | Some t =>
            if negb (ua.QualifiedName_eqb (ua.rpe_TargetName element)
                                          (GetBrowseName t)) then
              targetLoop element rest targets
            else targetLoop element rest (targets ++ [ua.ref_TargetID r])
        end
  end.

(** [srv.target(nodeID, element)]: the slice, nil as [None], and the
    error. *)
Definition target (nodeID : option ua.NodeID) (element : ua.RelativePathElement)
  : option (list ua.ExpandedNodeID) * option ua.StatusCode :=
  match FindNode nodeID with
  | None => (None, Some ua.BadNodeIDUnknown)
  | Some node =>
      let refs := GetReferences node in
      let targets := targetLoop element refs [] in
      if len targets =? 0 then (None, Some ua.BadNoMatch)
      else (Some targets, None)
  end.

(** The elements of a slice that may be nil. *)
Definition elems {A} (s : option (list A)) : list A :=
  match s with Some l => l | None => [] end.

(** [srv.follow(nodeID, elements)] *)
Fixpoint follow (nodeID : option ua.NodeID)
         (elements : list ua.RelativePathElement)
  : option (list ua.BrowsePathTarget) * option ua.StatusCode :=
  match elements with
  | [] => (None, Some ua.BadNothingToDo)
  | [e] =>
      match target nodeID e with
      | (_, Some err2) => (None, Some err2)
      | (ns, None) =>
          (Some (map (fun n => ua.mkBrowsePathTarget n ua.MaxUint32) (elems ns)),
           None)
      end
  | e :: nextElements =>
      match target nodeID e with
      | (_, Some err3) => (None, Some err3)
      | (ns2, None) =>
          let nextID :=
            match elems ns2 with
            | n :: _ => n
            | [] => ua.mkExpandedNodeID ua.zeroIDType 0 "" None
            end in
          match FindNode (ua.ToNodeID nextID NamespaceUris) with
          | Some nextNode => follow (GetNodeID nextNode) nextElements
          | None =>
              if len nextElements =? 0 then
                (Some [ua.mkBrowsePathTarget nextID ua.MaxUint32], None)
              else
                (Some [ua.mkBrowsePathTarget nextID
                         (ua.uint32 (len nextElements))], None)
          end
      end
  end.

(** The task that [handleTranslateBrowsePathsToNodeIds] submits for
    the browse path [d]: the result it stores. *)
Definition translateBrowsePath (d : ua.BrowsePath) : ua.BrowsePathResult :=
  if len (ua.RelativePath_Elements d) =? 0 then
    ua.mkBrowsePathResult ua.BadNothingToDo []
  else if existsb (fun element =>
                     String.eqb (ua.QualifiedName_Name (ua.rpe_TargetName element)) "")
                  (ua.RelativePath_Elements d) then
    ua.mkBrowsePathResult ua.BadBrowseNameInvalid []
  else
    let '(targets, err1) := follow (ua.StartingNode d) (ua.RelativePath_Elements d) in
    let errIs (code : ua.StatusCode) : bool :=
      match err1 with Some c => c =? code | None => false end in
    if errIs ua.BadNodeIDUnknown then ua.mkBrowsePathResult ua.BadNodeIDUnknown []
    else if errIs ua.BadNothingToDo then ua.mkBrowsePathResult ua.BadNothingToDo []
    else if errIs ua.BadNoMatch then ua.mkBrowsePathResult ua.BadNoMatch []
    else
      match targets with
      | Some ts =>
          if len ts >? 0 then ua.mkBrowsePathResult ua.Good ts
          else ua.mkBrowsePathResult ua.BadNoMatch ts
      | None => ua.mkBrowsePathResult ua.BadNoMatch []
      end.

End BrowsePaths.

(* --------------------------------------------------------------- *)
(** *** The full path of a node *)

(** server/consts.go *)
Definition PropertyNameNodeType : string := "_NodeType".

(** An ObjectNode by what [GetFullPath] reads of it: the name of its
    browse name, its properties and its parent, nil as [None]. *)
#[local] Unset Elimination Schemes.
Inductive ObjectChain :=
| ChainNode (BrowseName : string) (properties : PropertyMap)
            (parent : option ObjectChain).
#[local] Set Elimination Schemes.

Definition PropertiesOf (n : ObjectChain) : PropertyMap :=
  match n with ChainNode _ properties _ => properties end.

(** [ObjectNode.GetFullPath()]: [parentNodeType.GetValue()] on a nil
    property and the type assertion [.(int64)] on another value
    panic. *)
Fixpoint GetFullPath (n : ObjectChain) : ua.result string :=
  match n with
  | ChainNode name _ None => ua.Returns (PathSeparator ++ name)
  | ChainNode name _ (Some parent) =>
      match GetProperty (PropertiesOf parent) PropertyNameNodeType with
      | (parentNodeType, true) =>
          match parentNodeType with
          | None =>
              ua.Panics "invalid memory address or nil pointer dereference"
          | Some property =>
              match prop_Value property with
              | ua.int64_ nodeType =>
                  if negb (nodeType =? NodeTypeRoot) then
                    match GetFullPath parent with
                    | ua.Returns path =>
                        ua.Returns (path ++ PathSeparator ++ name)
                    | ua.Panics reason => ua.Panics reason
                    end
                  else ua.Returns name
              | _ => ua.Panics "interface conversion"
              end
          end
      | (_, false) => ua.Returns (PathSeparator ++ name)
      end
  end.

(* --------------------------------------------------------------- *)
(** *** Names (server/utils.go) *)

(** server/errors.go *)
Definition ErrFieldRequired : error := "msg.FieldRequired".

(** The four characters that [regex_InvalidName] matches, each an
    alternative of its group INVALID: the dot, the slash, the
    backslash and the colon. *)
Definition invalidChar (c : ascii) : bool :=
  Ascii.eqb c "." || Ascii.eqb c "/" || Ascii.eqb c "\" || Ascii.eqb c ":".

(** [regex_InvalidName.FindAllStringSubmatchIndex(value, -1)], for
    the text from the byte [i] on: an entry for each match from left
    to right, with the bounds of the match and the bounds of its
    group.  Each alternative is one character of one byte, and such a
    byte is never a part of the encoding of another character, so the
    matches are the bytes that are one of the four. *)
Fixpoint FindAllStringSubmatchIndex (i : Z) (value : string) : list (list Z) :=
  match value with
  | EmptyString => []
  | String c rest =>
      if invalidChar c
      then [i; i + 1; i; i + 1] :: FindAllStringSubmatchIndex (i + 1) rest
      else FindAllStringSubmatchIndex (i + 1) rest
  end.

(** [IsValidName(value)]; the names of the subexpressions are the
    empty name of the whole match and INVALID, so that the loop acts
    at [i = 1] only. *)
Definition IsValidName (value : string) : option error :=
  if strings.len value =? 0 then Some ErrFieldRequired
  else
    let matchIndexs := FindAllStringSubmatchIndex 0 value in
    if len matchIndexs >? 0 then
      let first := nth 0 matchIndexs [] in
      let i := 1 in
      if (nth (Z.to_nat (i * 2)) first 0 >=? 0)
         && (nth (Z.to_nat (i * 2 + 1)) first 0 >=? 1) then
        let invalidChar :=
          strings.slice value (nth (Z.to_nat (i * 2)) first 0)
                        (nth (Z.to_nat (i * 2 + 1)) first 0) in
        Some ("the name can't contains '" ++ invalidChar ++ "'")
      else None
    else None.

(* --------------------------------------------------------------- *)
(** *** Wildcards (server/utils.go) *)

(** The runes of the star and of the question mark. *)
Definition star : Z := 42.
Definition question : Z := 63.

(** [m[i][j]] and [m[i][j] = v] on a [[][]bool]; every index that
    [WildcardMatch] uses lies within the bounds of its matrix. *)
Definition getCell (m : list (list bool)) (i j : nat) : bool :=
  nth j (nth i m []) false.

Definition setCell (m : list (list bool)) (i j : nat) (v : bool)
  : list (list bool) :=
  setAt m i (setAt (nth i m []) j v).

(** [for k := from; k <= to; k++ { body }] on the state [m]. *)
Definition forUpTo {S} (from to : nat) (body : S -> nat -> S) (m : S) : S :=
  fold_left body (seq from (to + 1 - from)) m.

(** [WildcardMatch(s, p)], from its third line on: the matrix that
    is filled for the runes of the input and of the pattern, and the
    cell that is returned. *)
Definition matchRunes (runeInput runePattern : list Z) : bool :=
  let lenInput := List.length runeInput in
  let lenPattern := List.length runePattern in
  let isMatchingMatrix := repeat (repeat false (lenPattern + 1)) (lenInput + 1) in
  let isMatchingMatrix := setCell isMatchingMatrix 0 0 true in
  let isMatchingMatrix :=
    forUpTo 1 (lenInput - 1)
            (fun m i => setCell m i 0 false) isMatchingMatrix in
  let isMatchingMatrix :=
    if (0 <? lenPattern)%nat then
      if nth 0 runePattern 0 =? star then setCell isMatchingMatrix 0 1 true
      else isMatchingMatrix
    else isMatchingMatrix in
  let isMatchingMatrix :=
    forUpTo 2 lenPattern
            (fun m j =>
               if nth (j - 1) runePattern 0 =? star
               then setCell m 0 j (getCell m 0 (j - 1))
               else m) isMatchingMatrix in
  let isMatchingMatrix :=
    forUpTo 1 lenInput
      (fun m i =>
         forUpTo 1 lenPattern
           (fun m j =>
              let m :=
                if nth (j - 1) runePattern 0 =? star
                then setCell m i j (getCell m (i - 1) j || getCell m i (j - 1))
                else m in
              if (nth (j - 1) runePattern 0 =? question)
                 || (nth (i - 1) runeInput 0 =? nth (j - 1) runePattern 0)
              then setCell m i j (getCell m (i - 1) (j - 1))
              else m) m) isMatchingMatrix in
  getCell isMatchingMatrix lenInput lenPattern.

(** [WildcardMatch(s, p)] *)
Definition WildcardMatch (s p : string) : bool :=
  let runeInput := utf8.runes s in
  let runePattern := utf8.runes p in
  matchRunes runeInput runePattern.

End server.

(* ================================================================= *)
(** * The statements of the specification *)

Module spec.

(** The transition table the specification gives for the project
    manager's state machine, with the trigger ErrorOccurred as the code
    configures it: from Loading only. *)
Definition transition (s : server.ProjectManagerState) (t : server.Trigger)
  : option server.ProjectManagerState :=
  match s, t with
  | server.PROJECT_STATE_UNLOADED, server.triggerLoadProject =>
      Some server.PROJECT_STATE_LOADING
  | server.PROJECT_STATE_LOADING, server.triggerLoadSuccess =>
      Some server.PROJECT_STATE_LOADED
  | server.PROJECT_STATE_LOADING, server.triggerErrorOccured =>
      Some server.PROJECT_STATE_ERROR
  | server.PROJECT_STATE_LOADED, server.triggerReloadProject =>
      Some server.PROJECT_STATE_RELOAD
  | server.PROJECT_STATE_ERROR, server.triggerReloadProject =>
      Some server.PROJECT_STATE_RELOAD
  | server.PROJECT_STATE_RELOAD, server.triggerLoadProject =>
      Some server.PROJECT_STATE_LOADING
  | server.PROJECT_STATE_LOADED, server.triggerLoadPlugins
  | server.PROJECT_STATE_LOADED, server.triggerUnloadPlugins
  | server.PROJECT_STATE_LOADED, server.triggerReloadPlugins =>
      Some server.PROJECT_STATE_LOADED
  | _, _ => None
  end.

(** The state a trigger leads to by the configuration of the code:
    the destination of a permitted transition, the state itself for an
    internal one, none for an unhandled trigger. *)
Definition destination (s : server.ProjectManagerState) (t : server.Trigger)
  : option server.ProjectManagerState :=
  match server.FindHandler s t with
  | Some (server.Permit d) => Some d
  | Some (server.InternalTransition _) => Some s
  | None => None
  end.

(** The state after [Fire], when it returns. *)
Definition stateAfter (r : ua.result (server.ProjectManager * option server.error))
  : option server.ProjectManagerState :=
  match r with
  | ua.Returns (p, _) => Some (server.pm_state p)
  | ua.Panics _ => None
  end.

(** The roles [roles] grant the permission [perm] through the role
    permissions [rps]: one of them is the permission of one of the
    roles and has the bit. *)
Definition grants (roles : list ua.NodeID) (rps : list ua.RolePermissionType)
           (perm : Z) : bool :=
  existsb (fun role =>
             existsb (fun rp => ua.NodeID_eqb (ua.RoleID rp) role
                                && negb (Z.land (ua.Permissions rp) perm =? 0))
                     rps)
          roles.

(** The bits of the access level that the roles do not let through. *)
Definition deniedBits (roles : list ua.NodeID) (rps : list ua.RolePermissionType) : Z :=
  Z.lor (Z.lor (if grants roles rps ua.PermissionTypeRead
                then 0 else ua.AccessLevelsCurrentRead)
               (if grants roles rps ua.PermissionTypeWrite
                then 0 else ua.AccessLevelsCurrentWrite))
        (if grants roles rps ua.PermissionTypeReadHistory
         then 0 else ua.AccessLevelsHistoryRead).

(** What holds of every project manager between two public
    operations. *)
Definition settled (p : server.ProjectManager) : Prop :=
  match server.pm_state p with
  | server.PROJECT_STATE_UNLOADED => server.currentError p = None
  | server.PROJECT_STATE_LOADED => True
  | server.PROJECT_STATE_ERROR => exists err, server.currentError p = Some err
  | server.PROJECT_STATE_LOADING | server.PROJECT_STATE_RELOAD => False
  end.

(** The variant type and array-ness of a supplied value, in the words
    of the specification: "the supplied value's variant type", by the
    table of [NewJsonVariant] (ua/variant.go), an array having the type
    of its elements; nil has the type Null. *)
Definition variantTypeOf (v : ua.Variant) : Z :=
  match v with
  | ua.nil_ => ua.VariantTypeNull
  | ua.bool_ _ | ua.bools _ => ua.VariantTypeBoolean
  | ua.int8_ _ | ua.int8s _ => ua.VariantTypeSByte
  | ua.uint8_ _ | ua.uint8s _ => ua.VariantTypeByte
  | ua.int16_ _ | ua.int16s _ => ua.VariantTypeInt16
  | ua.uint16_ _ | ua.uint16s _ => ua.VariantTypeUInt16
  | ua.int32_ _ | ua.int32s _ => ua.VariantTypeInt32
  | ua.uint32_ _ | ua.uint32s _ => ua.VariantTypeUInt32
  | ua.int64_ _ | ua.int64s _ => ua.VariantTypeInt64
  | ua.uint64_ _ | ua.uint64s _ => ua.VariantTypeUInt64
  | ua.float32_ _ | ua.float32s _ => ua.VariantTypeFloat
  | ua.float64_ _ | ua.float64s _ => ua.VariantTypeDouble
  | ua.string_ _ | ua.strings_ _ => ua.VariantTypeString
  | ua.Time_ _ | ua.Times _ => ua.VariantTypeDateTime
  | ua.UUID_ _ | ua.UUIDs _ => ua.VariantTypeGUID
  | ua.ByteString_ _ | ua.ByteStrings _ => ua.VariantTypeByteString
  | ua.XMLElement_ _ | ua.XMLElements _ => ua.VariantTypeXMLElement
  | ua.NodeID_v _ | ua.NodeIDs _ => ua.VariantTypeNodeID
  | ua.ExpandedNodeID_ _ | ua.ExpandedNodeIDs _ => ua.VariantTypeExpandedNodeID
  | ua.StatusCode_ _ | ua.StatusCodes _ => ua.VariantTypeStatusCode
  | ua.QualifiedName_ _ | ua.QualifiedNames _ => ua.VariantTypeQualifiedName
  | ua.LocalizedText_ _ | ua.LocalizedTexts _ => ua.VariantTypeLocalizedText
  | ua.ExtensionObject_ _ | ua.ExtensionObjects _ => ua.VariantTypeExtensionObject
  | ua.DataValue_ _ | ua.DataValues _ => ua.VariantTypeDataValue
  | ua.Variants _ => ua.VariantTypeVariant
  | ua.DiagnosticInfo_ _ | ua.DiagnosticInfos _ => ua.VariantTypeDiagnosticInfo
  end.

Definition isArray (v : ua.Variant) : bool :=
  match v with
  | ua.bools _ | ua.int8s _ | ua.uint8s _ | ua.int16s _ | ua.uint16s _
  | ua.int32s _ | ua.uint32s _ | ua.int64s _ | ua.uint64s _
  | ua.float32s _ | ua.float64s _ | ua.strings_ _ | ua.Times _ | ua.UUIDs _
  | ua.ByteStrings _ | ua.XMLElements _ | ua.NodeIDs _ | ua.ExpandedNodeIDs _
  | ua.StatusCodes _ | ua.QualifiedNames _ | ua.LocalizedTexts _
  | ua.ExtensionObjects _ | ua.DataValues _ | ua.Variants _
  | ua.DiagnosticInfos _ => true
  | _ => false
  end.





(** The numeric variant types, for which a deadband is meaningful. *)
Definition numericType (t : Z) : Prop :=
  t = ua.VariantTypeSByte \/ t = ua.VariantTypeByte \/
  t = ua.VariantTypeInt16 \/ t = ua.VariantTypeInt32 \/ t = ua.VariantTypeInt64 \/
  t = ua.VariantTypeUInt16 \/ t = ua.VariantTypeUInt32 \/ t = ua.VariantTypeUInt64 \/
  t = ua.VariantTypeFloat \/ t = ua.VariantTypeDouble.

(** A Read request on the attribute Value "resolves to a VariableNode
    the user may browse": the data encoding is the default one, the
    attribute is Value, the node manager resolves the NodeID to the
    variable [n1], and the user's role permissions on it pass the
    Browse test. *)
Definition resolves (FindNode : ua.NodeID -> option server.Node)
           (IsUserPermitted : list ua.RolePermissionType -> Z -> bool)
           (ctx : server.Context) (r : ua.ReadValueID)
           (n1 : server.VariableNode) : Prop :=
  ua.QualifiedName_Name (ua.rv_DataEncoding r) = ""
  /\ ua.rv_AttributeID r = ua.AttributeIDValue
  /\ FindNode (ua.rv_NodeID r) = Some (server.Variable_ n1)
  /\ IsUserPermitted (server.GetUserRolePermissions (server.Variable_ n1) ctx)
                     ua.PermissionTypeBrowse = true.

(** A create request for a monitored item "of kind Value" on the
    variable [n2], with a DataChangeFilter whose DeadbandType is
    [deadbandType]. *)
Definition monitorsValue (FindNode : ua.NodeID -> option server.Node)
           (item : server.MonitoredItemCreateRequest)
           (n2 : server.VariableNode) (deadbandType : Z) : Prop :=
  FindNode (ua.rv_NodeID (server.ItemToMonitor item)) = Some (server.Variable_ n2)
  /\ ua.rv_AttributeID (server.ItemToMonitor item) = ua.AttributeIDValue
  /\ exists trigger deadbandValue,
      server.RequestedFilter item
      = Some (server.DataChangeFilter trigger deadbandType deadbandValue).

(** The item passes the tests that come before the filter is looked
    at: the variable is readable, by the user too, and the index range
    is valid for its data type and rank. *)
Definition reachesFilter (FindVariantType : ua.NodeID -> Z)
           (ctx : server.Context) (item : server.MonitoredItemCreateRequest)
           (n2 : server.VariableNode) : Prop :=
  Z.land (server.vn_AccessLevel n2) ua.AccessLevelsCurrentRead <> 0
  /\ Z.land (server.UserAccessLevel n2 ctx) ua.AccessLevelsCurrentRead <> 0
  /\ server.validateIndexRange FindVariantType
       (ua.rv_IndexRange (server.ItemToMonitor item))
       (server.vn_DataType n2) (server.vn_ValueRank n2) = ua.Good.

(** A Write request on the attribute Value of the variable [n1] "that
    passes the access-level gates": the node manager resolves the
    NodeID to [n1], the user may browse it, and CurrentWrite is in the
    access level of the node and in the effective one of the user. *)
Definition passesGates (FindNode : ua.NodeID -> option server.Node)
           (IsUserPermitted : list ua.RolePermissionType -> Z -> bool)
           (ctx : server.Context) (w : ua.WriteValue)
           (n1 : server.VariableNode) : Prop :=
  FindNode (ua.wv_NodeID w) = Some (server.Variable_ n1)
  /\ IsUserPermitted (server.GetUserRolePermissions (server.Variable_ n1) ctx)
                     ua.PermissionTypeBrowse = true
  /\ ua.wv_AttributeID w = ua.AttributeIDValue
  /\ Z.land (server.vn_AccessLevel n1) ua.AccessLevelsCurrentWrite <> 0
  /\ Z.land (server.UserAccessLevel n1 ctx) ua.AccessLevelsCurrentWrite <> 0.

(** The value the check is made on: the supplied one after the two
    coercions. *)
Definition coerced (destType destRank : Z) (v : ua.Variant) : ua.Variant :=
  server.coerceToByteString destType destRank
    (server.coerceToBytes destType destRank v).

(** A NodeID "of the four variants (numeric, string, GUID, opaque)"
    with a namespace index in 0..65535: a value the constructors
    [NewNodeIDNumeric], [NewNodeIDString], [NewNodeIDGUID] and
    [NewNodeIDOpaque] make from a [uint16], and a [uint32] or a UUID of
    16 bytes. *)
Definition wellFormedNodeID (n : ua.NodeID) : Prop :=
  0 <= ua.GetNamespaceIndex n <= 65535 /\
  match n with
  | ua.NodeIDNumeric t _ id => t = ua.IDTypeNumeric /\ 0 <= id < 2 ^ 32
  | ua.NodeIDString t _ _ => t = ua.IDTypeString
  | ua.NodeIDGUID t _ id => t = ua.IDTypeGUID /\ List.length id = 16%nat
  | ua.NodeIDOpaque t _ _ => t = ua.IDTypeOpaque
  end.

(** The null NodeID, "i=0". *)
Definition nullNodeID : ua.NodeID := ua.NewNodeIDNumeric 0 0.

(** The text [String] prints after the namespace, for each of the
    four variants. *)
Definition printedBody (n : ua.NodeID) : string :=
  match n with
  | ua.NodeIDNumeric _ _ id => "i=" ++ fmt.FormatUint id
  | ua.NodeIDString _ _ id => "s=" ++ id
  | ua.NodeIDGUID _ _ id => "g=" ++ uuid.String_ id
  | ua.NodeIDOpaque _ _ id => "b=" ++ base64.EncodeToString (bytes_of_string id)
  end.

(** A rune that is a Unicode scalar value: in range and no surrogate
    half.  These are the runes the decoder produces and the ones the
    encoder writes as they are. *)
Definition validRune (r : Z) : Prop :=
  0 <= r < utf8.surrogateMin \/ utf8.surrogateMax < r <= utf8.MaxRune.

(** A string that is well-formed UTF-8: converting it to runes and
    back gives the same bytes. *)
Definition validUTF8 (s : string) : Prop :=
  utf8.string_of_runes (utf8.runes s) = s.

(** An index range of one dimension: [strings.Split(r, ",")] gives a
    single piece. *)
Definition oneDimension (r : string) : Prop :=
  List.length (strings.Split r ",") = 1%nat.

(** The incoming value goes through the conversion to runes and back
    unchanged: it is no string, or the whole value is replaced, or
    the string is well-formed UTF-8. *)
Definition textIntact (r : string) (w : ua.Variant) : Prop :=
  match w with
  | ua.string_ s => r = "" \/ validUTF8 s
  | _ => True
  end.

(** What is read back of a written value [w]: its value and status
    code, under the two timestamps of the write and no picoseconds. *)
Definition readBack (w : ua.DataValue) (now : server.Clock) : ua.DataValue :=
  ua.NewDataValue (ua.Value w) (ua.StatusCodeOf w) (fst now) 0 (snd now) 0.

(** Two values of the same dynamic Go type: the same variant type,
    both arrays or both scalars.  It is what a type assertion
    [value.Value.(T)] tests against the type [T] of another value. *)
Definition sameGoType (a b : ua.Variant) : bool :=
  (variantTypeOf a =? variantTypeOf b) && Bool.eqb (isArray a) (isArray b).

(** The length [readRange] and [writeRange] pass to [parseBounds] for
    the first range: the number of runes of a string, of bytes of a
    ByteString, of elements of an array; the other values have no
    case of their own. *)
Definition rangeLength (v : ua.Variant) : option Z :=
  match v with
  | ua.string_ s => Some (server.len (utf8.runes s))
  | ua.ByteString_ s => Some (strings.len s)
  | ua.bools l => Some (server.len l)
  | ua.int8s l | ua.int16s l | ua.uint16s l | ua.int32s l | ua.uint32s l
  | ua.int64s l | ua.uint64s l | ua.float32s l | ua.float64s l
  | ua.Times l | ua.StatusCodes l => Some (server.len l)
  | ua.uint8s l => Some (server.len l)
  | ua.strings_ l | ua.ByteStrings l | ua.XMLElements l
  | ua.ExtensionObjects l | ua.DiagnosticInfos l => Some (server.len l)
  | ua.UUIDs l => Some (server.len l)
  | ua.NodeIDs l => Some (server.len l)
  | ua.ExpandedNodeIDs l => Some (server.len l)
  | ua.QualifiedNames l => Some (server.len l)
  | ua.LocalizedTexts l => Some (server.len l)
  | ua.DataValues l => Some (server.len l)
  | ua.Variants l => Some (server.len l)
  | _ => None
  end.

(** The number of ranges [writeRange] lets through for a value. *)
Definition maxRanges (v : ua.Variant) : Z :=
  match v with
  | ua.strings_ _ | ua.ByteStrings _ => 2
  | _ => 1
  end.

(** The index range [r] is one [writeRange] goes on with for the
    current value [cur]: not empty, not too many ranges, and the first
    range is within the value. *)
Definition rangeFits (r : string) (cur : ua.Variant) : Prop :=
  r <> "" /\
  exists n i j st,
    rangeLength cur = Some n
    /\ server.len (strings.Split r ",") <= maxRanges cur
    /\ server.parseBounds (server.range0 (strings.Split r ",")) n = (i, j, st)
    /\ ua.IsBad st = false.



(** The role permission [rp] is one of the role [role]. *)
Definition ofRole (rp : ua.RolePermissionType) (role : ua.NodeID) : Prop :=
  ua.NodeID_eqb (ua.RoleID rp) role = true.

(** One of the role permissions has a bit of [perm]. *)
Definition anyHas (perm : Z) (rps : list ua.RolePermissionType) : bool :=
  existsb (fun rp => negb (Z.land (ua.Permissions rp) perm =? 0)) rps.

(** The status [parseBounds] returns. *)
Definition boundsStatus (r : string) (n : Z) : ua.StatusCode :=
  snd (server.parseBounds r n).

(** A read that failed: no value, a Bad status. *)
Definition failedRead (res : ua.DataValue) : Prop :=
  ua.Value res = ua.nil_ /\ ua.IsBad (ua.StatusCodeOf res) = true.

(** [res] is a part of [source]: a value of the same Go type and the
    same status code, with at least one and at most as many elements
    (runes of a string, bytes of a ByteString). *)
Definition partOf (res source : ua.DataValue) : Prop :=
  ua.StatusCodeOf res = ua.StatusCodeOf source
  /\ sameGoType (ua.Value res) (ua.Value source) = true
  /\ exists n m,
      rangeLength (ua.Value source) = Some n
      /\ rangeLength (ua.Value res) = Some m
      /\ 1 <= m <= n.

(** [res] has the two timestamps of [source] and no picoseconds. *)
Definition stamped (res source : ua.DataValue) : Prop :=
  ua.SourceTimestamp res = ua.SourceTimestamp source
  /\ ua.ServerTimestamp res = ua.ServerTimestamp source
  /\ ua.SourcePicoseconds res = 0
  /\ ua.ServerPicoseconds res = 0.

(** The elements of an array, each as a scalar value. *)
Definition items (v : ua.Variant) : list ua.Variant :=
  match v with
  | ua.bools l => map ua.bool_ l
  | ua.int8s l => map ua.int8_ l
  | ua.uint8s l => map ua.uint8_ l
  | ua.int16s l => map ua.int16_ l
  | ua.uint16s l => map ua.uint16_ l
  | ua.int32s l => map ua.int32_ l
  | ua.uint32s l => map ua.uint32_ l
  | ua.int64s l => map ua.int64_ l
  | ua.uint64s l => map ua.uint64_ l
  | ua.float32s l => map ua.float32_ l
  | ua.float64s l => map ua.float64_ l
  | ua.strings_ l => map ua.string_ l
  | ua.Times l => map ua.Time_ l
  | ua.UUIDs l => map ua.UUID_ l
  | ua.ByteStrings l => map ua.ByteString_ l
  | ua.XMLElements l => map ua.XMLElement_ l
  | ua.NodeIDs l => map ua.NodeID_v l
  | ua.ExpandedNodeIDs l => map ua.ExpandedNodeID_ l
  | ua.StatusCodes l => map ua.StatusCode_ l
  | ua.QualifiedNames l => map ua.QualifiedName_ l
  | ua.LocalizedTexts l => map ua.LocalizedText_ l
  | ua.ExtensionObjects l => map ua.ExtensionObject_ l
  | ua.DataValues l => map ua.DataValue_ l
  | ua.Variants l => l
  | ua.DiagnosticInfos l => map ua.DiagnosticInfo_ l
  | _ => []
  end.

(** The list [src] with the window from [i] to [j] (exclusive)
    replaced by [v2]. *)
Definition replaced {A} (src : list A) (i j : Z) (v2 : list A) : list A :=
  (firstn (Z.to_nat i) src ++ v2 ++ skipn (Z.to_nat j) src)%list.

(** The text of a browse path: the names, each printed by
    [QualifiedName.String], with a slash between them. *)
Fixpoint browsePath (path : list ua.QualifiedName) : string :=
  match path with
  | [] => ""
  | [a] => ua.QualifiedName_String a
  | a :: rest => ua.QualifiedName_String a ++ "/" ++ browsePath rest
  end.

(** A QualifiedName as [NewQualifiedName] makes one from a [uint16],
    whose name has no slash. *)
Definition pathName (a : ua.QualifiedName) : Prop :=
  0 <= ua.QualifiedName_NamespaceIndex a <= 65535
  /\ strings.hasByte "/" (ua.QualifiedName_Name a) = false.

(** The node reached from [n] by taking, name by name, the first
    child of that name. *)
Fixpoint descend (n : server.ObjectTree) (names : list string)
  : option server.ObjectTree :=
  match names with
  | [] => Some n
  | name :: rest =>
      match find (fun child => String.eqb (server.NameOf child) name)
                 (server.ChildsOf n) with
      | Some child => descend child rest
      | None => None
      end
  end.

(** The names of a path with the separator between them. *)
Fixpoint dotted (names : list string) : string :=
  match names with
  | [] => ""
  | [name] => name
  | name :: rest => name ++ server.PathSeparator ++ dotted rest
  end.

(** A name of a path: not empty, without the separator. *)
Definition segment (name : string) : Prop :=
  name <> "" /\ strings.hasByte "." name = false.

(* --------------------------------------------------------------- *)
(** *** Access levels in words *)

(** The words of the bits 0 to 6 of an access level, in the order of
    the bits. *)
Definition levelWords : list (Z * string) :=
  [(0, "Read"); (1, "Write"); (2, "HistoryRead"); (3, "HistoryWrite");
   (4, "SemanticChange"); (5, "StatusWrite"); (6, "TimestampWrite")].

(** The words of the bits that are set in [level]. *)
Definition wordsOf (level : Z) : list string :=
  map snd (filter (fun w => Z.testbit level (fst w)) levelWords).

(* --------------------------------------------------------------- *)
(** *** Browse paths *)

Section Paths.

Variable FindNode : option ua.NodeID -> option server.Node.
Variable IsSubtype : option ua.NodeID -> option ua.NodeID -> bool.
Variable NamespaceUris : list string.
Variable GetReferences : server.Node -> list ua.Reference.
Variable GetBrowseName : server.Node -> ua.QualifiedName.
Variable GetNodeID : server.Node -> option ua.NodeID.

(** The node named [nodeID] has a reference to [t] that fits the
    element: in its direction, of its reference type (any type, the
    same type or, where subtypes are included, a subtype), and to a
    node of this server that carries the name of the element. *)
Definition fits (nodeID : option ua.NodeID) (element : ua.RelativePathElement)
           (t : ua.ExpandedNodeID) : Prop :=
  exists node r named,
    FindNode nodeID = Some node
    /\ In r (GetReferences node)
    /\ ua.ref_TargetID r = t
    /\ ua.ref_IsInverse r = ua.rpe_IsInverse element
    /\ (ua.rpe_ReferenceTypeID element = None
        \/ ua.NodeID_same (ua.ref_ReferenceTypeID r)
                          (ua.rpe_ReferenceTypeID element) = true
        \/ (ua.rpe_IncludeSubtypes element = true
            /\ IsSubtype (ua.ref_ReferenceTypeID r)
                         (ua.rpe_ReferenceTypeID element) = true))
    /\ FindNode (ua.ToNodeID t NamespaceUris) = Some named
    /\ GetBrowseName named = ua.rpe_TargetName element.

(** The elements lead from the node named [nodeID] to [t]: each
    element is fitted by a reference of the node reached so far, and
    each node on the way but the last is found in this server. *)
Inductive leadsTo : option ua.NodeID -> list ua.RelativePathElement
                    -> ua.ExpandedNodeID -> Prop :=
| leads_last nodeID element t :
    fits nodeID element t -> leadsTo nodeID [element] t
| leads_on nodeID element elements t1 next t :
    fits nodeID element t1 ->
    FindNode (ua.ToNodeID t1 NamespaceUris) = Some next ->
    leadsTo (GetNodeID next) elements t ->
    leadsTo nodeID (element :: elements) t.

End Paths.

(* --------------------------------------------------------------- *)
(** *** The full path of a node *)

(** The node type that the property _NodeType of a node holds. *)
Definition typed (n : server.ObjectChain) (nodeType : server.NodeType) : Prop :=
  exists property,
    server.PropertiesOf n server.PropertyNameNodeType = Some (Some property)
    /\ server.prop_Value property = ua.int64_ nodeType.

(** The node lies below a root, and [names] are the names from the
    child of the root down to the node: its parent is of the node
    type Root, or is of another node type and lies below the root
    itself. *)
Inductive below : server.ObjectChain -> list string -> Prop :=
| below_root name properties root :
    typed root server.NodeTypeRoot ->
    below (server.ChainNode name properties (Some root)) [name]
| below_parent name properties parent nodeType names :
    typed parent nodeType ->
    nodeType <> server.NodeTypeRoot ->
    below parent names ->
    below (server.ChainNode name properties (Some parent)) (names ++ [name]).

(* --------------------------------------------------------------- *)
(** *** Names *)

(** A text without a dot, a slash, a backslash and a colon. *)
Definition plain (value : string) : Prop :=
  strings.hasByte "." value = false
  /\ strings.hasByte "/" value = false
  /\ strings.hasByte "\" value = false
  /\ strings.hasByte ":" value = false.

(* --------------------------------------------------------------- *)
(** *** Wildcards *)

(** The pattern matches the whole input: a star stands for any run of
    runes, also the empty one, a question mark for any one rune, and
    any other rune for itself. *)
Fixpoint glob (pattern input : list Z) {struct pattern} : bool :=
  match pattern with
  | [] => match input with [] => true | _ :: _ => false end
  | c :: pattern' =>
      if c =? server.star then
        (fix absorb (input : list Z) : bool :=
           glob pattern' input
           || match input with
              | [] => false
              | _ :: input' => absorb input'
              end) input
      else
        match input with
        | [] => false
        | x :: input' =>
            ((c =? server.question) || (x =? c)) && glob pattern' input'
        end
  end.


(** The same, said of the parts of a pattern: the empty pattern
    matches the empty input, a star any input, another rune one rune,
    and two patterns one after the other match two inputs one after
    the other. *)
Inductive matches : list Z -> list Z -> Prop :=
| matches_nil : matches [] []
| matches_star input : matches [server.star] input
| matches_one c x :
    c <> server.star -> c = server.question \/ x = c -> matches [c] [x]
| matches_app pattern1 pattern2 input1 input2 :
    matches pattern1 input1 -> matches pattern2 input2 ->
    matches (pattern1 ++ pattern2) (input1 ++ input2).

(** What the cell [a], [b] of the matrix of [WildcardMatch] stands
    for: the first [b] runes of the pattern match the first [a] runes
    of the input, both read from their ends. *)
Definition cell (pattern input : list Z) (a b : nat) : bool :=
  glob (rev (firstn b pattern)) (rev (firstn a input)).

(** A matrix of [rows] rows of [cols] cells. *)
Definition shaped (rows cols : nat) (m : list (list bool)) : Prop :=
  List.length m = rows
  /\ forall k, (k < rows)%nat -> List.length (nth k m []) = cols.

(** The matrix for the pattern and the input is filled where [done]
    says, and false elsewhere. *)
Definition filled (pattern input : list Z) (done : nat -> nat -> bool)
           (m : list (list bool)) : Prop :=
  shaped (List.length input + 1) (List.length pattern + 1) m
  /\ forall a b, (a <= List.length input)%nat -> (b <= List.length pattern)%nat ->
       server.getCell m a b
       = if done a b then cell pattern input a b else false.

(** The cells of the first row before the column [j]. *)
Definition firstRow (j : nat) (a b : nat) : bool :=
  (a =? 0)%nat && (b <? j)%nat.

(** The first row, the first column, the rows before the row [i] and
    the cells of the row [i] before the column [j]. *)
Definition rowsBefore (i j : nat) (a b : nat) : bool :=
  (a =? 0)%nat || (b =? 0)%nat || (a <? i)%nat
  || ((a =? i)%nat && (b <? j)%nat).

(* --------------------------------------------------------------- *)
(** *** The operations that load the project *)

(** The operations and states in which the handler onLoading runs:
    [Load] from Unloaded or Reload, and [ReloadProject] from Loaded or
    Error. *)
Definition runsLoading (op : server.Operation) (s : server.ProjectManagerState)
  : bool :=
  match op, s with
  | server.opLoad, server.PROJECT_STATE_UNLOADED
  | server.opLoad, server.PROJECT_STATE_RELOAD
  | server.opReloadProject, server.PROJECT_STATE_LOADED
  | server.opReloadProject, server.PROJECT_STATE_ERROR => true
  | _, _ => false
  end.

(* --------------------------------------------------------------- *)
(** *** The children of an ObjectNode *)

(** The list holds the children, in their order, as its elements in
    use; what the slots after them hold is not told. *)
Definition holds (l : server.List) (children : list server.NodeRef) : Prop :=
  exists slack,
    server.elements l = (map Some children ++ slack)%list
    /\ server.size l = server.len children.

(** A list whose capacity the conversion to float32 leaves exact. *)
Definition small (l : server.List) : Prop :=
  server.len (server.elements l) + 1 < 2 ^ 24.

End spec.

(* ================================================================= *)
(** * A small address space, for examples *)

Module example.

(** A role and a session whose user has it; the role grants Browse
    and nothing else. *)
Definition observer : ua.NodeID := ua.NewNodeIDNumeric 0 15668.

Definition browseOnly : ua.RolePermissionType :=
  ua.mkRolePermissionType observer ua.PermissionTypeBrowse.

Definition readWrite : ua.RolePermissionType :=
  ua.mkRolePermissionType observer
    (Z.lor ua.PermissionTypeBrowse
           (Z.lor ua.PermissionTypeRead ua.PermissionTypeWrite)).

Definition session (rps : list ua.RolePermissionType) : server.Session :=
  server.mkSession [observer] rps.

Definition ctx (rps : list ua.RolePermissionType) : server.Context :=
  server.mkContext (Some (session rps)) None.

Definition noSession : server.Context := server.mkContext None None.

(** The built-in data types live in namespace 0 under the number of
    their variant type. *)
Definition dataType (variantType : Z) : ua.NodeID := ua.NewNodeIDNumeric 0 variantType.

Definition FindVariantType (dataType : ua.NodeID) : Z :=
  match dataType with
  | ua.NodeIDNumeric _ 0 id => id
  | _ => ua.VariantTypeNull
  end.

Definition IsUserPermitted (rps : list ua.RolePermissionType) (perm : Z) : bool :=
  existsb (fun rp => negb (Z.land (ua.Permissions rp) perm =? 0)) rps.

Definition variable (name : string) (value : ua.Variant) (variantType rank level : Z)
  : server.VariableNode :=
  server.mkVariableNode (ua.NewNodeIDString 1 name) None
    (ua.NewDataValue value ua.Good 0 0 0 0) (dataType variantType) rank level
    false [] None None.

Definition counter : server.VariableNode :=
  variable "Counter" (ua.int32_ 7) ua.VariantTypeInt32 ua.ValueRankScalar 3.

Definition sealed : server.VariableNode :=
  variable "Sealed" (ua.int32_ 7) ua.VariantTypeInt32 ua.ValueRankScalar 0.

Definition label : server.VariableNode :=
  variable "Label" (ua.string_ "pump") ua.VariantTypeString ua.ValueRankScalar 3.

Definition blob : server.VariableNode :=
  variable "Blob" (ua.ByteString_ "") ua.VariantTypeByteString ua.ValueRankScalar 3.

Definition octets : server.VariableNode :=
  variable "Octets" (ua.uint8s []) ua.VariantTypeByte ua.ValueRankOneDimension 3.

Definition nodes : list server.VariableNode := [counter; sealed; label; blob; octets].

Definition FindNode (id : ua.NodeID) : option server.Node :=
  match find (fun n => ua.NodeID_eqb (server.vn_NodeId n) id) nodes with
  | Some n => Some (server.Variable_ n)
  | None => None
  end.

Definition NewMonitoredItem (c : server.Context) (n : server.Node)
           (r : server.MonitoredItemCreateRequest) : server.MonitoredItem :=
  server.mkMonitoredItem 1 0 1.

Definition readOtherAttribute (c : server.Context) (n : server.Node)
           (r : ua.ReadValueID) : ua.DataValue :=
  ua.NewDataValue ua.nil_ ua.BadAttributeIDInvalid 0 0 0 0.

Definition caps : server.ServerCapabilities :=
  server.mkServerCapabilities 4096 4096 4096.

Definition readValueOf (n : server.VariableNode) : ua.ReadValueID :=
  ua.mkReadValueID (server.vn_NodeId n) ua.AttributeIDValue ""
                   (ua.mkQualifiedName 0 "").

Definition writeValueOf (n : server.VariableNode) (v : ua.Variant) : ua.WriteValue :=
  ua.mkWriteValue (server.vn_NodeId n) ua.AttributeIDValue ""
                  (ua.NewDataValue v ua.Good 0 0 0 0).

Definition monitor (n : server.VariableNode) (deadbandType : Z)
  : server.MonitoredItemCreateRequest :=
  server.mkMonitoredItemCreateRequest (readValueOf n) 2
    (Some (server.DataChangeFilter 1 deadbandType 0)).

(** Values for the index ranges: the clock reads 5 and 6 at the write;
    the incoming values carry timestamps and picoseconds of their
    own. *)
Definition clock : server.Clock := (5, 6).

Definition stored (value : ua.Variant) : ua.DataValue :=
  ua.NewDataValue value ua.Good 1 0 2 0.

Definition incoming (value : ua.Variant) : ua.DataValue :=
  ua.NewDataValue value ua.Good 100 7 200 8.

(** One byte that starts no UTF-8 sequence. *)
Definition stray : string := String (byte_of_Z 255) EmptyString.

(** The two bytes of U+00E9. *)
Definition eacute : string :=
  String (byte_of_Z 195) (String (byte_of_Z 169) EmptyString).

(** A variable of rank Any that holds an array, in an address space of
    its own. *)
Definition series : server.VariableNode :=
  server.mkVariableNode (ua.NewNodeIDString 1 "Series") None
    (ua.NewDataValue (ua.int32s [1; 2; 3]) ua.Good 0 0 0 0)
    (dataType ua.VariantTypeInt32) ua.ValueRankAny 3 false [] None None.

Definition FindSeries (id : ua.NodeID) : option server.Node :=
  if ua.NodeID_eqb (server.vn_NodeId series) id
  then Some (server.Variable_ series) else None.


(** A node without properties, a plugin that accepts every value, and
    a property to add. *)
Definition noProperties : server.PropertyMap := fun _ => None.

Definition acceptAll (name : string) (value : ua.Variant)
  : bool * option server.error := (true, None).

Definition speed : server.PropertyNode :=
  server.mkPropertyNode "Speed" (ua.int32_ 7) None.


(** A node index of two nodes: the folder Objects, which organizes
    the object Pump. *)
Definition objectsID : ua.NodeID := ua.NewNodeIDNumeric 0 85.
Definition pumpID : ua.NodeID := ua.NewNodeIDString 2 "Pump".
Definition organizesID : ua.NodeID := ua.NewNodeIDNumeric 0 35.

Definition objectsNode : server.Node :=
  server.Object_ (server.mkObjectNode objectsID None 0).
Definition pumpNode : server.Node :=
  server.Object_ (server.mkObjectNode pumpID None 0).

Definition nodeIDOf (n : server.Node) : option ua.NodeID :=
  match n with
  | server.Variable_ v => Some (server.vn_NodeId v)
  | server.Object_ o => Some (server.on_NodeId o)
  | server.Other_ _ => None
  end.

Definition findIn (id : option ua.NodeID) : option server.Node :=
  if ua.NodeID_same id (Some objectsID) then Some objectsNode
  else if ua.NodeID_same id (Some pumpID) then Some pumpNode
  else None.

Definition pumpTarget : ua.ExpandedNodeID :=
  ua.mkExpandedNodeID ua.IDTypeString 0 "" (Some pumpID).

Definition referencesOf (n : server.Node) : list ua.Reference :=
  if ua.NodeID_same (nodeIDOf n) (Some objectsID)
  then [ua.mkReference (Some organizesID) false pumpTarget]
  else [].

Definition browseNameOf (n : server.Node) : ua.QualifiedName :=
  if ua.NodeID_same (nodeIDOf n) (Some objectsID)
  then ua.mkQualifiedName 0 "Objects"
  else ua.mkQualifiedName 2 "Pump".

Definition noSubtypes (a b : option ua.NodeID) : bool := false.

(** The path element "any reference to the node named 2:Pump". *)
Definition toPump : ua.RelativePathElement :=
  ua.mkRelativePathElement None false false (ua.mkQualifiedName 2 "Pump").


(** A channel below the category Connectivity below the root, each
    node with its property _NodeType. *)
Definition ofType (nodeType : server.NodeType) : server.PropertyMap :=
  server.setProperty noProperties server.PropertyNameNodeType
    (Some (server.mkPropertyNode server.PropertyNameNodeType
             (ua.int64_ nodeType) None)).

Definition rootOfProject : server.ObjectChain :=
  server.ChainNode "Root" (ofType server.NodeTypeRoot) None.

Definition connectivity : server.ObjectChain :=
  server.ChainNode "Connectivity"
                   (ofType server.NodeTypeCategoryConnectivity)
                   (Some rootOfProject).

Definition channel1 : server.ObjectChain :=
  server.ChainNode "Channel1" (ofType server.NodeTypeChannel)
                   (Some connectivity).

End example.

(* ================================================================= *)
(** * Verification *)

(** ** Strings *)

Section StringFacts.

Lemma prefix_single (c a : ascii) (s : string) :
  String.prefix (String c EmptyString) (String a s) = Ascii.eqb a c.
Proof.
  simpl. destruct (Ascii.ascii_dec c a) as [->|n].
  - rewrite Ascii.eqb_refl. destruct s; reflexivity.
  - symmetry. apply Ascii.eqb_neq. congruence.
Qed.

Lemma Index_from_absent (c : ascii) (s : string) (i : Z) :
  strings.hasByte c s = false -> strings.Index_from i s (String c EmptyString) = -1.
Proof.
  revert i. induction s as [|a s IH]; intros i H.
  - reflexivity.
  - cbn [strings.hasByte] in H. apply orb_false_iff in H as [Ha Hs].
    cbn [strings.Index_from]. rewrite prefix_single, Ha. apply IH, Hs.
Qed.

Lemma Index_from_first (c : ascii) (s t : string) (i : Z) :
  strings.hasByte c s = false ->
  strings.Index_from i (s ++ String c t) (String c EmptyString)
  = i + strings.len s.
Proof.
  revert i. induction s as [|a s IH]; intros i H.
  - cbn [append strings.Index_from]. rewrite prefix_single, Ascii.eqb_refl.
    unfold strings.len. simpl. lia.
  - cbn [strings.hasByte] in H. apply orb_false_iff in H as [Ha Hs].
    cbn [append strings.Index_from]. rewrite prefix_single, Ha, IH by assumption.
    unfold strings.len. cbn [String.length]. lia.
Qed.

Lemma substring_prefix (a b : string) :
  String.substring 0 (String.length a) (a ++ b) = a.
Proof.
  induction a as [|c a IH].
  - destruct b; reflexivity.
  - simpl. now rewrite IH.
Qed.

Lemma substring_whole (b : string) :
  String.substring 0 (String.length b) b = b.
Proof. induction b as [|c b IH]; simpl; [reflexivity | now rewrite IH]. Qed.

Lemma substring_skip (a b : string) (n m : nat) :
  String.substring (String.length a + n) m (a ++ b) = String.substring n m b.
Proof. induction a as [|c a IH]; simpl; [reflexivity | apply IH]. Qed.

Lemma length_append (a b : string) :
  String.length (a ++ b) = (String.length a + String.length b)%nat.
Proof. induction a as [|c a IH]; simpl; [reflexivity | now rewrite IH]. Qed.

Lemma slice_prefix (a b : string) :
  strings.slice (a ++ b) 0 (strings.len a) = a.
Proof.
  unfold strings.slice, strings.len.
  rewrite Z.sub_0_r, Nat2Z.id. apply substring_prefix.
Qed.

Lemma slice_from_suffix (a b : string) (k : Z) :
  k = strings.len a -> strings.slice_from (a ++ b) k = b.
Proof.
  intros ->. unfold strings.slice_from, strings.slice, strings.len.
  rewrite length_append, Nat2Z.id.
  replace (Z.to_nat (Z.of_nat (String.length a + String.length b)
                     - Z.of_nat (String.length a))) with (String.length b) by lia.
  rewrite <- (Nat.add_0_r (String.length a)) at 1.
  rewrite substring_skip. apply substring_whole.
Qed.

End StringFacts.

(** ** Numbers in decimal *)

Section StrconvFacts.

Lemma digit10_other (c sep : ascii) (d : Z) :
  strconv.digit10 sep = None -> strconv.digit10 c = Some d ->
  Ascii.eqb c sep = false.
Proof.
  intros Hsep Hc. apply Ascii.eqb_neq. intros ->. congruence.
Qed.

Lemma parseUintLoop_digits (sep : ascii) (s : string) (n m r : Z) :
  strconv.digit10 sep = None ->
  strconv.parseUintLoop s n m = Some r -> strings.hasByte sep s = false.
Proof.
  intros Hsep. revert n. induction s as [|c s IH]; intros n H.
  - reflexivity.
  - cbn [strconv.parseUintLoop] in H.
    destruct (strconv.digit10 c) as [d|] eqn:Hd; [|discriminate].
    cbn [strings.hasByte]. rewrite (digit10_other _ _ _ Hsep Hd). simpl.
    destruct (n >=? _); [discriminate|].
    destruct (_ || _); [discriminate|].
    eapply IH, H.
Qed.

Lemma ParseUint_digits (sep : ascii) (s : string) (bits r : Z) :
  strconv.digit10 sep = None ->
  strconv.ParseUint s bits = Some r -> strings.hasByte sep s = false.
Proof.
  intros Hsep H. destruct s as [|c s]; [reflexivity|].
  unfold strconv.ParseUint in H. eapply parseUintLoop_digits; eassumption.
Qed.

Lemma ParseInt_digits (sep : ascii) (s : string) (bits r : Z) :
  strconv.digit10 sep = None ->
  Ascii.eqb "+" sep = false -> Ascii.eqb "-" sep = false ->
  strconv.ParseInt s bits = Some r -> strings.hasByte sep s = false.
Proof.
  intros Hsep Hplus Hminus H. destruct s as [|c s]; [reflexivity|].
  unfold strconv.ParseInt in H. cbv zeta in H.
  destruct (strconv.ParseUint _ bits) as [un|] eqn:Hun; [|discriminate].
  clear H. cbn [strings.hasByte].
  destruct (Ascii.eqb c "+") eqn:Ep.
  - apply Ascii.eqb_eq in Ep. subst c. rewrite Hplus. cbn [orb] in *.
    eapply ParseUint_digits; eassumption.
  - destruct (Ascii.eqb c "-") eqn:Em.
    + apply Ascii.eqb_eq in Em. subst c. rewrite Hminus. cbn [orb] in *.
      eapply ParseUint_digits; eassumption.
    + cbn [orb] in Hun. apply (ParseUint_digits sep) in Hun; [|assumption].
      exact Hun.
Qed.

Lemma ParseInt_nonempty (s : string) (bits r : Z) :
  strconv.ParseInt s bits = Some r -> s <> EmptyString.
Proof. destruct s; [discriminate | congruence]. Qed.

End StrconvFacts.

(** ** Index ranges: parseBounds *)

Section ParseBounds.

Lemma append_nonempty (a b : string) :
  a <> EmptyString -> String.eqb (a ++ b) "" = false.
Proof. destruct a; [congruence | reflexivity]. Qed.

(** A range with a colon: the two numbers are read on either side of
    the first colon. *)
Lemma parseBounds_colon (slo shi : string) (lo hi length : Z) :
  strconv.ParseInt slo 32 = Some lo ->
  strconv.ParseInt shi 32 = Some hi ->
  length <> 0 ->
  server.parseBounds (slo ++ ":" ++ shi) length =
    if (hi <? 0) || (lo >=? hi) || (lo <? 0)
    then (-1, -1, ua.BadIndexRangeInvalid)
    else if lo >=? length then (-1, -1, ua.BadIndexRangeNoData)
    else (lo, Z.min hi (length - 1) + 1, ua.Good).
Proof.
  intros Hlo Hhi Hlen.
  assert (Hc : strings.hasByte ":" slo = false)
    by (eapply ParseInt_digits; [| | |exact Hlo]; reflexivity).
  unfold server.parseBounds.
  apply Z.eqb_neq in Hlen. rewrite Hlen.
  rewrite append_nonempty by (eapply ParseInt_nonempty; eassumption).
  unfold strings.Index. cbn [append]. rewrite Index_from_first by assumption.
  rewrite Z.add_0_l.
  assert (Hne : (strings.len slo =? -1) = false)
    by (apply Z.eqb_neq; unfold strings.len; lia).
  rewrite Hne. cbn [negb].
  rewrite slice_prefix, Hlo.
  change (slo ++ String ":" shi) with (slo ++ (String ":" EmptyString ++ shi)).
  replace (strings.slice_from (slo ++ String ":" EmptyString ++ shi)
                              (strings.len slo + 1)) with shi.
  2:{ symmetry.
      replace (slo ++ String ":" EmptyString ++ shi)
        with ((slo ++ String ":" EmptyString) ++ shi).
      - apply slice_from_suffix. unfold strings.len.
        rewrite length_append. simpl. lia.
      - clear. induction slo as [|c s IH]; simpl; [reflexivity | now rewrite IH]. }
  rewrite Hhi.
  destruct (hi <? 0) eqn:E1; [reflexivity|].
  destruct (lo >=? hi) eqn:E2; [reflexivity|].
  cbn [orb].
  destruct (lo <? 0) eqn:E3; [reflexivity|].
  destruct (lo >=? length) eqn:E4; [reflexivity|].
  destruct (hi >=? length) eqn:E5.
  - assert (E6 : (length - 1 =? -1) = false) by lia. rewrite E6.
    f_equal. f_equal. lia.
  - assert (E6 : (hi =? -1) = false) by lia. rewrite E6.
    f_equal. f_equal. lia.
Qed.

(** A single index. *)
Lemma parseBounds_single (s : string) (lo length : Z) :
  strconv.ParseInt s 32 = Some lo ->
  length <> 0 ->
  server.parseBounds s length =
    if lo <? 0 then (-1, -1, ua.BadIndexRangeInvalid)
    else if lo >=? length then (-1, -1, ua.BadIndexRangeNoData)
    else (lo, lo + 1, ua.Good).
Proof.
  intros Hlo Hlen.
  assert (Hc : strings.hasByte ":" s = false)
    by (eapply ParseInt_digits; [| | |exact Hlo]; reflexivity).
  unfold server.parseBounds.
  apply Z.eqb_neq in Hlen. rewrite Hlen.
  assert (Hs : String.eqb s "" = false).
  { destruct s; [discriminate | reflexivity]. }
  rewrite Hs. unfold strings.Index. rewrite Index_from_absent by assumption.
  rewrite Z.eqb_refl. cbn [negb]. rewrite Hlo.
  destruct (lo <? 0) eqn:E3; [reflexivity|].
  destruct (lo >=? length) eqn:E4; [reflexivity|].
  assert (E5 : (-1 >=? length) = false) by lia. rewrite E5.
  reflexivity.
Qed.

End ParseBounds.

(** C1. [parseBounds] follows the index-range rules, for every range
    string and length: a call with length 0 returns
    BadIndexRangeNoData; on a non-empty value, a range "lo:hi" with
    [lo < 0], [hi < 0] or [lo >= hi] returns BadIndexRangeInvalid; a
    single index or a well-formed range whose [lo] is not below the
    length returns BadIndexRangeNoData; otherwise the status is Good,
    [hi] is clamped to [length - 1] and the pair returned is
    end-exclusive.  The five boundary cases of the specification are
    the last conjuncts. *)
Theorem parseBounds_conforms :
  (forall s, server.parseBounds s 0 = (-1, -1, ua.BadIndexRangeNoData)) /\
  (forall slo shi lo hi length,
      strconv.ParseInt slo 32 = Some lo -> strconv.ParseInt shi 32 = Some hi ->
      0 < length -> lo < 0 \/ hi < 0 \/ lo >= hi ->
      server.parseBounds (slo ++ ":" ++ shi) length
      = (-1, -1, ua.BadIndexRangeInvalid)) /\
  (forall s lo length,
      strconv.ParseInt s 32 = Some lo -> 0 < length -> lo >= length ->
      server.parseBounds s length = (-1, -1, ua.BadIndexRangeNoData)) /\
  (forall slo shi lo hi length,
      strconv.ParseInt slo 32 = Some lo -> strconv.ParseInt shi 32 = Some hi ->
      0 < length -> 0 <= lo < hi -> lo >= length ->
      server.parseBounds (slo ++ ":" ++ shi) length
      = (-1, -1, ua.BadIndexRangeNoData)) /\
  (forall slo shi lo hi length,
      strconv.ParseInt slo 32 = Some lo -> strconv.ParseInt shi 32 = Some hi ->
      0 <= lo < hi -> lo < length ->
      server.parseBounds (slo ++ ":" ++ shi) length
      = (lo, Z.min hi (length - 1) + 1, ua.Good)) /\
  (forall s lo length,
      strconv.ParseInt s 32 = Some lo -> 0 <= lo < length ->
      server.parseBounds s length = (lo, lo + 1, ua.Good)) /\
  server.parseBounds "5:5" 10 = (-1, -1, ua.BadIndexRangeInvalid) /\
  server.parseBounds "5:4" 10 = (-1, -1, ua.BadIndexRangeInvalid) /\
  server.parseBounds "10" 10 = (-1, -1, ua.BadIndexRangeNoData) /\
  server.parseBounds "" 0 = (-1, -1, ua.BadIndexRangeNoData) /\
  server.parseBounds "3:100" 10 = (3, 10, ua.Good).
Proof.
  split; [|split; [|split; [|split; [|split; [|split; [|repeat split]]]]]].
  - intros s. reflexivity.
  - intros slo shi lo hi length Hlo Hhi Hlen Hbad.
    rewrite (parseBounds_colon _ _ _ _ _ Hlo Hhi) by lia.
    destruct (hi <? 0) eqn:E1; [reflexivity|].
    destruct (lo >=? hi) eqn:E2; [reflexivity|].
    destruct (lo <? 0) eqn:E3; [reflexivity|]. lia.
  - intros s lo length Hlo Hlen Hge.
    rewrite (parseBounds_single _ _ _ Hlo) by lia.
    destruct (lo <? 0) eqn:E3; [lia|].
    destruct (lo >=? length) eqn:E4; [reflexivity | lia].
  - intros slo shi lo hi length Hlo Hhi Hlen Hok Hge.
    rewrite (parseBounds_colon _ _ _ _ _ Hlo Hhi) by lia.
    destruct (hi <? 0) eqn:E1; [lia|].
    destruct (lo >=? hi) eqn:E2; [lia|].
    destruct (lo <? 0) eqn:E3; [lia|]. cbn [orb].
    destruct (lo >=? length) eqn:E4; [reflexivity | lia].
  - intros slo shi lo hi length Hlo Hhi Hok Hlt.
    rewrite (parseBounds_colon _ _ _ _ _ Hlo Hhi) by lia.
    destruct (hi <? 0) eqn:E1; [lia|].
    destruct (lo >=? hi) eqn:E2; [lia|].
    destruct (lo <? 0) eqn:E3; [lia|]. cbn [orb].
    destruct (lo >=? length) eqn:E4; [lia | reflexivity].
  - intros s lo length Hlo Hok.
    rewrite (parseBounds_single _ _ _ Hlo) by lia.
    destruct (lo <? 0) eqn:E3; [lia|].
    destruct (lo >=? length) eqn:E4; [lia | reflexivity].
Qed.

Lemma parseBounds_conforms_witness :
  server.parseBounds ("7" ++ ":" ++ "2") 10 = (-1, -1, ua.BadIndexRangeInvalid)
  /\ server.parseBounds "12" 10 = (-1, -1, ua.BadIndexRangeNoData)
  /\ server.parseBounds ("2" ++ ":" ++ "4") 10 = (2, Z.min 4 (10 - 1) + 1, ua.Good).
Proof.
  destruct parseBounds_conforms as (_ & Hinv & Hnodata & _ & Hgood & _).
  split; [|split].
  - apply (Hinv "7" "2" 7 2 10); [reflexivity | reflexivity | lia | lia].
  - apply (Hnodata "12" 12 10); [reflexivity | lia | lia].
  - apply (Hgood "2" "4" 2 4 10); [reflexivity | reflexivity | lia | lia].
Defined.

(** ** Expanded NodeIDs *)

(** C9. [ParseExpandedNodeID] does not return on "nsu=uri;x=1": the
    NodeID part does not parse, [ParseNodeID] gives the nil NodeID and
    the method call on it panics. *)
Theorem ParseExpandedNodeID_panics :
  ua.ParseExpandedNodeID "nsu=uri;x=1"
  = ua.Panics "invalid memory address or nil pointer dereference".
Proof. vm_compute. reflexivity. Qed.

(** The same on every string without the prefixes "svr=" and "nsu="
    whose NodeID does not parse, the empty string and "i=0" among
    them. *)
Lemma ParseExpandedNodeID_panics_on_nil (s : string) :
  strings.HasPrefix s "svr=" = false ->
  strings.HasPrefix s "nsu=" = false ->
  ua.ParseNodeIDString s = None ->
  exists reason, ua.ParseExpandedNodeID s = ua.Panics reason.
Proof.
  intros Hsvr Hnsu Hnil. unfold ua.ParseExpandedNodeID, ua.parseExpandedNodeIDTail.
  rewrite Hsvr, Hnsu. unfold ua.ParseNodeID. rewrite Hnil. eauto.
Qed.

Lemma ParseExpandedNodeID_panics_on_null_id :
  exists reason, ua.ParseExpandedNodeID "i=0" = ua.Panics reason.
Proof. apply ParseExpandedNodeID_panics_on_nil; reflexivity. Defined.

(** ** The project manager's state machine *)

Section ProjectManagerFacts.

Import server.

Lemma Fire_state (load : Loading) (p : ProjectManager) (t : Trigger)
      (arg : option error) (p' : ProjectManager) (e : option error) :
  Fire load p t arg = ua.Returns (p', e) ->
  pm_state p' = match spec.destination (pm_state p) t with
                | Some d => d
                | None => pm_state p
                end.
Proof.
  unfold Fire, spec.destination.
  destruct (FindHandler (pm_state p) t) as [[d|a]|] eqn:Hh.
  - destruct d; cbn; destruct load as [[e0|]|r0], arg; cbn; intros H; inversion H; reflexivity.
  - destruct a; cbn; destruct load as [[e0|]|r0], arg; cbn; intros H; inversion H; reflexivity.
  - intros H; inversion H; reflexivity.
Qed.

Lemma Fire_unhandled (load : Loading) (p : ProjectManager) (t : Trigger)
      (arg : option error) :
  spec.destination (pm_state p) t = None ->
  Fire load p t arg = ua.Returns (p, Some unhandledTrigger).
Proof.
  unfold Fire, spec.destination.
  destruct (FindHandler (pm_state p) t) as [[d|a]|]; [discriminate.. | reflexivity].
Qed.

End ProjectManagerFacts.

(** C7 as stated fails: in the state Unloaded the trigger ErrorOccurred
    is unhandled; [Fire] returns the error and the state stays
    Unloaded. *)
Lemma ErrorOccured_unhandled_in_Unloaded :
  server.Fire (ua.Returns None) server.NewProjectManager server.triggerErrorOccured
              (Some "load failed")
  = ua.Returns (server.NewProjectManager, Some server.unhandledTrigger)
  /\ server.pm_state server.NewProjectManager <> server.PROJECT_STATE_ERROR.
Proof. split; [reflexivity | discriminate]. Qed.

(** C7, amended. The configuration permits exactly the transitions of
    the table [spec.transition]: Unloaded -> Loading (LoadProject),
    Loading -> Loaded (LoadSuccess), Loading -> Error (ErrorOccurred),
    Loaded -> Reload and Error -> Reload (ReloadProject), Reload ->
    Loading (LoadProject), and the internal LoadPlugins, UnloadPlugins
    and ReloadPlugins in Loaded only.  [Fire] follows the table: a
    trigger of the table leads to its state whenever [Fire] returns, and
    every other trigger, ErrorOccurred outside Loading included, is
    rejected with an error and the manager unchanged. *)
Theorem state_machine_transitions :
  (forall s t, spec.destination s t = spec.transition s t) /\
  (forall s t, server.CanFire s t = true <-> spec.transition s t <> None) /\
  (forall load p t arg d,
      spec.transition (server.pm_state p) t = Some d ->
      forall p' e, server.Fire load p t arg = ua.Returns (p', e) ->
                   server.pm_state p' = d) /\
  (forall load p t arg,
      spec.transition (server.pm_state p) t = None ->
      server.Fire load p t arg = ua.Returns (p, Some server.unhandledTrigger)) /\
  (forall load p err,
      server.pm_state p = server.PROJECT_STATE_LOADING ->
      exists p', server.Fire load p server.triggerErrorOccured (Some err)
                 = ua.Returns (p', None)
                 /\ server.pm_state p' = server.PROJECT_STATE_ERROR
                 /\ server.currentError p' = Some err) /\
  (forall load p arg,
      server.pm_state p <> server.PROJECT_STATE_LOADING ->
      server.Fire load p server.triggerErrorOccured arg
      = ua.Returns (p, Some server.unhandledTrigger)).
Proof.
  assert (Htable : forall s t, spec.destination s t = spec.transition s t)
    by (intros [] []; reflexivity).
  split; [exact Htable|].
  split; [|split; [|split; [|split]]].
  - intros s t. rewrite <- Htable. unfold server.CanFire, spec.destination.
    destruct (server.FindHandler s t) as [[d|a]|]; split; congruence.
  - intros load p t arg d Hd p' e HF.
    rewrite (Fire_state _ _ _ _ _ _ HF), Htable, Hd. reflexivity.
  - intros load p t arg Hnone. apply Fire_unhandled. now rewrite Htable.
  - intros load [st ce rl pl] err Hst. cbn in Hst. subst st.
    eexists. split; [reflexivity | split; reflexivity].
  - intros load p arg Hst. apply Fire_unhandled. rewrite Htable.
    destruct (server.pm_state p); try reflexivity. congruence.
Qed.

Lemma state_machine_transitions_witness :
  server.pm_state
    (server.mkProjectManager server.PROJECT_STATE_RELOAD None true []) =
  server.PROJECT_STATE_RELOAD
  /\ server.Fire (ua.Returns None)
       (server.mkProjectManager server.PROJECT_STATE_RELOAD None true [])
       server.triggerErrorOccured (Some "load failed")
     = ua.Returns (server.mkProjectManager server.PROJECT_STATE_RELOAD None true [],
                   Some server.unhandledTrigger).
Proof.
  split; [reflexivity|].
  apply (proj2 (proj2 (proj2 (proj2 (proj2 state_machine_transitions))))).
  cbn. discriminate.
Defined.

(** ** The error the project manager reports *)

Section ProjectErrorFacts.

Import server.

Lemma perform_settled (op : Operation) (load : Loading)
      (p p' : ProjectManager) :
  spec.settled p -> perform op load p = ua.Returns p' -> spec.settled p'.
Proof.
  destruct p as [st ce rl pl]. unfold spec.settled. cbn [pm_state currentError].
  destruct st; intros Hp; try contradiction.
  - subst ce. destruct op, load as [[e0|]|r0]; cbn; intros H; inversion H; cbn; eauto.
  - destruct op, load as [[e0|]|r0]; cbn; intros H; inversion H; cbn; eauto.
  - destruct Hp as [err ->].
    destruct op, load as [[e0|]|r0]; cbn; intros H; inversion H; cbn; eauto.
Qed.

Lemma reachable_settled (p : ProjectManager) : reachable p -> spec.settled p.
Proof.
  induction 1 as [|p op load p' _ IH Hstep].
  - reflexivity.
  - eapply perform_settled; eassumption.
Qed.

End ProjectErrorFacts.

(** C8 as stated fails: a new manager is in the state Unloaded and
    [GetCurrentError] returns no error, not ProjectNotLoaded; and after
    a failed load followed by a successful reload the state is Loaded
    and [GetCurrentError] still returns the error of the failed load. *)
Lemma GetCurrentError_not_by_state :
  server.pm_state server.NewProjectManager = server.PROJECT_STATE_UNLOADED
  /\ server.GetCurrentError server.NewProjectManager = None
  /\ server.GetCurrentError server.NewProjectManager
     <> Some server.ErrProjectNotLoaded
  /\ exists p1 p2,
      server.Load (ua.Returns (Some "bad file")) server.NewProjectManager = ua.Returns p1
      /\ server.ReloadProject (ua.Returns None) p1 = ua.Returns (p2, None)
      /\ server.pm_state p2 = server.PROJECT_STATE_LOADED
      /\ server.GetCurrentError p2 = Some "bad file".
Proof.
  split; [reflexivity|]. split; [reflexivity|]. split; [discriminate|].
  do 2 eexists. repeat split; reflexivity.
Qed.

(** C8, amended. It is [HasError] that reports by state: the recorded
    load error in the state Error, ProjectNotLoaded in the state
    Unloaded, no error otherwise.  [GetCurrentError] returns the error
    last recorded, whatever the state: for every manager reached by the
    public operations that is the recorded load error in the state
    Error and no error in the state Unloaded; a failed first load does
    record its error. *)
Theorem project_error_reports :
  (forall p,
      server.HasError p =
      match server.pm_state p with
      | server.PROJECT_STATE_ERROR => server.currentError p
      | server.PROJECT_STATE_UNLOADED => Some server.ErrProjectNotLoaded
      | _ => None
      end) /\
  (forall p, server.GetCurrentError p = server.currentError p) /\
  (forall p, server.reachable p ->
             server.pm_state p = server.PROJECT_STATE_ERROR ->
             exists err, server.currentError p = Some err
                         /\ server.HasError p = Some err
                         /\ server.GetCurrentError p = Some err) /\
  (forall p, server.reachable p ->
             server.pm_state p = server.PROJECT_STATE_UNLOADED ->
             server.HasError p = Some server.ErrProjectNotLoaded
             /\ server.GetCurrentError p = None) /\
  (forall err, exists p,
      server.Load (ua.Returns (Some err)) server.NewProjectManager = ua.Returns p
      /\ server.pm_state p = server.PROJECT_STATE_ERROR
      /\ server.GetCurrentError p = Some err).
Proof.
  split; [|split; [|split; [|split]]].
  - intros p. reflexivity.
  - intros p. reflexivity.
  - intros p Hr Hst. apply reachable_settled in Hr.
    unfold spec.settled in Hr. unfold server.HasError, server.GetCurrentError.
    rewrite Hst in *. destruct Hr as [err Herr]. exists err. auto.
  - intros p Hr Hst. apply reachable_settled in Hr.
    unfold spec.settled in Hr. unfold server.HasError, server.GetCurrentError.
    rewrite Hst in *. auto.
  - intros err. eexists. repeat split; reflexivity.
Qed.

Lemma project_error_reports_witness :
  exists err,
    server.currentError
      (server.mkProjectManager server.PROJECT_STATE_ERROR (Some "bad file")
                               false []) = Some err
    /\ server.HasError
         (server.mkProjectManager server.PROJECT_STATE_ERROR (Some "bad file")
                                  false []) = Some err
    /\ server.GetCurrentError
         (server.mkProjectManager server.PROJECT_STATE_ERROR (Some "bad file")
                                  false []) = Some err.
Proof.
  apply (proj1 (proj2 (proj2 project_error_reports))).
  - apply (server.reachable_step server.NewProjectManager server.opLoad
                                 (ua.Returns (Some "bad file"))).
    + apply server.reachable_new.
    + reflexivity.
  - reflexivity.
Defined.

(** ** The effective access level of a variable *)

Section AccessLevelFacts.

Import server.

Lemma scan_inner (role : ua.NodeID) (rps : list ua.RolePermissionType)
      (r w h : bool) :
  fold_left (scanStep role) rps (r, w, h) =
  (r || spec.grants [role] rps ua.PermissionTypeRead,
   w || spec.grants [role] rps ua.PermissionTypeWrite,
   h || spec.grants [role] rps ua.PermissionTypeReadHistory).
Proof.
  unfold spec.grants. cbn [existsb]. revert r w h.
  induction rps as [|rp rps IH]; intros r w h.
  - cbn. now rewrite !orb_false_r.
  - cbn [fold_left existsb]. unfold scanStep at 2.
    destruct (ua.NodeID_eqb (ua.RoleID rp) role); cbn [andb orb].
    + rewrite IH.
      destruct (Z.land (ua.Permissions rp) ua.PermissionTypeRead =? 0),
               (Z.land (ua.Permissions rp) ua.PermissionTypeWrite =? 0),
               (Z.land (ua.Permissions rp) ua.PermissionTypeReadHistory =? 0);
        cbn [negb orb]; rewrite ?orb_false_r, ?orb_true_r, ?orb_true_l;
        reflexivity.
    + apply IH.
Qed.

Lemma scan_outer (roles : list ua.NodeID) (rps : list ua.RolePermissionType)
      (r w h : bool) :
  fold_left (fun flags role => fold_left (scanStep role) rps flags) roles (r, w, h) =
  (r || spec.grants roles rps ua.PermissionTypeRead,
   w || spec.grants roles rps ua.PermissionTypeWrite,
   h || spec.grants roles rps ua.PermissionTypeReadHistory).
Proof.
  revert r w h. induction roles as [|role roles IH]; intros r w h.
  - cbn. now rewrite !orb_false_r.
  - cbn [fold_left]. rewrite scan_inner, IH.
    unfold spec.grants. cbn [existsb]. rewrite !orb_false_r, !orb_assoc.
    reflexivity.
Qed.

Lemma scanPermissions_grants (roles : list ua.NodeID)
      (rps : list ua.RolePermissionType) :
  scanPermissions roles rps =
  (spec.grants roles rps ua.PermissionTypeRead,
   spec.grants roles rps ua.PermissionTypeWrite,
   spec.grants roles rps ua.PermissionTypeReadHistory).
Proof. unfold scanPermissions. now rewrite scan_outer. Qed.

Lemma UserAccessLevel_session (n : VariableNode) (ctx : Context) (session : Session) :
  ctx_Session ctx = Some session ->
  UserAccessLevel n ctx =
  Z.ldiff (vn_AccessLevel n)
          (spec.deniedBits (UserRoles session)
             (orDefault (vn_RolePermissions n) (ServerRolePermissions session))).
Proof.
  intros Hs. unfold UserAccessLevel. rewrite Hs, scanPermissions_grants.
  unfold spec.deniedBits, andNot.
  rewrite <- !Z.ldiff_ldiff_l.
  destruct (spec.grants _ _ ua.PermissionTypeRead),
           (spec.grants _ _ ua.PermissionTypeWrite),
           (spec.grants _ _ ua.PermissionTypeReadHistory);
    cbn [negb]; rewrite ?Z.ldiff_0_r; reflexivity.
Qed.

End AccessLevelFacts.

(** C10. The effective access level of a variable never exceeds the
    access level of the node: with no session in the context it is 0;
    with a session it is the access level without the bits CurrentRead,
    CurrentWrite and HistoryRead for which the roles of the session
    grant no Read, Write or ReadHistory permission; so every bit set in
    [UserAccessLevel] is set in [AccessLevel], each of the three bits is
    kept when the roles grant its permission and cleared when they do
    not, and other bits are left as they are. *)
Theorem UserAccessLevel_within_AccessLevel :
  (forall n ctx, server.ctx_Session ctx = None -> server.UserAccessLevel n ctx = 0) /\
  (forall n ctx k,
      Z.testbit (server.UserAccessLevel n ctx) k = true ->
      Z.testbit (server.vn_AccessLevel n) k = true) /\
  (forall n ctx session,
      server.ctx_Session ctx = Some session ->
      let roles := server.UserRoles session in
      let rps := server.orDefault (server.vn_RolePermissions n)
                                  (server.ServerRolePermissions session) in
      server.UserAccessLevel n ctx
      = Z.ldiff (server.vn_AccessLevel n) (spec.deniedBits roles rps)
      /\ (forall k, 0 <= k ->
            Z.testbit (server.UserAccessLevel n ctx) k =
            Z.testbit (server.vn_AccessLevel n) k
            && negb ((k =? 0) && negb (spec.grants roles rps ua.PermissionTypeRead))
            && negb ((k =? 1) && negb (spec.grants roles rps ua.PermissionTypeWrite))
            && negb ((k =? 2)
                     && negb (spec.grants roles rps ua.PermissionTypeReadHistory)))).
Proof.
  split; [|split].
  - intros n ctx Hs. unfold server.UserAccessLevel. now rewrite Hs.
  - intros n ctx k. destruct (server.ctx_Session ctx) as [session|] eqn:Hs.
    + rewrite (UserAccessLevel_session _ _ _ Hs).
      destruct (Z.ltb_spec k 0) as [Hk|Hk].
      * now rewrite !Z.testbit_neg_r by assumption.
      * rewrite Z.ldiff_spec by assumption.
        intros H. apply andb_true_iff in H. tauto.
    + unfold server.UserAccessLevel. rewrite Hs, Z.testbit_0_l. discriminate.
  - intros n ctx session Hs roles rps.
    split; [apply UserAccessLevel_session, Hs|].
    intros k Hk. rewrite (UserAccessLevel_session _ _ _ Hs).
    fold roles. fold rps. rewrite Z.ldiff_spec by assumption.
    unfold spec.deniedBits. rewrite !Z.lor_spec.
    assert (B0 : Z.testbit ua.AccessLevelsCurrentRead k = (k =? 0))
      by (rewrite Z.eqb_sym; apply (Z.pow2_bits_eqb 0); lia).
    assert (B1 : Z.testbit ua.AccessLevelsCurrentWrite k = (k =? 1))
      by (rewrite Z.eqb_sym; apply (Z.pow2_bits_eqb 1); lia).
    assert (B2 : Z.testbit ua.AccessLevelsHistoryRead k = (k =? 2))
      by (rewrite Z.eqb_sym; apply (Z.pow2_bits_eqb 2); lia).
    destruct (spec.grants roles rps ua.PermissionTypeRead),
             (spec.grants roles rps ua.PermissionTypeWrite),
             (spec.grants roles rps ua.PermissionTypeReadHistory);
      rewrite ?B0, ?B1, ?B2, ?Z.testbit_0_l;
      destruct (Z.testbit (server.vn_AccessLevel n) k), (k =? 0), (k =? 1), (k =? 2);
      reflexivity.
Qed.


Lemma UserAccessLevel_within_AccessLevel_witness :
  server.UserAccessLevel example.counter example.noSession = 0
  /\ Z.testbit (server.vn_AccessLevel example.counter) 0 = true
  /\ server.UserAccessLevel example.counter (example.ctx [example.browseOnly]) = 0.
Proof.
  destruct UserAccessLevel_within_AccessLevel as (Hnone & Hbits & Hsession).
  split; [|split].
  - apply Hnone. reflexivity.
  - apply (Hbits example.counter (example.ctx [example.readWrite]) 0). reflexivity.
  - destruct (Hsession example.counter (example.ctx [example.browseOnly])
                       (example.session [example.browseOnly]) eq_refl) as [H _].
    rewrite H. reflexivity.
Defined.

(** ** Read of the attribute Value *)

Section ReadValue.

Variable FindNode : ua.NodeID -> option server.Node.
Variable IsUserPermitted : list ua.RolePermissionType -> Z -> bool.
Variable readOtherAttribute :
  server.Context -> server.Node -> ua.ReadValueID -> ua.DataValue.

Local Abbreviation readValue :=
  (server.readValue FindNode IsUserPermitted readOtherAttribute).

Local Abbreviation resolves := (spec.resolves FindNode IsUserPermitted).

Lemma readValue_resolved ctx r n1 now :
  resolves ctx r n1 ->
  readValue ctx r now =
  if Z.land (server.vn_AccessLevel n1) ua.AccessLevelsCurrentRead =? 0
  then server.readError ua.BadNotReadable now
  else if Z.land (server.UserAccessLevel n1 ctx) ua.AccessLevelsCurrentRead =? 0
  then server.readError ua.BadUserAccessDenied now
  else match server.ReadValueHandler n1 with
       | Some f => f ctx r
       | None => server.readRange (server.vn_Value n1) (ua.rv_IndexRange r)
       end.
Proof.
  intros (Henc & Hattr & Hfind & Hbrowse).
  unfold server.readValue.
  rewrite Henc, Hattr, Hfind, Hbrowse. cbn [String.eqb negb].
  rewrite Z.eqb_refl, andb_false_r. reflexivity.
Qed.

(** C3. A Read of the attribute Value that resolves to a variable the
    user may browse: without CurrentRead in the AccessLevel of the node
    the status is BadNotReadable; otherwise, without CurrentRead in the
    effective access level of the user, it is BadUserAccessDenied;
    otherwise the result is that of the node's ReadValueHandler when
    one is installed, and [readRange] of the current value and the
    index range when none is.  So a variable of AccessLevel 0 gives
    BadNotReadable, whatever the user's roles grant. *)
Theorem readValue_access (ctx : server.Context) (r : ua.ReadValueID)
        (n1 : server.VariableNode) (now : ua.Time) :
  resolves ctx r n1 ->
  (Z.land (server.vn_AccessLevel n1) ua.AccessLevelsCurrentRead = 0 ->
   ua.StatusCodeOf (readValue ctx r now) = ua.BadNotReadable) /\
  (Z.land (server.vn_AccessLevel n1) ua.AccessLevelsCurrentRead <> 0 ->
   Z.land (server.UserAccessLevel n1 ctx) ua.AccessLevelsCurrentRead = 0 ->
   ua.StatusCodeOf (readValue ctx r now) = ua.BadUserAccessDenied) /\
  (Z.land (server.vn_AccessLevel n1) ua.AccessLevelsCurrentRead <> 0 ->
   Z.land (server.UserAccessLevel n1 ctx) ua.AccessLevelsCurrentRead <> 0 ->
   (forall f, server.ReadValueHandler n1 = Some f -> readValue ctx r now = f ctx r) /\
   (server.ReadValueHandler n1 = None ->
    readValue ctx r now
    = server.readRange (server.vn_Value n1) (ua.rv_IndexRange r))) /\
  (server.vn_AccessLevel n1 = 0 ->
   ua.StatusCodeOf (readValue ctx r now) = ua.BadNotReadable).
Proof.
  intros Hres. rewrite (readValue_resolved _ _ _ _ Hres).
  split; [|split; [|split]].
  - intros H. rewrite H. reflexivity.
  - intros H1 H2. apply Z.eqb_neq in H1. rewrite H1, H2. reflexivity.
  - intros H1 H2. apply Z.eqb_neq in H1, H2. rewrite H1, H2.
    split; [intros f Hf | intros Hf]; rewrite Hf; reflexivity.
  - intros H. rewrite H. reflexivity.
Qed.

End ReadValue.

Lemma readValue_access_witness :
  ua.StatusCodeOf
    (server.readValue example.FindNode example.IsUserPermitted
       example.readOtherAttribute (example.ctx [example.browseOnly])
       (example.readValueOf example.sealed) 1000)
  = ua.BadNotReadable.
Proof.
  refine (proj2 (proj2 (proj2
            (readValue_access example.FindNode example.IsUserPermitted
               example.readOtherAttribute (example.ctx [example.browseOnly])
               (example.readValueOf example.sealed) example.sealed 1000 _))) _).
  - repeat split; reflexivity.
  - reflexivity.
Defined.

(** ** Monitored items with a deadband *)

Section Deadband.

Variable FindNode : ua.NodeID -> option server.Node.
Variable FindVariantType : ua.NodeID -> Z.
Variable IsUserPermitted : list ua.RolePermissionType -> Z -> bool.
Variable NewMonitoredItem :
  server.Context -> server.Node -> server.MonitoredItemCreateRequest ->
  server.MonitoredItem.

Local Abbreviation createMonitoredItem :=
  (server.createMonitoredItem FindNode FindVariantType IsUserPermitted
                              NewMonitoredItem).
Local Abbreviation createMonitoredItems :=
  (server.createMonitoredItems FindNode FindVariantType IsUserPermitted
                               NewMonitoredItem).

(** The tests that come before the filter is looked at: each returns
    a status of its own, whatever the filter is. *)
Lemma createMonitoredItem_earlier_tests ctx item n2 deadbandType :
  spec.monitorsValue FindNode item n2 deadbandType ->
  (Z.land (server.vn_AccessLevel n2) ua.AccessLevelsCurrentRead = 0 ->
   createMonitoredItem ctx item = (server.failedCreate ua.BadNotReadable, None))
  /\ (Z.land (server.vn_AccessLevel n2) ua.AccessLevelsCurrentRead <> 0 ->
      Z.land (server.UserAccessLevel n2 ctx) ua.AccessLevelsCurrentRead = 0 ->
      createMonitoredItem ctx item
      = (server.failedCreate ua.BadUserAccessDenied, None))
  /\ (Z.land (server.vn_AccessLevel n2) ua.AccessLevelsCurrentRead <> 0 ->
      Z.land (server.UserAccessLevel n2 ctx) ua.AccessLevelsCurrentRead <> 0 ->
      forall sc,
        server.validateIndexRange FindVariantType
          (ua.rv_IndexRange (server.ItemToMonitor item))
          (server.vn_DataType n2) (server.vn_ValueRank n2) = sc ->
        sc <> ua.Good ->
        createMonitoredItem ctx item = (server.failedCreate sc, None)).
Proof.
  intros (Hfind & Hattr & trigger & deadbandValue & Hfilter).
  unfold server.createMonitoredItem.
  rewrite Hfind, Hattr. cbn [server.IsAttributeIDValid].
  change (server.VariableNode_IsAttributeIDValid ua.AttributeIDValue) with true.
  cbn [negb]. rewrite Z.eqb_refl.
  split; [|split].
  - intros H1. rewrite H1. reflexivity.
  - intros H1 H2. apply Z.eqb_neq in H1. rewrite H1, H2. reflexivity.
  - intros H1 H2 sc Hsc Hbad.
    apply Z.eqb_neq in H1, H2, Hbad. rewrite H1, H2, Hsc, Hbad. reflexivity.
Qed.

Lemma deadbandAllowed_numeric (t : Z) :
  server.deadbandAllowed t = true <-> spec.numericType t.
Proof.
  unfold server.deadbandAllowed, server.memZ, spec.numericType. cbn [existsb].
  rewrite !orb_true_iff, !Z.eqb_eq. intuition congruence.
Qed.

Lemma createMonitoredItem_deadband ctx item n2 deadbandType :
  spec.monitorsValue FindNode item n2 deadbandType ->
  deadbandType <> ua.DeadbandTypeNone ->
  server.deadbandAllowed (FindVariantType (server.vn_DataType n2)) = false ->
  snd (createMonitoredItem ctx item) = None
  /\ server.mr_StatusCode (fst (createMonitoredItem ctx item)) <> ua.Good
  /\ (spec.reachesFilter FindVariantType ctx item n2 ->
      createMonitoredItem ctx item
      = (server.failedCreate ua.BadFilterNotAllowed, None)).
Proof.
  intros (Hfind & Hattr & trigger & deadbandValue & Hfilter) Hdb Hnum.
  unfold server.createMonitoredItem.
  rewrite Hfind, Hattr, Hfilter, Hnum. cbn [server.IsAttributeIDValid].
  change (server.VariableNode_IsAttributeIDValid ua.AttributeIDValue) with true.
  cbn [negb]. rewrite Z.eqb_refl.
  apply Z.eqb_neq in Hdb. rewrite Hdb. cbn [negb andb].
  destruct (Z.land (server.vn_AccessLevel n2) ua.AccessLevelsCurrentRead =? 0) eqn:E1.
  { split; [reflexivity|]. split; [discriminate|].
    intros (H & _). apply Z.eqb_eq in E1. contradiction. }
  destruct (Z.land (server.UserAccessLevel n2 ctx) ua.AccessLevelsCurrentRead =? 0)
    eqn:E2.
  { split; [reflexivity|]. split; [discriminate|].
    intros (_ & H & _). apply Z.eqb_eq in E2. contradiction. }
  destruct (server.validateIndexRange FindVariantType _ _ _ =? ua.Good) eqn:E3;
    cbn [negb].
  - split; [reflexivity|]. split; [discriminate | reflexivity].
  - split; [reflexivity|]. apply Z.eqb_neq in E3. split; [exact E3|].
    intros (_ & _ & H). contradiction.
Qed.

(** C6 as stated fails: the tests on the access level and on the index
    range come before the filter is looked at.  For a user whose role
    grants Browse only, a monitored item of kind Value on a String
    variable with a deadband gets BadUserAccessDenied, not
    BadFilterNotAllowed. *)
Lemma deadband_after_access_tests :
  spec.monitorsValue example.FindNode (example.monitor example.label 1)
                     example.label 1
  /\ 1 <> ua.DeadbandTypeNone
  /\ example.FindVariantType (server.vn_DataType example.label)
     = ua.VariantTypeString
  /\ server.createMonitoredItem example.FindNode example.FindVariantType
       example.IsUserPermitted example.NewMonitoredItem
       (example.ctx [example.browseOnly]) (example.monitor example.label 1)
     = (server.failedCreate ua.BadUserAccessDenied, None)
  /\ ua.BadUserAccessDenied <> ua.BadFilterNotAllowed.
Proof.
  split; [|split; [|split; [|split]]]; try reflexivity; try discriminate.
  split; [reflexivity|]. split; [reflexivity|]. do 2 eexists. reflexivity.
Qed.

(** C6, amended. When a monitored item of kind Value is created with a
    DataChangeFilter whose DeadbandType is not None, the item is created
    only if the destination variant type of the variable is one of
    SByte, Byte, Int16, Int32, Int64, UInt16, UInt32, UInt64, Float,
    Double.  For every other destination type, String for one, no item
    is created; the result is BadFilterNotAllowed when the item passes
    the tests that come before the filter (CurrentRead in the access
    level of the variable and in that of the user, a valid index
    range), and the subscription is left as it was.  An item that
    fails one of those tests gets the status of the first that fails,
    BadNotReadable, BadUserAccessDenied or the status of the index
    range, whatever the destination type is. *)
Theorem deadband_numeric_only (ctx : server.Context)
        (item : server.MonitoredItemCreateRequest)
        (n2 : server.VariableNode) (deadbandType : Z) :
  spec.monitorsValue FindNode item n2 deadbandType ->
  deadbandType <> ua.DeadbandTypeNone ->
  let destType := FindVariantType (server.vn_DataType n2) in
  (forall r mi, createMonitoredItem ctx item = (r, Some mi) ->
                spec.numericType destType) /\
  (forall r added, createMonitoredItem ctx item = (r, added) ->
                   server.mr_StatusCode r = ua.Good ->
                   spec.numericType destType) /\
  (~ spec.numericType destType ->
   snd (createMonitoredItem ctx item) = None
   /\ (spec.reachesFilter FindVariantType ctx item n2 ->
       createMonitoredItem ctx item
       = (server.failedCreate ua.BadFilterNotAllowed, None)
       /\ forall (Subscription : Type)
                 (AppendItem : Subscription -> server.MonitoredItem -> Subscription)
                 (sub : Subscription),
           createMonitoredItems Subscription AppendItem ctx [item] sub
           = ([server.failedCreate ua.BadFilterNotAllowed], sub))) /\
  (destType = ua.VariantTypeString ->
   spec.reachesFilter FindVariantType ctx item n2 ->
   server.mr_StatusCode (fst (createMonitoredItem ctx item))
   = ua.BadFilterNotAllowed
   /\ snd (createMonitoredItem ctx item) = None) /\
  (Z.land (server.vn_AccessLevel n2) ua.AccessLevelsCurrentRead = 0 ->
   createMonitoredItem ctx item = (server.failedCreate ua.BadNotReadable, None)) /\
  (Z.land (server.vn_AccessLevel n2) ua.AccessLevelsCurrentRead <> 0 ->
   Z.land (server.UserAccessLevel n2 ctx) ua.AccessLevelsCurrentRead = 0 ->
   createMonitoredItem ctx item
   = (server.failedCreate ua.BadUserAccessDenied, None)) /\
  (Z.land (server.vn_AccessLevel n2) ua.AccessLevelsCurrentRead <> 0 ->
   Z.land (server.UserAccessLevel n2 ctx) ua.AccessLevelsCurrentRead <> 0 ->
   forall sc,
     server.validateIndexRange FindVariantType
       (ua.rv_IndexRange (server.ItemToMonitor item))
       (server.vn_DataType n2) (server.vn_ValueRank n2) = sc ->
     sc <> ua.Good ->
     createMonitoredItem ctx item = (server.failedCreate sc, None)
     /\ sc <> ua.BadFilterNotAllowed).
Proof.
  intros Hitem Hdb destType.
  destruct (createMonitoredItem_earlier_tests ctx item n2 deadbandType Hitem)
    as (Hread & Huser & Hrange).
  assert (Hrej : server.deadbandAllowed destType = false ->
                 snd (createMonitoredItem ctx item) = None
                 /\ server.mr_StatusCode (fst (createMonitoredItem ctx item))
                    <> ua.Good
                 /\ (spec.reachesFilter FindVariantType ctx item n2 ->
                      createMonitoredItem ctx item
                      = (server.failedCreate ua.BadFilterNotAllowed, None)))
    by (intros E; apply (createMonitoredItem_deadband ctx item n2 deadbandType);
        assumption).
  assert (Hnum : forall r added,
             createMonitoredItem ctx item = (r, added) ->
             added <> None \/ server.mr_StatusCode r = ua.Good ->
             spec.numericType destType).
  { intros r added Hc Hok. apply deadbandAllowed_numeric.
    destruct (server.deadbandAllowed destType) eqn:E; [reflexivity|].
    destruct (Hrej eq_refl) as (Hnone & Hbad & _).
    rewrite Hc in Hnone, Hbad. cbn in Hnone, Hbad. subst added.
    destruct Hok; congruence. }
  split; [|split; [|split; [|split; [|split; [|split]]]]].
  - intros r mi Hc. apply (Hnum _ _ Hc). left. discriminate.
  - intros r added Hc Hgood. apply (Hnum _ _ Hc). right. exact Hgood.
  - intros Hn.
    assert (E : server.deadbandAllowed destType = false).
    { destruct (server.deadbandAllowed destType) eqn:E; [|reflexivity].
      apply deadbandAllowed_numeric in E. contradiction. }
    destruct (Hrej E) as (Hnone & _ & Hst).
    split; [exact Hnone|]. intros Hreach. specialize (Hst Hreach).
    split; [exact Hst|]. intros Subscription AppendItem sub.
    cbn [server.createMonitoredItems]. rewrite Hst. reflexivity.
  - intros Hstr Hreach.
    assert (E : server.deadbandAllowed destType = false)
      by (rewrite Hstr; reflexivity).
    destruct (Hrej E) as (Hnone & _ & Hst).
    rewrite (Hst Hreach). split; reflexivity.
  - exact Hread.
  - exact Huser.
  - intros H1 H2 sc Hsc Hbad. split; [exact (Hrange H1 H2 sc Hsc Hbad)|].
    intros ->. revert Hsc. unfold server.validateIndexRange.
    repeat match goal with
           | |- context [if ?c then _ else _] => destruct c
           end; discriminate.
Qed.

End Deadband.

Lemma deadband_numeric_only_witness :
  server.mr_StatusCode
    (fst (server.createMonitoredItem example.FindNode example.FindVariantType
            example.IsUserPermitted example.NewMonitoredItem
            (example.ctx [example.readWrite]) (example.monitor example.label 1)))
  = ua.BadFilterNotAllowed
  /\ snd (server.createMonitoredItem example.FindNode example.FindVariantType
            example.IsUserPermitted example.NewMonitoredItem
            (example.ctx [example.readWrite]) (example.monitor example.label 1))
     = None.
Proof.
  assert (Hitem : spec.monitorsValue example.FindNode
                    (example.monitor example.label 1) example.label 1)
    by (split; [reflexivity|]; split; [reflexivity|]; do 2 eexists;
        reflexivity).
  destruct (deadband_numeric_only example.FindNode example.FindVariantType
              example.IsUserPermitted example.NewMonitoredItem
              (example.ctx [example.readWrite]) (example.monitor example.label 1)
              example.label 1 Hitem ltac:(discriminate))
    as (_ & _ & _ & Hstring & _).
  apply Hstring.
  - reflexivity.
  - repeat split; vm_compute; discriminate.
Defined.

(** ** Write of the attribute Value: the type and rank check *)

Section TypeCheck.

Variable caps : server.ServerCapabilities.

Lemma gtb_of_leb (n m : Z) : (n <=? m) = true -> (n >? m) = false.
Proof. intros H. apply Z.leb_le in H. rewrite Z.gtb_ltb. apply Z.ltb_ge. lia. Qed.






End TypeCheck.

Section WriteValue.

Variable FindNode : ua.NodeID -> option server.Node.
Variable FindVariantType : ua.NodeID -> Z.
Variable IsUserPermitted : list ua.RolePermissionType -> Z -> bool.
Variable caps : server.ServerCapabilities.

Local Abbreviation writeValue :=
  (server.writeValue FindNode FindVariantType IsUserPermitted caps).
Local Abbreviation passesGates := (spec.passesGates FindNode IsUserPermitted).

Lemma length_string_of_bytes (l : list ascii) :
  strings.len (string_of_bytes l) = server.len l.
Proof.
  unfold strings.len, server.len, string_of_bytes. f_equal.
  induction l as [|c l IH]; simpl; [reflexivity | now rewrite IH].
Qed.

Lemma length_bytes_of_string (s : string) :
  server.len (bytes_of_string s) = strings.len s.
Proof.
  unfold strings.len, server.len, bytes_of_string. f_equal.
  induction s as [|c s IH]; simpl; [reflexivity | now rewrite IH].
Qed.




End WriteValue.


(** ** Printing and parsing of numbers *)

Section DecimalRoundTrip.

Lemma Z_of_byte_of_Z (z : Z) : 0 <= z < 256 -> Z_of_byte (byte_of_Z z) = z.
Proof.
  intros Hz. unfold Z_of_byte, byte_of_Z.
  rewrite Z.mod_small by lia.
  rewrite N_ascii_embedding by lia. lia.
Qed.

Lemma byte_of_Z_of_byte (c : ascii) : byte_of_Z (Z_of_byte c) = c.
Proof.
  unfold Z_of_byte, byte_of_Z.
  pose proof (N_ascii_bounded c) as Hb.
  rewrite Z.mod_small by lia.
  rewrite N2Z.id. apply ascii_N_embedding.
Qed.

Lemma Z_of_byte_range (c : ascii) : 0 <= Z_of_byte c < 256.
Proof. unfold Z_of_byte. pose proof (N_ascii_bounded c). lia. Qed.

Lemma digit10_digit_char (d : Z) :
  0 <= d <= 9 -> strconv.digit10 (fmt.digit_char d) = Some d.
Proof.
  intros Hd. unfold strconv.digit10, fmt.digit_char.
  rewrite Z_of_byte_of_Z by lia.
  assert (H1 : (48 <=? 48 + d) = true) by lia.
  assert (H2 : (48 + d <=? 57) = true) by lia.
  rewrite H1, H2. cbn [andb]. f_equal. lia.
Qed.

Lemma parseUintLoop_digit (d : Z) (acc : string) (n maxVal : Z) :
  0 <= d <= 9 -> 0 <= n -> n * 10 + d <= maxVal -> maxVal < 2 ^ 64 ->
  strconv.parseUintLoop (String (fmt.digit_char d) acc) n maxVal
  = strconv.parseUintLoop acc (n * 10 + d) maxVal.
Proof.
  intros Hd Hn Hmax H64. cbn [strconv.parseUintLoop].
  rewrite digit10_digit_char by assumption.
  assert (Hcut : (n >=? strconv.maxUint64 / 10 + 1) = false).
  { unfold strconv.maxUint64. rewrite Z.geb_leb. apply Z.leb_gt.
    change (2 ^ 64) with 18446744073709551616 in *.
    change ((18446744073709551616 - 1) / 10 + 1) with 1844674407370955162. lia. }
  rewrite Hcut.
  rewrite (Z.mod_small (n * 10 + d)) by lia.
  assert (H1 : (n * 10 + d <? n * 10) = false) by lia.
  assert (H2 : (n * 10 + d >? maxVal) = false) by lia.
  rewrite H1, H2. reflexivity.
Qed.

Lemma parseUintLoop_formatBits (fuel : nat) (u : Z) (acc : string) (maxVal : Z) :
  0 <= u < 10 ^ Z.of_nat fuel -> u <= maxVal -> maxVal < 2 ^ 64 ->
  strconv.parseUintLoop (fmt.formatBits fuel u acc) 0 maxVal
  = strconv.parseUintLoop acc u maxVal.
Proof.
  revert u acc. induction fuel as [|fuel IH]; intros u acc Hu Hmax H64.
  - cbn in Hu. assert (u = 0) by lia. subst u. reflexivity.
  - cbn [fmt.formatBits].
    destruct (u >=? 10) eqn:E.
    + apply Z.geb_le in E.
      assert (Hq : 0 <= u / 10 < 10 ^ Z.of_nat fuel).
      { rewrite Nat2Z.inj_succ, Z.pow_succ_r in Hu by lia.
        split; [apply Z.div_pos; lia | apply Z.div_lt_upper_bound; lia]. }
      assert (Hdm := Z.div_mod u 10 ltac:(lia)).
      assert (Hm := Z.mod_pos_bound u 10 ltac:(lia)).
      rewrite IH by (try assumption; lia).
      rewrite parseUintLoop_digit by lia.
      f_equal. lia.
    + assert (u < 10) by (rewrite Z.geb_leb in E; apply Z.leb_gt in E; lia).
      rewrite parseUintLoop_digit by lia. f_equal.
Qed.

Lemma formatBits_nonempty (fuel : nat) (u : Z) (acc : string) :
  (acc <> EmptyString \/ fuel <> O) -> fmt.formatBits fuel u acc <> EmptyString.
Proof.
  revert u acc. induction fuel as [|fuel IH]; intros u acc H.
  - destruct H; [assumption | congruence].
  - cbn [fmt.formatBits]. destruct (u >=? 10).
    + apply IH. left. discriminate.
    + discriminate.
Qed.

(** Reading back what [%d] prints. *)
Lemma ParseUint_FormatUint (u bitSize : Z) :
  0 <= bitSize <= 64 -> 0 <= u < 2 ^ bitSize ->
  strconv.ParseUint (fmt.FormatUint u) bitSize = Some u.
Proof.
  intros Hb Hu.
  assert (H64 : 2 ^ bitSize <= 2 ^ 64) by (apply Z.pow_le_mono_r; lia).
  unfold strconv.ParseUint, fmt.FormatUint.
  destruct (fmt.formatBits 20 u "") eqn:E.
  - exfalso. revert E. apply formatBits_nonempty. right. discriminate.
  - rewrite <- E. rewrite parseUintLoop_formatBits.
    + reflexivity.
    + change (2 ^ 64) with 18446744073709551616 in H64.
      change (10 ^ Z.of_nat 20) with 100000000000000000000. lia.
    + lia.
    + lia.
Qed.

Lemma FormatUint_digits (sep : ascii) (u : Z) :
  strconv.digit10 sep = None -> 0 <= u < 2 ^ 64 ->
  strings.hasByte sep (fmt.FormatUint u) = false.
Proof.
  intros Hsep Hu. eapply ParseUint_digits; [exact Hsep|].
  apply (ParseUint_FormatUint u 64); lia.
Qed.

End DecimalRoundTrip.

(** ** Printing and parsing of UUIDs *)

Section UUIDRoundTrip.

Lemma xtob_hexdigits (b : ascii) :
  uuid.xtob (uuid.hexdigit (Z.shiftr (Z_of_byte b) 4))
            (uuid.hexdigit (Z.land (Z_of_byte b) 0x0F)) = Some b.
Proof. destruct b as [[] [] [] [] [] [] [] []]; vm_compute; reflexivity. Qed.

Lemma length_hexEncode (l : list ascii) :
  String.length (uuid.hexEncode l) = (2 * List.length l)%nat.
Proof. induction l as [|b l IH]; cbn [uuid.hexEncode String.length List.length]; lia. Qed.

(** The canonical form of 36 characters is read back. *)
Lemma Parse_String (u : uuid.UUID) :
  List.length u = 16%nat -> uuid.Parse (uuid.String_ u) = Some u.
Proof.
  intros Hlen.
  do 16 (destruct u as [|? u]; [discriminate Hlen|]).
  destruct u; [|discriminate Hlen]. clear Hlen.
  unfold uuid.String_, uuid.sub.
  cbn [firstn skipn Nat.sub uuid.hexEncode append].
  unfold uuid.Parse. cbn [String.length Nat.eqb Nat.add].
  unfold uuid.dashed.
  cbn [uuid.at_ String.get Ascii.eqb Bool.eqb negb orb Nat.add uuid.xtobAll].
  rewrite !xtob_hexdigits. reflexivity.
Qed.

End UUIDRoundTrip.

(** ** Bits as arithmetic *)

Section BitFacts.

Lemma land_disjoint (x lo k : Z) :
  0 <= k -> 0 <= lo < 2 ^ k -> x mod 2 ^ k = 0 -> Z.land x lo = 0.
Proof.
  intros Hk Hlo Hx. apply Z.bits_inj'. intros n Hn.
  rewrite Z.land_spec, Z.bits_0.
  destruct (Z.ltb_spec n k) as [Hlt|Hge].
  - assert (Hbit : Z.testbit x n = false).
    { rewrite <- (Z.mod_pow2_bits_low x k n) by lia. rewrite Hx. apply Z.bits_0. }
    rewrite Hbit. reflexivity.
  - assert (Hbit : Z.testbit lo n = false).
    { rewrite <- (Z.mod_small lo (2 ^ k)) by lia.
      apply Z.mod_pow2_bits_high. lia. }
    rewrite Hbit. apply andb_false_r.
Qed.

(** [x | lo] is [x + lo] when [lo] fits under the low zero bits of [x]. *)
Lemma lor_add (x lo k : Z) :
  0 <= k -> 0 <= lo < 2 ^ k -> x mod 2 ^ k = 0 -> Z.lor x lo = x + lo.
Proof.
  intros Hk Hlo Hx.
  pose proof (land_disjoint x lo k Hk Hlo Hx) as Hd.
  rewrite <- (Z.lxor_lor _ _ Hd). symmetry. apply Z.add_nocarry_lxor, Hd.
Qed.

Lemma land_mask (x k : Z) : 0 <= k -> Z.land x (2 ^ k - 1) = x mod 2 ^ k.
Proof.
  intros Hk. rewrite <- Z.land_ones by assumption.
  f_equal. rewrite Z.ones_equiv. lia.
Qed.

Lemma forall_below (n : nat) (P : Z -> bool) :
  forallb P (map Z.of_nat (seq 0 n)) = true ->
  forall v, 0 <= v < Z.of_nat n -> P v = true.
Proof.
  intros H v Hv. rewrite forallb_forall in H. apply H.
  apply in_map_iff. exists (Z.to_nat v). split; [lia|]. apply in_seq. lia.
Qed.

End BitFacts.

(** ** Base64 *)

Section Base64RoundTrip.

Lemma list_ind3 {A} (P : list A -> Prop) :
  P [] -> (forall a, P [a]) -> (forall a b, P [a; b]) ->
  (forall a b c l, P l -> P (a :: b :: c :: l)) ->
  forall l, P l.
Proof.
  intros H0 H1 H2 H3.
  fix IH 1. intros [|a [|b [|c l]]].
  - exact H0.
  - apply H1.
  - apply H2.
  - apply H3, IH.
Qed.

Lemma sextet_value (val shift : Z) :
  0 <= shift ->
  base64.sextet val shift = base64.encode ((val / 2 ^ shift) mod 64).
Proof.
  intros Hs. unfold base64.sextet.
  rewrite Z.shiftr_div_pow2 by assumption.
  change 0x3F with (2 ^ 6 - 1). rewrite land_mask by lia. reflexivity.
Qed.

Lemma encode_facts (v : Z) :
  0 <= v < 64 ->
  base64.decodeMap (base64.encode v) = v
  /\ Ascii.eqb (base64.encode v) "010" = false
  /\ Ascii.eqb (base64.encode v) "013" = false.
Proof.
  intros Hv.
  pose proof (forall_below 64
    (fun v => (base64.decodeMap (base64.encode v) =? v)
              && negb (Ascii.eqb (base64.encode v) "010")
              && negb (Ascii.eqb (base64.encode v) "013"))
    ltac:(vm_compute; reflexivity) v Hv) as H.
  cbv beta in H. apply andb_true_iff in H as [H H3].
  apply andb_true_iff in H as [H1 H2].
  apply Z.eqb_eq in H1. apply negb_true_iff in H2, H3. auto.
Qed.

Lemma group_value (a b c : Z) :
  0 <= a < 256 -> 0 <= b < 256 -> 0 <= c < 256 ->
  Z.lor (Z.lor (Z.shiftl a 16) (Z.shiftl b 8)) c = a * 65536 + b * 256 + c.
Proof.
  intros Ha Hb Hc. rewrite !Z.shiftl_mul_pow2 by lia.
  change (2 ^ 16) with 65536. change (2 ^ 8) with 256.
  rewrite (lor_add (a * 65536) (b * 256) 16) by (try lia; Z.div_mod_to_equations; lia).
  apply (lor_add _ c 8); try lia. Z.div_mod_to_equations; lia.
Qed.

Lemma quantum_value (v0 v1 v2 v3 : Z) :
  0 <= v0 < 64 -> 0 <= v1 < 64 -> 0 <= v2 < 64 -> 0 <= v3 < 64 ->
  base64.quantum v0 v1 v2 v3 = v0 * 262144 + v1 * 4096 + v2 * 64 + v3.
Proof.
  intros H0 H1 H2 H3. unfold base64.quantum.
  rewrite !Z.shiftl_mul_pow2 by lia.
  change (2 ^ 18) with 262144. change (2 ^ 12) with 4096. change (2 ^ 6) with 64.
  rewrite (lor_add (v0 * 262144) (v1 * 4096) 18)
    by (try lia; Z.div_mod_to_equations; lia).
  rewrite (lor_add _ (v2 * 64) 12) by (try lia; Z.div_mod_to_equations; lia).
  apply (lor_add _ v3 6); try lia. Z.div_mod_to_equations; lia.
Qed.

Lemma decodeQuanta_step (a b c d : ascii) (rest : string) :
  base64.decodeQuanta (String a (String b (String c (String d rest)))) =
  let va := base64.decodeMap a in
  let vb := base64.decodeMap b in
  let vc := base64.decodeMap c in
  let vd := base64.decodeMap d in
  if (va =? 0xFF) || (vb =? 0xFF) then None
  else if vc =? 0xFF then
    if Ascii.eqb c base64.padChar && Ascii.eqb d base64.padChar
       && String.eqb rest "" then
      Some [byte_of_Z (Z.shiftr (base64.quantum va vb 0 0) 16)]
    else None
  else if vd =? 0xFF then
    if Ascii.eqb d base64.padChar && String.eqb rest "" then
      Some [byte_of_Z (Z.shiftr (base64.quantum va vb vc 0) 16);
            byte_of_Z (Z.shiftr (base64.quantum va vb vc 0) 8)]
    else None
  else
    match base64.decodeQuanta rest with
    | None => None
    | Some out =>
        Some (byte_of_Z (Z.shiftr (base64.quantum va vb vc vd) 16)
              :: byte_of_Z (Z.shiftr (base64.quantum va vb vc vd) 8)
              :: byte_of_Z (base64.quantum va vb vc vd) :: out)
    end.
Proof. reflexivity. Qed.

Lemma byte_of_Z_mod (z : Z) : byte_of_Z (z mod 256) = byte_of_Z z.
Proof. unfold byte_of_Z. now rewrite Z.mod_mod by lia. Qed.

Lemma byte_of_Z_eq (z : Z) (c : ascii) :
  z mod 256 = Z_of_byte c -> byte_of_Z z = c.
Proof.
  intros H. rewrite <- byte_of_Z_mod, H. apply byte_of_Z_of_byte.
Qed.

(** The sextets of a group of 24 bits, read back. *)
Lemma decode_sextets (val : Z) (rest : string) :
  0 <= val < 2 ^ 24 ->
  base64.decodeQuanta
    (String (base64.sextet val 18) (String (base64.sextet val 12)
    (String (base64.sextet val 6) (String (base64.sextet val 0) rest)))) =
  match base64.decodeQuanta rest with
  | None => None
  | Some out =>
      Some (byte_of_Z (val / 65536) :: byte_of_Z (val / 256) :: byte_of_Z val :: out)
  end.
Proof.
  intros Hval. change (2 ^ 24) with 16777216 in Hval.
  rewrite decodeQuanta_step. cbv zeta.
  rewrite !sextet_value by lia.
  change (2 ^ 18) with 262144. change (2 ^ 12) with 4096.
  change (2 ^ 6) with 64. change (2 ^ 0) with 1.
  set (v0 := (val / 262144) mod 64). set (v1 := (val / 4096) mod 64).
  set (v2 := (val / 64) mod 64). set (v3 := (val / 1) mod 64).
  assert (R0 : 0 <= v0 < 64) by (apply Z.mod_pos_bound; lia).
  assert (R1 : 0 <= v1 < 64) by (apply Z.mod_pos_bound; lia).
  assert (R2 : 0 <= v2 < 64) by (apply Z.mod_pos_bound; lia).
  assert (R3 : 0 <= v3 < 64) by (apply Z.mod_pos_bound; lia).
  destruct (encode_facts v0 R0) as (-> & _).
  destruct (encode_facts v1 R1) as (-> & _).
  destruct (encode_facts v2 R2) as (-> & _).
  destruct (encode_facts v3 R3) as (-> & _).
  assert (E0 : (v0 =? 255) = false) by lia.
  assert (E1 : (v1 =? 255) = false) by lia.
  assert (E2 : (v2 =? 255) = false) by lia.
  assert (E3 : (v3 =? 255) = false) by lia.
  rewrite E0, E1, E2, E3. cbn [orb].
  rewrite quantum_value by assumption.
  assert (Hq : v0 * 262144 + v1 * 4096 + v2 * 64 + v3 = val)
    by (subst v0 v1 v2 v3; Z.div_mod_to_equations; lia).
  rewrite Hq. rewrite !Z.shiftr_div_pow2 by lia.
  reflexivity.
Qed.

Lemma sextet_plain (val shift : Z) :
  0 <= shift ->
  Ascii.eqb (base64.sextet val shift) "010" = false
  /\ Ascii.eqb (base64.sextet val shift) "013" = false.
Proof.
  intros Hs. rewrite sextet_value by assumption.
  apply encode_facts, Z.mod_pos_bound. lia.
Qed.

Lemma stripNewlines_sextet (val shift : Z) (rest : string) :
  0 <= shift ->
  base64.stripNewlines (String (base64.sextet val shift) rest)
  = String (base64.sextet val shift) (base64.stripNewlines rest).
Proof.
  intros Hs. cbn [base64.stripNewlines].
  destruct (sextet_plain val shift Hs) as (-> & ->). reflexivity.
Qed.

Lemma stripNewlines_EncodeToString (l : list ascii) :
  base64.stripNewlines (base64.EncodeToString l) = base64.EncodeToString l.
Proof.
  induction l as [| a | a b | a b c l IH] using list_ind3;
    cbn [base64.EncodeToString]; cbv zeta;
    rewrite ?stripNewlines_sextet by lia; try rewrite IH; reflexivity.
Qed.

Lemma decodeQuanta_EncodeToString (l : list ascii) :
  base64.decodeQuanta (base64.EncodeToString l) = Some l.
Proof.
  induction l as [| a | a b | a b c l IH] using list_ind3.
  - reflexivity.
  - cbn [base64.EncodeToString]. cbv zeta.
    pose proof (Z_of_byte_range a) as Ha.
    rewrite Z.shiftl_mul_pow2 by lia. change (2 ^ 16) with 65536.
    set (val := Z_of_byte a * 65536).
    rewrite decodeQuanta_step. cbv zeta.
    rewrite !sextet_value by lia.
    change (2 ^ 18) with 262144. change (2 ^ 12) with 4096.
    set (v0 := (val / 262144) mod 64). set (v1 := (val / 4096) mod 64).
    assert (R0 : 0 <= v0 < 64) by (apply Z.mod_pos_bound; lia).
    assert (R1 : 0 <= v1 < 64) by (apply Z.mod_pos_bound; lia).
    destruct (encode_facts v0 R0) as (-> & _).
    destruct (encode_facts v1 R1) as (-> & _).
    assert (E0 : (v0 =? 255) = false) by lia.
    assert (E1 : (v1 =? 255) = false) by lia.
    rewrite E0, E1. cbn [orb].
    change (base64.decodeMap base64.padChar) with 255.
    cbn [Z.eqb Pos.eqb Ascii.eqb Bool.eqb base64.padChar andb String.eqb].
    rewrite quantum_value by lia.
    rewrite Z.shiftr_div_pow2 by lia. change (2 ^ 16) with 65536.
    do 2 f_equal. apply byte_of_Z_eq.
    subst v0 v1 val. Z.div_mod_to_equations. lia.
  - cbn [base64.EncodeToString]. cbv zeta.
    pose proof (Z_of_byte_range a) as Ha. pose proof (Z_of_byte_range b) as Hb.
    replace (Z.lor (Z.shiftl (Z_of_byte a) 16) (Z.shiftl (Z_of_byte b) 8))
      with (Z_of_byte a * 65536 + Z_of_byte b * 256)
      by (rewrite <- (Z.lor_0_r (Z.lor _ (Z.shiftl (Z_of_byte b) 8)));
          rewrite group_value by lia; lia).
    set (val := Z_of_byte a * 65536 + Z_of_byte b * 256).
    rewrite decodeQuanta_step. cbv zeta.
    rewrite !sextet_value by lia.
    change (2 ^ 18) with 262144. change (2 ^ 12) with 4096. change (2 ^ 6) with 64.
    set (v0 := (val / 262144) mod 64). set (v1 := (val / 4096) mod 64).
    set (v2 := (val / 64) mod 64).
    assert (R0 : 0 <= v0 < 64) by (apply Z.mod_pos_bound; lia).
    assert (R1 : 0 <= v1 < 64) by (apply Z.mod_pos_bound; lia).
    assert (R2 : 0 <= v2 < 64) by (apply Z.mod_pos_bound; lia).
    destruct (encode_facts v0 R0) as (-> & _).
    destruct (encode_facts v1 R1) as (-> & _).
    destruct (encode_facts v2 R2) as (-> & _).
    assert (E0 : (v0 =? 255) = false) by lia.
    assert (E1 : (v1 =? 255) = false) by lia.
    assert (E2 : (v2 =? 255) = false) by lia.
    rewrite E0, E1, E2. cbn [orb].
    change (base64.decodeMap base64.padChar) with 255.
    cbn [Z.eqb Pos.eqb Ascii.eqb Bool.eqb base64.padChar andb String.eqb].
    rewrite quantum_value by lia.
    rewrite !Z.shiftr_div_pow2 by lia.
    change (2 ^ 16) with 65536. change (2 ^ 8) with 256.
    assert (Hq : v0 * 262144 + v1 * 4096 + v2 * 64 + 0 = val)
      by (subst v0 v1 v2 val; Z.div_mod_to_equations; lia).
    rewrite Hq.
    rewrite (byte_of_Z_eq (val / 65536) a)
      by (subst val; Z.div_mod_to_equations; lia).
    rewrite (byte_of_Z_eq (val / 256) b)
      by (subst val; Z.div_mod_to_equations; lia).
    reflexivity.
  - cbn [base64.EncodeToString]. cbv zeta.
    pose proof (Z_of_byte_range a) as Ha. pose proof (Z_of_byte_range b) as Hb.
    pose proof (Z_of_byte_range c) as Hc.
    rewrite group_value by assumption.
    set (val := Z_of_byte a * 65536 + Z_of_byte b * 256 + Z_of_byte c).
    rewrite decode_sextets by (change (2 ^ 24) with 16777216; lia).
    rewrite IH.
    rewrite (byte_of_Z_eq (val / 65536) a)
      by (subst val; Z.div_mod_to_equations; lia).
    rewrite (byte_of_Z_eq (val / 256) b)
      by (subst val; Z.div_mod_to_equations; lia).
    rewrite (byte_of_Z_eq val c)
      by (subst val; Z.div_mod_to_equations; lia).
    reflexivity.
Qed.

(** Decoding what [EncodeToString] produces. *)
Lemma DecodeString_EncodeToString (l : list ascii) :
  base64.DecodeString (base64.EncodeToString l) = Some l.
Proof.
  unfold base64.DecodeString.
  rewrite stripNewlines_EncodeToString. apply decodeQuanta_EncodeToString.
Qed.

Lemma string_of_bytes_of_string (s : string) :
  string_of_bytes (bytes_of_string s) = s.
Proof. apply string_of_list_ascii_of_string. Qed.

End Base64RoundTrip.

(** ** NodeIDs: parsing what [String] prints *)

Section NodeIDRoundTrip.

Lemma prefix_append (p s : string) : String.prefix p (p ++ s) = true.
Proof.
  induction p as [|c p IH]; cbn [append String.prefix].
  - destruct s; reflexivity.
  - destruct (Ascii.ascii_dec c c); [exact IH | congruence].
Qed.

Lemma append_assoc (a b c : string) : (a ++ b) ++ c = a ++ (b ++ c).
Proof. induction a as [|x a IH]; cbn [append]; [reflexivity | now rewrite IH]. Qed.

Lemma hasByte_append (c : ascii) (a b : string) :
  strings.hasByte c (a ++ b) = strings.hasByte c a || strings.hasByte c b.
Proof.
  induction a as [|x a IH]; cbn [append strings.hasByte]; [reflexivity|].
  now rewrite IH, orb_assoc.
Qed.

Lemma slice_middle (a b c : string) :
  strings.slice (a ++ b ++ c) (strings.len a) (strings.len a + strings.len b) = b.
Proof.
  unfold strings.slice, strings.len.
  replace (Z.to_nat (Z.of_nat (String.length a) + Z.of_nat (String.length b)
                     - Z.of_nat (String.length a))) with (String.length b) by lia.
  rewrite Nat2Z.id. rewrite <- (Nat.add_0_r (String.length a)).
  rewrite substring_skip. apply substring_prefix.
Qed.

Lemma uint16_small (z : Z) : 0 <= z <= 65535 -> ua.uint16 z = z.
Proof. intros H. unfold ua.uint16. apply Z.mod_small. change (2 ^ 16) with 65536. lia. Qed.

Lemma uint32_small (z : Z) : 0 <= z < 2 ^ 32 -> ua.uint32 z = z.
Proof. intros H. unfold ua.uint32. apply Z.mod_small. lia. Qed.

Lemma String_printedBody (n : ua.NodeID) :
  ua.String_ n =
  if ua.GetNamespaceIndex n =? 0 then spec.printedBody n
  else "ns=" ++ fmt.FormatUint (ua.GetNamespaceIndex n) ++ ";" ++ spec.printedBody n.
Proof. destruct n; cbn; destruct (_ =? 0); reflexivity. Qed.

Lemma parseNodeIDBody_printedBody (n : ua.NodeID) :
  spec.wellFormedNodeID n -> n <> spec.nullNodeID ->
  ua.parseNodeIDBody (ua.GetNamespaceIndex n) (spec.printedBody n) = Some n.
Proof.
  intros [Hns Hn] Hnull. unfold ua.parseNodeIDBody, strings.HasPrefix.
  destruct n as [t ns id | t ns id | t ns id | t ns id];
    cbn [ua.GetNamespaceIndex spec.printedBody] in *.
  - destruct Hn as [-> Hid]. rewrite prefix_append.
    rewrite (slice_from_suffix "i=") by reflexivity.
    rewrite (ParseUint_FormatUint id 32) by lia.
    assert (Hz : (id =? 0) && (ns =? 0) = false).
    { destruct (Z.eqb_spec id 0) as [->|]; [|reflexivity].
      destruct (Z.eqb_spec ns 0) as [->|]; [|reflexivity].
      exfalso. apply Hnull. reflexivity. }
    rewrite Hz, uint16_small, uint32_small by lia. reflexivity.
  - subst t. change (String.prefix "i=" ("s=" ++ id)) with false.
    rewrite prefix_append. cbv iota.
    rewrite (slice_from_suffix "s=") by reflexivity.
    rewrite uint16_small by lia. reflexivity.
  - destruct Hn as [-> Hid].
    change (String.prefix "i=" ("g=" ++ uuid.String_ id)) with false.
    change (String.prefix "s=" ("g=" ++ uuid.String_ id)) with false.
    rewrite prefix_append. cbv iota.
    rewrite (slice_from_suffix "g=") by reflexivity.
    rewrite Parse_String by assumption.
    rewrite uint16_small by lia. reflexivity.
  - subst t.
    change (String.prefix "i=" ("b=" ++ base64.EncodeToString (bytes_of_string id)))
      with false.
    change (String.prefix "s=" ("b=" ++ base64.EncodeToString (bytes_of_string id)))
      with false.
    change (String.prefix "g=" ("b=" ++ base64.EncodeToString (bytes_of_string id)))
      with false.
    rewrite prefix_append. cbv iota.
    rewrite (slice_from_suffix "b=") by reflexivity.
    rewrite DecodeString_EncodeToString, string_of_bytes_of_string.
    rewrite uint16_small by lia. reflexivity.
Qed.

Lemma printedBody_not_namespace (n : ua.NodeID) :
  strings.HasPrefix (spec.printedBody n) "ns=" = false.
Proof. destruct n; reflexivity. Qed.

End NodeIDRoundTrip.

(** C5 as stated fails on the null NodeID: the numeric NodeID 0 of
    namespace 0 prints as "i=0", which [ParseNodeIDString] takes for
    no NodeID at all. *)
Lemma null_NodeID_not_read_back :
  ua.String_ (ua.NewNodeIDNumeric 0 0) = "i=0"
  /\ ua.ParseNodeIDString (ua.String_ (ua.NewNodeIDNumeric 0 0)) = None.
Proof. split; reflexivity. Qed.

(** C5, amended. Parsing is the inverse of printing for every NodeID
    of the four variants (numeric, string, GUID, opaque) and every
    namespace index 0..65535, except the null NodeID (numeric 0 in
    namespace 0): [ParseNodeIDString] applied to the [String] of the
    NodeID returns it. *)
Theorem ParseNodeIDString_String (n : ua.NodeID) :
  spec.wellFormedNodeID n -> n <> spec.nullNodeID ->
  ua.ParseNodeIDString (ua.String_ n) = Some n.
Proof.
  intros Hwf Hnull. pose proof Hwf as [Hns _].
  rewrite String_printedBody. unfold ua.ParseNodeIDString.
  destruct (Z.eqb_spec (ua.GetNamespaceIndex n) 0) as [H0|H0].
  - rewrite printedBody_not_namespace. rewrite <- H0 at 1.
    apply parseNodeIDBody_printedBody; assumption.
  - assert (Hbody := parseNodeIDBody_printedBody n Hwf Hnull).
    remember (ua.GetNamespaceIndex n) as ns eqn:Ens.
    unfold strings.HasPrefix. rewrite prefix_append.
    assert (Hd : strings.hasByte ";" ("ns=" ++ fmt.FormatUint ns) = false).
    { rewrite hasByte_append, (FormatUint_digits ";" ns) by (try reflexivity; lia).
      reflexivity. }
    assert (Hpos : strings.Index ("ns=" ++ fmt.FormatUint ns ++ ";" ++ spec.printedBody n) ";"
                   = 3 + strings.len (fmt.FormatUint ns)).
    { unfold strings.Index.
      change ("ns=" ++ fmt.FormatUint ns ++ ";" ++ spec.printedBody n)
        with ("ns=" ++ (fmt.FormatUint ns ++ String ";" (spec.printedBody n))).
      rewrite <- (append_assoc "ns=" (fmt.FormatUint ns)
                               (String ";" (spec.printedBody n))).
      rewrite (Index_from_first ";" ("ns=" ++ fmt.FormatUint ns)) by exact Hd.
      unfold strings.len. rewrite length_append. cbn [String.length].
      rewrite Nat2Z.inj_add. change (Z.of_nat 3) with 3.
      clear. lia. }
    rewrite Hpos.
    assert (Hne : (3 + strings.len (fmt.FormatUint ns) =? -1) = false)
      by (apply Z.eqb_neq; unfold strings.len; clear; lia).
    rewrite Hne.
    assert (Hs1 : strings.slice
                    ("ns=" ++ fmt.FormatUint ns ++ ";" ++ spec.printedBody n)
                    3 (3 + strings.len (fmt.FormatUint ns))
                  = fmt.FormatUint ns)
      by exact (slice_middle "ns=" (fmt.FormatUint ns) (";" ++ spec.printedBody n)).
    assert (Hs2 : strings.slice_from
                    ("ns=" ++ fmt.FormatUint ns ++ ";" ++ spec.printedBody n)
                    (3 + strings.len (fmt.FormatUint ns) + 1)
                  = spec.printedBody n).
    { rewrite <- !append_assoc.
      apply slice_from_suffix. unfold strings.len.
      rewrite !length_append. cbn [String.length]. clear. lia. }
    cbn [negb]. rewrite Hs1, Hs2.
    rewrite (ParseUint_FormatUint ns 16) by (change (2 ^ 16) with 65536; lia).
    exact Hbody.
Qed.

Lemma ParseNodeIDString_String_witness :
  ua.ParseNodeIDString (ua.String_ (ua.NewNodeIDOpaque 2 "abcd"))
  = Some (ua.NewNodeIDOpaque 2 "abcd").
Proof.
  apply ParseNodeIDString_String.
  - split; [cbn; lia | reflexivity].
  - discriminate.
Defined.

(** ** UTF-8: decoding what the encoder produces *)

Section UTF8Facts.

Ltac arith := Z.div_mod_to_equations; lia.

Ltac cmp :=
  repeat match goal with
         | |- context [?a <? ?b] => destruct (Z.ltb_spec a b); try lia
         | |- context [?a <=? ?b] => destruct (Z.leb_spec a b); try lia
         | |- context [?a =? ?b] => destruct (Z.eqb_spec a b); try lia
         end.

Lemma bits2 (a b : Z) :
  0 <= a -> 0 <= b < 64 ->
  Z.lor (Z.shiftl a 6) b = a * 64 + b.
Proof.
  intros Ha Hb. rewrite Z.shiftl_mul_pow2 by lia. change (2 ^ 6) with 64.
  apply (lor_add _ b 6); try lia. arith.
Qed.

Lemma bits3 (a b c : Z) :
  0 <= a -> 0 <= b < 64 -> 0 <= c < 64 ->
  Z.lor (Z.lor (Z.shiftl a 12) (Z.shiftl b 6)) c = a * 4096 + b * 64 + c.
Proof.
  intros Ha Hb Hc. rewrite !Z.shiftl_mul_pow2 by lia.
  change (2 ^ 6) with 64. change (2 ^ 12) with 4096.
  rewrite (lor_add (a * 4096) (b * 64) 12) by (try lia; arith).
  apply (lor_add _ c 6); try lia. arith.
Qed.

Lemma bits4 (a b c d : Z) :
  0 <= a -> 0 <= b < 64 -> 0 <= c < 64 -> 0 <= d < 64 ->
  Z.lor (Z.lor (Z.lor (Z.shiftl a 18) (Z.shiftl b 12)) (Z.shiftl c 6)) d
  = a * 262144 + b * 4096 + c * 64 + d.
Proof.
  intros Ha Hb Hc Hd. rewrite !Z.shiftl_mul_pow2 by lia.
  change (2 ^ 6) with 64. change (2 ^ 12) with 4096. change (2 ^ 18) with 262144.
  rewrite (lor_add (a * 262144) (b * 4096) 18) by (try lia; arith).
  rewrite (lor_add _ (c * 64) 12) by (try lia; arith).
  apply (lor_add _ d 6); try lia. arith.
Qed.

Lemma maskx_mod (x : Z) : Z.land x utf8.maskx = x mod 64.
Proof. change utf8.maskx with (2 ^ 6 - 1). apply land_mask. lia. Qed.
Lemma mask2_mod (x : Z) : Z.land x utf8.mask2 = x mod 32.
Proof. change utf8.mask2 with (2 ^ 5 - 1). apply land_mask. lia. Qed.
Lemma mask3_mod (x : Z) : Z.land x utf8.mask3 = x mod 16.
Proof. change utf8.mask3 with (2 ^ 4 - 1). apply land_mask. lia. Qed.
Lemma mask4_mod (x : Z) : Z.land x utf8.mask4 = x mod 8.
Proof. change utf8.mask4 with (2 ^ 3 - 1). apply land_mask. lia. Qed.

(** The four shapes of a decoded sequence, in arithmetic. *)
Lemma Decode_1 (c0 : ascii) (rest : string) :
  Z_of_byte c0 < 0x80 ->
  utf8.DecodeRuneInString (String c0 rest) = (Z_of_byte c0, 1%nat).
Proof.
  intros H. cbn [utf8.DecodeRuneInString]. cbv zeta.
  destruct (Z.ltb_spec (Z_of_byte c0) 0x80); [reflexivity | lia].
Qed.

Lemma Decode_2 (c0 c1 : ascii) (rest : string) :
  0xC2 <= Z_of_byte c0 <= 0xDF -> 0x80 <= Z_of_byte c1 <= 0xBF ->
  utf8.DecodeRuneInString (String c0 (String c1 rest))
  = ((Z_of_byte c0 - 192) * 64 + (Z_of_byte c1 - 128), 2%nat).
Proof.
  intros H0 H1. cbn [utf8.DecodeRuneInString]. cbv zeta.
  set (s0 := Z_of_byte c0) in *. set (s1 := Z_of_byte c1) in *.
  unfold utf8.first, utf8.locb, utf8.hicb. cmp; cbn [orb Nat.leb].
  rewrite mask2_mod, maskx_mod, bits2 by (apply Z.mod_pos_bound; lia).
  f_equal. arith.
Qed.

Lemma Decode_3 (c0 c1 c2 : ascii) (rest : string) :
  0xE0 <= Z_of_byte c0 <= 0xEF -> 0x80 <= Z_of_byte c1 <= 0xBF ->
  (Z_of_byte c0 = 0xE0 -> 0xA0 <= Z_of_byte c1) ->
  (Z_of_byte c0 = 0xED -> Z_of_byte c1 <= 0x9F) ->
  0x80 <= Z_of_byte c2 <= 0xBF ->
  utf8.DecodeRuneInString (String c0 (String c1 (String c2 rest)))
  = ((Z_of_byte c0 - 224) * 4096 + (Z_of_byte c1 - 128) * 64
     + (Z_of_byte c2 - 128), 3%nat).
Proof.
  intros H0 H1 HE0 HED H2. cbn [utf8.DecodeRuneInString]. cbv zeta.
  set (s0 := Z_of_byte c0) in *. set (s1 := Z_of_byte c1) in *.
  set (s2 := Z_of_byte c2) in *.
  unfold utf8.first, utf8.cont, utf8.locb, utf8.hicb.
  cmp; cbn [orb andb negb Nat.leb];
    rewrite mask3_mod, !maskx_mod, bits3 by (apply Z.mod_pos_bound; lia);
    f_equal; arith.
Qed.

Lemma Decode_4 (c0 c1 c2 c3 : ascii) (rest : string) :
  0xF0 <= Z_of_byte c0 <= 0xF4 -> 0x80 <= Z_of_byte c1 <= 0xBF ->
  (Z_of_byte c0 = 0xF0 -> 0x90 <= Z_of_byte c1) ->
  (Z_of_byte c0 = 0xF4 -> Z_of_byte c1 <= 0x8F) ->
  0x80 <= Z_of_byte c2 <= 0xBF -> 0x80 <= Z_of_byte c3 <= 0xBF ->
  utf8.DecodeRuneInString (String c0 (String c1 (String c2 (String c3 rest))))
  = ((Z_of_byte c0 - 240) * 262144 + (Z_of_byte c1 - 128) * 4096
     + (Z_of_byte c2 - 128) * 64 + (Z_of_byte c3 - 128), 4%nat).
Proof.
  intros H0 H1 HF0 HF4 H2 H3. cbn [utf8.DecodeRuneInString]. cbv zeta.
  set (s0 := Z_of_byte c0) in *. set (s1 := Z_of_byte c1) in *.
  set (s2 := Z_of_byte c2) in *. set (s3 := Z_of_byte c3) in *.
  unfold utf8.first, utf8.cont, utf8.locb, utf8.hicb.
  cmp; cbn [orb andb negb Nat.leb];
    rewrite mask4_mod, !maskx_mod, bits4 by (apply Z.mod_pos_bound; lia);
    f_equal; arith.
Qed.

Lemma lead_byte (t v k : Z) :
  0 <= k -> 0 <= v < 2 ^ k -> t mod 2 ^ k = 0 -> Z.lor t v = t + v.
Proof. intros. now apply (lor_add t v k). Qed.

Lemma cont_byte (x : Z) :
  Z.lor utf8.tx (Z.land x utf8.maskx) = 128 + x mod 64.
Proof.
  rewrite maskx_mod. apply (lead_byte _ _ 6); [lia | | reflexivity].
  apply Z.mod_pos_bound. lia.
Qed.

(** The encoding of a valid rune, by the number of its bytes. *)
Lemma EncodeRune_1 (r : Z) :
  0 <= r <= 0x7F -> utf8.EncodeRune r = String (byte_of_Z r) EmptyString.
Proof. intros H. unfold utf8.EncodeRune. cmp; reflexivity. Qed.

Lemma EncodeRune_2 (r : Z) :
  0x80 <= r <= 0x7FF ->
  utf8.EncodeRune r =
  String (byte_of_Z (192 + r / 64))
         (String (byte_of_Z (128 + r mod 64)) EmptyString).
Proof.
  intros H. unfold utf8.EncodeRune. cmp; cbn [andb];
    rewrite cont_byte, Z.shiftr_div_pow2 by lia; change (2 ^ 6) with 64;
    rewrite (lead_byte utf8.t2 _ 5) by (try reflexivity; try lia;
                                       change (2 ^ 5) with 32; arith);
    reflexivity.
Qed.

Lemma EncodeRune_3 (r : Z) :
  0x800 <= r <= 0xFFFF -> spec.validRune r ->
  utf8.EncodeRune r =
  String (byte_of_Z (224 + r / 4096))
         (String (byte_of_Z (128 + (r / 64) mod 64))
                 (String (byte_of_Z (128 + r mod 64)) EmptyString)).
Proof.
  intros H Hv. unfold spec.validRune, utf8.surrogateMin, utf8.surrogateMax,
                      utf8.MaxRune in Hv.
  unfold utf8.EncodeRune, utf8.surrogateMin, utf8.surrogateMax, utf8.MaxRune.
  cmp; cbn [andb orb]; unfold utf8.enc3;
    rewrite !cont_byte, !Z.shiftr_div_pow2 by lia;
    change (2 ^ 6) with 64; change (2 ^ 12) with 4096;
    rewrite (lead_byte utf8.t3 _ 4) by (try reflexivity; try lia;
                                       change (2 ^ 4) with 16; arith);
    reflexivity.
Qed.

Lemma EncodeRune_4 (r : Z) :
  0x10000 <= r <= 0x10FFFF ->
  utf8.EncodeRune r =
  String (byte_of_Z (240 + r / 262144))
         (String (byte_of_Z (128 + (r / 4096) mod 64))
                 (String (byte_of_Z (128 + (r / 64) mod 64))
                         (String (byte_of_Z (128 + r mod 64)) EmptyString))).
Proof.
  intros H. unfold utf8.EncodeRune, utf8.surrogateMin, utf8.surrogateMax, utf8.MaxRune.
  cmp; cbn [andb orb];
    rewrite !cont_byte, !Z.shiftr_div_pow2 by lia;
    change (2 ^ 6) with 64; change (2 ^ 12) with 4096; change (2 ^ 18) with 262144;
    rewrite (lead_byte utf8.t4 _ 3) by (try reflexivity; try lia;
                                       change (2 ^ 3) with 8; arith);
    reflexivity.
Qed.

(** The decoder reads back an encoded rune and its width. *)
Lemma Decode_Encode (r : Z) (rest : string) :
  spec.validRune r ->
  utf8.DecodeRuneInString (utf8.EncodeRune r ++ rest)
  = (r, String.length (utf8.EncodeRune r))
  /\ (1 <= String.length (utf8.EncodeRune r))%nat.
Proof.
  intros Hv. pose proof Hv as Hr.
  unfold spec.validRune, utf8.surrogateMin, utf8.surrogateMax, utf8.MaxRune in Hr.
  destruct (Z_le_gt_dec r 0x7F) as [H1|H1];
    [|destruct (Z_le_gt_dec r 0x7FF) as [H2|H2];
      [|destruct (Z_le_gt_dec r 0xFFFF) as [H3|H3]]].
  - rewrite EncodeRune_1 by lia. cbn [append String.length]. split; [|lia].
    rewrite Decode_1; rewrite Z_of_byte_of_Z by lia; [reflexivity | lia].
  - rewrite EncodeRune_2 by lia. cbn [append String.length]. split; [|lia].
    rewrite Decode_2; rewrite ?Z_of_byte_of_Z by arith; try arith.
    f_equal. arith.
  - rewrite EncodeRune_3 by (try assumption; lia).
    cbn [append String.length]. split; [|lia].
    rewrite Decode_3; rewrite ?Z_of_byte_of_Z by arith; try arith.
    f_equal. arith.
  - rewrite EncodeRune_4 by lia. cbn [append String.length]. split; [|lia].
    rewrite Decode_4; rewrite ?Z_of_byte_of_Z by arith; try arith.
    f_equal. arith.
Qed.

Lemma RuneError_valid : spec.validRune utf8.RuneError.
Proof. unfold spec.validRune, utf8.RuneError, utf8.surrogateMax, utf8.MaxRune. lia. Qed.

(** Every rune the decoder returns is a scalar value. *)
Lemma Decode_valid (s : string) :
  spec.validRune (fst (utf8.DecodeRuneInString s)).
Proof.
  destruct s as [|c0 r0]; [apply RuneError_valid|].
  cbn [utf8.DecodeRuneInString]. cbv zeta.
  pose proof (Z_of_byte_range c0) as B0. set (s0 := Z_of_byte c0) in *.
  destruct (Z.ltb_spec s0 0x80) as [Hascii|Hhigh].
  { cbn [fst]. unfold spec.validRune, utf8.surrogateMin. lia. }
  destruct (utf8.first s0) as [[[sz lo] hi]|] eqn:Hfirst; [|apply RuneError_valid].
  destruct r0 as [|c1 r1]; [apply RuneError_valid|].
  pose proof (Z_of_byte_range c1) as B1. set (s1 := Z_of_byte c1) in *.
  destruct ((s1 <? lo) || (hi <? s1)) eqn:Hs1; [apply RuneError_valid|].
  apply orb_false_iff in Hs1 as [Hlo Hhi].
  apply Z.ltb_ge in Hlo, Hhi.
  assert (Hfacts :
            (sz = 2%nat /\ 0xC2 <= s0 <= 0xDF /\ 0x80 <= s1 <= 0xBF)
            \/ (sz = 3%nat /\ 0xE0 <= s0 <= 0xEF /\ 0x80 <= s1 <= 0xBF
                /\ (s0 = 0xE0 -> 0xA0 <= s1) /\ (s0 = 0xED -> s1 <= 0x9F))
            \/ (sz = 4%nat /\ 0xF0 <= s0 <= 0xF4 /\ 0x80 <= s1 <= 0xBF
                /\ (s0 = 0xF0 -> 0x90 <= s1) /\ (s0 = 0xF4 -> s1 <= 0x8F))).
  { revert Hfirst. unfold utf8.first, utf8.locb, utf8.hicb.
    cmp; intros Hf; inversion Hf; subst sz lo hi; lia. }
  destruct Hfacts as [(-> & R0 & R1) | [(-> & R0 & R1 & RE0 & RED)
                                       | (-> & R0 & R1 & RF0 & RF4)]];
    cbn [Nat.leb].
  - cbn [fst]. rewrite mask2_mod, maskx_mod, bits2 by (apply Z.mod_pos_bound; lia).
    unfold spec.validRune, utf8.surrogateMin. left. arith.
  - destruct r1 as [|c2 r2]; [apply RuneError_valid|].
    pose proof (Z_of_byte_range c2) as B2. set (s2 := Z_of_byte c2) in *.
    destruct (utf8.cont s2) eqn:Hc2; cbn [negb]; [|apply RuneError_valid].
    unfold utf8.cont, utf8.locb, utf8.hicb in Hc2.
    apply andb_true_iff in Hc2 as [L2 U2]. apply Z.leb_le in L2, U2.
    cbn [fst].
    rewrite mask3_mod, !maskx_mod, bits3 by (apply Z.mod_pos_bound; lia).
    unfold spec.validRune, utf8.surrogateMin, utf8.surrogateMax, utf8.MaxRune.
    arith.
  - destruct r1 as [|c2 r2]; [apply RuneError_valid|].
    pose proof (Z_of_byte_range c2) as B2. set (s2 := Z_of_byte c2) in *.
    destruct (utf8.cont s2) eqn:Hc2; cbn [negb]; [|apply RuneError_valid].
    unfold utf8.cont, utf8.locb, utf8.hicb in Hc2.
    apply andb_true_iff in Hc2 as [L2 U2]. apply Z.leb_le in L2, U2.
    destruct r2 as [|c3 r3]; [apply RuneError_valid|].
    pose proof (Z_of_byte_range c3) as B3. set (s3 := Z_of_byte c3) in *.
    destruct (utf8.cont s3) eqn:Hc3; cbn [negb]; [|apply RuneError_valid].
    unfold utf8.cont, utf8.locb, utf8.hicb in Hc3.
    apply andb_true_iff in Hc3 as [L3 U3]. apply Z.leb_le in L3, U3.
    cbn [fst].
    rewrite mask4_mod, !maskx_mod, bits4 by (apply Z.mod_pos_bound; lia).
    unfold spec.validRune, utf8.surrogateMin, utf8.surrogateMax, utf8.MaxRune.
    right. arith.
Qed.

Lemma runesLoop_valid (fuel : nat) (s : string) :
  Forall spec.validRune (utf8.runesLoop fuel s).
Proof.
  revert s. induction fuel as [|fuel IH]; intros s.
  - constructor.
  - destruct s as [|c s']; [constructor|].
    change (utf8.runesLoop (S fuel) (String c s'))
      with (let '(r, size) := utf8.DecodeRuneInString (String c s') in
            r :: utf8.runesLoop fuel (utf8.drop size (String c s'))).
    pose proof (Decode_valid (String c s')) as Hv.
    destruct (utf8.DecodeRuneInString (String c s')) as [r size].
    constructor; [exact Hv | apply IH].
Qed.

Lemma runes_valid (s : string) : Forall spec.validRune (utf8.runes s).
Proof. apply runesLoop_valid. Qed.

Lemma drop_append (a b : string) : utf8.drop (String.length a) (a ++ b) = b.
Proof.
  induction a as [|c a IH]; cbn [String.length append utf8.drop].
  - destruct b; reflexivity.
  - exact IH.
Qed.

Lemma runesLoop_string_of_runes (rs : list Z) (fuel : nat) :
  Forall spec.validRune rs ->
  (String.length (utf8.string_of_runes rs) <= fuel)%nat ->
  utf8.runesLoop fuel (utf8.string_of_runes rs) = rs.
Proof.
  intros Hv. revert fuel. induction Hv as [|r rs Hr _ IH]; intros fuel Hfuel.
  - destruct fuel; reflexivity.
  - cbn [utf8.string_of_runes] in *.
    destruct (Decode_Encode r (utf8.string_of_runes rs) Hr) as [Hd Hk].
    rewrite length_append in Hfuel.
    destruct fuel as [|fuel]; [lia|].
    destruct (utf8.EncodeRune r ++ utf8.string_of_runes rs) as [|c s'] eqn:E.
    { apply (f_equal String.length) in E. rewrite length_append in E.
      cbn in E. lia. }
    change (utf8.runesLoop (S fuel) (String c s'))
      with (let '(r, size) := utf8.DecodeRuneInString (String c s') in
            r :: utf8.runesLoop fuel (utf8.drop size (String c s'))).
    rewrite Hd, <- E, drop_append. f_equal. apply IH. lia.
Qed.

(** [[]rune(string(rs))] is [rs] when the runes are scalar values. *)
Lemma runes_string_of_runes (rs : list Z) :
  Forall spec.validRune rs -> utf8.runes (utf8.string_of_runes rs) = rs.
Proof.
  intros Hv. unfold utf8.runes. apply runesLoop_string_of_runes; [assumption | lia].
Qed.

End UTF8Facts.

(* ================================================================= *)
(** ** Index ranges: what is written is read back *)

Section RangeRoundTrip.

Lemma parseBounds_range (s : string) (n i j : Z) (st : ua.StatusCode) :
  0 <= n ->
  server.parseBounds s n = (i, j, st) ->
  ua.IsBad st = false ->
  0 <= i /\ i < j /\ j <= n.
Proof.
  intros Hn. unfold server.parseBounds. cbv zeta.
  assert (B1 : ua.IsBad ua.BadIndexRangeNoData = true) by reflexivity.
  assert (B2 : ua.IsBad ua.BadIndexRangeInvalid = true) by reflexivity.
  destruct (Z.eqb_spec n 0) as [|Hn0].
  { intros E; inversion E; subst; congruence. }
  destruct (String.eqb s "").
  { intros E; inversion E; subst; lia. }
  set (index := strings.Index s ":").
  destruct (negb (index =? -1)).
  - destruct (strconv.ParseInt (strings.slice s 0 index) 32) as [lo|];
      [|intros E; inversion E; subst; congruence].
    destruct (strconv.ParseInt (strings.slice_from s (index + 1)) 32) as [hi|];
      [|intros E; inversion E; subst; congruence].
    destruct (Z.ltb_spec hi 0); [intros E; inversion E; subst; congruence|].
    rewrite Z.geb_leb.
    destruct (Z.leb_spec hi lo); [intros E; inversion E; subst; congruence|].
    destruct (Z.ltb_spec lo 0); [intros E; inversion E; subst; congruence|].
    rewrite !Z.geb_leb.
    destruct (Z.leb_spec n lo); [intros E; inversion E; subst; congruence|].
    destruct (Z.leb_spec n hi).
    + destruct (Z.eqb_spec (n - 1) (-1)); intros E; inversion E; subst; lia.
    + destruct (Z.eqb_spec hi (-1)); intros E; inversion E; subst; lia.
  - destruct (strconv.ParseInt s 32) as [lo|];
      [|intros E; inversion E; subst; congruence].
    destruct (Z.ltb_spec lo 0); [intros E; inversion E; subst; congruence|].
    rewrite !Z.geb_leb.
    destruct (Z.leb_spec n lo); [intros E; inversion E; subst; congruence|].
    destruct (Z.leb_spec n (-1)); [lia|].
    rewrite Z.eqb_refl. intros E; inversion E; subst; lia.
Qed.

Lemma len_nonneg {A} (l : list A) : 0 <= server.len l.
Proof. unfold server.len. lia. Qed.

Lemma len_splice {A} (src v2 : list A) (i j : Z) :
  0 <= i -> i <= j -> j <= server.len src -> j - i = server.len v2 ->
  server.len (server.splice src i j v2) = server.len src.
Proof.
  unfold server.len, server.splice. intros Hi Hij Hj Hw. cbv zeta.
  rewrite Hw, Nat2Z.id, Nat.min_id, firstn_all.
  rewrite !length_app, firstn_length_le, length_skipn by lia.
  lia.
Qed.

Lemma sub_splice {A} (src v2 : list A) (i j : Z) :
  0 <= i -> i <= j -> j <= server.len src -> j - i = server.len v2 ->
  server.sub (server.splice src i j v2) i j = v2.
Proof.
  unfold server.len, server.sub, server.splice. intros Hi Hij Hj Hw. cbv zeta.
  rewrite Hw, Nat2Z.id, Nat.min_id, firstn_all.
  rewrite skipn_app, skipn_all2 by (rewrite firstn_length_le; lia).
  rewrite firstn_length_le by lia.
  rewrite Nat.sub_diag. cbn [skipn app].
  rewrite firstn_app, firstn_all, Nat.sub_diag. cbn [firstn].
  apply app_nil_r.
Qed.

Lemma Forall_firstn {A} (P : A -> Prop) (n : nat) (l : list A) :
  Forall P l -> Forall P (firstn n l).
Proof.
  intros H. revert n. induction H as [|x l Hx _ IH]; intros [|n]; cbn [firstn];
    constructor; auto.
Qed.

Lemma Forall_skipn {A} (P : A -> Prop) (n : nat) (l : list A) :
  Forall P l -> Forall P (skipn n l).
Proof.
  intros H. revert n. induction H as [|x l Hx Hl IH]; intros [|n]; cbn [skipn];
    try constructor; auto.
Qed.

Lemma Forall_splice {A} (P : A -> Prop) (src v2 : list A) (i j : Z) :
  Forall P src -> Forall P v2 -> Forall P (server.splice src i j v2).
Proof.
  intros Hs Hv. unfold server.splice. cbv zeta.
  apply Forall_app; split; [apply Forall_firstn, Hs|].
  apply Forall_app; split; [apply Forall_firstn, Hv | apply Forall_skipn, Hs].
Qed.

Lemma bytes_of_string_of_bytes (l : list ascii) :
  bytes_of_string (string_of_bytes l) = l.
Proof. apply list_ascii_of_string_of_list_ascii. Qed.

Lemma writeFail_not_Good (st : ua.StatusCode) (result : ua.DataValue) :
  ua.IsBad st = true ->
  server.writeFail st <> ua.Returns (result, ua.Good).
Proof.
  intros Hbad E. unfold server.writeFail in E. inversion E; subst st.
  discriminate Hbad.
Qed.

Lemma single_range (ranges : list string) (n : Z) :
  List.length ranges = 1%nat -> 1 <= n -> (server.len ranges >? n) = false.
Proof.
  intros H Hn. unfold server.len. rewrite H. apply gtb_of_leb.
  apply Z.leb_le. exact Hn.
Qed.

(** With one range, the cases of [[]string] and [[]ua.ByteString]
    read as the cases of the other slices do. *)
Lemma readNested_single {A} (inj : list A -> ua.Variant)
      (inner : string -> list A -> ua.StatusCode + list A)
      (src : list A) (ranges : list string) (source : ua.DataValue) :
  List.length ranges = 1%nat ->
  server.readNested inj inner src ranges source
  = server.readSlice inj src ranges source.
Proof.
  intros H. unfold server.readNested, server.readSlice.
  rewrite (single_range ranges 2 H), (single_range ranges 1 H) by lia.
  destruct (server.parseBounds _ _) as [[i j] st].
  destruct (ua.IsBad st); reflexivity.
Qed.

(** The shared body of the slices: the elements written into the
    range are the elements read of it. *)
Lemma writeSlice_readSlice {A} (inj : list A -> ua.Variant)
      (cast : ua.Variant -> option (list A)) (maxRanges : Z)
      (src : list A) (ranges : list string) (value : ua.DataValue)
      (now : server.Clock) (result : ua.DataValue) :
  (forall v l, cast v = Some l -> v = inj l) ->
  List.length ranges = 1%nat ->
  server.writeSlice inj cast maxRanges src ranges value now
  = ua.Returns (result, ua.Good) ->
  exists l,
    result = ua.NewDataValue (inj l) (ua.StatusCodeOf value) (fst now) 0 (snd now) 0
    /\ server.readSlice inj l ranges result = spec.readBack value now.
Proof.
  intros Hcast Hone. unfold server.writeSlice.
  destruct (server.len ranges >? maxRanges);
    [intros E; now apply writeFail_not_Good in E|].
  destruct (server.parseBounds (server.range0 ranges) (server.len src))
    as [[i j] st] eqn:Hpb.
  destruct (ua.IsBad st) eqn:Hbad;
    [intros E; now apply writeFail_not_Good in E|].
  destruct (cast (ua.Value value)) as [v2|] eqn:Hv2; [|discriminate].
  destruct (Z.eqb_spec (j - i) (server.len v2)) as [Hw|]; cbn [negb];
    [|intros E; now apply writeFail_not_Good in E].
  intros E. unfold server.written in E. inversion E; subst result; clear E.
  destruct (parseBounds_range _ _ _ _ _ (len_nonneg src) Hpb Hbad)
    as (Hi & Hij & Hj).
  exists (server.splice src i j v2). split; [reflexivity|].
  unfold server.readSlice.
  rewrite (single_range ranges 1 Hone) by lia.
  rewrite len_splice, Hpb, Hbad by lia.
  rewrite sub_splice by lia.
  unfold server.readOk, spec.readBack. cbn [ua.StatusCodeOf ua.SourceTimestamp ua.ServerTimestamp].
  now rewrite (Hcast _ _ Hv2).
Qed.

Ltac cast_inj :=
  let v := fresh "v" in
  let H := fresh "H" in
  intros v ? H; destruct v; try discriminate H; inversion H; reflexivity.

Ltac bad_status E := exfalso; revert E; apply writeFail_not_Good; reflexivity.


(** C4, amended. For every source [v], incoming value [w], index
    range [r] of one dimension and clock [now]: when
    [writeRange(v, w, r)] returns status Good, and the incoming value,
    where it is a string spliced by a range, is well-formed UTF-8,
    then [readRange(result, r)] is the value and the status code of
    [w] under the two timestamps of the write, with picoseconds 0. *)
Theorem writeRange_readRange (v w : ua.DataValue) (r : string)
        (now : server.Clock) (result : ua.DataValue) :
  spec.oneDimension r ->
  spec.textIntact r (ua.Value w) ->
  server.writeRange v w r now = ua.Returns (result, ua.Good) ->
  server.readRange result r = spec.readBack w now.
Proof.
  intros Hone Htext. unfold server.writeRange, server.readRange.
  destruct (String.eqb_spec r "") as [->|Hr].
  { intros E. unfold server.written in E. inversion E. reflexivity. }
  cbv zeta. unfold spec.oneDimension in Hone.
  set (ranges := strings.Split r ",") in *.
  pose proof (single_range ranges 1 Hone ltac:(lia)) as Hsingle.
  destruct (ua.Value v) eqn:Hv; intros E;
    try (bad_status E);
    try (match type of E with
         | server.writeSlice ?inj ?cast _ _ _ _ _ = _ =>
           destruct (writeSlice_readSlice inj cast _ _ _ _ _ _
                                          ltac:(cast_inj) Hone E)
             as (l' & -> & Hread)
         end;
         cbn [ua.Value]; rewrite ?readNested_single by exact Hone;
         exact Hread).
  - (* string *)
    match type of Hv with _ = _ ?x => rename x into src end.
    rewrite Hsingle in E.
    destruct (server.parseBounds (server.range0 ranges) (server.len (utf8.runes src)))
      as [[i j] st] eqn:Hpb.
    destruct (ua.IsBad st) eqn:Hbad;
      [exfalso; revert E; now apply writeFail_not_Good|].
    destruct (ua.Value w) eqn:Hw;
      cbn [server.as_string] in E; try discriminate E.
    match type of Hw with _ = _ ?x => rename x into text end.
    cbv zeta in E.
    destruct (Z.eqb_spec (j - i) (server.len (utf8.runes text))) as [Hwidth|];
      cbn [negb] in E; [|bad_status E].
    unfold server.written in E. inversion E; subst result; clear E.
    destruct (parseBounds_range _ _ _ _ _ (len_nonneg _) Hpb Hbad)
      as (Hi & Hij & Hj).
    cbn [ua.Value]. rewrite Hsingle.
    rewrite runes_string_of_runes
      by (apply Forall_splice; apply runes_valid).
    rewrite len_splice, Hpb, Hbad by lia.
    rewrite sub_splice by lia.
    destruct Htext as [Hempty | Hvalid]; [contradiction|].
    unfold spec.validUTF8 in Hvalid. rewrite Hvalid.
    unfold server.readOk, spec.readBack.
    cbn [ua.StatusCodeOf ua.SourceTimestamp ua.ServerTimestamp].
    now rewrite Hw.
  - (* ByteString *)
    match type of Hv with _ = _ ?x => rename x into src end.
    rewrite Hsingle in E.
    destruct (server.parseBounds (server.range0 ranges) (strings.len src))
      as [[i j] st] eqn:Hpb.
    destruct (ua.IsBad st) eqn:Hbad;
      [exfalso; revert E; now apply writeFail_not_Good|].
    destruct (ua.Value w) eqn:Hw;
      cbn [server.as_ByteString] in E; try discriminate E.
    match type of Hw with _ = _ ?x => rename x into octets end.
    destruct (Z.eqb_spec (j - i) (strings.len octets)) as [Hwidth|];
      cbn [negb] in E; [|bad_status E].
    unfold server.written in E. inversion E; subst result; clear E.
    rewrite <- length_bytes_of_string in Hpb, Hwidth.
    destruct (parseBounds_range _ _ _ _ _ (len_nonneg _) Hpb Hbad)
      as (Hi & Hij & Hj).
    cbn [ua.Value]. rewrite Hsingle.
    rewrite length_string_of_bytes, bytes_of_string_of_bytes.
    rewrite len_splice, Hpb, Hbad by lia.
    rewrite sub_splice by lia.
    rewrite string_of_bytes_of_string.
    unfold server.readOk, spec.readBack.
    cbn [ua.StatusCodeOf ua.SourceTimestamp ua.ServerTimestamp].
    now rewrite Hw.
  - (* []ua.StatusCode: the bounds are parsed before the ranges are counted *)
    destruct (writeSlice_readSlice ua.StatusCodes server.as_StatusCodes _ _ _ _ _ _
                                   ltac:(cast_inj) Hone E)
      as (l' & -> & Hread).
    cbn [ua.Value]. unfold server.readSlice in Hread.
    rewrite Hsingle in Hread |- *. exact Hread.
Qed.

Lemma writeRange_readRange_witness :
  server.readRange
    (ua.NewDataValue (ua.string_ ("h" ++ example.eacute ++ "llo")) ua.Good 5 0 6 0)
    "1"
  = spec.readBack (example.incoming (ua.string_ example.eacute)) example.clock.
Proof.
  apply (writeRange_readRange (example.stored (ua.string_ "hello"))
                              (example.incoming (ua.string_ example.eacute))
                              "1" example.clock).
  - reflexivity.
  - right. reflexivity.
  - reflexivity.
Defined.

(** C4 as stated fails on three writes that return Good.  Under a
    range of two dimensions the write replaces whole elements and the
    read goes on to cut each of them.  A string that is not
    well-formed UTF-8 is read back with U+FFFD for the stray byte.
    And the timestamps and picoseconds that are read are those of the
    write, not those of the incoming value. *)
Lemma written_range_not_read_back :
  (exists result,
      server.writeRange (example.stored (ua.strings_ ["abc"; "def"]))
                        (example.incoming (ua.strings_ ["xyz"; "uvw"]))
                        "0:1,0:1" example.clock
      = ua.Returns (result, ua.Good)
      /\ ua.Value (server.readRange result "0:1,0:1") = ua.strings_ ["xy"; "uv"]
      /\ ua.Value (server.readRange result "0:1,0:1") <> ua.strings_ ["xyz"; "uvw"])
  /\ (exists result,
         server.writeRange (example.stored (ua.string_ "abc"))
                           (example.incoming (ua.string_ example.stray))
                           "0" example.clock
         = ua.Returns (result, ua.Good)
         /\ ua.Value (server.readRange result "0") <> ua.string_ example.stray)
  /\ (exists result,
         server.writeRange (example.stored (ua.int32s [1; 2; 3]))
                           (example.incoming (ua.int32s [8; 9]))
                           "0:1" example.clock
         = ua.Returns (result, ua.Good)
         /\ server.readRange result "0:1"
            = ua.NewDataValue (ua.int32s [8; 9]) ua.Good 5 0 6 0
         /\ server.readRange result "0:1" <> example.incoming (ua.int32s [8; 9])).
Proof.
  split; [|split].
  - eexists. split; [reflexivity|]. split; [reflexivity|].
    vm_compute. discriminate.
  - eexists. split; [reflexivity|]. vm_compute. discriminate.
  - eexists. split; [reflexivity|]. split; [reflexivity|].
    vm_compute. discriminate.
Qed.

End RangeRoundTrip.

(* ================================================================= *)
(** * Further properties of the services *)

Section ServiceFacts.

Variable FindNode : ua.NodeID -> option server.Node.
Variable FindVariantType : ua.NodeID -> Z.
Variable IsUserPermitted : list ua.RolePermissionType -> Z -> bool.
Variable readOtherAttribute :
  server.Context -> server.Node -> ua.ReadValueID -> ua.DataValue.
Variable caps : server.ServerCapabilities.

Local Abbreviation readValue :=
  (server.readValue FindNode IsUserPermitted readOtherAttribute).
Local Abbreviation writeValue :=
  (server.writeValue FindNode FindVariantType IsUserPermitted caps).

(** X1. A node the user may not browse is answered as a node that
    does not exist: [readValue] and [writeValue] return for it exactly
    what they return when the node manager finds no node. *)
Theorem unbrowsable_as_unknown (ctx : server.Context) (n : server.Node) :
  IsUserPermitted (server.GetUserRolePermissions n ctx) ua.PermissionTypeBrowse
  = false ->
  (forall r now,
      FindNode (ua.rv_NodeID r) = Some n ->
      readValue ctx r now
      = server.readValue (fun _ => None) IsUserPermitted readOtherAttribute
                         ctx r now)
  /\ (forall w now,
         FindNode (ua.wv_NodeID w) = Some n ->
         writeValue ctx w now
         = server.writeValue (fun _ => None) FindVariantType IsUserPermitted caps
                             ctx w now
         /\ writeValue ctx w now = ua.Returns (ua.BadNodeIDUnknown, None)).
Proof.
  intros Hbrowse. split.
  - intros r now Hfind. unfold server.readValue. rewrite Hfind, Hbrowse.
    cbn [negb]. reflexivity.
  - intros w now Hfind. unfold server.writeValue. rewrite Hfind, Hbrowse.
    cbn [negb]. split; reflexivity.
Qed.

Lemma SetValue_permissions (n1 : server.VariableNode) (d : ua.DataValue)
      (ctx : server.Context) :
  server.GetUserRolePermissions (server.Variable_ (server.SetValue n1 d)) ctx
  = server.GetUserRolePermissions (server.Variable_ n1) ctx
  /\ server.UserAccessLevel (server.SetValue n1 d) ctx
     = server.UserAccessLevel n1 ctx.
Proof. split; reflexivity. Qed.

(** X2. A value written whole is the value read: after a Write of
    the attribute Value with no index range that returns Good, a Read
    of the same node by a user who may read it returns the written
    value (after the coercion between ByteString and byte array) and
    its status code, under the timestamps of the write. *)
Theorem written_value_is_read (ctx : server.Context) (w : ua.WriteValue)
        (now : server.Clock) (n1 n1' : server.VariableNode)
        (FindNode' : ua.NodeID -> option server.Node)
        (r : ua.ReadValueID) (now' : ua.Time) :
  spec.passesGates FindNode IsUserPermitted ctx w n1 ->
  ua.wv_IndexRange w = "" ->
  server.WriteValueHandler n1 = None ->
  server.ReadValueHandler n1 = None ->
  writeValue ctx w now = ua.Returns (ua.Good, Some n1') ->
  FindNode' (ua.wv_NodeID w) = Some (server.Variable_ n1') ->
  Z.land (server.vn_AccessLevel n1) ua.AccessLevelsCurrentRead <> 0 ->
  Z.land (server.UserAccessLevel n1 ctx) ua.AccessLevelsCurrentRead <> 0 ->
  ua.rv_NodeID r = ua.wv_NodeID w ->
  ua.rv_AttributeID r = ua.AttributeIDValue ->
  ua.rv_IndexRange r = "" ->
  ua.QualifiedName_Name (ua.rv_DataEncoding r) = "" ->
  server.readValue FindNode' IsUserPermitted readOtherAttribute ctx r now'
  = ua.NewDataValue
      (spec.coerced (FindVariantType (server.vn_DataType n1))
                    (server.vn_ValueRank n1) (ua.Value (ua.wv_Value w)))
      (ua.StatusCodeOf (ua.wv_Value w)) (fst now) 0 (snd now) 0.
Proof.
  intros (Hfind & Hbrowse & Hattr & Hal & Hual) Hrange Hwh Hrh Hwrite Hfind'
         Hrl Hurl Hid Hrattr Hrrange Henc.
  apply Z.eqb_neq in Hal, Hual, Hrl, Hurl.
  unfold server.writeValue in Hwrite.
  rewrite Hfind, Hbrowse, Hattr, Z.eqb_refl, Hal, Hual, Hwh in Hwrite.
  cbn [negb] in Hwrite. cbv zeta in Hwrite.
  destruct (server.typeCheck _ _ _ _) as [status|] eqn:Hcheck.
  { inversion Hwrite. }
  unfold server.withValue in Hwrite. cbn [ua.wv_IndexRange ua.wv_Value] in Hwrite.
  rewrite Hrange in Hwrite. unfold server.writeRange in Hwrite.
  cbn [String.eqb] in Hwrite. unfold server.written in Hwrite.
  cbn [ua.Value ua.StatusCodeOf] in Hwrite.
  rewrite Z.eqb_refl in Hwrite. inversion Hwrite; subst n1'; clear Hwrite.
  unfold server.readValue.
  rewrite Henc, Hrrange, Hrattr, Hid, Hfind'. cbn [String.eqb negb andb].
  destruct (SetValue_permissions n1
              (ua.NewDataValue
                 (server.coerceToByteString (FindVariantType (server.vn_DataType n1))
                    (server.vn_ValueRank n1)
                    (server.coerceToBytes (FindVariantType (server.vn_DataType n1))
                       (server.vn_ValueRank n1) (ua.Value (ua.wv_Value w))))
                 (ua.StatusCodeOf (ua.wv_Value w)) (fst now) 0 (snd now) 0) ctx)
    as [Hp Hu].
  rewrite Hp, Hbrowse, Z.eqb_refl, Hu. cbn [negb].
  cbn [server.SetValue server.vn_AccessLevel server.ReadValueHandler server.vn_Value].
  rewrite Hrl, Hurl, Hrh. reflexivity.
Qed.

End ServiceFacts.

(* ================================================================= *)
(** * Further properties of the index ranges *)

Section RangeFacts.

Lemma IsBad_Good : ua.IsBad ua.Good = false.
Proof. reflexivity. Qed.

(** The shared body of the slices panics at its type assertion when
    the range is good and the incoming value is of another type. *)
Lemma writeSlice_panics {A} (inj : list A -> ua.Variant)
      (cast : ua.Variant -> option (list A)) (maxRanges : Z)
      (src : list A) (ranges : list string) (value : ua.DataValue)
      (now : server.Clock) (i j : Z) (st : ua.StatusCode) :
  server.len ranges <= maxRanges ->
  server.parseBounds (server.range0 ranges) (server.len src) = (i, j, st) ->
  ua.IsBad st = false ->
  cast (ua.Value value) = None ->
  server.writeSlice inj cast maxRanges src ranges value now = server.conversionPanic.
Proof.
  intros Hmax Hpb Hbad Hcast. unfold server.writeSlice.
  rewrite (gtb_of_leb _ _ (proj2 (Z.leb_le _ _) Hmax)), Hpb, Hbad, Hcast.
  reflexivity.
Qed.

Ltac other_type Hty :=
  match goal with
  | |- ?cast ?v = None =>
    destruct v; try reflexivity; exfalso; revert Hty; clear; intros Hty;
    vm_compute in Hty; discriminate Hty
  end.

(** [writeRange] on a value of another Go type than the current one:
    the type assertion on the incoming value panics. *)
Lemma writeRange_panics (source value : ua.DataValue) (r : string)
      (now : server.Clock) :
  spec.rangeFits r (ua.Value source) ->
  spec.sameGoType (ua.Value value) (ua.Value source) = false ->
  server.writeRange source value r now = server.conversionPanic.
Proof.
  intros (Hr & n & i & j & st & Hn & Hmax & Hpb & Hbad) Hty.
  unfold server.writeRange.
  destruct (String.eqb_spec r "") as [|_]; [contradiction|].
  cbv zeta. set (ranges := strings.Split r ",") in *.
  destruct (ua.Value source) eqn:Hv; cbn [spec.rangeLength] in Hn;
    try discriminate Hn; injection Hn as <-;
    cbn [spec.maxRanges] in Hmax;
    try (apply (writeSlice_panics _ _ _ _ _ _ _ i j st Hmax Hpb Hbad);
         other_type Hty).
  - rewrite (gtb_of_leb _ _ (proj2 (Z.leb_le _ _) Hmax)), Hpb, Hbad.
    assert (Hc : server.as_string (ua.Value value) = None) by other_type Hty.
    rewrite Hc. reflexivity.
  - rewrite (gtb_of_leb _ _ (proj2 (Z.leb_le _ _) Hmax)), Hpb, Hbad.
    assert (Hc : server.as_ByteString (ua.Value value) = None) by other_type Hty.
    rewrite Hc. reflexivity.
Qed.

End RangeFacts.

Lemma unbrowsable_as_unknown_witness :
  server.writeValue example.FindNode example.FindVariantType
                    example.IsUserPermitted example.caps (example.ctx [])
                    (example.writeValueOf example.counter (ua.int32_ 1))
                    example.clock
  = ua.Returns (ua.BadNodeIDUnknown, None).
Proof.
  destruct (unbrowsable_as_unknown
              example.FindNode example.FindVariantType example.IsUserPermitted
              example.readOtherAttribute example.caps (example.ctx [])
              (server.Variable_ example.counter)) as [_ Hw].
  - reflexivity.
  - apply Hw. reflexivity.
Defined.

Lemma written_value_is_read_witness :
  server.readValue
    (fun _ => Some (server.Variable_
                      (server.SetValue example.counter
                         (ua.NewDataValue (ua.int32_ 9) ua.Good 5 0 6 0))))
    example.IsUserPermitted example.readOtherAttribute
    (example.ctx [example.readWrite]) (example.readValueOf example.counter) 1000
  = ua.NewDataValue (ua.int32_ 9) ua.Good 5 0 6 0.
Proof.
  apply (written_value_is_read
           example.FindNode example.FindVariantType example.IsUserPermitted
           example.readOtherAttribute example.caps
           (example.ctx [example.readWrite])
           (example.writeValueOf example.counter (ua.int32_ 9))
           example.clock example.counter
           (server.SetValue example.counter
              (ua.NewDataValue (ua.int32_ 9) ua.Good 5 0 6 0)));
    try reflexivity.
  - repeat split; try reflexivity; vm_compute; discriminate.
  - vm_compute; discriminate.
  - vm_compute; discriminate.
Defined.

Section WritePanics.

Variable FindNode : ua.NodeID -> option server.Node.
Variable FindVariantType : ua.NodeID -> Z.
Variable IsUserPermitted : list ua.RolePermissionType -> Z -> bool.
Variable caps : server.ServerCapabilities.

(** X3. A Write under an index range panics when the value passes the
    type check but is of another Go type than the value the variable
    holds: the type assertion of [writeRange] on the incoming value
    fails.  A scalar written into a variable of rank Any that holds
    an array is such a Write. *)
Theorem writeValue_panics_on_other_type (ctx : server.Context)
        (w : ua.WriteValue) (now : server.Clock) (n1 : server.VariableNode) :
  let v := spec.coerced (FindVariantType (server.vn_DataType n1))
                        (server.vn_ValueRank n1) (ua.Value (ua.wv_Value w)) in
  spec.passesGates FindNode IsUserPermitted ctx w n1 ->
  server.WriteValueHandler n1 = None ->
  server.typeCheck caps (FindVariantType (server.vn_DataType n1))
                   (server.vn_ValueRank n1) v = None ->
  spec.rangeFits (ua.wv_IndexRange w) (ua.Value (server.vn_Value n1)) ->
  spec.sameGoType v (ua.Value (server.vn_Value n1)) = false ->
  exists reason,
    server.writeValue FindNode FindVariantType IsUserPermitted caps ctx w now
    = ua.Panics reason.
Proof.
  intros v (Hfind & Hbrowse & Hattr & Hal & Hual) Hwh Hcheck Hfits Hty.
  apply Z.eqb_neq in Hal, Hual.
  unfold server.writeValue.
  rewrite Hfind, Hbrowse, Hattr, Z.eqb_refl, Hal, Hual, Hwh.
  cbn [negb]. cbv zeta. fold (spec.coerced (FindVariantType (server.vn_DataType n1))
                                   (server.vn_ValueRank n1) (ua.Value (ua.wv_Value w))).
  fold v. rewrite Hcheck.
  unfold server.withValue. cbn [ua.wv_IndexRange ua.wv_Value].
  rewrite writeRange_panics; [eexists; reflexivity | exact Hfits | exact Hty].
Qed.

End WritePanics.

Lemma writeValue_panics_on_other_type_witness :
  exists reason,
    server.writeValue example.FindSeries example.FindVariantType
                      example.IsUserPermitted example.caps
                      (example.ctx [example.readWrite])
                      (ua.mkWriteValue (server.vn_NodeId example.series)
                                       ua.AttributeIDValue "0"
                                       (ua.NewDataValue (ua.int32_ 9) ua.Good 0 0 0 0))
                      example.clock
    = ua.Panics reason.
Proof.
  apply (writeValue_panics_on_other_type
           example.FindSeries example.FindVariantType example.IsUserPermitted
           example.caps (example.ctx [example.readWrite])
           (ua.mkWriteValue (server.vn_NodeId example.series)
                            ua.AttributeIDValue "0"
                            (ua.NewDataValue (ua.int32_ 9) ua.Good 0 0 0 0))
           example.clock example.series).
  - repeat split; try reflexivity; vm_compute; discriminate.
  - reflexivity.
  - reflexivity.
  - split; [discriminate|].
    exists 3, 0, 1, ua.Good. repeat split; try reflexivity.
  - reflexivity.
Defined.

Section MonitoredItems.

Variable FindNode : ua.NodeID -> option server.Node.
Variable FindVariantType : ua.NodeID -> Z.
Variable IsUserPermitted : list ua.RolePermissionType -> Z -> bool.
Variable NewMonitoredItem :
  server.Context -> server.Node -> server.MonitoredItemCreateRequest ->
  server.MonitoredItem.

Local Abbreviation createMonitoredItem :=
  (server.createMonitoredItem FindNode FindVariantType IsUserPermitted
                              NewMonitoredItem).
Variable Subscription : Type.
Variable AppendItem : Subscription -> server.MonitoredItem -> Subscription.

Local Abbreviation createMonitoredItems :=
  (server.createMonitoredItems FindNode FindVariantType IsUserPermitted
                               NewMonitoredItem Subscription AppendItem).



End MonitoredItems.

(* ================================================================= *)
(** * Further properties of the nodes *)

Section UserAccess.

Import server.

Lemma grants_filterPermissions (roles : list ua.NodeID)
      (rps : list ua.RolePermissionType) (perm : Z) :
  spec.grants roles rps perm = spec.anyHas perm (filterPermissions roles rps).
Proof.
  unfold spec.grants, spec.anyHas, filterPermissions.
  induction roles as [|role roles IH]; cbn [existsb flat_map]; [reflexivity|].
  rewrite existsb_app, <- IH. f_equal. clear IH.
  induction rps as [|rp rps IHr]; cbn [existsb filter]; [reflexivity|].
  destruct (ua.NodeID_eqb (ua.RoleID rp) role); cbn [existsb andb orb];
    now rewrite IHr.
Qed.

Lemma deniedBits_small (roles : list ua.NodeID) (rps : list ua.RolePermissionType) :
  0 <= spec.deniedBits roles rps < 8.
Proof.
  unfold spec.deniedBits.
  destruct (spec.grants roles rps ua.PermissionTypeRead),
           (spec.grants roles rps ua.PermissionTypeWrite),
           (spec.grants roles rps ua.PermissionTypeReadHistory); vm_compute;
    split; congruence.
Qed.

Lemma deniedBits_bits (roles : list ua.NodeID) (rps : list ua.RolePermissionType) :
  Z.testbit (spec.deniedBits roles rps) 0
  = negb (spec.grants roles rps ua.PermissionTypeRead)
  /\ Z.testbit (spec.deniedBits roles rps) 1
     = negb (spec.grants roles rps ua.PermissionTypeWrite)
  /\ Z.testbit (spec.deniedBits roles rps) 2
     = negb (spec.grants roles rps ua.PermissionTypeReadHistory).
Proof.
  unfold spec.deniedBits.
  destruct (spec.grants roles rps ua.PermissionTypeRead),
           (spec.grants roles rps ua.PermissionTypeWrite),
           (spec.grants roles rps ua.PermissionTypeReadHistory);
    repeat split; reflexivity.
Qed.

(** X5. With a session, [UserAccessLevel] only ever clears the bits
    CurrentRead, CurrentWrite and HistoryRead: every other bit of the
    access level of the node (HistoryWrite, SemanticChange,
    StatusWrite, TimestampWrite) reaches the user whatever the role
    permissions are. *)
Theorem UserAccessLevel_keeps_other_bits (n : VariableNode) (ctx : Context)
        (session : Session) (k : Z) :
  ctx_Session ctx = Some session ->
  3 <= k ->
  Z.testbit (UserAccessLevel n ctx) k = Z.testbit (vn_AccessLevel n) k.
Proof.
  intros Hs Hk. rewrite (UserAccessLevel_session n ctx session Hs).
  rewrite Z.ldiff_spec.
  set (d := spec.deniedBits _ _).
  assert (Hd : Z.testbit d k = false).
  { pose proof (deniedBits_small (UserRoles session)
                  (orDefault (vn_RolePermissions n) (ServerRolePermissions session)))
      as Hsmall. fold d in Hsmall.
    destruct (Z.eq_dec d 0) as [->|Hnz]; [apply Z.bits_0|].
    apply Z.bits_above_log2; [lia|].
    assert (Z.log2 d < 3) by (apply Z.log2_lt_pow2; lia). lia. }
  rewrite Hd. apply andb_true_r.
Qed.

(** X6. With a session, [UserAccessLevel] and
    [GetUserRolePermissions] agree: the bit CurrentRead, CurrentWrite
    or HistoryRead of the effective access level is set exactly when
    it is set in the access level of the node and one of the role
    permissions that [GetUserRolePermissions] returns for the user has
    the permission Read, Write or ReadHistory. *)
Theorem UserAccessLevel_by_user_permissions (n : VariableNode) (ctx : Context)
        (session : Session) :
  ctx_Session ctx = Some session ->
  let rps := VariableNode_GetUserRolePermissions n ctx in
  Z.testbit (UserAccessLevel n ctx) 0
  = Z.testbit (vn_AccessLevel n) 0 && spec.anyHas ua.PermissionTypeRead rps
  /\ Z.testbit (UserAccessLevel n ctx) 1
     = Z.testbit (vn_AccessLevel n) 1 && spec.anyHas ua.PermissionTypeWrite rps
  /\ Z.testbit (UserAccessLevel n ctx) 2
     = Z.testbit (vn_AccessLevel n) 2
       && spec.anyHas ua.PermissionTypeReadHistory rps.
Proof.
  intros Hs rps. rewrite (UserAccessLevel_session n ctx session Hs).
  subst rps. unfold VariableNode_GetUserRolePermissions. rewrite Hs.
  rewrite !Z.ldiff_spec, <- !grants_filterPermissions.
  destruct (deniedBits_bits (UserRoles session)
              (orDefault (vn_RolePermissions n) (ServerRolePermissions session)))
    as (-> & -> & ->).
  rewrite !negb_involutive. repeat split; reflexivity.
Qed.

End UserAccess.

Lemma UserAccessLevel_keeps_other_bits_witness :
  Z.testbit
    (server.UserAccessLevel
       (example.variable "History" (ua.int32_ 7) ua.VariantTypeInt32
                         ua.ValueRankScalar 11)
       (example.ctx [example.browseOnly])) 3
  = true.
Proof.
  rewrite (UserAccessLevel_keeps_other_bits
             (example.variable "History" (ua.int32_ 7) ua.VariantTypeInt32
                               ua.ValueRankScalar 11)
             (example.ctx [example.browseOnly])
             (example.session [example.browseOnly]) 3);
    [reflexivity | reflexivity | lia].
Defined.

Lemma UserAccessLevel_by_user_permissions_witness :
  Z.testbit (server.UserAccessLevel example.counter
                                    (example.ctx [example.readWrite])) 0
  = true.
Proof.
  destruct (UserAccessLevel_by_user_permissions
              example.counter (example.ctx [example.readWrite])
              (example.session [example.readWrite]) eq_refl) as [H _].
  rewrite H. reflexivity.
Defined.

Section RangeSyntax.

Variable FindVariantType : ua.NodeID -> Z.

Lemma rangeWellFormed_nonempty (r : string) :
  server.rangeWellFormed r = true -> r <> "".
Proof. intros H ->. discriminate H. Qed.

(** The loop body of [validateIndexRange] and [parseBounds] make the
    same tests on a range that is not empty. *)
Lemma rangeWellFormed_parseBounds (r : string) (n : Z) :
  r <> "" -> 0 < n ->
  (server.rangeWellFormed r = true ->
   spec.boundsStatus r n = ua.Good \/ spec.boundsStatus r n = ua.BadIndexRangeNoData)
  /\ (server.rangeWellFormed r = false ->
      spec.boundsStatus r n = ua.BadIndexRangeInvalid).
Proof.
  intros Hr Hn.
  unfold server.rangeWellFormed, spec.boundsStatus, server.parseBounds. cbv zeta.
  destruct (Z.eqb_spec n 0); [lia|].
  destruct (String.eqb_spec r ""); [contradiction|].
  destruct (negb (strings.Index r ":" =? -1)).
  - destruct (strconv.ParseInt (strings.slice r 0 (strings.Index r ":")) 32) as [lo|];
      [|split; [discriminate | reflexivity]].
    destruct (strconv.ParseInt
                (strings.slice_from r (strings.Index r ":" + 1)) 32) as [hi|];
      [|split; [discriminate | reflexivity]].
    destruct (hi <? 0); [split; [discriminate | reflexivity]|].
    destruct (lo >=? hi); [split; [discriminate | reflexivity]|].
    destruct (lo <? 0); cbn [negb]; [split; [discriminate | reflexivity]|].
    destruct (lo >=? n); cbn [snd]; (split; [auto | discriminate]).
  - destruct (strconv.ParseInt r 32) as [lo|];
      [|split; [discriminate | reflexivity]].
    destruct (lo <? 0); cbn [negb]; [split; [discriminate | reflexivity]|].
    destruct (lo >=? n); cbn [snd]; (split; [auto | discriminate]).
Qed.

(** X7. [validateIndexRange] and [parseBounds] agree on what a
    well-formed range is, but for the empty piece.  When
    [validateIndexRange] does not return BadIndexRangeInvalid for a
    non-empty index range, [parseBounds] returns Good or
    BadIndexRangeNoData, never BadIndexRangeInvalid, for each of its
    ranges on a value of any positive length; when it does return
    BadIndexRangeInvalid, one of the ranges is empty (which
    [parseBounds] reads as the whole value) or is rejected by
    [parseBounds] as invalid at every positive length. *)
Theorem validateIndexRange_parseBounds (s : string) (dataType : ua.NodeID)
        (rank : Z) :
  s <> "" ->
  (server.validateIndexRange FindVariantType s dataType rank
   <> ua.BadIndexRangeInvalid ->
   forall r n, In r (strings.Split s ",") -> 0 < n ->
               spec.boundsStatus r n = ua.Good
               \/ spec.boundsStatus r n = ua.BadIndexRangeNoData)
  /\ (server.validateIndexRange FindVariantType s dataType rank
      = ua.BadIndexRangeInvalid ->
      exists r, In r (strings.Split s ",")
                /\ (r = "" \/ forall n, 0 < n ->
                                        spec.boundsStatus r n
                                        = ua.BadIndexRangeInvalid)).
Proof.
  intros Hs. unfold server.validateIndexRange.
  destruct (String.eqb_spec s "") as [|_]; [contradiction|].
  cbv zeta.
  destruct (forallb server.rangeWellFormed (strings.Split s ",")) eqn:Hall;
    cbn [negb].
  - split.
    + intros _ r n Hin Hn.
      assert (Hwf : server.rangeWellFormed r = true)
        by (rewrite forallb_forall in Hall; auto).
      apply rangeWellFormed_parseBounds;
        [now apply rangeWellFormed_nonempty | assumption | assumption].
    + intros Hbad. exfalso. revert Hbad.
      repeat match goal with
             | |- context [if ?b then _ else _] => destruct b
             end; discriminate.
  - split; [intros H; now contradiction H|].
    intros _.
    assert (Hex : exists r, In r (strings.Split s ",")
                            /\ server.rangeWellFormed r = false).
    { clear -Hall. induction (strings.Split s ",") as [|r l IH];
        [discriminate|].
      cbn [forallb] in Hall. apply andb_false_iff in Hall as [H|H].
      - exists r. split; [now left | assumption].
      - destruct (IH H) as (r' & Hin & Hr'). exists r'. split; [now right | assumption]. }
    destruct Hex as (r & Hin & Hwf). exists r. split; [assumption|].
    destruct (string_dec r "") as [->|Hne]; [now left|].
    right. intros n Hn. now apply rangeWellFormed_parseBounds.
Qed.

End RangeSyntax.

Lemma validateIndexRange_parseBounds_witness :
  spec.boundsStatus "2:5" 4 = ua.Good
  \/ spec.boundsStatus "2:5" 4 = ua.BadIndexRangeNoData.
Proof.
  destruct (validateIndexRange_parseBounds
              example.FindVariantType "1,2:5"
              (example.dataType ua.VariantTypeInt32) 2) as [H _].
  - discriminate.
  - apply H.
    + vm_compute. discriminate.
    + right. left. reflexivity.
    + lia.
Defined.

Section RangeShape.

Lemma parseBounds_status (s : string) (n i j : Z) (st : ua.StatusCode) :
  server.parseBounds s n = (i, j, st) ->
  st = ua.Good \/ st = ua.BadIndexRangeInvalid \/ st = ua.BadIndexRangeNoData.
Proof.
  unfold server.parseBounds. cbv zeta.
  destruct (n =? 0); [intros E; inversion E; auto|].
  destruct (String.eqb s ""); [intros E; inversion E; auto|].
  destruct (negb (strings.Index s ":" =? -1)).
  - destruct (strconv.ParseInt (strings.slice s 0 (strings.Index s ":")) 32) as [lo|];
      [|intros E; inversion E; auto].
    destruct (strconv.ParseInt (strings.slice_from s (strings.Index s ":" + 1)) 32)
      as [hi|]; [|intros E; inversion E; auto].
    destruct (hi <? 0); [intros E; inversion E; auto|].
    destruct (lo >=? hi); [intros E; inversion E; auto|].
    destruct (lo <? 0); [intros E; inversion E; auto|].
    destruct (lo >=? n); intros E; inversion E; auto.
  - destruct (strconv.ParseInt s 32) as [lo|]; [|intros E; inversion E; auto].
    destruct (lo <? 0); [intros E; inversion E; auto|].
    destruct (lo >=? n); intros E; inversion E; auto.
Qed.

Lemma parseBounds_Good (s : string) (n i j : Z) (st : ua.StatusCode) :
  server.parseBounds s n = (i, j, st) -> ua.IsBad st = false -> st = ua.Good.
Proof.
  intros E Hbad.
  destruct (parseBounds_status s n i j st E) as [H | [H | H]];
    [assumption | subst st; discriminate Hbad | subst st; discriminate Hbad].
Qed.

Lemma len_sub {A} (src : list A) (i j : Z) :
  0 <= i -> i <= j -> j <= server.len src ->
  server.len (server.sub src i j) = j - i.
Proof.
  unfold server.len, server.sub. intros Hi Hij Hj.
  rewrite firstn_length_le; [lia|]. rewrite length_skipn. lia.
Qed.

Lemma readFail_shape (source : ua.DataValue) (st : ua.StatusCode) :
  ua.IsBad st = true ->
  spec.stamped (server.readFail source st) source
  /\ spec.failedRead (server.readFail source st).
Proof. intros H. repeat split; assumption. Qed.

Lemma readOk_stamped (source : ua.DataValue) (v : ua.Variant) :
  spec.stamped (server.readOk source v) source.
Proof. repeat split. Qed.

(** What the shared body of the slices returns. *)
Lemma readSlice_shape {A} (inj : list A -> ua.Variant) (src : list A)
      (ranges : list string) (source : ua.DataValue) :
  spec.stamped (server.readSlice inj src ranges source) source
  /\ (spec.failedRead (server.readSlice inj src ranges source)
      \/ exists l,
          server.readSlice inj src ranges source = server.readOk source (inj l)
          /\ 1 <= server.len l <= server.len src).
Proof.
  unfold server.readSlice.
  destruct (server.len ranges >? 1).
  { split; [|left]; now apply readFail_shape. }
  destruct (server.parseBounds (server.range0 ranges) (server.len src))
    as [[i j] st] eqn:Hpb.
  destruct (ua.IsBad st) eqn:Hbad.
  { split; [|left]; now apply readFail_shape. }
  destruct (parseBounds_range _ _ _ _ _ (len_nonneg src) Hpb Hbad) as (Hi & Hij & Hj).
  split; [apply readOk_stamped|]. right.
  exists (server.sub src i j). split; [reflexivity|].
  rewrite len_sub by lia. lia.
Qed.

Lemma readInnerStrings_length (r : string) (dst out : list string) :
  server.readInnerStrings r dst = inr out -> List.length out = List.length dst.
Proof.
  revert out. induction dst as [|x dst IH]; intros out; cbn [server.readInnerStrings].
  - intros E; inversion E; reflexivity.
  - cbv zeta. destruct (server.parseBounds r _) as [[i j] st].
    destruct (ua.IsBad st); [discriminate|].
    destruct (server.readInnerStrings r dst) as [|out']; [discriminate|].
    intros E; inversion E; subst out. cbn [List.length]. now rewrite (IH out').
Qed.

Lemma readInnerByteStrings_length (r : string) (dst out : list ua.ByteString) :
  server.readInnerByteStrings r dst = inr out ->
  List.length out = List.length dst.
Proof.
  revert out. induction dst as [|x dst IH]; intros out;
    cbn [server.readInnerByteStrings].
  - intros E; inversion E; reflexivity.
  - destruct (server.parseBounds r _) as [[i j] st].
    destruct (ua.IsBad st); [discriminate|].
    destruct (server.readInnerByteStrings r dst) as [|out']; [discriminate|].
    intros E; inversion E; subst out. cbn [List.length]. now rewrite (IH out').
Qed.

Lemma parseBounds_IsBad (s : string) (n i j : Z) (st : ua.StatusCode) :
  server.parseBounds s n = (i, j, st) -> st <> ua.Good -> ua.IsBad st = true.
Proof.
  intros E Hne.
  destruct (parseBounds_status s n i j st E) as [H | [H | H]];
    [contradiction | subst st; reflexivity | subst st; reflexivity].
Qed.

Lemma readInnerStrings_status (r : string) (dst : list string) (st : ua.StatusCode) :
  server.readInnerStrings r dst = inl st -> ua.IsBad st = true.
Proof.
  induction dst as [|x dst IH]; cbn [server.readInnerStrings]; [discriminate|].
  cbv zeta. destruct (server.parseBounds r _) as [[i j] st'].
  destruct (ua.IsBad st') eqn:Hbad; [intros E; inversion E; now subst|].
  destruct (server.readInnerStrings r dst) as [st''|]; [|discriminate].
  intros E; inversion E; subst. now apply IH.
Qed.

Lemma readInnerByteStrings_status (r : string) (dst : list ua.ByteString)
      (st : ua.StatusCode) :
  server.readInnerByteStrings r dst = inl st -> ua.IsBad st = true.
Proof.
  induction dst as [|x dst IH]; cbn [server.readInnerByteStrings]; [discriminate|].
  destruct (server.parseBounds r _) as [[i j] st'].
  destruct (ua.IsBad st') eqn:Hbad; [intros E; inversion E; now subst|].
  destruct (server.readInnerByteStrings r dst) as [st''|]; [|discriminate].
  intros E; inversion E; subst. now apply IH.
Qed.

(** The same of the bodies of [[]string] and [[]ua.ByteString], whose
    inner loop keeps the number of elements. *)
Lemma readNested_shape {A} (inj : list A -> ua.Variant)
      (inner : string -> list A -> ua.StatusCode + list A)
      (src : list A) (ranges : list string) (source : ua.DataValue) :
  (forall r dst out, inner r dst = inr out -> List.length out = List.length dst) ->
  (forall r dst st, inner r dst = inl st -> ua.IsBad st = true) ->
  spec.stamped (server.readNested inj inner src ranges source) source
  /\ (spec.failedRead (server.readNested inj inner src ranges source)
      \/ exists l,
          server.readNested inj inner src ranges source
          = server.readOk source (inj l)
          /\ 1 <= server.len l <= server.len src).
Proof.
  intros Hlen Hst. unfold server.readNested.
  destruct (server.len ranges >? 2).
  { split; [|left]; now apply readFail_shape. }
  destruct (server.parseBounds (server.range0 ranges) (server.len src))
    as [[i j] st] eqn:Hpb.
  destruct (ua.IsBad st) eqn:Hbad.
  { split; [|left]; now apply readFail_shape. }
  destruct (parseBounds_range _ _ _ _ _ (len_nonneg src) Hpb Hbad) as (Hi & Hij & Hj).
  cbv zeta. destruct (server.len ranges >? 1).
  - destruct (inner (server.range1 ranges) (server.sub src i j)) as [st'|out] eqn:Hin.
    + split; [|left]; apply readFail_shape; eapply Hst; eassumption.
    + split; [apply readOk_stamped|]. right. exists out. split; [reflexivity|].
      assert (Hl : server.len out = server.len (server.sub src i j))
        by (unfold server.len; now rewrite (Hlen _ _ _ Hin)).
      rewrite Hl, len_sub by lia. lia.
  - split; [apply readOk_stamped|]. right.
    exists (server.sub src i j). split; [reflexivity|].
    rewrite len_sub by lia. lia.
Qed.

Lemma Forall_sub {A} (P : A -> Prop) (src : list A) (i j : Z) :
  Forall P src -> Forall P (server.sub src i j).
Proof. intros H. unfold server.sub. now apply Forall_firstn, Forall_skipn. Qed.

Ltac shape_of H Hv :=
  destruct H as [Hst [Hfail | (l & Hres & Hlen)]];
  (split; [exact Hst|]);
  [ left; exact Hfail
  | right; rewrite Hres; unfold spec.partOf, server.readOk;
    cbn [ua.Value ua.StatusCodeOf]; rewrite Hv;
    split; [reflexivity|]; split; [reflexivity|];
    eexists; eexists; split; [reflexivity|]; split; [reflexivity | exact Hlen] ].

(** X8. A read under a non-empty index range either fails, with no
    value and a Bad status, or returns a part of the source: a value
    of the same Go type, under the status code of the source, with at
    least one element (rune of a string, byte of a ByteString) and no
    more than the source has.  In both cases the result has the two
    timestamps of the source and picoseconds 0. *)
Theorem readRange_shape (source : ua.DataValue) (r : string) :
  r <> "" ->
  spec.stamped (server.readRange source r) source
  /\ (spec.failedRead (server.readRange source r)
      \/ spec.partOf (server.readRange source r) source).
Proof.
  intros Hr. unfold server.readRange.
  destruct (String.eqb_spec r "") as [|_]; [contradiction|].
  cbv zeta. set (ranges := strings.Split r ",").
  destruct (ua.Value source) eqn:Hv;
    try (split; [|left]; now apply readFail_shape);
    try (match goal with
         | |- context [server.readSlice ?inj ?src ranges source] =>
           shape_of (readSlice_shape inj src ranges source) Hv
         end).
  - (* string *)
    match type of Hv with _ = _ ?x => rename x into src end.
    destruct (server.len ranges >? 1).
    { split; [|left]; now apply readFail_shape. }
    destruct (server.parseBounds (server.range0 ranges) (server.len (utf8.runes src)))
      as [[i j] st] eqn:Hpb.
    destruct (ua.IsBad st) eqn:Hbad.
    { split; [|left]; now apply readFail_shape. }
    destruct (parseBounds_range _ _ _ _ _ (len_nonneg _) Hpb Hbad) as (Hi & Hij & Hj).
    split; [apply readOk_stamped|]. right.
    unfold spec.partOf, server.readOk. cbn [ua.Value ua.StatusCodeOf]. rewrite Hv.
    split; [reflexivity|]. split; [reflexivity|].
    eexists; eexists. split; [reflexivity|]. split; [reflexivity|].
    rewrite runes_string_of_runes by (apply Forall_sub, runes_valid).
    rewrite len_sub by lia. lia.
  - (* ByteString *)
    match type of Hv with _ = _ ?x => rename x into src end.
    destruct (server.len ranges >? 1).
    { split; [|left]; now apply readFail_shape. }
    destruct (server.parseBounds (server.range0 ranges) (strings.len src))
      as [[i j] st] eqn:Hpb.
    destruct (ua.IsBad st) eqn:Hbad.
    { split; [|left]; now apply readFail_shape. }
    rewrite <- length_bytes_of_string in Hpb.
    destruct (parseBounds_range _ _ _ _ _ (len_nonneg _) Hpb Hbad) as (Hi & Hij & Hj).
    split; [apply readOk_stamped|]. right.
    unfold spec.partOf, server.readOk. cbn [ua.Value ua.StatusCodeOf]. rewrite Hv.
    split; [reflexivity|]. split; [reflexivity|].
    eexists; eexists. split; [reflexivity|]. split; [reflexivity|].
    rewrite length_string_of_bytes, len_sub, <- length_bytes_of_string by lia. lia.
  - (* []string *)
    match goal with
    | |- context [server.readNested ?inj ?inner ?src ranges source] =>
      shape_of (readNested_shape inj inner src ranges source
                  readInnerStrings_length readInnerStrings_status) Hv
    end.
  - (* []ua.ByteString *)
    match goal with
    | |- context [server.readNested ?inj ?inner ?src ranges source] =>
      shape_of (readNested_shape inj inner src ranges source
                  readInnerByteStrings_length readInnerByteStrings_status) Hv
    end.
  - (* []ua.StatusCode *)
    match type of Hv with _ = _ ?x => rename x into src end.
    pose proof (readSlice_shape ua.StatusCodes src ranges source) as H.
    unfold server.readSlice in H.
    destruct (server.parseBounds (server.range0 ranges) (server.len src))
      as [[i j] st].
    destruct (server.len ranges >? 1); shape_of H Hv.
Qed.

End RangeShape.

Lemma readRange_shape_witness :
  spec.partOf (server.readRange (example.stored (ua.int32s [1; 2; 3])) "1:5")
              (example.stored (ua.int32s [1; 2; 3])).
Proof.
  destruct (readRange_shape (example.stored (ua.int32s [1; 2; 3])) "1:5")
    as [_ [[H _] | H]].
  - discriminate.
  - discriminate H.
  - exact H.
Defined.

Section RangeWindow.

Lemma splice_replaced {A} (src v2 : list A) (i j : Z) :
  0 <= i -> i <= j -> j - i = server.len v2 ->
  server.splice src i j v2 = spec.replaced src i j v2.
Proof.
  unfold server.len, server.splice, spec.replaced. intros Hi Hij Hw. cbv zeta.
  rewrite Hw, Nat2Z.id, Nat.min_id, firstn_all.
  do 3 f_equal. lia.
Qed.

(** What the shared body of the slices writes. *)
Lemma writeSlice_window {A} (inj : list A -> ua.Variant)
      (cast : ua.Variant -> option (list A)) (maxRanges : Z)
      (src : list A) (ranges : list string) (value : ua.DataValue)
      (now : server.Clock) (result : ua.DataValue) :
  server.writeSlice inj cast maxRanges src ranges value now
  = ua.Returns (result, ua.Good) ->
  exists i j v2,
    server.parseBounds (server.range0 ranges) (server.len src) = (i, j, ua.Good)
    /\ (0 <= i /\ i < j /\ j <= server.len src)
    /\ cast (ua.Value value) = Some v2
    /\ server.len v2 = j - i
    /\ ua.Value result = inj (spec.replaced src i j v2).
Proof.
  unfold server.writeSlice.
  destruct (server.len ranges >? maxRanges);
    [intros E; now apply writeFail_not_Good in E|].
  destruct (server.parseBounds (server.range0 ranges) (server.len src))
    as [[i j] st] eqn:Hpb.
  destruct (ua.IsBad st) eqn:Hbad;
    [intros E; now apply writeFail_not_Good in E|].
  destruct (cast (ua.Value value)) as [v2|] eqn:Hv2; [|discriminate].
  destruct (Z.eqb_spec (j - i) (server.len v2)) as [Hw|]; cbn [negb];
    [|intros E; now apply writeFail_not_Good in E].
  intros E. unfold server.written in E. inversion E; subst result; clear E.
  pose proof (parseBounds_range _ _ _ _ _ (len_nonneg src) Hpb Hbad) as Hr.
  pose proof (parseBounds_Good _ _ _ _ _ Hpb Hbad) as Hgood. subst st.
  exists i, j, v2.
  split; [reflexivity|]. split; [exact Hr|]. split; [reflexivity|].
  split; [lia|].
  cbn [ua.Value]. now rewrite splice_replaced by lia.
Qed.

Lemma replaced_map {A B} (f : A -> B) (src v2 : list A) (i j : Z) :
  map f (spec.replaced src i j v2)
  = spec.replaced (map f src) i j (map f v2).
Proof.
  unfold spec.replaced. now rewrite !map_app, firstn_map, skipn_map.
Qed.

Lemma len_map {A B} (f : A -> B) (l : list A) :
  server.len (map f l) = server.len l.
Proof. unfold server.len. now rewrite length_map. Qed.

Ltac window_of E Hv :=
  match type of E with
  | server.writeSlice ?inj ?cast _ ?src _ ?val _ = _ =>
    let i := fresh "i" in
    let j := fresh "j" in
    let v2 := fresh "v2" in
    let Hpb := fresh "Hpb" in
    let Hr := fresh "Hr" in
    let Hc := fresh "Hc" in
    let Hw := fresh "Hw" in
    let Hres := fresh "Hres" in
    destruct (writeSlice_window inj cast _ _ _ _ _ _ E)
      as (i & j & v2 & Hpb & Hr & Hc & Hw & Hres);
    exists i, j;
    assert (Hval : ua.Value val = inj v2)
      by (revert Hc; clear; destruct (ua.Value val); try discriminate;
          intros Hc; inversion Hc; reflexivity);
    rewrite Hres, Hval; cbn [spec.items];
    rewrite ?len_map, ?replaced_map;
    repeat split; try reflexivity; try assumption; try tauto
  end.

(** X9. A Write under a non-empty index range into an array that
    returns Good replaces a window of the array and nothing else: the
    first range selects the window from [i] to [j], the incoming value
    is an array of the same Go type with [j - i] elements, and the
    result is the array with these elements in the window, every
    other element in its place and the length unchanged. *)
Theorem writeRange_replaces_window (source value : ua.DataValue) (r : string)
        (now : server.Clock) (result : ua.DataValue) :
  r <> "" ->
  spec.isArray (ua.Value source) = true ->
  server.writeRange source value r now = ua.Returns (result, ua.Good) ->
  exists i j,
    server.parseBounds (server.range0 (strings.Split r ","))
                       (server.len (spec.items (ua.Value source)))
    = (i, j, ua.Good)
    /\ (0 <= i /\ i < j /\ j <= server.len (spec.items (ua.Value source)))
    /\ server.len (spec.items (ua.Value value)) = j - i
    /\ spec.sameGoType (ua.Value value) (ua.Value source) = true
    /\ spec.sameGoType (ua.Value result) (ua.Value source) = true
    /\ spec.items (ua.Value result)
       = spec.replaced (spec.items (ua.Value source)) i j
                       (spec.items (ua.Value value)).
Proof.
  intros Hr Harr. unfold server.writeRange.
  destruct (String.eqb_spec r "") as [|_]; [contradiction|].
  cbv zeta. set (ranges := strings.Split r ",").
  destruct (ua.Value source) eqn:Hv; try discriminate Harr; clear Harr;
    intros E; window_of E Hv.
Qed.

End RangeWindow.

Lemma writeRange_replaces_window_witness :
  exists i j,
    server.parseBounds (server.range0 (strings.Split "1:2" ","))
                       (server.len (spec.items (ua.int32s [1; 2; 3; 4])))
    = (i, j, ua.Good)
    /\ (0 <= i /\ i < j /\ j <= server.len (spec.items (ua.int32s [1; 2; 3; 4])))
    /\ server.len (spec.items (ua.int32s [8; 9])) = j - i
    /\ spec.sameGoType (ua.int32s [8; 9]) (ua.int32s [1; 2; 3; 4]) = true
    /\ spec.sameGoType (ua.int32s [1; 8; 9; 4]) (ua.int32s [1; 2; 3; 4]) = true
    /\ spec.items (ua.int32s [1; 8; 9; 4])
       = spec.replaced (spec.items (ua.int32s [1; 2; 3; 4])) i j
                       (spec.items (ua.int32s [8; 9])).
Proof.
  apply (writeRange_replaces_window
           (example.stored (ua.int32s [1; 2; 3; 4]))
           (example.incoming (ua.int32s [8; 9])) "1:2" example.clock
           (ua.NewDataValue (ua.int32s [1; 8; 9; 4]) ua.Good 5 0 6 0)).
  - discriminate.
  - reflexivity.
  - reflexivity.
Defined.

(* ================================================================= *)
(** * Further properties of the project manager *)

Section ProjectOperations.

Import server.

(** X10. An operation of the project manager panics only with the
    handler onLoading: when onLoading returns, every operation
    returns, from every state, because the handler [onError], which
    indexes its argument list, is only ever fired with the error as
    argument.  When onLoading panics, the operations that run it
    ([Load] from Unloaded or Reload, [ReloadProject] from Loaded or
    Error) panic with it, and the others return. *)
Theorem operations_panic_with_onLoading_only (op : Operation)
        (p : ProjectManager) :
  (forall outcome, exists p', perform op (ua.Returns outcome) p = ua.Returns p')
  /\ (forall reason,
        spec.runsLoading op (pm_state p) = true ->
        perform op (ua.Panics reason) p = ua.Panics reason)
  /\ (forall reason,
        spec.runsLoading op (pm_state p) = false ->
        exists p', perform op (ua.Panics reason) p = ua.Returns p').
Proof.
  destruct p as [st err root log]. split; [|split].
  - intros outcome. destruct op, st, outcome, err; eexists; reflexivity.
  - intros reason. destruct op, st, err; cbn; try discriminate; reflexivity.
  - intros reason. destruct op, st, err; cbn; try discriminate;
      intros _; eexists; reflexivity.
Qed.

(** X11. [Load] acts on a manager in the state Unloaded only.  From
    Unloaded, when onLoading returns, it ends in Loaded, with the
    root node set and the entry nodes started, if the project file
    loads, and in Error with the error recorded if it does not; when
    onLoading panics, [Load] panics.  A manager that is Loaded or in
    Error is returned as it is, whatever the project file is: a
    failed load is not retried by [Load]. *)
Theorem Load_from_Unloaded_only (load : Loading) (p : ProjectManager) :
  (pm_state p = PROJECT_STATE_UNLOADED ->
   Load load p
   = match load with
     | ua.Returns None =>
         ua.Returns (mkProjectManager PROJECT_STATE_LOADED (currentError p) true
                                      (pluginLog p ++ [StartEntries]))
     | ua.Returns (Some err) =>
         ua.Returns (mkProjectManager PROJECT_STATE_ERROR (Some err)
                                      (rootLoaded p) (pluginLog p))
     | ua.Panics reason => ua.Panics reason
     end)
  /\ (pm_state p = PROJECT_STATE_LOADED \/ pm_state p = PROJECT_STATE_ERROR ->
      Load load p = ua.Returns p).
Proof.
  destruct p as [st err root log]. cbn [pm_state]. split.
  - intros ->. destruct load as [[e|]|r]; reflexivity.
  - intros [-> | ->]; destruct load as [[e|]|r]; reflexivity.
Qed.

(** X12. [ReloadProject] acts on a manager that is Loaded or in Error
    only.  From these it stops the entry nodes and loads again: when
    onLoading returns, it ends in Loaded and returns no error if the
    project file loads (the error recorded before stays recorded),
    and ends in Error, records the error and returns it if it does
    not; when onLoading panics, [ReloadProject] panics.  On an
    Unloaded manager it does nothing and returns no error. *)
Theorem ReloadProject_outcome (load : Loading) (p : ProjectManager) :
  (pm_state p = PROJECT_STATE_LOADED \/ pm_state p = PROJECT_STATE_ERROR ->
   ReloadProject load p
   = match load with
     | ua.Returns None =>
         ua.Returns
           (mkProjectManager PROJECT_STATE_LOADED (currentError p) true
                             (pluginLog p ++ [StopEntries; StartEntries]),
            None)
     | ua.Returns (Some err) =>
         ua.Returns
           (mkProjectManager PROJECT_STATE_ERROR (Some err) (rootLoaded p)
                             (pluginLog p ++ [StopEntries]),
            Some err)
     | ua.Panics reason => ua.Panics reason
     end)
  /\ (pm_state p = PROJECT_STATE_UNLOADED ->
      ReloadProject load p = ua.Returns (p, None)).
Proof.
  destruct p as [st err root log]. cbn [pm_state]. split.
  - intros [-> | ->]; destruct load as [[e|]|r]; cbn; rewrite <- ?app_assoc;
      reflexivity.
  - intros ->. reflexivity.
Qed.

End ProjectOperations.

Lemma operations_panic_with_onLoading_only_witness :
  server.perform server.opLoad (ua.Panics "nil pointer dereference")
                 server.NewProjectManager
  = ua.Panics "nil pointer dereference".
Proof.
  destruct (operations_panic_with_onLoading_only server.opLoad
              server.NewProjectManager) as (_ & H & _).
  apply H. reflexivity.
Defined.

Lemma Load_from_Unloaded_only_witness :
  server.Load (ua.Returns (Some "bad file")) server.NewProjectManager
  = ua.Returns (server.mkProjectManager server.PROJECT_STATE_ERROR
                                        (Some "bad file") false []).
Proof.
  destruct (Load_from_Unloaded_only (ua.Returns (Some "bad file"))
              server.NewProjectManager) as [H _].
  apply H. reflexivity.
Defined.

Lemma ReloadProject_outcome_witness :
  server.ReloadProject (ua.Returns None)
    (server.mkProjectManager server.PROJECT_STATE_ERROR (Some "bad file")
                             false [])
  = ua.Returns
      (server.mkProjectManager server.PROJECT_STATE_LOADED (Some "bad file")
                               true [server.StopEntries; server.StartEntries],
       None).
Proof.
  destruct (ReloadProject_outcome (ua.Returns None)
              (server.mkProjectManager server.PROJECT_STATE_ERROR
                 (Some "bad file") false [])) as [H _].
  apply H. right. reflexivity.
Defined.

(* ================================================================= *)
(** * Timestamps of the results of a Read *)

Section Timestamps.

Import server.

(** X13. [selectTimestamps] keeps the number of results and never
    changes a value or a status code; applying it twice with the same
    selection gives what applying it once gives; and selecting Source
    and then Server, or Server and then Source, leaves neither
    timestamp, as selecting Neither does. *)
Theorem selectTimestamps_composes (values : list ua.DataValue) (t : Z) :
  map ua.Value (selectTimestamps values t) = map ua.Value values
  /\ map ua.StatusCodeOf (selectTimestamps values t) = map ua.StatusCodeOf values
  /\ selectTimestamps (selectTimestamps values t) t = selectTimestamps values t
  /\ selectTimestamps (selectTimestamps values TimestampsToReturnSource)
                      TimestampsToReturnServer
     = selectTimestamps values TimestampsToReturnNeither
  /\ selectTimestamps (selectTimestamps values TimestampsToReturnServer)
                      TimestampsToReturnSource
     = selectTimestamps values TimestampsToReturnNeither.
Proof.
  assert (Hmap : forall (f g : ua.DataValue -> ua.DataValue),
             (forall d, g (f d) = g d) ->
             map g (map f values) = map g values)
    by (intros f g H; rewrite map_map; apply map_ext; exact H).
  unfold selectTimestamps.
  split; [|split; [|split; [|split]]].
  - destruct (t =? _); [|destruct (t =? _); [|destruct (t =? _)]];
      rewrite ?map_map; reflexivity.
  - destruct (t =? _); [|destruct (t =? _); [|destruct (t =? _)]];
      rewrite ?map_map; reflexivity.
  - destruct (t =? _); [|destruct (t =? _); [|destruct (t =? _)]];
      try reflexivity; apply Hmap; reflexivity.
  - cbn [Z.eqb TimestampsToReturnSource TimestampsToReturnServer
               TimestampsToReturnNeither Pos.eqb].
    rewrite map_map. reflexivity.
  - cbn [Z.eqb TimestampsToReturnSource TimestampsToReturnServer
               TimestampsToReturnNeither Pos.eqb].
    rewrite map_map. reflexivity.
Qed.

End Timestamps.

(* ================================================================= *)
(** * NodeIDs and the table of namespace URIs *)

Section NamespaceTable.

Lemma findURI_bounds (uris : list string) (uri : string) (k i : Z) :
  ua.findURI k uris uri = Some i ->
  k <= i < k + Z.of_nat (List.length uris)
  /\ nth (Z.to_nat (i - k)) uris "" = uri.
Proof.
  revert k. induction uris as [|u uris IH]; intros k; cbn [ua.findURI];
    [discriminate|].
  destruct (String.eqb_spec u uri) as [->|Hne].
  - intros E; inversion E; subst i. rewrite Z.sub_diag. cbn [List.length].
    split; [lia | reflexivity].
  - intros E. destruct (IH _ E) as [Hb Hn]. cbn [List.length]. split; [lia|].
    replace (Z.to_nat (i - k)) with (S (Z.to_nat (i - (k + 1)))) by lia.
    exact Hn.
Qed.

Lemma findURI_first (uris : list string) (k : Z) (n : nat) :
  NoDup uris -> (n < List.length uris)%nat ->
  ua.findURI k uris (nth n uris "") = Some (k + Z.of_nat n).
Proof.
  intros Hnd. revert k n. induction Hnd as [|u uris Hnotin Hnd IH]; intros k n Hn;
    cbn [List.length] in Hn; [lia|].
  cbn [ua.findURI]. destruct n as [|n]; cbn [nth].
  - rewrite String.eqb_refl. f_equal. lia.
  - destruct (String.eqb_spec u (nth n uris "")) as [E|_].
    + exfalso. apply Hnotin. rewrite E. apply nth_In. lia.
    + rewrite IH by lia. f_equal. lia.
Qed.

Lemma findURI_absent (uris : list string) (uri : string) (k : Z) :
  ~ In uri uris -> ua.findURI k uris uri = None.
Proof.
  revert k. induction uris as [|u uris IH]; intros k Hnotin; cbn [ua.findURI];
    [reflexivity|].
  destruct (String.eqb_spec u uri) as [->|_].
  - exfalso. apply Hnotin. now left.
  - apply IH. intros Hin. apply Hnotin. now right.
Qed.

(** X14. Converting a NodeID to an ExpandedNodeID and back through a
    table of distinct namespace URIs returns the NodeID: for every
    NodeID built by the four constructors, whatever its namespace
    index (inside the table, 0, or beyond the table), [ToNodeID] of
    [ToExpandedNodeID] is the NodeID itself.  And an ExpandedNodeID
    whose namespace URI is not in the table converts to the nil
    NodeID. *)
Theorem ToNodeID_ToExpandedNodeID (uris : list string) :
  (NoDup uris ->
   forall n, spec.wellFormedNodeID n ->
             ua.ToNodeID (ua.ToExpandedNodeID (Some n) uris) uris = Some n)
  /\ (forall e, ua.NamespaceURI e <> "" -> ~ In (ua.NamespaceURI e) uris ->
                ua.ToNodeID e uris = None).
Proof.
  split.
  - intros Hnd n [Hns Hwf]. unfold ua.ToExpandedNodeID. cbv zeta.
    set (ns := ua.GetNamespaceIndex n) in *.
    set (size := ua.uint16 (Z.of_nat (List.length uris))).
    destruct (Z.gtb_spec ns 0) as [Hpos|]; cbn [andb]; [|reflexivity].
    destruct (Z.ltb_spec ns size) as [Hlt|]; [|reflexivity].
    unfold ua.ToNodeID. cbn [ua.NamespaceURI ua.NodeID_].
    destruct (String.eqb (ua.uriAt uris ns) ""); [reflexivity|].
    assert (Hsize : size <= Z.of_nat (List.length uris)).
    { subst size. unfold ua.uint16. apply Z.mod_le; lia. }
    unfold ua.uriAt. rewrite (findURI_first uris 0 (Z.to_nat ns) Hnd) by lia.
    rewrite Z.add_0_l, Z2Nat.id by lia. rewrite uint16_small by lia.
    subst ns. destruct n as [t ns id | t ns id | t ns id | t ns id];
      cbn [ua.GetNamespaceIndex] in *.
    + destruct Hwf as [-> _]. reflexivity.
    + subst t. reflexivity.
    + destruct Hwf as [-> _]. reflexivity.
    + subst t. reflexivity.
  - intros e Hne Hnotin. unfold ua.ToNodeID.
    destruct (String.eqb_spec (ua.NamespaceURI e) ""); [contradiction|].
    now rewrite findURI_absent.
Qed.

End NamespaceTable.

Lemma ToNodeID_ToExpandedNodeID_witness :
  ua.ToNodeID
    (ua.ToExpandedNodeID (Some (ua.NewNodeIDString 1 "Demo"))
                         ["http://opcfoundation.org/UA/"; "urn:demo"])
    ["http://opcfoundation.org/UA/"; "urn:demo"]
  = Some (ua.NewNodeIDString 1 "Demo").
Proof.
  destruct (ToNodeID_ToExpandedNodeID
              ["http://opcfoundation.org/UA/"; "urn:demo"]) as [H _].
  apply H.
  - repeat constructor; cbn; intuition discriminate.
  - split; [cbn; lia | reflexivity].
Defined.

(* ================================================================= *)
(** * The string forms of NodeIDs and ExpandedNodeIDs *)

Section Prefixes.

(** A text [tag ++ body ++ c ++ rest] whose tag and body are free of
    the byte [c] is cut at the first [c] into the body and the
    rest. *)
Lemma cut_at (c : ascii) (tag body rest : string) :
  strings.hasByte c (tag ++ body) = false ->
  strings.Index (tag ++ body ++ String c rest) (String c EmptyString)
  = strings.len tag + strings.len body
  /\ strings.slice (tag ++ body ++ String c rest) (strings.len tag)
                   (strings.len tag + strings.len body) = body
  /\ strings.slice_from (tag ++ body ++ String c rest)
                        (strings.len tag + strings.len body + 1) = rest.
Proof.
  intros Hc. split; [|split].
  - unfold strings.Index. rewrite <- append_assoc.
    rewrite Index_from_first by exact Hc.
    unfold strings.len. rewrite length_append. lia.
  - apply (slice_middle tag body (String c rest)).
  - change (String c rest) with (String c EmptyString ++ rest).
    rewrite <- !append_assoc. apply slice_from_suffix.
    unfold strings.len. rewrite !length_append. cbn [String.length]. lia.
Qed.

Lemma len_nonneg_string (s : string) : 0 <= strings.len s.
Proof. unfold strings.len. lia. Qed.

(** [ParseNodeID] reads back what [String] prints. *)
Lemma ParseNodeID_String (n : ua.NodeID) :
  spec.wellFormedNodeID n -> n <> spec.nullNodeID ->
  ua.ParseNodeID (ua.String_ n) = Some n.
Proof.
  intros Hwf Hnull. pose proof Hwf as [Hns _].
  pose proof (parseNodeIDBody_printedBody n Hwf Hnull) as Hbody.
  unfold ua.ParseNodeID, ua.ParseNodeIDString. rewrite String_printedBody.
  destruct (Z.eqb_spec (ua.GetNamespaceIndex n) 0) as [H0|H0].
  - rewrite printedBody_not_namespace. now rewrite <- H0 at 1.
  - set (ns := ua.GetNamespaceIndex n) in *.
    change ("ns=" ++ fmt.FormatUint ns ++ ";" ++ spec.printedBody n)
      with ("ns=" ++ fmt.FormatUint ns ++ String ";" (spec.printedBody n)).
    assert (Hd : strings.hasByte ";" ("ns=" ++ fmt.FormatUint ns) = false).
    { rewrite hasByte_append, (FormatUint_digits ";" ns) by (try reflexivity; lia).
      reflexivity. }
    destruct (cut_at ";" "ns=" (fmt.FormatUint ns) (spec.printedBody n) Hd)
      as (Hi & Hs1 & Hs2).
    unfold strings.HasPrefix. rewrite prefix_append.
    change (String ";" EmptyString) with ";" in Hi. rewrite Hi.
    change (strings.len "ns=") with 3 in *.
    pose proof (len_nonneg_string (fmt.FormatUint ns)) as Hl.
    destruct (Z.eqb_spec (3 + strings.len (fmt.FormatUint ns)) (-1)); [lia|].
    rewrite Hs1, Hs2.
    rewrite (ParseUint_FormatUint ns 16) by (change (2 ^ 16) with 65536; lia).
    exact Hbody.
Qed.

Lemma String_no_prefix (n : ua.NodeID) :
  strings.HasPrefix (ua.String_ n) "svr=" = false
  /\ strings.HasPrefix (ua.String_ n) "nsu=" = false.
Proof.
  destruct n as [t ns id | t ns id | t ns id | t ns id]; cbn [ua.String_];
    destruct (ns =? 0); split; reflexivity.
Qed.

Lemma Returns_inj {A} (a b : A) : ua.Returns a = ua.Returns b -> a = b.
Proof. intros E; now inversion E. Qed.

(** The part of [ParseExpandedNodeID] after the server index reads
    back the namespace URI and the NodeID. *)
Lemma parseExpandedNodeIDTail_printed (svr : Z) (uri : string) (n : ua.NodeID) :
  spec.wellFormedNodeID n -> n <> spec.nullNodeID ->
  strings.hasByte ";" uri = false ->
  ua.parseExpandedNodeIDTail svr
    ((if strings.len uri >? 0 then "nsu=" ++ uri ++ ";" else "") ++ ua.String_ n)
  = ua.Returns (ua.mkExpandedNodeID (ua.GetIDType n) (ua.uint32 svr) uri (Some n)).
Proof.
  intros Hwf Hnull Huri. unfold ua.parseExpandedNodeIDTail.
  destruct uri as [|c uri].
  - cbn [strings.len String.length Z.of_nat Z.gtb Z.compare append].
    destruct (String_no_prefix n) as [_ ->].
    now rewrite (ParseNodeID_String n Hwf Hnull).
  - assert (Hpos : (strings.len (String c uri) >? 0) = true).
    { unfold strings.len. cbn [String.length]. apply Z.gtb_lt. lia. }
    rewrite Hpos.
    change (("nsu=" ++ String c uri ++ ";") ++ ua.String_ n)
      with ("nsu=" ++ (String c uri ++ ";") ++ ua.String_ n).
    rewrite (append_assoc (String c uri) ";" (ua.String_ n)).
    change (";" ++ ua.String_ n) with (String ";" (ua.String_ n)).
    assert (Hd : strings.hasByte ";" ("nsu=" ++ String c uri) = false)
      by (rewrite hasByte_append, Huri; reflexivity).
    destruct (cut_at ";" "nsu=" (String c uri) (ua.String_ n) Hd) as (Hi & Hs1 & Hs2).
    unfold strings.HasPrefix. rewrite prefix_append.
    change (String ";" EmptyString) with ";" in Hi. rewrite Hi.
    change (strings.len "nsu=") with 4 in *.
    pose proof (len_nonneg_string (String c uri)) as Hl.
    destruct (Z.eqb_spec (4 + strings.len (String c uri)) (-1)); [lia|].
    rewrite Hs1, Hs2. now rewrite (ParseNodeID_String n Hwf Hnull).
Qed.

End Prefixes.

(** X15. [ParseExpandedNodeID] reads back what [ExpandedNodeID.String]
    prints: for every server index of 32 bits, every namespace URI
    without a semicolon and every NodeID of the four constructors
    other than the null NodeID, parsing the printed text returns the
    same server index, namespace URI and NodeID, with the [IdType] of
    the NodeID (which [String] does not print). *)
Theorem ParseExpandedNodeID_String (t : ua.IDType) (svr : Z) (uri : string)
        (n : ua.NodeID) :
  spec.wellFormedNodeID n -> n <> spec.nullNodeID ->
  0 <= svr < 2 ^ 32 ->
  strings.hasByte ";" uri = false ->
  ua.ParseExpandedNodeID
    (ua.ExpandedNodeID_String (ua.mkExpandedNodeID t svr uri (Some n)))
  = ua.Returns (ua.mkExpandedNodeID (ua.GetIDType n) svr uri (Some n)).
Proof.
  intros Hwf Hnull Hsvr Huri.
  unfold ua.ExpandedNodeID_String.
  cbn [ua.ServerIndex ua.NamespaceURI ua.NodeID_]. cbv zeta.
  set (tail := (if strings.len uri >? 0 then "nsu=" ++ uri ++ ";" else "")
               ++ ua.String_ n).
  assert (Htail : ua.parseExpandedNodeIDTail svr tail
                  = ua.Returns (ua.mkExpandedNodeID (ua.GetIDType n) svr uri (Some n))).
  { subst tail. rewrite parseExpandedNodeIDTail_printed by assumption.
    now rewrite uint32_small. }
  assert (Htail0 : svr = 0 -> ua.parseExpandedNodeIDTail 0 tail
                   = ua.Returns (ua.mkExpandedNodeID (ua.GetIDType n) svr uri (Some n)))
    by (intros ->; exact Htail).
  assert (Hnot : strings.HasPrefix tail "svr=" = false).
  { subst tail. destruct (strings.len uri >? 0).
    - reflexivity.
    - apply String_no_prefix. }
  unfold ua.ParseExpandedNodeID.
  destruct (Z.gtb_spec svr 0) as [Hpos|Hzero].
  - replace ((if strings.len uri >? 0
              then ("" ++ "svr=" ++ fmt.FormatUint svr ++ ";") ++ "nsu=" ++ uri ++ ";"
              else "" ++ "svr=" ++ fmt.FormatUint svr ++ ";") ++ ua.String_ n)
      with ("svr=" ++ fmt.FormatUint svr ++ String ";" tail).
    2:{ subst tail. destruct (strings.len uri >? 0);
        cbn [append]; rewrite ?append_assoc;
        cbn [append]; rewrite ?append_assoc; reflexivity. }
    assert (Hd : strings.hasByte ";" ("svr=" ++ fmt.FormatUint svr) = false).
    { rewrite hasByte_append, (FormatUint_digits ";" svr) by (try reflexivity; lia).
      reflexivity. }
    destruct (cut_at ";" "svr=" (fmt.FormatUint svr) tail Hd) as (Hi & Hs1 & Hs2).
    unfold strings.HasPrefix. rewrite prefix_append.
    change (String ";" EmptyString) with ";" in Hi. rewrite Hi.
    change (strings.len "svr=") with 4 in *.
    pose proof (len_nonneg_string (fmt.FormatUint svr)) as Hl.
    destruct (Z.eqb_spec (4 + strings.len (fmt.FormatUint svr)) (-1)); [lia|].
    rewrite Hs1, Hs2. rewrite (ParseUint_FormatUint svr 32) by lia.
    exact Htail.
  - replace ((if strings.len uri >? 0 then "" ++ "nsu=" ++ uri ++ ";" else "")
             ++ ua.String_ n) with tail by reflexivity.
    rewrite Hnot. apply Htail0. lia.
Qed.

Lemma ParseExpandedNodeID_String_witness :
  ua.ParseExpandedNodeID
    (ua.ExpandedNodeID_String
       (ua.mkExpandedNodeID ua.IDTypeNumeric 3 "urn:demo"
                            (Some (ua.NewNodeIDString 2 "Demo.Static"))))
  = ua.Returns (ua.mkExpandedNodeID ua.IDTypeString 3 "urn:demo"
                                    (Some (ua.NewNodeIDString 2 "Demo.Static"))).
Proof.
  apply (ParseExpandedNodeID_String ua.IDTypeNumeric 3 "urn:demo"
                                    (ua.NewNodeIDString 2 "Demo.Static")).
  - split; [cbn; lia | reflexivity].
  - discriminate.
  - lia.
  - reflexivity.
Defined.

Section ParsedNodeIDs.

Lemma parseUintLoop_range (s : string) (n maxVal r : Z) :
  0 <= n <= maxVal ->
  strconv.parseUintLoop s n maxVal = Some r -> 0 <= r <= maxVal.
Proof.
  revert n. induction s as [|c s IH]; intros n Hn; cbn [strconv.parseUintLoop].
  - intros E; inversion E; subst; exact Hn.
  - destruct (strconv.digit10 c) as [d|]; [|discriminate].
    cbv zeta. destruct (n >=? _); [discriminate|].
    destruct (Z.ltb_spec ((n * 10 + d) mod 2 ^ 64) (n * 10)); cbn [orb];
      [discriminate|].
    destruct (Z.gtb_spec ((n * 10 + d) mod 2 ^ 64) maxVal); [discriminate|].
    apply IH. split; [|lia].
    apply Z.mod_pos_bound. lia.
Qed.

Lemma ParseUint_range (s : string) (bitSize r : Z) :
  0 <= bitSize ->
  strconv.ParseUint s bitSize = Some r -> 0 <= r < 2 ^ bitSize.
Proof.
  intros Hb. unfold strconv.ParseUint. destruct s as [|c s]; [discriminate|].
  intros E. apply parseUintLoop_range in E.
  - lia.
  - pose proof (Z.pow_pos_nonneg 2 bitSize ltac:(lia) Hb). lia.
Qed.

Lemma xtobAll_length (s : string) (offsets : list nat) (l : list ascii) :
  uuid.xtobAll s offsets = Some l -> List.length l = List.length offsets.
Proof.
  revert l. induction offsets as [|x offsets IH]; intros l; cbn [uuid.xtobAll].
  - intros E; inversion E; reflexivity.
  - destruct (uuid.xtob _ _); [|discriminate].
    destruct (uuid.xtobAll s offsets) as [vs|]; [|discriminate].
    intros E; inversion E; subst l. cbn [List.length]. now rewrite (IH vs).
Qed.

Lemma Parse_length (s : string) (u : uuid.UUID) :
  uuid.Parse s = Some u -> List.length u = 16%nat.
Proof.
  unfold uuid.Parse, uuid.dashed. cbv zeta.
  repeat match goal with
         | |- context [if ?b then _ else _] => destruct b
         end;
    try discriminate; intros E; apply xtobAll_length in E; exact E.
Qed.

Lemma parseNodeIDBody_wellFormed (ns : Z) (s : string) (n : ua.NodeID) :
  0 <= ns < 2 ^ 16 ->
  ua.parseNodeIDBody ns s = Some n ->
  spec.wellFormedNodeID n /\ n <> spec.nullNodeID.
Proof.
  intros Hns. unfold ua.parseNodeIDBody.
  assert (Hu : ua.uint16 ns = ns) by (apply uint16_small; change (2 ^ 16) with 65536 in Hns; lia).
  rewrite Hu.
  destruct (strings.HasPrefix s "i=").
  { destruct (strconv.ParseUint _ 32) as [id|] eqn:Hid; [|discriminate].
    apply ParseUint_range in Hid; [|lia].
    destruct ((id =? 0) && (ns =? 0)) eqn:Hz; [discriminate|].
    intros E; inversion E; subst n. rewrite uint32_small by lia.
    split.
    - split; cbn; [change (2 ^ 16) with 65536 in Hns; lia | split; [reflexivity | lia]].
    - unfold spec.nullNodeID, ua.NewNodeIDNumeric. intros Heq. inversion Heq; subst.
      discriminate Hz. }
  destruct (strings.HasPrefix s "s=").
  { intros E; inversion E; subst n. split; [|discriminate].
    split; cbn; [change (2 ^ 16) with 65536 in Hns; lia | reflexivity]. }
  destruct (strings.HasPrefix s "g=").
  { destruct (uuid.Parse _) as [id|] eqn:Hid; [|discriminate].
    apply Parse_length in Hid.
    intros E; inversion E; subst n. split; [|discriminate].
    split; cbn; [change (2 ^ 16) with 65536 in Hns; lia | split; [reflexivity | exact Hid]]. }
  destruct (strings.HasPrefix s "b="); [|discriminate].
  destruct (base64.DecodeString _) as [id|]; [|discriminate].
  intros E; inversion E; subst n. split; [|discriminate].
  split; cbn; [change (2 ^ 16) with 65536 in Hns; lia | reflexivity].
Qed.

End ParsedNodeIDs.

(** X16. Whatever the text, a NodeID that [ParseNodeIDString] returns
    is one the four constructors build: its namespace index is a
    16-bit number, a numeric identifier is a 32-bit number, a GUID has
    16 bytes, and the tag of its type is that of its constructor; and
    it is never the null NodeID, for which the parser returns nil. *)
Theorem ParseNodeIDString_wellFormed (s : string) (n : ua.NodeID) :
  ua.ParseNodeIDString s = Some n ->
  spec.wellFormedNodeID n /\ n <> spec.nullNodeID.
Proof.
  unfold ua.ParseNodeIDString.
  destruct (strings.HasPrefix s "ns=").
  - cbv zeta. destruct (strings.Index s ";" =? -1); [discriminate|].
    destruct (strconv.ParseUint _ 16) as [ns|] eqn:Hns; [|discriminate].
    apply ParseUint_range in Hns; [|lia].
    now apply parseNodeIDBody_wellFormed.
  - apply parseNodeIDBody_wellFormed. lia.
Qed.

Lemma ParseNodeIDString_wellFormed_witness :
  spec.wellFormedNodeID (ua.NewNodeIDNumeric 2 85)
  /\ ua.NewNodeIDNumeric 2 85 <> spec.nullNodeID.
Proof.
  apply (ParseNodeIDString_wellFormed "ns=2;i=0085"). reflexivity.
Defined.

(** X17. Two NodeIDs of the four constructors that print the same
    text are the same NodeID: [String] is injective, the null NodeID
    included. *)
Theorem String_injective (n m : ua.NodeID) :
  spec.wellFormedNodeID n -> spec.wellFormedNodeID m ->
  ua.String_ n = ua.String_ m -> n = m.
Proof.
  intros Hn Hm E.
  assert (Hnull : forall k, spec.wellFormedNodeID k -> k <> spec.nullNodeID ->
                            ua.String_ k = "i=0" -> False).
  { intros k Hk Hne Ek. pose proof (ParseNodeID_String k Hk Hne) as Hp.
    rewrite Ek in Hp. discriminate Hp. }
  assert (Hdec : forall k, spec.wellFormedNodeID k ->
                           k = spec.nullNodeID \/ k <> spec.nullNodeID).
  { intros [t ns id | t ns id | t ns id | t ns id] [_ Hk];
      try (right; discriminate).
    destruct Hk as [-> _].
    destruct (Z.eq_dec ns 0) as [->|]; [|right; intros Heq; inversion Heq; lia].
    destruct (Z.eq_dec id 0) as [->|]; [now left|].
    right; intros Heq; inversion Heq; lia. }
  destruct (Hdec n Hn) as [En|En], (Hdec m Hm) as [Em|Em].
  - congruence.
  - subst n. exfalso. apply (Hnull m Hm Em). now rewrite <- E.
  - subst m. exfalso. apply (Hnull n Hn En). now rewrite E.
  - pose proof (ParseNodeID_String n Hn En) as Pn.
    pose proof (ParseNodeID_String m Hm Em) as Pm.
    rewrite E in Pn. congruence.
Qed.

Lemma String_injective_witness :
  ua.NewNodeIDString 0 "ns=1;i=5" = ua.NewNodeIDString 0 "ns=1;i=5".
Proof.
  apply String_injective.
  - split; [cbn; lia | reflexivity].
  - split; [cbn; lia | reflexivity].
  - reflexivity.
Defined.

(* ================================================================= *)
(** * Qualified names and browse paths *)

Section QualifiedNames.

Lemma parseUintValueLoop_value (s : string) (n maxVal r : Z) :
  strconv.parseUintLoop s n maxVal = Some r ->
  strconv.parseUintValueLoop s n maxVal = r.
Proof.
  revert n. induction s as [|c s IH]; intros n;
    cbn [strconv.parseUintLoop strconv.parseUintValueLoop].
  - intros E; now inversion E.
  - destruct (strconv.digit10 c); [|discriminate]. cbv zeta.
    destruct (n >=? _); [discriminate|].
    destruct (_ || _); [discriminate|]. apply IH.
Qed.

Lemma ParseUintValue_value (s : string) (bitSize r : Z) :
  strconv.ParseUint s bitSize = Some r -> strconv.ParseUintValue s bitSize = r.
Proof.
  unfold strconv.ParseUint, strconv.ParseUintValue.
  destruct s; [discriminate|]. apply parseUintValueLoop_value.
Qed.

Lemma Index_absent (c : ascii) (s : string) :
  strings.hasByte c s = false -> strings.Index s (String c EmptyString) = -1.
Proof. apply Index_from_absent. Qed.

Lemma ParseQualifiedName_printed (a : ua.QualifiedName) :
  0 <= ua.QualifiedName_NamespaceIndex a <= 65535 ->
  ua.ParseQualifiedName (ua.QualifiedName_String a) = a.
Proof.
  destruct a as [ns name]. intros Hns. cbn [ua.QualifiedName_NamespaceIndex] in Hns.
  unfold ua.QualifiedName_String, ua.ParseQualifiedName.
  cbn [ua.QualifiedName_NamespaceIndex ua.QualifiedName_Name].
  assert (Hd : strings.hasByte ":" ("" ++ fmt.FormatUint ns) = false)
    by (apply (FormatUint_digits ":" ns); [reflexivity | lia]).
  destruct (cut_at ":" "" (fmt.FormatUint ns) name Hd) as (Hi & Hs1 & Hs2).
  cbn [append] in Hi, Hs1, Hs2.
  change (strings.len "") with 0 in *. rewrite Z.add_0_l in *.
  change (":" ++ name) with (String ":" name).
  change (String ":" EmptyString) with ":" in Hi.
  cbv zeta. rewrite Hi.
  pose proof (len_nonneg_string (fmt.FormatUint ns)) as Hl.
  destruct (Z.eqb_spec (strings.len (fmt.FormatUint ns)) (-1)); [lia|].
  rewrite Hs1, Hs2.
  pose proof (ParseUint_FormatUint ns 16 ltac:(lia)
                ltac:(change (2 ^ 16) with 65536; lia)) as Hp.
  rewrite Hp, (ParseUintValue_value _ _ _ Hp), uint16_small by lia.
  reflexivity.
Qed.

(** X18. [ParseQualifiedName] reads back what [QualifiedName.String]
    prints, for every namespace index of 16 bits and every name, a
    name with colons in it included; and a text without a colon is a
    name in namespace 0. *)
Theorem ParseQualifiedName_String :
  (forall a,
      0 <= ua.QualifiedName_NamespaceIndex a <= 65535 ->
      ua.ParseQualifiedName (ua.QualifiedName_String a) = a)
  /\ (forall s,
         strings.hasByte ":" s = false ->
         ua.ParseQualifiedName s = ua.mkQualifiedName 0 s).
Proof.
  split; [exact ParseQualifiedName_printed|].
  intros s Hs. unfold ua.ParseQualifiedName. cbv zeta.
  change ":" with (String ":" EmptyString) at 1.
  rewrite (Index_absent ":" s Hs). reflexivity.
Qed.

Lemma Split_absent (c : ascii) (s : string) :
  strings.hasByte c s = false -> strings.Split s c = [s].
Proof.
  induction s as [|a s IH]; cbn [strings.hasByte strings.Split]; [reflexivity|].
  intros H. apply orb_false_iff in H as [Ha Hs].
  rewrite Ha, (IH Hs). reflexivity.
Qed.

Lemma Split_first (c : ascii) (s rest : string) :
  strings.hasByte c s = false ->
  strings.Split (s ++ String c rest) c = s :: strings.Split rest c.
Proof.
  induction s as [|a s IH]; cbn [strings.hasByte strings.Split append].
  - intros _. now rewrite Ascii.eqb_refl.
  - intros H. apply orb_false_iff in H as [Ha Hs].
    rewrite Ha, (IH Hs). reflexivity.
Qed.

Lemma String_no_slash (a : ua.QualifiedName) :
  spec.pathName a -> strings.hasByte "/" (ua.QualifiedName_String a) = false.
Proof.
  intros [Hns Hname]. unfold ua.QualifiedName_String.
  rewrite !hasByte_append, Hname.
  rewrite (FormatUint_digits "/") by (try reflexivity; lia). reflexivity.
Qed.

Lemma String_nonempty (a : ua.QualifiedName) (s : string) :
  (strings.len (ua.QualifiedName_String a ++ s) =? 0) = false.
Proof.
  apply Z.eqb_neq. unfold strings.len, ua.QualifiedName_String.
  rewrite !length_append. cbn [String.length]. lia.
Qed.

Lemma Split_browsePath (path : list ua.QualifiedName) :
  path <> [] -> Forall spec.pathName path ->
  strings.Split (spec.browsePath path) "/" = map ua.QualifiedName_String path.
Proof.
  intros Hne Hall. induction Hall as [|a rest Ha Hrest IH]; [contradiction|].
  destruct rest as [|b rest].
  - cbn [spec.browsePath map]. apply Split_absent, String_no_slash, Ha.
  - change (spec.browsePath (a :: b :: rest))
      with (ua.QualifiedName_String a ++ String "/" (spec.browsePath (b :: rest))).
    rewrite Split_first by apply String_no_slash, Ha.
    rewrite IH by discriminate. reflexivity.
Qed.

End QualifiedNames.

Lemma ParseQualifiedName_String_witness :
  ua.ParseQualifiedName (ua.QualifiedName_String (ua.mkQualifiedName 2 "a:b"))
  = ua.mkQualifiedName 2 "a:b".
Proof.
  destruct ParseQualifiedName_String as [H _].
  apply H. cbn. lia.
Defined.

(** X19. [ParseBrowsePath] reads back a browse path that is printed
    name by name with slashes between: for every non-empty path of
    names without a slash and namespace indices of 16 bits,
    [ParseBrowsePath] of the text gives the path; the empty text
    gives the empty path. *)
Theorem ParseBrowsePath_browsePath (path : list ua.QualifiedName) :
  Forall spec.pathName path ->
  ua.ParseBrowsePath (spec.browsePath path) = path.
Proof.
  intros Hall. unfold ua.ParseBrowsePath.
  destruct path as [|a rest]; [reflexivity|].
  assert (Hlen : (strings.len (spec.browsePath (a :: rest)) =? 0) = false).
  { destruct rest as [|b rest].
    - cbn [spec.browsePath].
      rewrite <- (String_nonempty a "") at 1. f_equal. f_equal.
      clear. induction (ua.QualifiedName_String a) as [|c s IH];
        cbn [append]; [reflexivity | now rewrite <- IH].
    - apply String_nonempty. }
  rewrite Hlen, Split_browsePath by (try discriminate; assumption).
  rewrite map_map.
  clear Hlen. induction Hall as [|b l [Hns _] _ IH]; [reflexivity|].
  cbn [map]. now rewrite ParseQualifiedName_printed, IH.
Qed.

Lemma ParseBrowsePath_browsePath_witness :
  ua.ParseBrowsePath "2:Demo/2:Dynamic"
  = [ua.mkQualifiedName 2 "Demo"; ua.mkQualifiedName 2 "Dynamic"].
Proof.
  apply (ParseBrowsePath_browsePath
           [ua.mkQualifiedName 2 "Demo"; ua.mkQualifiedName 2 "Dynamic"]).
  repeat constructor; cbn; lia.
Defined.

(* ================================================================= *)
(** * The children of an ObjectNode *)

Section Children.

Import server.

Lemma IndexOf_from_absent (els : list (option NodeRef)) (v : NodeRef) (i : Z) :
  ~ In (Some v) els -> IndexOf_from i els v = -1.
Proof.
  revert i. induction els as [|x els IH]; intros i Hnotin; cbn [IndexOf_from];
    [reflexivity|].
  destruct x as [x|].
  - destruct (Z.eqb_spec x v) as [->|_].
    + exfalso. apply Hnotin. now left.
    + apply IH. intros Hin. apply Hnotin. now right.
  - apply IH. intros Hin. apply Hnotin. now right.
Qed.

Lemma IndexOf_from_first (a : list NodeRef) (rest : list (option NodeRef))
      (v : NodeRef) (i : Z) :
  ~ In v a -> IndexOf_from i (map Some a ++ Some v :: rest) v = i + len a.
Proof.
  revert i. induction a as [|x a IH]; intros i Hnotin;
    cbn [IndexOf_from app map].
  - rewrite Z.eqb_refl. unfold len. cbn. lia.
  - destruct (Z.eqb_spec x v) as [->|_].
    + exfalso. apply Hnotin. now left.
    + rewrite IH by (intros Hin; apply Hnotin; now right).
      unfold len. cbn [List.length]. lia.
Qed.

Lemma len_app {A} (a b : list A) : len (a ++ b) = len a + len b.
Proof. unfold len. rewrite length_app. lia. Qed.

Lemma len_cons {A} (x : A) (a : list A) : len (x :: a) = 1 + len a.
Proof. unfold len. cbn [List.length]. lia. Qed.

Lemma len_map_Some (a : list NodeRef) : len (map Some a) = len a.
Proof. unfold len. now rewrite length_map. Qed.

Ltac lens :=
  cbn [size elements] in *; unfold len in *;
  repeat rewrite ?length_app, ?length_map in *;
  cbn [List.length] in *; lia.

Lemma IndexOf_member (l : List) (a b : list NodeRef) (v : NodeRef) :
  spec.holds l (a ++ v :: b) -> ~ In v a -> IndexOf l v = len a.
Proof.
  intros (slack & Hels & Hsize) Ha. unfold IndexOf. rewrite Hsize, Hels.
  rewrite len_app, len_cons.
  pose proof (len_nonneg a). pose proof (len_nonneg b).
  destruct (Z.eqb_spec (len a + (1 + len b)) 0); [lia|].
  rewrite map_app. cbn [map]. rewrite <- app_assoc. cbn [app].
  rewrite IndexOf_from_first by exact Ha. lia.
Qed.

Lemma setAt_middle {A} (x z : list A) (y v : A) :
  setAt (x ++ y :: z) (List.length x) v = (x ++ v :: z)%list.
Proof. induction x as [|h x IH]; cbn; [reflexivity | now rewrite IH]. Qed.

Lemma firstn_length_app {A} (x y : list A) :
  firstn (List.length x) (x ++ y) = x.
Proof. rewrite firstn_app, firstn_all, Nat.sub_diag. cbn. apply app_nil_r. Qed.

Lemma skipn_length_app {A} (x y : list A) :
  skipn (List.length x) (x ++ y) = y.
Proof. rewrite skipn_app, skipn_all, Nat.sub_diag. reflexivity. Qed.

Lemma sub_middle {A} (x m z : list A) :
  sub (x ++ m ++ z) (len x) (len x + len m) = m.
Proof.
  unfold sub, len. rewrite Nat2Z.id.
  replace (Z.to_nat (Z.of_nat (List.length x) + Z.of_nat (List.length m)
                     - Z.of_nat (List.length x))) with (List.length m) by lia.
  rewrite skipn_length_app. apply firstn_length_app.
Qed.

(** What [copy] leaves of the destination: its first [len x] slots,
    the source, and the slots after the copy. *)
Lemma splice_at {A} (x old z src : list A) :
  List.length old = List.length src ->
  splice (x ++ old ++ z) (len x) (len (x ++ old ++ z)) src
  = (x ++ src ++ z)%list.
Proof.
  intros Hlen. unfold splice, len. cbv zeta. rewrite Nat2Z.id.
  rewrite !length_app.
  replace (Nat.min _ (List.length src)) with (List.length src) by lia.
  rewrite firstn_length_app, firstn_all. f_equal. f_equal.
  rewrite <- Hlen.
  replace (x ++ old ++ z)%list with ((x ++ old) ++ z)%list
    by (now rewrite <- app_assoc).
  rewrite <- length_app. apply skipn_length_app.
Qed.

Lemma resize_holds (l : List) (c : list NodeRef) (cap : Z) :
  spec.holds l c -> len c <= cap ->
  spec.holds (resize l cap) c
  /\ len (elements (resize l cap)) = cap.
Proof.
  intros (slack & Hels & Hsize) Hcap. unfold resize. cbn [elements size].
  rewrite Hels. pose proof (len_nonneg c) as Hc.
  assert (Hlc : List.length (map Some c) = List.length c) by apply length_map.
  split.
  - exists (firstn (Z.to_nat cap - List.length c) slack
            ++ repeat None (Z.to_nat cap - List.length (map Some c ++ slack)))%list.
    split; [|exact Hsize].
    rewrite firstn_app, Hlc, firstn_all2 by (unfold len in Hcap; lia).
    now rewrite <- app_assoc.
  - unfold len in *. rewrite length_app, repeat_length, length_firstn.
    rewrite length_app, Hlc. lia.
Qed.

Lemma shrink_holds (l : List) (c : list NodeRef) :
  spec.holds l c ->
  spec.holds (shrink l) c /\ len (elements (shrink l)) <= len (elements l).
Proof.
  intros H. unfold shrink. cbv zeta.
  destruct (size l <=? float32 (len (elements l)) / 4); [|split; [exact H | lia]].
  pose proof H as (slack & Hels & Hsize).
  destruct (resize_holds l c (size l) H) as [Hh Hlen]; [lia|].
  split; [exact Hh|]. rewrite Hlen, Hsize, Hels, len_app, len_map_Some.
  pose proof (len_nonneg slack). lia.
Qed.

Lemma Remove_holds (l : List) (a b : list NodeRef) (v : NodeRef) :
  spec.holds l (a ++ v :: b) ->
  spec.holds (Remove l (len a)) (a ++ b)
  /\ len (elements (Remove l (len a))) <= len (elements l).
Proof.
  intros (slack & Hels & Hsize).
  pose proof (len_nonneg a) as Ha. pose proof (len_nonneg b) as Hb.
  rewrite len_app, len_cons in Hsize.
  unfold Remove, withinRange. rewrite Hsize.
  replace (len a >=? 0) with true by (symmetry; apply Z.geb_le; lia).
  replace (len a <? len a + (1 + len b)) with true
    by (symmetry; apply Z.ltb_lt; lia).
  cbn [andb negb]. cbv zeta.
  assert (Hstore : setAt (elements l) (Z.to_nat (len a)) None
                   = (map Some a ++ (None :: map Some b) ++ slack)%list).
  { rewrite Hels, map_app. cbn [map]. rewrite <- app_assoc. cbn [app].
    unfold len. rewrite Nat2Z.id, <- (length_map Some a). apply setAt_middle. }
  rewrite Hstore.
  assert (Hsrc : sub (map Some a ++ (None :: map Some b) ++ slack)
                     (len a + 1) (len a + (1 + len b))
                 = map Some b).
  { replace (map Some a ++ (None :: map Some b) ++ slack)%list
      with ((map Some a ++ [None]) ++ map Some b ++ slack)%list
      by (rewrite <- !app_assoc; reflexivity).
    replace (len a + 1) with (len (map Some a ++ [None])) by lens.
    replace (len a + (1 + len b))
      with (len (map Some a ++ [None]) + len (map Some b)) by lens.
    apply sub_middle. }
  rewrite Hsrc.
  assert (Hcopy : exists stale,
             splice (map Some a ++ (None :: map Some b) ++ slack) (len a)
                    (len (map Some a ++ (None :: map Some b) ++ slack))
                    (map Some b)
             = (map Some (a ++ b) ++ stale :: slack)%list).
  { exists (last (None :: map Some b) None).
    assert (Hsplit : (None :: map Some b)
                     = (removelast (None :: map Some b)
                        ++ [last (None :: map Some b) None])%list)
      by (apply app_removelast_last; discriminate).
    rewrite Hsplit at 1 2.
    rewrite <- (len_map_Some a).
    replace (map Some a
             ++ (removelast (None :: map Some b)
                 ++ [last (None :: map Some b) None]) ++ slack)%list
      with (map Some a
            ++ removelast (None :: map Some b)
            ++ (last (None :: map Some b) None :: slack))%list
      by (rewrite <- !app_assoc; reflexivity).
    rewrite splice_at.
    - rewrite map_app, <- app_assoc. reflexivity.
    - apply (f_equal (@List.length _)) in Hsplit.
      rewrite length_app in Hsplit. cbn [List.length] in Hsplit. lia. }
  destruct Hcopy as [stale Hcopy]. rewrite Hcopy.
  set (l' := mkList (map Some (a ++ b) ++ stale :: slack)
                    (len a + (1 + len b) - 1)).
  assert (Hl' : spec.holds l' (a ++ b)).
  { exists (stale :: slack). split; [reflexivity|].
    unfold l'. cbn [size]. rewrite len_app. lia. }
  destruct (shrink_holds l' (a ++ b) Hl') as [Hh Hlen].
  split; [exact Hh|].
  etransitivity; [exact Hlen|].
  unfold l'. cbn [elements]. rewrite Hels. lens.
Qed.

Lemma float32_small (n : Z) : n < 2 ^ 24 -> float32 n = n.
Proof.
  intros H. unfold float32. apply Z.ltb_lt in H. rewrite H. reflexivity.
Qed.

(** After [growBy(1)] the list holds what it held, with a free slot
    after its elements. *)
Lemma growBy_holds (l : List) (c : list NodeRef) :
  spec.holds l c -> spec.small l ->
  exists free slack,
    elements (growBy l 1) = (map Some c ++ free :: slack)%list
    /\ size (growBy l 1) = len c
    /\ len (elements (growBy l 1)) <= 2 * (len (elements l) + 1).
Proof.
  intros H Hsmall. pose proof H as (slack & Hels & Hsize).
  unfold spec.small in Hsmall. pose proof (len_nonneg (elements l)) as Hcap.
  pose proof (len_nonneg c) as Hc.
  assert (Hfit : len c <= len (elements l)) by (rewrite Hels; lens).
  unfold growBy. cbv zeta.
  destruct (Z.geb_spec (size l + 1) (len (elements l))) as [Hfull|Hfree].
  - rewrite (float32_small _ Hsmall).
    destruct (resize_holds l c (2 * (len (elements l) + 1)) H)
      as [(slack' & Hels' & Hsize') Hlen]; [lia|].
    destruct slack' as [|free slack'].
    + exfalso. rewrite Hels', app_nil_r, len_map_Some in Hlen. lia.
    + exists free, slack'. split; [exact Hels'|]. split; [exact Hsize' | lia].
  - destruct slack as [|free slack].
    + exfalso. rewrite Hels, app_nil_r, len_map_Some in Hfree. lia.
    + exists free, slack. split; [exact Hels|]. split; [exact Hsize | lia].
Qed.

Lemma Add_holds (l : List) (c : list NodeRef) (v : NodeRef) :
  spec.holds l c -> spec.small l ->
  spec.holds (Add l v) (c ++ [v])
  /\ len (elements (Add l v)) <= 2 * (len (elements l) + 1).
Proof.
  intros H Hsmall.
  destruct (growBy_holds l c H Hsmall) as (free & slack & Hels & Hsize & Hlen).
  unfold Add. cbv zeta. rewrite Hels, Hsize. cbn [elements size].
  replace (Z.to_nat (len c)) with (List.length (map Some c))
    by (unfold len; rewrite length_map; lia).
  rewrite setAt_middle.
  split.
  - exists slack. split; [|lens].
    rewrite map_app, <- app_assoc. reflexivity.
  - rewrite Hels in Hlen. revert Hlen. lens.
Qed.

Lemma Insert_holds (l : List) (a b : list NodeRef) (v : NodeRef) :
  spec.holds l (a ++ b) -> spec.small l ->
  spec.holds (Insert l (len a) v) (a ++ v :: b).
Proof.
  intros H Hsmall. pose proof H as (slack0 & Hels0 & Hsize0).
  pose proof (len_nonneg a) as Ha. pose proof (len_nonneg b) as Hb.
  rewrite len_app in Hsize0.
  unfold Insert, withinRange. rewrite Hsize0.
  replace (len a >=? 0) with true by (symmetry; apply Z.geb_le; lia).
  destruct b as [|x b].
  - change (len (@nil NodeRef)) with 0.
    rewrite Z.add_0_r, Z.ltb_irrefl, Z.eqb_refl.
    cbn [andb negb]. rewrite app_nil_r in H.
    apply (Add_holds l a v H Hsmall).
  - replace (len a <? len a + len (x :: b)) with true
      by (symmetry; apply Z.ltb_lt; lens).
    cbn [andb negb]. cbv zeta.
    destruct (growBy_holds l (a ++ x :: b) H Hsmall)
      as (free & slack & Hels & Hsize & _).
    rewrite Hels, Hsize.
    assert (Hsrc : sub (map Some (a ++ x :: b) ++ free :: slack) (len a)
                       (len (a ++ x :: b) + 1 - 1)
                   = map Some (x :: b)).
    { rewrite map_app, <- app_assoc.
      replace (len (a ++ x :: b) + 1 - 1)
        with (len (map Some a) + len (map Some (x :: b))) by lens.
      rewrite <- (len_map_Some a). apply sub_middle. }
    rewrite Hsrc.
    assert (Hshift :
              splice (map Some (a ++ x :: b) ++ free :: slack) (len a + 1)
                     (len (map Some (a ++ x :: b) ++ free :: slack))
                     (map Some (x :: b))
              = (map Some a ++ [Some x] ++ map Some (x :: b) ++ slack)%list).
    { replace (map Some (a ++ x :: b) ++ free :: slack)%list
        with ((map Some a ++ [Some x]) ++ (map Some b ++ [free]) ++ slack)%list
        by (rewrite map_app; cbn [map]; rewrite <- !app_assoc; reflexivity).
      replace (len a + 1) with (len (map Some a ++ [Some x])) by lens.
      rewrite splice_at by (rewrite length_app; cbn [List.length map];
                            rewrite !length_map; lia).
      rewrite <- !app_assoc. reflexivity. }
    rewrite Hshift.
    assert (Hput :
              splice (map Some a ++ [Some x] ++ map Some (x :: b) ++ slack)
                     (len a)
                     (len (map Some a ++ [Some x] ++ map Some (x :: b) ++ slack))
                     [Some v]
              = (map Some a ++ [Some v] ++ map Some (x :: b) ++ slack)%list).
    { rewrite <- (len_map_Some a). apply splice_at. reflexivity. }
    rewrite Hput.
    exists slack. cbn [elements size]. split; [|lens].
    rewrite map_app, <- app_assoc. reflexivity.
Qed.

Lemma holds_Values (l : List) (c : list NodeRef) :
  spec.holds l c -> Values l = map Some c.
Proof.
  intros (slack & Hels & Hsize). unfold Values. rewrite Hels, Hsize.
  replace (map Some c ++ slack)%list with ([] ++ map Some c ++ slack)%list
    by reflexivity.
  change 0 with (len (@nil (option NodeRef))) at 1.
  replace (len c) with (len (@nil (option NodeRef)) + len (map Some c)) by lens.
  apply sub_middle.
Qed.

Lemma remove_absent (v : NodeRef) (l : list NodeRef) :
  ~ In v l -> remove Z.eq_dec v l = l.
Proof. intros H. now apply notin_remove. Qed.

Lemma remove_middle (a b : list NodeRef) (v : NodeRef) :
  ~ In v a -> ~ In v b -> remove Z.eq_dec v (a ++ v :: b) = (a ++ b)%list.
Proof.
  intros Ha Hb. rewrite remove_app. cbn [remove].
  destruct (Z.eq_dec v v); [|congruence].
  now rewrite !remove_absent.
Qed.

Lemma NoDup_split (a b : list NodeRef) (v : NodeRef) :
  NoDup (a ++ v :: b) -> ~ In v a /\ ~ In v b.
Proof.
  intros H. apply NoDup_remove_2 in H. split; intros Hin; apply H, in_or_app; auto.
Qed.

Lemma small_le (l l' : List) :
  spec.small l -> len (elements l') <= len (elements l) -> spec.small l'.
Proof. unfold spec.small. lia. Qed.

(** X20. [MoveBefore] and [MoveToLast] move one child and keep the
    others in their order.  On a list that holds distinct children,
    the node and the target among them, [MoveBefore] returns no error
    and leaves the node immediately before the target, the children
    without the node being what they were; [MoveToLast] leaves the
    node last, after the other children in their order.  A node that
    is in no slot of the backing slice gives ErrInvalidIndex, and the
    list is left as it is.  But [IndexOf] ranges over the slots beyond
    the size as well, where [Remove] leaves a copy of the last
    element behind: after the children a, b, c, d were added and a
    and then d were removed, d is no child, yet [IndexOf] finds it in
    the slot 3, so that [MoveToLast] returns no error and makes d a
    child again. *)
Theorem MoveBefore_moves (childs : List) (children : list NodeRef)
        (node target : NodeRef) :
  (spec.holds childs children -> spec.small childs -> NoDup children ->
   In node children -> In target children -> node <> target ->
   exists childs' l1 l2,
     MoveBefore childs node target = (childs', None)
     /\ spec.holds childs' (l1 ++ node :: target :: l2)
     /\ Values childs' = map Some (l1 ++ node :: target :: l2)
     /\ remove Z.eq_dec node children = (l1 ++ target :: l2)%list)
  /\ (spec.holds childs children -> spec.small childs -> NoDup children ->
      In node children ->
      exists childs',
        MoveToLast childs node = (childs', None)
        /\ spec.holds childs' (remove Z.eq_dec node children ++ [node])
        /\ Values childs'
           = map Some (remove Z.eq_dec node children ++ [node]))
  /\ (~ In (Some node) (elements childs)
      \/ ~ In (Some target) (elements childs) ->
      MoveBefore childs node target = (childs, Some ErrInvalidIndex))
  /\ (~ In (Some node) (elements childs) ->
      MoveToLast childs node = (childs, Some ErrInvalidIndex)
      /\ RemoveChild childs node = (childs, Some ErrInvalidIndex))
  /\ (forall a b c d,
        a <> b -> a <> c -> a <> d -> b <> d -> c <> d ->
        exists gone back,
          RemoveChild
            (fst (RemoveChild (Add (Add (Add (Add New a) b) c) d) a)) d
          = (gone, None)
          /\ Values gone = [Some b; Some c]
          /\ IndexOf gone d = 3
          /\ MoveToLast gone d = (back, None)
          /\ Values back = [Some b; Some c; Some d]).
Proof.
  split; [|split; [|split; [|split]]].
  - intros Hholds Hsmall Hnd Hnode Htarget Hne.
    apply in_split in Hnode as (a & b & ->).
    destruct (NoDup_split a b node Hnd) as [Ha Hb].
    unfold MoveBefore. cbv zeta.
    rewrite (IndexOf_member childs a b node Hholds Ha).
    pose proof (len_nonneg a) as Hla.
    destruct (Z.ltb_spec (len a) 0); [lia|].
    rewrite (remove_middle a b node Ha Hb).
    destruct (Remove_holds childs a b node Hholds) as [Hrem Hcap].
    pose proof (small_le childs _ Hsmall Hcap) as Hsmall'.
    apply in_app_or in Htarget as [Hin | [Heq | Hin]]; [|congruence|].
    + apply in_split in Hin as (a1 & a2 & ->).
      assert (Ht1 : ~ In target a1).
      { apply NoDup_app_remove_r in Hnd. now apply NoDup_split in Hnd. }
      assert (Htarget : IndexOf childs target = len a1).
      { apply (IndexOf_member childs a1 (a2 ++ node :: b) target);
          [|exact Ht1].
        revert Hholds. rewrite <- app_assoc. cbn [app]. auto. }
      rewrite Htarget.
      pose proof (len_nonneg a1) as Hl1. pose proof (len_nonneg a2) as Hl2.
      assert (Hlen : len (a1 ++ target :: a2) = len a1 + 1 + len a2) by lens.
      destruct (Z.ltb_spec (len a1) 0); [lia|].
      destruct (Z.eqb_spec (len (a1 ++ target :: a2)) (len a1)); [lia|].
      cbn [negb].
      destruct (Z.ltb_spec (len (a1 ++ target :: a2)) (len a1)); [lia|].
      assert (Hins : spec.holds
                       (Insert (Remove childs (len (a1 ++ target :: a2)))
                               (len a1) node)
                       (a1 ++ node :: target :: a2 ++ b)).
      { apply (Insert_holds _ a1 (target :: a2 ++ b) node); [|exact Hsmall'].
        revert Hrem. rewrite <- app_assoc. cbn [app]. auto. }
      eexists _, a1, (a2 ++ b)%list. split; [reflexivity|].
      split; [exact Hins|]. split; [apply holds_Values, Hins|].
      now rewrite <- app_assoc.
    + apply in_split in Hin as (b1 & b2 & ->).
      assert (Ht1 : ~ In target (a ++ node :: b1)).
      { replace (a ++ node :: b1 ++ target :: b2)%list
          with ((a ++ node :: b1) ++ target :: b2)%list in Hnd
          by (now rewrite <- app_assoc).
        now apply NoDup_split in Hnd. }
      assert (Htarget : IndexOf childs target = len (a ++ node :: b1)).
      { apply (IndexOf_member childs (a ++ node :: b1) b2 target);
          [|exact Ht1].
        revert Hholds. rewrite <- app_assoc. cbn [app]. auto. }
      rewrite Htarget.
      assert (Hlen : len (a ++ node :: b1) = len a + 1 + len b1) by lens.
      pose proof (len_nonneg b1) as Hl1.
      destruct (Z.ltb_spec (len (a ++ node :: b1)) 0); [lia|].
      destruct (Z.eqb_spec (len a) (len (a ++ node :: b1))); [lia|].
      cbn [negb].
      destruct (Z.ltb_spec (len a) (len (a ++ node :: b1))); [|lia].
      assert (Hlen2 : len (a ++ node :: b1) - 1 = len (a ++ b1)) by lens.
      rewrite Hlen2.
      assert (Hins : spec.holds
                       (Insert (Remove childs (len a)) (len (a ++ b1)) node)
                       ((a ++ b1) ++ node :: target :: b2)).
      { apply (Insert_holds _ (a ++ b1) (target :: b2) node); [|exact Hsmall'].
        revert Hrem. rewrite <- app_assoc. auto. }
      eexists _, (a ++ b1)%list, b2. split; [reflexivity|].
      split; [exact Hins|]. split; [apply holds_Values, Hins|].
      now rewrite <- !app_assoc.
  - intros Hholds Hsmall Hnd Hnode. apply in_split in Hnode as (a & b & ->).
    destruct (NoDup_split a b node Hnd) as [Ha Hb].
    unfold MoveToLast. cbv zeta.
    rewrite (IndexOf_member childs a b node Hholds Ha).
    pose proof (len_nonneg a) as Hla.
    destruct (Z.ltb_spec (len a) 0); [lia|].
    rewrite (remove_middle a b node Ha Hb).
    destruct (Remove_holds childs a b node Hholds) as [Hrem Hcap].
    pose proof (small_le childs _ Hsmall Hcap) as Hsmall'.
    destruct (Add_holds _ (a ++ b) node Hrem Hsmall') as [Hadd _].
    eexists. split; [reflexivity|]. split; [exact Hadd|].
    apply holds_Values, Hadd.
  - assert (Habsent : forall v, ~ In (Some v) (elements childs) ->
                                IndexOf childs v = -1).
    { intros v Hv. unfold IndexOf. destruct (size childs =? 0); [reflexivity|].
      apply IndexOf_from_absent, Hv. }
    intros [Hnode | Htarget]; unfold MoveBefore; cbv zeta.
    + rewrite (Habsent node Hnode). reflexivity.
    + destruct (IndexOf childs node <? 0); [reflexivity|].
      rewrite (Habsent target Htarget). reflexivity.
  - intros Hnode.
    assert (Habsent : IndexOf childs node = -1).
    { unfold IndexOf. destruct (size childs =? 0); [reflexivity|].
      apply IndexOf_from_absent, Hnode. }
    unfold MoveToLast, RemoveChild. cbv zeta. rewrite Habsent.
    split; reflexivity.
  - intros a b c d Hab Hac Had Hbd Hcd.
    apply Z.eqb_neq in Hab, Hac, Had, Hbd, Hcd.
    assert (Hfull : Add (Add (Add (Add New a) b) c) d
                    = mkList [Some a; Some b; Some c; Some d; None; None] 4)
      by reflexivity.
    rewrite Hfull.
    assert (H1 : RemoveChild
                   (mkList [Some a; Some b; Some c; Some d; None; None] 4) a
                 = (mkList [Some b; Some c; Some d; Some d; None; None] 3, None)).
    { unfold RemoveChild, IndexOf. cbn [size elements IndexOf_from Z.eqb].
      rewrite Z.eqb_refl. reflexivity. }
    rewrite H1. cbn [fst].
    assert (H2 : RemoveChild
                   (mkList [Some b; Some c; Some d; Some d; None; None] 3) d
                 = (mkList [Some b; Some c; None; Some d; None; None] 2, None)).
    { unfold RemoveChild, IndexOf. cbn [size elements IndexOf_from Z.eqb].
      rewrite Hbd, Hcd, Z.eqb_refl. reflexivity. }
    assert (H3 : IndexOf (mkList [Some b; Some c; None; Some d; None; None] 2) d
                 = 3).
    { unfold IndexOf. cbn [size elements IndexOf_from Z.eqb].
      rewrite Hbd, Hcd, Z.eqb_refl. reflexivity. }
    exists (mkList [Some b; Some c; None; Some d; None; None] 2),
           (mkList [Some b; Some c; Some d; Some d; None; None] 3).
    split; [exact H2|]. split; [reflexivity|]. split; [exact H3|].
    split; [|reflexivity].
    unfold MoveToLast. cbv zeta. rewrite H3. reflexivity.
Qed.

End Children.

Lemma MoveBefore_moves_witness :
  exists childs' l1 l2,
    server.MoveBefore
      (server.mkList [Some 10; Some 20; Some 30; Some 40; None; None] 4) 40 20
    = (childs', None)
    /\ spec.holds childs' (l1 ++ 40 :: 20 :: l2)
    /\ server.Values childs' = map Some (l1 ++ 40 :: 20 :: l2)
    /\ remove Z.eq_dec 40 [10; 20; 30; 40] = (l1 ++ 20 :: l2)%list.
Proof.
  destruct (MoveBefore_moves
              (server.mkList [Some 10; Some 20; Some 30; Some 40; None; None] 4)
              [10; 20; 30; 40] 40 20) as [H _].
  apply H.
  - exists [None; None]. split; reflexivity.
  - reflexivity.
  - repeat constructor; cbn; intuition lia.
  - cbn; auto 6.
  - cbn; auto.
  - discriminate.
Defined.


Section ChildByPath.

Import server.

Lemma SplitN2_last (name : string) :
  strings.hasByte "." name = false -> SplitN2 name = (name, None).
Proof.
  intros H. unfold SplitN2, PathSeparator. cbv zeta.
  change "."%string with (String "." EmptyString).
  now rewrite (Index_absent "." name H).
Qed.

Lemma SplitN2_first (name rest : string) :
  strings.hasByte "." name = false ->
  SplitN2 (name ++ PathSeparator ++ rest) = (name, Some rest).
Proof.
  intros H. unfold SplitN2, PathSeparator. cbv zeta.
  change ("." ++ rest) with (String "." rest).
  destruct (cut_at "." "" name rest H) as (Hi & Hs1 & Hs2).
  cbn [append] in Hi, Hs1, Hs2. change (strings.len "") with 0 in *.
  rewrite Z.add_0_l in *.
  change (String "." EmptyString) with "."%string in Hi. rewrite Hi.
  pose proof (len_nonneg_string name).
  destruct (Z.eqb_spec (strings.len name) (-1)); [lia|].
  now rewrite Hs1, Hs2.
Qed.

Lemma len_positive (name rest : string) :
  name <> "" -> (strings.len (name ++ rest) >? 0) = true.
Proof.
  intros H. apply Z.gtb_lt. unfold strings.len. rewrite length_append.
  destruct name; [contradiction|]. cbn [String.length]. lia.
Qed.

Lemma append_empty (s : string) : s ++ "" = s.
Proof. induction s as [|c s IH]; cbn [append]; [reflexivity | now rewrite IH]. Qed.

(** X21. [GetChildByPath] follows a dotted path name by name: for a
    path of names that are not empty and have no dot, it returns the
    node reached by taking at each level the first child of that
    name, and nil as soon as a level has no child of the name.  The
    empty path gives nil. *)
Theorem GetChildByPath_descends (names : list string) :
  (names <> [] -> Forall spec.segment names ->
   forall n, GetChildByPath n (spec.dotted names) = spec.descend n names)
  /\ (forall n, GetChildByPath n "" = None).
Proof.
  split; [|intros [name childs]; reflexivity].
  intros Hne Hall. induction Hall as [|name rest [Hname Hdot] Hrest IH];
    [contradiction|].
  intros [self childs]. destruct rest as [|next rest].
  - cbn [spec.dotted spec.descend GetChildByPath ChildsOf].
    rewrite <- (append_empty name) at 1. rewrite (len_positive name "" Hname).
    rewrite (SplitN2_last name Hdot).
    destruct (find _ childs); reflexivity.
  - change (spec.dotted (name :: next :: rest))
      with (name ++ PathSeparator ++ spec.dotted (next :: rest)).
    cbn [GetChildByPath spec.descend ChildsOf].
    rewrite (len_positive name _ Hname), (SplitN2_first name _ Hdot).
    specialize (IH ltac:(discriminate)).
    induction childs as [|child childs IHc]; cbn [find]; [reflexivity|].
    destruct (String.eqb (NameOf child) name); [apply IH | exact IHc].
Qed.

End ChildByPath.

Lemma GetChildByPath_descends_witness :
  server.GetChildByPath
    (server.TreeNode "Root"
       [server.TreeNode "Connectivity"
          [server.TreeNode "Channel1" [server.TreeNode "Device1" []]]])
    "Connectivity.Channel1.Device1"
  = Some (server.TreeNode "Device1" []).
Proof.
  destruct (GetChildByPath_descends ["Connectivity"; "Channel1"; "Device1"])
    as [H _].
  rewrite (H ltac:(discriminate)).
  - reflexivity.
  - repeat constructor; discriminate.
Defined.

(* ================================================================= *)
(** * Node types *)

(** X22. [NodeType.IsCategory] answers true for the category
    Connectivity only: for the categories Data Loggers and Alarms, as
    for every other node type, it answers false.  And
    [NodeType.Description] is the name [NodeType.String] gives for
    every node type but Tag, which it describes as "Unknown". *)
Theorem IsCategory_Connectivity_only (n : server.NodeType) :
  (server.NodeType_IsCategory n = true
   <-> n = server.NodeTypeCategoryConnectivity)
  /\ server.NodeType_IsCategory server.NodeTypeCategoryDataLogger = false
  /\ server.NodeType_IsCategory server.NodeTypeCategoryAlarms = false
  /\ (n <> server.NodeTypeTag ->
      server.NodeType_Description n = server.NodeType_String n)
  /\ server.NodeType_Description server.NodeTypeTag = "Unknown"
  /\ server.NodeType_String server.NodeTypeTag = "Tag".
Proof.
  split; [|split; [reflexivity | split; [reflexivity|]]].
  - unfold server.NodeType_IsCategory. split.
    + destruct (n =? _); [discriminate|]. destruct (n =? _); [discriminate|].
      destruct (Z.eqb_spec n server.NodeTypeCategoryConnectivity);
        [trivial | discriminate].
    + intros ->. reflexivity.
  - split; [|split; reflexivity].
    intros Htag. unfold server.NodeType_Description, server.NodeType_String.
    repeat match goal with
           | |- context [n =? ?c] =>
             destruct (Z.eqb_spec n c); try reflexivity; try contradiction
           end.
Qed.

Lemma IsCategory_Connectivity_only_witness :
  server.NodeType_Description server.NodeTypeGroup
  = server.NodeType_String server.NodeTypeGroup.
Proof.
  destruct (IsCategory_Connectivity_only server.NodeTypeGroup)
    as (_ & _ & _ & H & _).
  apply H. discriminate.
Defined.


(* ================================================================= *)
(** ** Access levels in words *)

Section AccessLevelWords.

Lemma land_pow2_testbit (x k : Z) :
  0 <= k -> (Z.land x (2 ^ k) =? 2 ^ k) = Z.testbit x k.
Proof.
  intros Hk.
  destruct (Z.testbit x k) eqn:Hb.
  - apply Z.eqb_eq. apply Z.bits_inj'. intros m Hm.
    rewrite Z.land_spec.
    destruct (Z.eq_dec m k) as [->|Hne].
    + rewrite Hb, Z.pow2_bits_true by lia. reflexivity.
    + rewrite Z.pow2_bits_false by lia. apply andb_false_r.
  - apply Z.eqb_neq. intros H.
    assert (Ht : Z.testbit (Z.land x (2 ^ k)) k = true)
      by (rewrite H; apply Z.pow2_bits_true; lia).
    rewrite Z.land_spec, Hb in Ht. discriminate.
Qed.

(** X23. [GetAccessLevelString] begins every answer with the word
    None, because the test for the level None (the number 0) holds of
    every access level; the words of the bits that are set follow it
    in the order of the bits, separated by bars.  So the answer is
    never empty, and a level that allows reading and writing prints
    as None|Read|Write. *)
Theorem GetAccessLevelString_None_first (level : Z) :
  server.GetAccessLevelString level
  = strings.Join ("None" :: spec.wordsOf level) "|"
  /\ String.prefix "None" (server.GetAccessLevelString level) = true
  /\ (server.GetAccessLevelString level = "None" <-> spec.wordsOf level = []).
Proof.
  assert (Heq : server.GetAccessLevelString level
                = strings.Join ("None" :: spec.wordsOf level) "|").
  { unfold server.GetAccessLevelString, spec.wordsOf, spec.levelWords.
    unfold ua.AccessLevelsNone, ua.AccessLevelsCurrentRead,
      ua.AccessLevelsCurrentWrite, ua.AccessLevelsHistoryRead,
      ua.AccessLevelsHistoryWrite, ua.AccessLevelsSemanticChange,
      ua.AccessLevelsStatusWrite, ua.AccessLevelsTimestampWrite.
    rewrite Z.land_0_r. cbn [Z.eqb filter fst snd map].
    rewrite <- (land_pow2_testbit level 0), <- (land_pow2_testbit level 1),
      <- (land_pow2_testbit level 2), <- (land_pow2_testbit level 3),
      <- (land_pow2_testbit level 4), <- (land_pow2_testbit level 5),
      <- (land_pow2_testbit level 6) by lia.
    change (2 ^ 0) with 1. change (2 ^ 1) with 2. change (2 ^ 2) with 4.
    change (2 ^ 3) with 8. change (2 ^ 4) with 16. change (2 ^ 5) with 32.
    change (2 ^ 6) with 64.
    destruct (Z.land level 1 =? 1), (Z.land level 2 =? 2),
      (Z.land level 4 =? 4), (Z.land level 8 =? 8), (Z.land level 16 =? 16),
      (Z.land level 32 =? 32),
      (Z.land level 64 =? 64); reflexivity. }
  rewrite Heq. repeat split.
  - destruct (spec.wordsOf level); reflexivity.
  - destruct (spec.wordsOf level); [reflexivity | discriminate].
  - intros ->. reflexivity.
Qed.

End AccessLevelWords.


(* ================================================================= *)
(** ** The properties of an ObjectNode *)

Section PropertiesOfANode.

Variable CheckPropertyValue : string -> ua.Variant -> bool * option server.error.

(** X24. [AddProperty] never replaces a property: under a name that
    is taken it returns ErrFieldExisted, and whenever it returns an
    error the properties are as before.  When it returns no error the
    name was free, [GetProperty] and [MustGetProperty] find under it
    the node with the ObjectNode as its owner, and every other name
    holds what it held.  The property named _Value is added without
    its value being checked. *)
Theorem AddProperty_then_GetProperty (self : server.NodeRef)
        (properties properties' : server.PropertyMap)
        (node : server.PropertyNode) (err : option server.error)
        (nodeName nodeID : string) :
  server.AddProperty CheckPropertyValue self properties (Some node)
  = ua.Returns (properties', err) ->
  let name := server.prop_Name node in
  let added := server.mkPropertyNode name (server.prop_Value node) (Some self) in
  match err with
  | Some _ => properties' = properties
  | None =>
      properties name = None
      /\ server.GetProperty properties' name = (Some added, true)
      /\ server.MustGetProperty nodeName nodeID properties' name
         = ua.Returns added
      /\ forall other, other <> name ->
           server.GetProperty properties' other
           = server.GetProperty properties other
  end
  /\ (properties name <> None -> err = Some server.ErrFieldExisted)
  /\ (properties name = None -> name = server.PropertyNameValue -> err = None).
Proof.
  intros H name added. subst name added.
  unfold server.AddProperty in H.
  destruct (properties (server.prop_Name node)) as [held|] eqn:Hheld.
  { injection H as <- <-. repeat split; discriminate. }
  assert (Hfound : forall k,
             server.setProperty properties (server.prop_Name node)
               (Some (server.mkPropertyNode (server.prop_Name node)
                        (server.prop_Value node) (Some self))) k
             = if String.eqb k (server.prop_Name node)
               then Some (Some (server.mkPropertyNode (server.prop_Name node)
                                  (server.prop_Value node) (Some self)))
               else properties k) by reflexivity.
  assert (Hadded :
            properties' = server.setProperty properties (server.prop_Name node)
               (Some (server.mkPropertyNode (server.prop_Name node)
                        (server.prop_Value node) (Some self))) ->
            None = err ->
            match err with
            | Some _ => properties' = properties
            | None =>
                None = (None : option (option server.PropertyNode))
                /\ server.GetProperty properties' (server.prop_Name node)
                   = (Some (server.mkPropertyNode (server.prop_Name node)
                              (server.prop_Value node) (Some self)), true)
                /\ server.MustGetProperty nodeName nodeID properties'
                     (server.prop_Name node)
                   = ua.Returns (server.mkPropertyNode (server.prop_Name node)
                                   (server.prop_Value node) (Some self))
                /\ forall other, other <> server.prop_Name node ->
                     server.GetProperty properties' other
                     = server.GetProperty properties other
            end).
  { intros -> <-. split; [reflexivity|].
    unfold server.MustGetProperty, server.GetProperty.
    rewrite Hfound, String.eqb_refl. repeat split.
    intros other Hother. rewrite Hfound.
    apply String.eqb_neq in Hother. rewrite Hother. reflexivity. }
  destruct (String.eqb (server.prop_Name node) server.PropertyNameValue) eqn:Hv;
    cbn [negb] in H.
  - injection H as H1 H2. split; [apply Hadded; congruence|].
    split; [congruence | intros _ _; congruence].
  - destruct (CheckPropertyValue (server.prop_Name node) (server.prop_Value node))
      as [valid fe].
    split; [|split; [congruence|]].
    + destruct valid; cbn [negb] in H.
      * destruct fe; injection H as H1 H2;
          [subst; reflexivity | apply Hadded; congruence].
      * injection H as <- <-. reflexivity.
    + intros _ Hname. apply String.eqb_neq in Hv. contradiction.
Qed.

End PropertiesOfANode.


Lemma AddProperty_then_GetProperty_witness :
  server.MustGetProperty "Pump" "ns=2;s=Pump"
    (server.setProperty example.noProperties "Speed"
       (Some (server.mkPropertyNode "Speed" (ua.int32_ 7) (Some 1))))
    "Speed"
  = ua.Returns (server.mkPropertyNode "Speed" (ua.int32_ 7) (Some 1)).
Proof.
  destruct (AddProperty_then_GetProperty example.acceptAll 1
              example.noProperties
              (server.setProperty example.noProperties "Speed"
                 (Some (server.mkPropertyNode "Speed" (ua.int32_ 7) (Some 1))))
              example.speed None "Pump" "ns=2;s=Pump" eq_refl)
    as [(_ & _ & H & _) _].
  exact H.
Defined.


(* ================================================================= *)
(** ** Browse paths *)

Section BrowsePathFacts.

Variable FindNode : option ua.NodeID -> option server.Node.
Variable IsSubtype : option ua.NodeID -> option ua.NodeID -> bool.
Variable NamespaceUris : list string.
Variable GetReferences : server.Node -> list ua.Reference.
Variable GetBrowseName : server.Node -> ua.QualifiedName.
Variable GetNodeID : server.Node -> option ua.NodeID.

Lemma QualifiedName_eqb_eq (a b : ua.QualifiedName) :
  ua.QualifiedName_eqb a b = true <-> a = b.
Proof.
  destruct a as [na sa], b as [nb sb]. unfold ua.QualifiedName_eqb.
  cbn [ua.QualifiedName_NamespaceIndex ua.QualifiedName_Name].
  rewrite andb_true_iff, Z.eqb_eq, String.eqb_eq.
  split; [intros [-> ->]; reflexivity | intros H; injection H; auto].
Qed.

(** The loop of [target] keeps, in the order of the references, the
    targets of the references that fit. *)
Lemma targetLoop_In (element : ua.RelativePathElement)
      (refs : list ua.Reference) (targets : list ua.ExpandedNodeID)
      (t : ua.ExpandedNodeID) :
  In t (server.targetLoop FindNode IsSubtype NamespaceUris GetBrowseName
          element refs targets)
  <-> In t targets
      \/ exists r named,
           In r refs
           /\ ua.ref_TargetID r = t
           /\ ua.ref_IsInverse r = ua.rpe_IsInverse element
           /\ (ua.rpe_ReferenceTypeID element = None
               \/ ua.NodeID_same (ua.ref_ReferenceTypeID r)
                                 (ua.rpe_ReferenceTypeID element) = true
               \/ (ua.rpe_IncludeSubtypes element = true
                   /\ IsSubtype (ua.ref_ReferenceTypeID r)
                                (ua.rpe_ReferenceTypeID element) = true))
           /\ FindNode (ua.ToNodeID t NamespaceUris) = Some named
           /\ GetBrowseName named = ua.rpe_TargetName element.
Proof.
  revert targets.
  induction refs as [|r rest IH]; intros targets; cbn [server.targetLoop].
  { split; [auto | intros [H | (r & named & [] & _)]; exact H]. }
  assert (Hskip :
            ~ (ua.ref_IsInverse r = ua.rpe_IsInverse element
               /\ (ua.rpe_ReferenceTypeID element = None
                   \/ ua.NodeID_same (ua.ref_ReferenceTypeID r)
                                     (ua.rpe_ReferenceTypeID element) = true
                   \/ (ua.rpe_IncludeSubtypes element = true
                       /\ IsSubtype (ua.ref_ReferenceTypeID r)
                                    (ua.rpe_ReferenceTypeID element) = true))
               /\ exists named,
                   FindNode (ua.ToNodeID (ua.ref_TargetID r) NamespaceUris)
                   = Some named
                   /\ GetBrowseName named = ua.rpe_TargetName element) ->
            (In t (server.targetLoop FindNode IsSubtype NamespaceUris
                     GetBrowseName element rest targets)
             <-> In t targets
                 \/ exists r0 named,
                      In r0 (r :: rest)
                      /\ ua.ref_TargetID r0 = t
                      /\ ua.ref_IsInverse r0 = ua.rpe_IsInverse element
                      /\ (ua.rpe_ReferenceTypeID element = None
                          \/ ua.NodeID_same (ua.ref_ReferenceTypeID r0)
                                            (ua.rpe_ReferenceTypeID element) = true
                          \/ (ua.rpe_IncludeSubtypes element = true
                              /\ IsSubtype (ua.ref_ReferenceTypeID r0)
                                           (ua.rpe_ReferenceTypeID element) = true))
                      /\ FindNode (ua.ToNodeID t NamespaceUris) = Some named
                      /\ GetBrowseName named = ua.rpe_TargetName element)).
  { intros Hno. rewrite IH. split.
    - intros [H | (r0 & named & Hin & Hrest)]; [left; exact H|].
      right. exists r0, named. split; [right; exact Hin | exact Hrest].
    - intros [H | (r0 & named & [<- | Hin] & Ht & Hinv & Hty & Hf & Hn)];
        [left; exact H | | right; exists r0, named; auto 10].
      exfalso. apply Hno. split; [exact Hinv|]. split; [exact Hty|].
      exists named. rewrite Ht. auto. }
  destruct (Bool.eqb (ua.ref_IsInverse r) (ua.rpe_IsInverse element)) eqn:Hinv;
    cbn [negb].
  2:{ apply Hskip. intros (H & _). apply Bool.eqb_true_iff in H. congruence. }
  apply Bool.eqb_prop in Hinv.
  destruct (match ua.rpe_ReferenceTypeID element with
            | Some _ => false | None => true end
            || ua.NodeID_same (ua.ref_ReferenceTypeID r)
                              (ua.rpe_ReferenceTypeID element)
            || ua.rpe_IncludeSubtypes element
               && IsSubtype (ua.ref_ReferenceTypeID r)
                            (ua.rpe_ReferenceTypeID element)) eqn:Hty;
    cbn [negb].
  2:{ apply Hskip. intros (_ & H & _).
      apply orb_false_iff in Hty. destruct Hty as [Hty Hsub].
      apply orb_false_iff in Hty. destruct Hty as [Hnil Hsame].
      destruct H as [H | [H | [H1 H2]]].
      - rewrite H in Hnil. discriminate.
      - congruence.
      - rewrite H1, H2 in Hsub. discriminate. }
  assert (Hty' : ua.rpe_ReferenceTypeID element = None
                 \/ ua.NodeID_same (ua.ref_ReferenceTypeID r)
                                   (ua.rpe_ReferenceTypeID element) = true
                 \/ (ua.rpe_IncludeSubtypes element = true
                     /\ IsSubtype (ua.ref_ReferenceTypeID r)
                                  (ua.rpe_ReferenceTypeID element) = true)).
  { apply orb_true_iff in Hty. destruct Hty as [Hty | Hsub].
    - apply orb_true_iff in Hty. destruct Hty as [Hnil | Hsame]; [left | auto].
      destruct (ua.rpe_ReferenceTypeID element); [discriminate | reflexivity].
    - apply andb_true_iff in Hsub. auto. }
  destruct (FindNode (ua.ToNodeID (ua.ref_TargetID r) NamespaceUris))
    as [named|] eqn:Hfind.
  2:{ apply Hskip. intros (_ & _ & named & H & _). discriminate. }
  destruct (ua.QualifiedName_eqb (ua.rpe_TargetName element) (GetBrowseName named))
    eqn:Hname; cbn [negb].
  2:{ apply Hskip. intros (_ & _ & named' & H & Hn).
      assert (named' = named) by congruence. subst named'.
      assert (Ht : ua.QualifiedName_eqb (ua.rpe_TargetName element)
                                        (GetBrowseName named) = true)
        by (apply QualifiedName_eqb_eq; auto).
      congruence. }
  apply QualifiedName_eqb_eq in Hname.
  rewrite IH, in_app_iff. cbn [In]. split.
  - intros [[H | [<- | []]] | (r0 & named0 & Hin & Hrest)].
    + left; exact H.
    + right. exists r, named. cbn [In]. auto 10.
    + right. exists r0, named0. split; [right; exact Hin | exact Hrest].
  - intros [H | (r0 & named0 & [<- | Hin] & Ht & Hrest)].
    + left; left; exact H.
    + left; right; left; exact Ht.
    + right. exists r0, named0. auto 10.
Qed.

(** What [target] returns: an error and no slice when the node is
    unknown or nothing fits, else the targets that fit, which are
    not empty. *)
Lemma target_cases (nodeID : option ua.NodeID) (element : ua.RelativePathElement) :
  (exists err, (server.target FindNode IsSubtype NamespaceUris GetReferences
       GetBrowseName) nodeID element = (None, Some err)
               /\ (err = ua.BadNodeIDUnknown \/ err = ua.BadNoMatch)
               /\ (FindNode nodeID <> None -> forall t, ~ (spec.fits FindNode IsSubtype NamespaceUris GetReferences
       GetBrowseName) nodeID element t))
  \/ (exists t ts, (server.target FindNode IsSubtype NamespaceUris GetReferences
       GetBrowseName) nodeID element = (Some (t :: ts), None)
                   /\ forall t', In t' (t :: ts) <-> (spec.fits FindNode IsSubtype NamespaceUris GetReferences
       GetBrowseName) nodeID element t').
Proof.
  unfold server.target.
  destruct (FindNode nodeID) as [node|] eqn:Hnode.
  2:{ left. exists ua.BadNodeIDUnknown. split; [reflexivity|].
      split; [auto | congruence]. }
  assert (Hin : forall t,
             In t (server.targetLoop FindNode IsSubtype NamespaceUris
                     GetBrowseName element (GetReferences node) [])
             <-> (spec.fits FindNode IsSubtype NamespaceUris GetReferences
       GetBrowseName) nodeID element t).
  { intros t. rewrite targetLoop_In. unfold spec.fits. split.
    - intros [[] | (r & named & Hr & Ht & Hinv & Hty & Hf & Hn)].
      exists node, r, named. auto 10.
    - intros (node' & r & named & Hn' & Hr & Ht & Hinv & Hty & Hf & Hn).
      assert (node' = node) by congruence. subst node'.
      right. exists r, named. auto 10. }
  destruct (server.targetLoop FindNode IsSubtype NamespaceUris GetBrowseName
              element (GetReferences node) []) as [|t ts].
  - left. exists ua.BadNoMatch. split; [reflexivity|]. split; [auto|].
    intros _ t Ht. apply Hin in Ht. exact Ht.
  - right. exists t, ts. split; [|exact Hin].
    unfold server.len. cbn [List.length].
    destruct (Z.eqb_spec (Z.of_nat (S (List.length ts))) 0) as [H|_]; [lia | reflexivity].
Qed.

(** What [follow] returns: an error and no targets, or targets and
    no error; then there are targets, each is led to by all the
    elements, and none is marked as partly resolved. *)
Lemma follow_cases (elements : list ua.RelativePathElement) :
  forall nodeID,
    (exists err, (server.follow FindNode IsSubtype NamespaceUris GetReferences
       GetBrowseName GetNodeID) nodeID elements = (None, Some err)
                 /\ (err = ua.BadNothingToDo \/ err = ua.BadNodeIDUnknown
                     \/ err = ua.BadNoMatch))
    \/ (exists bt bts, (server.follow FindNode IsSubtype NamespaceUris GetReferences
       GetBrowseName GetNodeID) nodeID elements = (Some (bt :: bts), None)
                       /\ forall b, In b (bt :: bts) ->
                            ua.RemainingPathIndex b = ua.MaxUint32
                            /\ (spec.leadsTo FindNode IsSubtype NamespaceUris GetReferences
       GetBrowseName GetNodeID) nodeID elements (ua.TargetID b)).
Proof.
  induction elements as [|e rest IH]; intros nodeID.
  { left. exists ua.BadNothingToDo. split; [reflexivity | auto]. }
  destruct rest as [|e2 rest].
  - cbn [server.follow].
    destruct (target_cases nodeID e) as [(err & -> & Herr & _) | (t & ts & -> & Hfit)].
    + left. exists err. split; [reflexivity | tauto].
    + right. cbn [server.elems map]. eexists _, _. split; [reflexivity|].
      intros b Hb.
      change (In b (map (fun n => ua.mkBrowsePathTarget n ua.MaxUint32) (t :: ts)))
        in Hb.
      apply in_map_iff in Hb. destruct Hb as (n & <- & Hn).
      split; [reflexivity|]. apply spec.leads_last, Hfit, Hn.
  - change ((server.follow FindNode IsSubtype NamespaceUris GetReferences
       GetBrowseName GetNodeID) nodeID (e :: e2 :: rest))
      with (match (server.target FindNode IsSubtype NamespaceUris GetReferences
       GetBrowseName) nodeID e with
            | (_, Some err3) => (None, Some err3)
            | (ns2, None) =>
                let nextID :=
                  match server.elems ns2 with
                  | n :: _ => n
                  | [] => ua.mkExpandedNodeID ua.zeroIDType 0 "" None
                  end in
                match FindNode (ua.ToNodeID nextID NamespaceUris) with
                | Some nextNode => (server.follow FindNode IsSubtype NamespaceUris GetReferences
       GetBrowseName GetNodeID) (GetNodeID nextNode) (e2 :: rest)
                | None =>
                    if server.len (e2 :: rest) =? 0 then
                      (Some [ua.mkBrowsePathTarget nextID ua.MaxUint32], None)
                    else
                      (Some [ua.mkBrowsePathTarget nextID
                               (ua.uint32 (server.len (e2 :: rest)))], None)
                end
            end).
    destruct (target_cases nodeID e) as [(err & -> & Herr & _) | (t & ts & -> & Hfit)].
    + left. exists err. split; [reflexivity | tauto].
    + cbn [server.elems]. cbv zeta.
      assert (Ht : (spec.fits FindNode IsSubtype NamespaceUris GetReferences
       GetBrowseName) nodeID e t) by (apply Hfit; left; reflexivity).
      destruct Ht as (node & r & named & Hnode & Hr & Htid & Hinv & Hty & Hfound & Hname).
      rewrite Hfound.
      destruct (IH (GetNodeID named)) as [(err & -> & Herr) | (bt & bts & -> & Hall)].
      * left. exists err. auto.
      * right. exists bt, bts. split; [reflexivity|].
        intros b Hb. destruct (Hall b Hb) as [Hidx Hlead].
        split; [exact Hidx|].
        apply (spec.leads_on _ _ _ _ _ _ nodeID e (e2 :: rest) t named (ua.TargetID b));
          [|exact Hfound | exact Hlead].
        exists node, r, named. auto 10.
Qed.

(** X25. A walk of [follow] that returns no error returns targets,
    and each of them is led to by all the elements of the path from
    the starting node: no target is marked as partly resolved, its
    RemainingPathIndex is MaxUint32, because [target] keeps only
    references to nodes that the node index finds.  For a path of
    one element the targets are exactly the targets that fit. *)
Theorem follow_leads (nodeID : option ua.NodeID)
        (elements : list ua.RelativePathElement)
        (targets : option (list ua.BrowsePathTarget)) :
  (server.follow FindNode IsSubtype NamespaceUris GetReferences
       GetBrowseName GetNodeID) nodeID elements = (targets, None) ->
  exists bt bts,
    targets = Some (bt :: bts)
    /\ (forall b, In b (bt :: bts) ->
           ua.RemainingPathIndex b = ua.MaxUint32
           /\ (spec.leadsTo FindNode IsSubtype NamespaceUris GetReferences
       GetBrowseName GetNodeID) nodeID elements (ua.TargetID b))
    /\ (forall element, elements = [element] ->
          forall t, (spec.fits FindNode IsSubtype NamespaceUris GetReferences
       GetBrowseName) nodeID element t
                    <-> In (ua.mkBrowsePathTarget t ua.MaxUint32) (bt :: bts)).
Proof.
  intros H.
  destruct (follow_cases elements nodeID) as [(err & He & _) | (bt & bts & He & Hall)].
  { rewrite He in H. discriminate. }
  rewrite He in H. injection H as <-.
  exists bt, bts. split; [reflexivity|]. split; [exact Hall|].
  intros element -> t. cbn [server.follow] in He.
  destruct (target_cases nodeID element)
    as [(err & Ht & _) | (t0 & ts & Ht & Hfit)]; rewrite Ht in He;
    [discriminate|].
  assert (He' : map (fun n => ua.mkBrowsePathTarget n ua.MaxUint32) (t0 :: ts)
                = bt :: bts)
    by (cbn [map]; injection He; intros; congruence).
  rewrite <- He', in_map_iff, <- Hfit. split.
  - intros Hin. exists t. auto.
  - intros (n & Hn & Hin). injection Hn as ->. exact Hin.
Qed.

(** X26. The result of [handleTranslateBrowsePathsToNodeIds] for a
    browse path is Good exactly when it has targets, and then each
    target is led to by all the elements of the path; the other
    results are BadNothingToDo for a path without elements,
    BadBrowseNameInvalid for a path with an element without a name,
    which is answered without a look at the nodes, BadNodeIDUnknown
    and BadNoMatch, all without targets. *)
Theorem translateBrowsePath_result (d : ua.BrowsePath) :
  let result :=
    server.translateBrowsePath FindNode IsSubtype NamespaceUris GetReferences
                               GetBrowseName GetNodeID d in
  (ua.bpr_StatusCode result = ua.Good <-> ua.bpr_Targets result <> [])
  /\ In (ua.bpr_StatusCode result)
        [ua.Good; ua.BadNothingToDo; ua.BadBrowseNameInvalid;
         ua.BadNodeIDUnknown; ua.BadNoMatch]
  /\ (ua.RelativePath_Elements d = [] ->
      ua.bpr_StatusCode result = ua.BadNothingToDo)
  /\ (forall element,
        In element (ua.RelativePath_Elements d) ->
        ua.QualifiedName_Name (ua.rpe_TargetName element) = "" ->
        ua.bpr_StatusCode result = ua.BadBrowseNameInvalid)
  /\ (forall b, In b (ua.bpr_Targets result) ->
        ua.RemainingPathIndex b = ua.MaxUint32
        /\ (spec.leadsTo FindNode IsSubtype NamespaceUris GetReferences
       GetBrowseName GetNodeID) (ua.StartingNode d) (ua.RelativePath_Elements d)
                   (ua.TargetID b)).
Proof.
  intros result. subst result. unfold server.translateBrowsePath.
  destruct (ua.RelativePath_Elements d) as [|e es] eqn:Hel.
  { cbn. repeat split; try discriminate; try tauto; intros; tauto. }
  change (server.len (e :: es) =? 0) with (Z.of_nat (S (List.length es)) =? 0).
  destruct (Z.eqb_spec (Z.of_nat (S (List.length es))) 0) as [H|_]; [lia|].
  destruct (existsb _ (e :: es)) eqn:Hex.
  { cbn [ua.bpr_StatusCode ua.bpr_Targets In].
    repeat split; try discriminate; try tauto. }
  assert (Hnamed : forall element, In element (e :: es) ->
                     ua.QualifiedName_Name (ua.rpe_TargetName element) <> "").
  { intros element Hin Hname.
    assert (Ht : existsb (fun element =>
                   String.eqb (ua.QualifiedName_Name (ua.rpe_TargetName element)) "")
                   (e :: es) = true).
    { apply existsb_exists. exists element. split; [exact Hin|].
      apply String.eqb_eq, Hname. }
    congruence. }
  destruct (follow_cases (e :: es) (ua.StartingNode d))
    as [(err & -> & Herr) | (bt & bts & -> & Hall)].
  - destruct Herr as [-> | [-> | ->]];
      [ change (ua.BadNothingToDo =? ua.BadNodeIDUnknown) with false;
        change (ua.BadNothingToDo =? ua.BadNothingToDo) with true
      | change (ua.BadNodeIDUnknown =? ua.BadNodeIDUnknown) with true
      | change (ua.BadNoMatch =? ua.BadNodeIDUnknown) with false;
        change (ua.BadNoMatch =? ua.BadNothingToDo) with false;
        change (ua.BadNoMatch =? ua.BadNoMatch) with true ];
      cbv iota; cbn [ua.bpr_StatusCode ua.bpr_Targets In];
      (repeat split; try discriminate; try tauto;
       try (intros element Hin Hname; destruct (Hnamed element Hin Hname))).
  - cbn [Z.eqb]. unfold server.len. cbn [List.length].
    destruct (Z.gtb_spec (Z.of_nat (S (List.length bts))) 0) as [_|H]; [|lia].
    cbn [ua.bpr_StatusCode ua.bpr_Targets].
    repeat split; try discriminate; try (cbn [In]; tauto).
    + intros element Hin Hname. destruct (Hnamed element Hin Hname).
    + apply Hall; assumption.
    + apply Hall; assumption.
Qed.

End BrowsePathFacts.


Lemma follow_leads_witness :
  spec.leadsTo example.findIn example.noSubtypes [] example.referencesOf
               example.browseNameOf example.nodeIDOf
               (Some example.objectsID) [example.toPump] example.pumpTarget.
Proof.
  destruct (follow_leads example.findIn example.noSubtypes []
              example.referencesOf example.browseNameOf example.nodeIDOf
              (Some example.objectsID) [example.toPump]
              (Some [ua.mkBrowsePathTarget example.pumpTarget ua.MaxUint32])
              eq_refl)
    as (bt & bts & Heq & Hall & _).
  injection Heq as <- <-.
  apply (Hall (ua.mkBrowsePathTarget example.pumpTarget ua.MaxUint32)).
  left. reflexivity.
Defined.


(* ================================================================= *)
(** ** The full path of a node *)

Section FullPath.

Lemma dotted_snoc (names : list string) (name : string) :
  names <> [] ->
  spec.dotted (names ++ [name])
  = spec.dotted names ++ server.PathSeparator ++ name.
Proof.
  induction names as [|first rest IH]; [contradiction|]. intros _.
  destruct rest as [|second rest]; [reflexivity|].
  change (spec.dotted ((first :: second :: rest) ++ [name]))
    with (first ++ server.PathSeparator
          ++ spec.dotted ((second :: rest) ++ [name])).
  rewrite IH by discriminate.
  change (spec.dotted (first :: second :: rest))
    with (first ++ server.PathSeparator ++ spec.dotted (second :: rest)).
  rewrite !append_assoc. reflexivity.
Qed.

Lemma GetFullPath_below (n : server.ObjectChain) (names : list string) :
  spec.below n names ->
  names <> [] /\ server.GetFullPath n = ua.Returns (spec.dotted names).
Proof.
  induction 1 as [name properties root (property & Hp & Hv)
                 |name properties parent nodeType names (property & Hp & Hv)
                       Hne _ [Hnames IH]].
  - split; [discriminate|]. cbn [server.GetFullPath].
    unfold server.GetProperty. rewrite Hp, Hv.
    rewrite Z.eqb_refl. reflexivity.
  - split; [destruct names; discriminate|].
    cbn [server.GetFullPath]. unfold server.GetProperty. rewrite Hp, Hv.
    apply Z.eqb_neq in Hne. rewrite Hne. cbn [negb].
    rewrite IH, dotted_snoc by exact Hnames. reflexivity.
Qed.

Lemma GetChildByPath_dotted (names : list string) :
  names <> [] -> Forall spec.segment names ->
  forall n, server.GetChildByPath n (spec.dotted names) = spec.descend n names.
Proof.
  intros Hne Hall. induction Hall as [|name rest [Hname Hdot] Hrest IH];
    [contradiction|].
  intros [self childs]. destruct rest as [|next rest].
  - cbn [spec.dotted spec.descend server.GetChildByPath server.ChildsOf].
    rewrite <- (append_empty name) at 1. rewrite (len_positive name "" Hname).
    rewrite (SplitN2_last name Hdot).
    destruct (find _ childs); reflexivity.
  - change (spec.dotted (name :: next :: rest))
      with (name ++ server.PathSeparator ++ spec.dotted (next :: rest)).
    cbn [server.GetChildByPath spec.descend server.ChildsOf].
    rewrite (len_positive name _ Hname), (SplitN2_first name _ Hdot).
    specialize (IH ltac:(discriminate)).
    induction childs as [|child childs IHc]; cbn [find]; [reflexivity|].
    destruct (String.eqb (server.NameOf child) name); [apply IH | exact IHc].
Qed.

(** X27. The full path of a node below the root is the names from
    the child of the root down to the node, with dots between them,
    and it is the path that [GetChildByPath] takes back from the
    root: where no name is empty or has a dot, [GetChildByPath] at the
    full path returns the node reached from the root by those names.
    A node without a parent, and a node whose parent has no property
    _NodeType, have the path of a dot and the name. *)
Theorem GetFullPath_GetChildByPath (n : server.ObjectChain)
        (names : list string) :
  (spec.below n names ->
   Forall spec.segment names ->
   exists path,
     server.GetFullPath n = ua.Returns path
     /\ path = spec.dotted names
     /\ forall root, server.GetChildByPath root path = spec.descend root names)
  /\ (forall name properties,
        server.GetFullPath (server.ChainNode name properties None)
        = ua.Returns (server.PathSeparator ++ name))
  /\ (forall name properties parent,
        server.PropertiesOf parent server.PropertyNameNodeType = None ->
        server.GetFullPath (server.ChainNode name properties (Some parent))
        = ua.Returns (server.PathSeparator ++ name)).
Proof.
  split; [|split].
  - intros Hbelow Hseg.
    destruct (GetFullPath_below n names Hbelow) as [Hne Hpath].
    exists (spec.dotted names). split; [exact Hpath|]. split; [reflexivity|].
    exact (GetChildByPath_dotted names Hne Hseg).
  - reflexivity.
  - intros name properties parent Hnone. cbn [server.GetFullPath].
    unfold server.GetProperty. rewrite Hnone. reflexivity.
Qed.

End FullPath.


Lemma GetFullPath_GetChildByPath_witness :
  exists path,
    server.GetFullPath example.channel1 = ua.Returns path
    /\ path = spec.dotted ["Connectivity"; "Channel1"]
    /\ forall root,
         server.GetChildByPath root path
         = spec.descend root ["Connectivity"; "Channel1"].
Proof.
  apply (proj1 (GetFullPath_GetChildByPath example.channel1
                  ["Connectivity"; "Channel1"])).
  - apply (spec.below_parent "Channel1" (example.ofType server.NodeTypeChannel)
             example.connectivity server.NodeTypeCategoryConnectivity
             ["Connectivity"]).
    + eexists. split; reflexivity.
    + discriminate.
    + apply spec.below_root. eexists. split; reflexivity.
  - repeat constructor; discriminate.
Defined.


(* ================================================================= *)
(** ** Names *)

Section Names.

Lemma plain_String (c : ascii) (s : string) :
  spec.plain (String c s) <-> server.invalidChar c = false /\ spec.plain s.
Proof.
  unfold spec.plain, server.invalidChar. cbn [strings.hasByte].
  rewrite !orb_false_iff. tauto.
Qed.

Lemma FindAll_plain (value : string) (i : Z) :
  server.FindAllStringSubmatchIndex i value = [] <-> spec.plain value.
Proof.
  revert i. induction value as [|c s IH]; intros i.
  - cbn. unfold spec.plain. cbn. tauto.
  - cbn [server.FindAllStringSubmatchIndex]. rewrite plain_String.
    destruct (server.invalidChar c).
    + split; [discriminate | intros [H _]; discriminate].
    + rewrite IH. tauto.
Qed.

Lemma FindAll_first (a b : string) (c : ascii) (i : Z) :
  spec.plain a -> server.invalidChar c = true ->
  exists more,
    server.FindAllStringSubmatchIndex i (a ++ String c b)
    = [i + strings.len a; i + strings.len a + 1;
       i + strings.len a; i + strings.len a + 1] :: more.
Proof.
  revert i. induction a as [|x a IH]; intros i Ha Hc.
  - cbn [append server.FindAllStringSubmatchIndex]. rewrite Hc.
    unfold strings.len. cbn [String.length]. rewrite Z.add_0_r.
    eexists. reflexivity.
  - apply plain_String in Ha. destruct Ha as [Hx Ha].
    cbn [append server.FindAllStringSubmatchIndex]. rewrite Hx.
    destruct (IH (i + 1) Ha Hc) as [more ->]. exists more.
    unfold strings.len. cbn [String.length].
    replace (i + 1 + Z.of_nat (String.length a))
      with (i + Z.of_nat (S (String.length a))) by lia.
    reflexivity.
Qed.

(** X28. [IsValidName] accepts exactly the names that are not empty
    and have no dot, slash, backslash or colon; an accepted name is
    therefore one name of a path, which [GetChildByPath] never
    splits.  The empty name is refused with ErrFieldRequired, any
    other with a message that quotes the first of those characters
    in it. *)
Theorem IsValidName_plain (value : string) :
  (server.IsValidName value = None <-> value <> "" /\ spec.plain value)
  /\ (server.IsValidName value = None -> spec.segment value)
  /\ (value = "" -> server.IsValidName value = Some server.ErrFieldRequired)
  /\ (forall a c b,
        value = a ++ String c b -> spec.plain a -> server.invalidChar c = true ->
        server.IsValidName value
        = Some ("the name can't contains '" ++ String c "" ++ "'")).
Proof.
  assert (Hiff : server.IsValidName value = None
                 <-> value <> "" /\ spec.plain value).
  { unfold server.IsValidName.
    destruct value as [|c s];
      [cbn; split; [discriminate | intros [[] _]; reflexivity]|].
    replace (strings.len (String c s) =? 0) with false
      by (symmetry; apply Z.eqb_neq; unfold strings.len; cbn [String.length]; lia).
    cbv zeta.
    destruct (server.FindAllStringSubmatchIndex 0 (String c s)) as [|m ms] eqn:Hm.
    - apply FindAll_plain in Hm. cbn [server.len List.length Z.of_nat Z.gtb Z.compare].
      split; [intros _; split; [discriminate | exact Hm] | reflexivity].
    - assert (Hno : ~ spec.plain (String c s)).
      { intros Hp. apply (FindAll_plain _ 0) in Hp. congruence. }
      replace (server.len (m :: ms) >? 0) with true
        by (symmetry; apply Z.gtb_lt; unfold server.len; cbn [List.length]; lia).
      assert (Hshape : exists k, 0 <= k /\ m = [k; k + 1; k; k + 1]).
      { assert (Hgen : forall v i, 0 <= i ->
                  server.FindAllStringSubmatchIndex i v = m :: ms ->
                  exists k, 0 <= k /\ m = [k; k + 1; k; k + 1]).
        { clear. induction v as [|x v IH]; intros i Hi;
            cbn [server.FindAllStringSubmatchIndex]; [discriminate|].
          destruct (server.invalidChar x).
          - intros H. injection H as <- _. exists i. auto.
          - apply IH. lia. }
        apply (Hgen (String c s) 0); [lia | exact Hm]. }
      destruct Hshape as (k & Hk & ->).
      change (Z.to_nat (1 * 2)) with 2%nat.
      change (Z.to_nat (1 * 2 + 1)) with 3%nat.
      cbn [nth].
      replace (k >=? 0) with true by (symmetry; apply Z.geb_le; lia).
      replace (k + 1 >=? 1) with true by (symmetry; apply Z.geb_le; lia).
      cbn [andb]. split; [intros H; discriminate H | intros [_ Hp]; contradiction]. }
  split; [exact Hiff|]. split; [|split].
  - intros H. apply Hiff in H. destruct H as [Hne (Hdot & _)].
    split; assumption.
  - intros ->. reflexivity.
  - intros a c b -> Ha Hc. unfold server.IsValidName.
    replace (strings.len (a ++ String c b) =? 0) with false
      by (symmetry; apply Z.eqb_neq; unfold strings.len; rewrite length_append;
          cbn [String.length]; lia).
    cbv zeta. destruct (FindAll_first a b c 0 Ha Hc) as [more ->].
    replace (server.len (_ :: more) >? 0) with true
      by (symmetry; apply Z.gtb_lt; unfold server.len; cbn [List.length]; lia).
    change (Z.to_nat (1 * 2)) with 2%nat. change (Z.to_nat (1 * 2 + 1)) with 3%nat.
    cbn [nth]. rewrite !Z.add_0_l.
    pose proof (len_nonneg_string a) as Hla.
    replace (strings.len a >=? 0) with true by (symmetry; apply Z.geb_le; lia).
    replace (strings.len a + 1 >=? 1) with true by (symmetry; apply Z.geb_le; lia).
    cbn [andb].
    change (String c b) with (String c "" ++ b).
    change 1 with (strings.len (String c "")) at 1.
    rewrite slice_middle. reflexivity.
Qed.

End Names.


Lemma IsValidName_plain_witness :
  server.IsValidName "Pump/1" = Some "the name can't contains '/'".
Proof.
  destruct (IsValidName_plain "Pump/1") as (_ & _ & _ & H).
  apply (H "Pump" "/"%char "1").
  - reflexivity.
  - repeat split.
  - reflexivity.
Defined.


(* ================================================================= *)
(** ** Wildcards *)

Section Wildcards.

Lemma setAt_length {A} (l : list A) (k : nat) (v : A) :
  List.length (server.setAt l k v) = List.length l.
Proof.
  revert k. induction l as [|x l IH]; intros [|k]; cbn; auto.
Qed.

Lemma nth_setAt {A} (l : list A) (k k' : nat) (v d : A) :
  (k < List.length l)%nat ->
  nth k' (server.setAt l k v) d = if (k' =? k)%nat then v else nth k' l d.
Proof.
  revert k k'. induction l as [|x l IH]; intros k k' Hk; cbn in Hk; [lia|].
  destruct k as [|k], k' as [|k']; cbn; try reflexivity.
  apply IH. lia.
Qed.

Lemma getCell_setCell (m : list (list bool)) (rows cols i j a b : nat) (v : bool) :
  spec.shaped rows cols m -> (i < rows)%nat -> (j < cols)%nat ->
  spec.shaped rows cols (server.setCell m i j v)
  /\ server.getCell (server.setCell m i j v) a b
     = if ((a =? i)%nat && (b =? j)%nat)%bool then v else server.getCell m a b.
Proof.
  intros [Hrows Hcols] Hi Hj. unfold server.setCell, server.getCell. split.
  - split; [rewrite setAt_length; exact Hrows|].
    intros k Hk. rewrite nth_setAt by lia.
    destruct (Nat.eqb_spec k i) as [->|_]; [|apply Hcols; exact Hk].
    rewrite setAt_length. apply Hcols. exact Hi.
  - rewrite nth_setAt by lia.
    destruct (Nat.eqb_spec a i) as [->|_]; [|reflexivity].
    rewrite nth_setAt by (rewrite Hcols; lia).
    destruct (Nat.eqb_spec b j); reflexivity.
Qed.

Lemma forUpTo_none {St} (from to : nat) (body : St -> nat -> St) (m : St) :
  (to + 1 <= from)%nat -> server.forUpTo from to body m = m.
Proof.
  intros H. unfold server.forUpTo.
  replace (to + 1 - from)%nat with 0%nat by lia. reflexivity.
Qed.

Lemma forUpTo_ind {St} (P : nat -> St -> Prop) (from to : nat)
      (body : St -> nat -> St) (m : St) :
  (from <= to + 1)%nat ->
  P from m ->
  (forall k m', (from <= k <= to)%nat -> P k m' -> P (k + 1)%nat (body m' k)) ->
  P (to + 1)%nat (server.forUpTo from to body m).
Proof.
  intros Hle H0 Hstep. unfold server.forUpTo.
  remember (to + 1 - from)%nat as n eqn:Hn.
  replace (to + 1)%nat with (from + n)%nat by lia.
  assert (Hbound : (from + n <= to + 1)%nat) by lia. clear Hn Hle.
  revert from m H0 Hstep Hbound.
  induction n as [|n IH]; intros from m H0 Hstep Hbound; cbn [seq fold_left].
  - rewrite Nat.add_0_r. exact H0.
  - replace (from + S n)%nat with (S from + n)%nat by lia.
    apply IH; [| |lia].
    + replace (S from) with (from + 1)%nat by lia. apply Hstep; [lia | exact H0].
    + intros k m' Hk. apply Hstep. lia.
Qed.

Lemma rev_firstn_S (l : list Z) (k : nat) :
  (k < List.length l)%nat ->
  rev (firstn (S k) l) = nth k l 0 :: rev (firstn k l).
Proof.
  revert k. induction l as [|x l IH]; intros k Hk; cbn in Hk; [lia|].
  destruct k as [|k]; [reflexivity|].
  change (firstn (S (S k)) (x :: l)) with (x :: firstn (S k) l).
  change (firstn (S k) (x :: l)) with (x :: firstn k l).
  cbn [rev nth]. rewrite IH by lia. reflexivity.
Qed.

Lemma glob_star (pattern : list Z) (x : Z) (input : list Z) :
  spec.glob (server.star :: pattern) (x :: input)
  = spec.glob pattern (x :: input) || spec.glob (server.star :: pattern) input.
Proof. reflexivity. Qed.

Lemma cell_0_0 (pattern input : list Z) : spec.cell pattern input 0 0 = true.
Proof. reflexivity. Qed.

Lemma cell_a_0 (pattern input : list Z) (a : nat) :
  (1 <= a <= List.length input)%nat -> spec.cell pattern input a 0 = false.
Proof.
  intros Ha. unfold spec.cell. destruct a as [|a]; [lia|].
  rewrite rev_firstn_S by lia. reflexivity.
Qed.

Lemma cell_0_b (pattern input : list Z) (b : nat) :
  (1 <= b <= List.length pattern)%nat ->
  spec.cell pattern input 0 b
  = if nth (b - 1) pattern 0 =? server.star
    then spec.cell pattern input 0 (b - 1) else false.
Proof.
  intros Hb. unfold spec.cell. destruct b as [|b]; [lia|].
  rewrite rev_firstn_S by lia.
  replace (S b - 1)%nat with b by lia.
  cbn [firstn rev spec.glob].
  destruct (nth b pattern 0 =? server.star); [apply orb_false_r | reflexivity].
Qed.

Lemma cell_a_b (pattern input : list Z) (a b : nat) :
  (1 <= a <= List.length input)%nat -> (1 <= b <= List.length pattern)%nat ->
  spec.cell pattern input a b
  = if nth (b - 1) pattern 0 =? server.star
    then spec.cell pattern input (a - 1) b || spec.cell pattern input a (b - 1)
    else ((nth (b - 1) pattern 0 =? server.question)
          || (nth (a - 1) input 0 =? nth (b - 1) pattern 0))
         && spec.cell pattern input (a - 1) (b - 1).
Proof.
  intros Ha Hb. unfold spec.cell.
  destruct a as [|a]; [lia|]. destruct b as [|b]; [lia|].
  replace (S a - 1)%nat with a by lia. replace (S b - 1)%nat with b by lia.
  rewrite (rev_firstn_S pattern b) by lia.
  rewrite (rev_firstn_S input a) by lia.
  destruct (nth b pattern 0 =? server.star) eqn:Hstar.
  - apply Z.eqb_eq in Hstar. rewrite Hstar, glob_star.
    rewrite <- Hstar, <- (rev_firstn_S pattern b) by lia.
    apply orb_comm.
  - cbn [spec.glob]. rewrite Hstar. reflexivity.
Qed.

Lemma filled_ext (pattern input : list Z) (done done' : nat -> nat -> bool)
      (m : list (list bool)) :
  (forall a b, (a <= List.length input)%nat -> (b <= List.length pattern)%nat ->
               (if done a b then spec.cell pattern input a b else false)
               = (if done' a b then spec.cell pattern input a b else false)) ->
  spec.filled pattern input done m -> spec.filled pattern input done' m.
Proof.
  intros Hext [Hshape Hcells]. split; [exact Hshape|].
  intros a b Ha Hb. rewrite <- Hext by assumption. apply Hcells; assumption.
Qed.

Lemma filled_set (pattern input : list Z) (done : nat -> nat -> bool)
      (m : list (list bool)) (i j : nat) (v : bool) :
  spec.filled pattern input done m ->
  (i <= List.length input)%nat -> (j <= List.length pattern)%nat ->
  v = spec.cell pattern input i j ->
  spec.filled pattern input
              (fun a b => ((a =? i)%nat && (b =? j)%nat) || done a b)
              (server.setCell m i j v).
Proof.
  intros [Hshape Hcells] Hi Hj Hv.
  destruct (getCell_setCell m _ _ i j 0 0 v Hshape) as [Hshape' _]; [lia | lia|].
  split; [exact Hshape'|]. intros a b Ha Hb.
  destruct (getCell_setCell m _ _ i j a b v Hshape) as [_ ->]; [lia | lia|].
  destruct (Nat.eqb_spec a i) as [->|_]; cbn [andb orb]; [|apply Hcells; assumption].
  destruct (Nat.eqb_spec b j) as [->|_]; cbn [orb]; [exact Hv | apply Hcells; assumption].
Qed.

Lemma filled_empty (pattern input : list Z) :
  spec.filled pattern input (spec.firstRow 0)
    (repeat (repeat false (List.length pattern + 1)) (List.length input + 1)).
Proof.
  split.
  - split; [apply repeat_length|]. intros k Hk.
    rewrite nth_repeat_lt by exact Hk. apply repeat_length.
  - intros a b Ha Hb. unfold server.getCell, spec.firstRow.
    rewrite nth_repeat_lt by lia. rewrite nth_repeat_lt by lia.
    rewrite andb_false_r. reflexivity.
Qed.

Ltac cells :=
  unfold spec.firstRow, spec.rowsBefore;
  repeat match goal with
         | |- context [(?x =? ?y)%nat] => destruct (Nat.eqb_spec x y)
         | |- context [(?x <? ?y)%nat] => destruct (Nat.ltb_spec x y)
         end;
  cbn [andb orb]; try reflexivity; try lia.

(** The matrix of [WildcardMatch] holds in each cell what the cell
    stands for, as long as the input has no star. *)
Lemma matchRunes_cell (input pattern : list Z) :
  ~ In server.star input ->
  server.matchRunes input pattern
  = spec.cell pattern input (List.length input) (List.length pattern).
Proof.
  intros Hstar. unfold server.matchRunes. cbv zeta.
  set (R := List.length input). set (C := List.length pattern).
  pose proof (filled_empty pattern input) as H0. fold R C in H0.
  (* the corner *)
  apply (filled_set _ _ _ _ 0 0 true) in H0; [|lia | lia | reflexivity].
  apply (filled_ext _ _ _ (spec.firstRow 1)) in H0; [|intros a b Ha Hb; cells].
  set (m1 := server.setCell _ 0 0 true) in *.
  (* the first column *)
  assert (H2 : spec.filled pattern input (spec.firstRow 1)
                 (server.forUpTo 1 (R - 1)
                    (fun m i => server.setCell m i 0 false) m1)).
  { apply (forUpTo_ind (fun _ m => spec.filled pattern input (spec.firstRow 1) m));
      [lia | exact H0|].
    intros k m' Hk Hm'.
    apply (filled_set _ _ _ _ k 0 false) in Hm';
      [|fold R; lia | lia | symmetry; apply cell_a_0; fold R; lia].
    revert Hm'. apply filled_ext. intros a b Ha Hb. cells.
    subst. first [symmetry; apply cell_a_0 | apply cell_a_0]; fold R; lia. }
  set (m2 := server.forUpTo 1 (R - 1) _ m1) in *. clearbody m2. clear H0 m1.
  (* the first cell of the first row *)
  assert (H3 : spec.filled pattern input (spec.firstRow 2)
                 (if (0 <? C)%nat
                  then if nth 0 pattern 0 =? server.star
                       then server.setCell m2 0 1 true else m2
                  else m2)).
  { destruct (Nat.ltb_spec 0 C) as [HC|HC];
      [|revert H2; apply filled_ext; intros a b Ha Hb; fold C in Hb; cells].
    assert (Hc : spec.cell pattern input 0 1
                 = if nth 0 pattern 0 =? server.star then true else false).
    { rewrite (cell_0_b pattern input 1) by (fold C; lia). reflexivity. }
    destruct (nth 0 pattern 0 =? server.star).
    - pose proof (filled_set _ _ _ _ 0 1 true H2 ltac:(lia)
                    ltac:(fold C; lia) (eq_sym Hc)) as H2'.
      revert H2'. apply filled_ext. intros a b Ha Hb. cells.
    - revert H2. apply filled_ext. intros a b Ha Hb. cells.
      subst a. replace b with 1%nat by lia. first [exact Hc | symmetry; exact Hc]. }
  set (m3 := if (0 <? C)%nat then _ else m2) in *. clearbody m3. clear H2 m2.
  (* the first row *)
  assert (H4 : spec.filled pattern input (spec.rowsBefore 1 1)
                 (server.forUpTo 2 C
                    (fun m j =>
                       if nth (j - 1) pattern 0 =? server.star
                       then server.setCell m 0 j (server.getCell m 0 (j - 1))
                       else m) m3)).
  { assert (Hrow : spec.filled pattern input (spec.firstRow (C + 1))
                     (server.forUpTo 2 C
                        (fun m j =>
                           if nth (j - 1) pattern 0 =? server.star
                           then server.setCell m 0 j (server.getCell m 0 (j - 1))
                           else m) m3)).
    { destruct (Nat.le_gt_cases C 1) as [HC|HC].
      - rewrite forUpTo_none by lia. revert H3. apply filled_ext.
        intros a b Ha Hb. fold C in Hb. cells.
      - apply (forUpTo_ind (fun k m => spec.filled pattern input (spec.firstRow k) m));
          [lia | exact H3|].
        intros k m' Hk Hm'.
        pose proof (cell_0_b pattern input k ltac:(fold C; lia)) as Hc.
        destruct (nth (k - 1) pattern 0 =? server.star).
        + assert (Hprev : server.getCell m' 0 (k - 1)
                          = spec.cell pattern input 0 (k - 1)).
          { destruct Hm' as [_ Hcells]. rewrite Hcells by (fold C; lia).
            unfold spec.firstRow.
            destruct (Nat.ltb_spec (k - 1) k); [reflexivity | lia]. }
          apply (filled_set _ _ _ _ 0 k (server.getCell m' 0 (k - 1))) in Hm';
            [|lia | fold C; lia | rewrite Hprev; symmetry; exact Hc].
          revert Hm'. apply filled_ext. intros a b Ha Hb. cells.
        + revert Hm'. apply filled_ext. intros a b Ha Hb. cells.
          subst a. replace b with k by lia. first [exact Hc | symmetry; exact Hc]. }
    revert Hrow. apply filled_ext. intros a b Ha Hb. fold C in Hb.
    cells; subst b; symmetry; apply cell_a_0; lia. }
  set (m4 := server.forUpTo 2 C _ m3) in *. clearbody m4. clear H3 m3.
  (* the other rows *)
  assert (H5 : spec.filled pattern input (spec.rowsBefore (R + 1) 1)
                 (server.forUpTo 1 R
                    (fun m i =>
                       server.forUpTo 1 C
                         (fun m j =>
                            let m :=
                              if nth (j - 1) pattern 0 =? server.star
                              then server.setCell m i j
                                     (server.getCell m (i - 1) j
                                      || server.getCell m i (j - 1))
                              else m in
                            if (nth (j - 1) pattern 0 =? server.question)
                               || (nth (i - 1) input 0 =? nth (j - 1) pattern 0)
                            then server.setCell m i j (server.getCell m (i - 1) (j - 1))
                            else m) m) m4)).
  { apply (forUpTo_ind (fun i m => spec.filled pattern input (spec.rowsBefore i 1) m));
      [lia | exact H4|].
    intros i m Hi Hm.
    assert (Hrow : spec.filled pattern input (spec.rowsBefore i (C + 1))
                     (server.forUpTo 1 C
                        (fun m j =>
                           let m :=
                             if nth (j - 1) pattern 0 =? server.star
                             then server.setCell m i j
                                    (server.getCell m (i - 1) j
                                     || server.getCell m i (j - 1))
                             else m in
                           if (nth (j - 1) pattern 0 =? server.question)
                              || (nth (i - 1) input 0 =? nth (j - 1) pattern 0)
                           then server.setCell m i j (server.getCell m (i - 1) (j - 1))
                           else m) m)).
    { apply (forUpTo_ind (fun j m => spec.filled pattern input (spec.rowsBefore i j) m));
        [lia | exact Hm|].
      intros j m' Hj Hm'. cbv zeta.
      pose proof (cell_a_b pattern input i j ltac:(fold R; lia) ltac:(fold C; lia)) as Hc.
      assert (Hget : forall a b, (a <= R)%nat -> (b <= C)%nat ->
                       spec.rowsBefore i j a b = true ->
                       server.getCell m' a b = spec.cell pattern input a b).
      { intros a b Ha Hb Hdone. destruct Hm' as [_ Hcells].
        rewrite Hcells by assumption. rewrite Hdone. reflexivity. }
      destruct (nth (j - 1) pattern 0 =? server.star) eqn:Hps.
      - apply Z.eqb_eq in Hps.
        assert (Hq : (nth (j - 1) pattern 0 =? server.question) = false)
          by (rewrite Hps; reflexivity).
        assert (Hs : (nth (i - 1) input 0 =? nth (j - 1) pattern 0) = false).
        { apply Z.eqb_neq. rewrite Hps. intros Heq. apply Hstar.
          rewrite <- Heq. apply nth_In. fold R. lia. }
        rewrite Hq, Hs. cbn [orb].
        rewrite (Hget (i - 1)%nat j) by (try lia; cells).
        rewrite (Hget i (j - 1)%nat) by (try lia; cells).
        apply (filled_set _ _ _ _ i j
                 (spec.cell pattern input (i - 1) j
                  || spec.cell pattern input i (j - 1))) in Hm';
          [|fold R; lia | fold C; lia | symmetry; exact Hc].
        revert Hm'. apply filled_ext. intros a b Ha Hb. cells.
      - destruct ((nth (j - 1) pattern 0 =? server.question)
                  || (nth (i - 1) input 0 =? nth (j - 1) pattern 0)).
        + rewrite (Hget (i - 1)%nat (j - 1)%nat) by (try lia; cells).
          apply (filled_set _ _ _ _ i j
                   (spec.cell pattern input (i - 1) (j - 1))) in Hm';
            [|fold R; lia | fold C; lia | symmetry; exact Hc].
          revert Hm'. apply filled_ext. intros a b Ha Hb. cells.
        + revert Hm'. apply filled_ext. intros a b Ha Hb. cells.
          subst a. replace b with j by lia. first [exact Hc | symmetry; exact Hc]. }
    revert Hrow. apply filled_ext. intros a b Ha Hb. fold C in Hb. cells. }
  destruct H5 as [_ Hcells]. rewrite Hcells by (fold R C; lia).
  unfold spec.rowsBefore.
  destruct (Nat.ltb_spec R (R + 1)); [|lia].
  rewrite orb_true_r. reflexivity.
Qed.

Lemma glob_star_nil (pattern : list Z) :
  spec.glob (server.star :: pattern) [] = spec.glob pattern [].
Proof. cbn [spec.glob]. change (server.star =? server.star) with true. apply orb_false_r. Qed.

Lemma glob_star_split (pattern input : list Z) :
  spec.glob (server.star :: pattern) input = true ->
  exists input1 input2,
    input = (input1 ++ input2)%list /\ spec.glob pattern input2 = true.
Proof.
  induction input as [|x input IH].
  - rewrite glob_star_nil. intros H. exists [], []. auto.
  - rewrite glob_star. intros H. apply orb_true_iff in H. destruct H as [H|H].
    + exists [], (x :: input). auto.
    + destruct (IH H) as (input1 & input2 & -> & H2).
      exists (x :: input1), input2. auto.
Qed.

Lemma glob_star_skip (pattern skipped input : list Z) :
  spec.glob pattern input = true ->
  spec.glob (server.star :: pattern) (skipped ++ input) = true.
Proof.
  intros H. induction skipped as [|x skipped IH].
  - destruct input as [|y input]; [rewrite glob_star_nil; exact H|].
    cbn [app]. rewrite glob_star, H. reflexivity.
  - cbn [app]. rewrite glob_star, IH. apply orb_true_r.
Qed.

Lemma glob_other (c : Z) (pattern input : list Z) :
  c <> server.star ->
  spec.glob (c :: pattern) input
  = match input with
    | [] => false
    | x :: input' =>
        ((c =? server.question) || (x =? c)) && spec.glob pattern input'
    end.
Proof.
  intros Hc. apply Z.eqb_neq in Hc. cbn [spec.glob]. rewrite Hc. reflexivity.
Qed.

Lemma glob_matches (pattern : list Z) :
  forall input, spec.glob pattern input = true -> spec.matches pattern input.
Proof.
  induction pattern as [|c pattern IH]; intros input H.
  - destruct input; [constructor | discriminate].
  - destruct (Z.eq_dec c server.star) as [->|Hc].
    + destruct (glob_star_split _ _ H) as (input1 & input2 & -> & H2).
      apply (spec.matches_app [server.star] pattern input1 input2);
        [constructor | apply IH, H2].
    + rewrite (glob_other c pattern input Hc) in H.
      destruct input as [|x input]; [discriminate|].
      apply andb_true_iff in H. destruct H as [Hx H].
      apply (spec.matches_app [c] pattern [x] input); [|apply IH, H].
      constructor; [exact Hc|].
      apply orb_true_iff in Hx. destruct Hx as [Hx|Hx]; apply Z.eqb_eq in Hx; auto.
Qed.

Lemma glob_app (pattern1 pattern2 : list Z) :
  forall input1 input2,
    spec.glob pattern1 input1 = true -> spec.glob pattern2 input2 = true ->
    spec.glob (pattern1 ++ pattern2) (input1 ++ input2) = true.
Proof.
  induction pattern1 as [|c pattern1 IH]; intros input1 input2 H1 H2.
  - destruct input1; [exact H2 | discriminate].
  - cbn [app]. destruct (Z.eq_dec c server.star) as [->|Hc].
    + destruct (glob_star_split _ _ H1) as (skipped & rest & -> & Hrest).
      rewrite <- app_assoc. apply glob_star_skip, IH; assumption.
    + rewrite (glob_other c pattern1 input1 Hc) in H1.
      destruct input1 as [|x input1]; [discriminate|].
      apply andb_true_iff in H1. destruct H1 as [Hx H1].
      cbn [app]. rewrite (glob_other c _ _ Hc), Hx. cbn [andb].
      apply IH; assumption.
Qed.

Lemma matches_glob (pattern input : list Z) :
  spec.matches pattern input -> spec.glob pattern input = true.
Proof.
  induction 1 as [|input|c x Hc Hx|pattern1 pattern2 input1 input2 _ IH1 _ IH2].
  - reflexivity.
  - rewrite <- (app_nil_r input). apply glob_star_skip. reflexivity.
  - rewrite (glob_other c [] [x] Hc).
    destruct Hx as [->| ->]; [reflexivity|].
    rewrite Z.eqb_refl, orb_true_r. reflexivity.
  - apply glob_app; assumption.
Qed.

Lemma matches_rev (pattern input : list Z) :
  spec.matches pattern input -> spec.matches (rev pattern) (rev input).
Proof.
  induction 1 as [|input|c x Hc Hx|pattern1 pattern2 input1 input2 _ IH1 _ IH2].
  - constructor.
  - constructor.
  - constructor; assumption.
  - rewrite !rev_app_distr. constructor; assumption.
Qed.

(** A pattern matches an input read from its end as it matches it
    read from its start. *)
Lemma glob_rev (pattern input : list Z) :
  spec.glob (rev pattern) (rev input) = spec.glob pattern input.
Proof.
  destruct (spec.glob pattern input) eqn:H.
  - apply matches_glob, matches_rev, glob_matches, H.
  - destruct (spec.glob (rev pattern) (rev input)) eqn:H'; [|reflexivity].
    apply glob_matches, matches_rev, matches_glob in H'.
    rewrite !rev_involutive in H'. congruence.
Qed.

Lemma matchRunes_glob (input pattern : list Z) :
  ~ In server.star input ->
  server.matchRunes input pattern = spec.glob pattern input.
Proof.
  intros H. rewrite (matchRunes_cell input pattern H). unfold spec.cell.
  rewrite !firstn_all. apply glob_rev.
Qed.


(** X29. On an input without a star, [WildcardMatch] decides whether
    the pattern matches the whole input, a star of the pattern
    standing for any run of runes, a question mark for any one rune
    and any other rune for itself.  A star in the input is not only
    matched as a rune of its own: where the pattern has a star as
    well, the cell of the two is taken from the diagonal, so that the
    pattern of one star does not match the input a followed by a
    star. *)
Theorem WildcardMatch_glob (s p : string) :
  (~ In server.star (utf8.runes s) ->
   server.WildcardMatch s p = spec.glob (utf8.runes p) (utf8.runes s)
   /\ (server.WildcardMatch s p = true
       <-> spec.matches (utf8.runes p) (utf8.runes s)))
  /\ server.WildcardMatch "a*" "*" = false
  /\ spec.glob (utf8.runes "*") (utf8.runes "a*") = true.
Proof.
  split; [|split; reflexivity].
  intros Hstar. unfold server.WildcardMatch. cbv zeta.
  rewrite (matchRunes_glob _ _ Hstar). split; [reflexivity|].
  split; [apply glob_matches | apply matches_glob].
Qed.

End Wildcards.

Lemma WildcardMatch_glob_witness :
  server.WildcardMatch "Channel1.Device1" "Channel?.*" = true.
Proof.
  destruct (WildcardMatch_glob "Channel1.Device1" "Channel?.*") as [H _].
  destruct H as [H _].
  - vm_compute. intuition discriminate.
  - rewrite H. reflexivity.
Defined.
